(* ===== verification/_CoqProject ===== *)
-Q . S2P
Prelude.v
Frame.v
Sdk.v
Dec.v
Schedule.v
ScheduleMerge.v
SdkInstances.v
Clawback.v
EvmosUtils.v
Keepers.v
Evm.v
Erc20Types.v
KeeperInstances.v
VestingMsgs.v
VestingProps.v
Epochs.v
EpochsProps.v
Inflation.v
InflationProps.v
Ibc.v
IbcInstances.v
Claims.v
ClaimsProps.v
Erc20.v
Erc20Names.v
Erc20Instances.v
Erc20Props.v
Redeem.v
Incentives.v
IncentivesProps.v
Feesplit.v
FeesplitProps.v
Stores.v
Recovery.v
RecoveryProps.v
ClaimsSteps.v
Params.v
ParamsProps.v
Ante.v
AnteProps.v
Queries.v
App.v
AppProps.v
Chain.v
ChainProps.v
Supply.v
Genesis.v
GenesisInstances.v
StoresProps.v
GenesisProps.v
Upgrades.v
UpgradesProps.v
Msgs.v
MsgsProps.v
Wiring.v
WiringProps.v
Json.v
Clients.v
QueryClients.v
Rest.v
JsonProps.v
ClientsProps.v
RestProps.v
Node.v
NodeProps.v
