(* ===== verification/Prelude.v ===== *)
(** * Evmos: a verification development of the chain's own modules

    Evmos is a Cosmos-SDK chain with an EVM.  The repository contains the
    modules the chain adds to the SDK ([src/x/*]), a few chain-wide utilities
    ([src/types], [src/ibc]) and the wiring of the node ([src/app], [src/cmd]).
    This library models the modules and the application in Rocq and proves what
    makes each correct.

    ** The program and its parts

    - [x/vesting]: accounts whose coins vest and unlock along schedules and can
      be clawed back by the funder;
    - [x/epochs]: timers that call the hooks of other modules when an interval
      of block time ends;
    - [x/inflation]: mints coins at the end of every day and distributes them;
    - [x/claims]: an airdrop claimed by actions, with records that migrate or
      merge when an IBC transfer arrives, and an escrow that pays for them;
    - [x/erc20]: pairs of bank coins and ERC20 contracts, conversions between
      the two sides by messages or by transfers seen in EVM receipts;
    - [x/incentives]: rewards for the users of registered contracts, in
      proportion to the gas they used, paid at the end of an epoch;
    - [x/feesplit]: gives the deployer of a contract, or an address of his, a
      share of the fees of the transactions that call it;
    - [x/recovery]: sends back coins that a user with an unsupported key sent to
      his own address over IBC;
    - [app/ante]: the checks of a transaction before it runs;
    - [app], [app/upgrades]: the modules put together, genesis and export of the
      whole chain, and the upgrades;
    - [x/*/client/cli]: the commands that make the messages of the modules;
    - [cmd/evmosd]: the commands that make and change genesis files.

    The modules call each other only through hooks and middleware: the EVM calls
    erc20, incentives, feesplit and claims after a transaction, epochs calls
    incentives and inflation, governance and staking call claims, and a packet
    passes transfer, claims and recovery.  Otherwise they call the keepers of the
    SDK, of Ethermint and of ibc-go.

    ** How the code is modelled

    A Go function that returns an error or panics is a value of [outcome]; one
    that changes the store is a value of [M S A], a function from the state to
    an outcome and the new state.  The state survives an error: what a handler
    wrote before it failed is visible to a caller that swallows the error.
    Rolling back a failed transaction is the SDK's work and outside the model.
    [sdk.Int] and [sdk.Dec] are integers (a decimal counts units of 10^-18);
    [int64] and [uint64] arithmetic wraps ([wrap64], [+i], [-i], [*i]); times
    are integers of nanoseconds; addresses and byte strings are [string];
    a module's store is a record of [gmap]s, iterated in key order ([kv_iter]);
    an iteration visits the entries the store had when it began.
    Names are those of the source; a prefix tells two functions of the same
    name apart ([infl_SetParams], [claims_SetParams]).

    Code outside the repository is a type class of operations ([SdkCoins],
    [SdkPeriods], [SdkDec], [AccountKeeper], [AccountTypes], [BankKeeper],
    [DistrKeeper], [StakingKeeper], [EvmKeeper], [EthAddress], [DecCoins],
    [IbcTransfer], [AnteChain], [AnteDecorators], [AppRunners],
    [GenesisRunners], [JSONCodec], [ZeroHeightKeepers], [ClientParsers],
    [GenesisTools], [UpgradeStores], [Pagination], [RestRouter], [MsgCodecs],
    [ParamStore], [ParamsKeeper], [SdkWiring], [ForeignKeepers],
    [BaseApplication], [Configurator], [KVStore], [Codec], ...) with a second class of the documented
    laws the theorems use ([SdkCoinsLaws], [SdkAddressLaws], [BankLaws],
    [EvmLaws], ...).  The instance files implement the classes by a concrete
    ledger, prove the laws, and the witnesses of the theorems run on them.

    ** The files

    - [Prelude]: outcomes, the state monad and its inversion tactics
      ([inv_ok], [bool_hyps]), machine integers, sums, ordered iteration of
      stores, strings; the hint database [evmos];
    - [Frame]: what a computation leaves alone, by a rule for each combinator of
      the monad; the hint database and the tactic [frame];
    - [Sdk], [Dec]: coins, addresses and constants of the SDK; the decimal
      arithmetic of [sdk.Dec];
    - [Keepers], [Evm]: the interfaces of the foreign keepers
      ([types/interfaces.go]) and of the EVM;
    - [SdkInstances], [KeeperInstances], [IbcInstances], [Erc20Instances],
      [GenesisInstances]: the concrete ledger, addresses, packets, EVM and codecs
      of the witnesses;
    - [Schedule], [ScheduleMerge]: [x/vesting/types/schedule.go] and the step
      functions it denotes; [Clawback]: [types/clawback_vesting_account.go];
      [VestingMsgs]: [keeper/msg_server.go], [types/msg.go],
      [keeper/grpc_query.go]; [VestingProps]: the theorems;
    - [Epochs], [EpochsProps]: [x/epochs];
    - [EvmosUtils]: [src/types/utils.go]; [Ibc]: [src/ibc/utils.go];
    - [Inflation], [InflationProps]: [x/inflation];
    - [Claims], [ClaimsProps]: [x/claims]; [ClaimsSteps]: its transition system,
      the transfer stack included;
    - [Erc20Types]: [x/erc20/types]; [Erc20Names]: the theorems on names and
      metadata; [Erc20]: [x/erc20/keeper], genesis and proposals;
      [Erc20Props]: the theorems; [Redeem]: conversions there and back;
    - [Incentives], [IncentivesProps]: [x/incentives];
    - [Feesplit], [FeesplitProps]: [x/feesplit];
    - [Recovery], [RecoveryProps]: [x/recovery], [src/ibc/module.go] and the
      transfer stack of [app.go];
    - [Params], [ParamsProps]: the parameters of the modules as the parameter
      store sees them ([x/*/types/params.go]);
    - [Stores], [StoresProps]: the prefixes, keys and encodings of the stores
      ([x/*/types/keys.go], [x/*/keeper]);
    - [Ante], [AnteProps]: [app/ante] and [app/sigverify.go];
    - [Queries]: the paginated queries of [x/*/keeper/grpc_query.go];
    - [App], [AppProps]: [app/app.go], [app/forks.go], [app/tps_counter.go];
    - [Chain]: the message handlers ([x/*/handler.go]) and every way in which the
      state of the application changes, as actions and traces; [ChainProps]:
      the chain as steps of its modules; [Supply]: conservation of coins;
    - [Genesis], [GenesisProps]: the genesis of the modules ([x/*/module.go]),
      [InitChainer] and [app/export.go];
    - [Upgrades], [UpgradesProps]: [app/upgrades] and the store migrations;
    - [Msgs], [MsgsProps]: the messages and proposals as the SDK sees them
      ([x/*/types/msg.go], [codec.go], [proposal.go]);
    - [Wiring], [WiringProps]: the construction of the keepers
      ([x/*/keeper/keeper.go], [NewEvmos]) with its pointers and copies, the
      services of the modules ([RegisterServices]) and the checks with which
      [NewEvmos] ends;
    - [Json], [JsonProps]: JSON as [encoding/json] reads it; [Clients],
      [ClientsProps]: the transaction commands ([x/*/client/cli/tx.go]);
      [QueryClients]: the query commands ([x/*/client/cli/query.go]); [Rest],
      [RestProps]: the REST handlers of the proposals ([x/*/client/rest]);
    - [Node], [NodeProps]: [cmd/evmosd].

    ** What the theorems show

    - Vesting (C1, C2, C25, C26, C32).  A schedule denotes a step function;
      [ConjunctPeriods] is the minimum and [DisjunctPeriods] the sum of two of
      them.  [ComputeClawback] removes exactly what has not vested, a grant is
      merged without loss, and a clawback moves exactly the coins it should.
    - The chain (C3, C4, C15, C17, C23).  Along any run of messages, proposals,
      packets, transactions and blocks the modules that have stores of their own
      take only steps of their own transition systems, so that their invariants
      hold, and the allocations of the airdrop never grow; native coins that are
      neither minted by inflation nor stand for tokens keep their supply; a
      message takes coins only from its signer, or as the escrow of a conversion
      or the funder of a vesting account allows.  The hooks of a transaction, and
      of a block, are taken together, with the order in which they run and the
      only way in which a block fails.
    - ERC20 (C5, C6, C7, C8, C33).  A successful conversion was allowed, and
      moved coins, and token balances as the contract reports them at the end, by
      the same amount whatever the contract does; converted coins can be
      converted back; the hook converts exactly the positive transfers of enabled
      tokens to the module, and the ways in which a conversion may stay undone or
      half done are listed; the indexes of the registry lead to stored pairs along
      any sequence of operations, and they are complete as long as no coin is
      registered again.
    - The stores (C9).  What the keepers do to the key-value store is what the
      model does to its maps, for any sequence of operations, and every read,
      every iterator and every prefix store of a query agrees.
    - Incentives (C10, C11, C31).  The allocation meters are the sums of the
      allocations in every reachable state, so the end of an epoch never fails;
      participants are paid within their shares.
    - Feesplit (C12, C13, C30).  The hook pays exactly the share, only the
      deployer changes an entry, and the registry and its indexes agree in
      every reachable state.
    - Ante handlers (C14).  What an accepted transaction cannot contain, in the
      state in which it arrives.
    - Recovery (C16).  What recovery sends back.
    - Genesis (C18, C22, C39).  A chain without incentives restarts from its
      export with the state of every module, and one with an incentive panics;
      the command that adds accounts keeps supply and
      balances equal and makes valid vesting accounts.  One theorem shows that
      the export for height zero always fails.
    - The application (C19, C20).  The construction of the keepers does not panic,
      packets pass the keepers in the order of the transfer stack, every hook
      reaches the keeper of the application, and [NewEvmos] fails only for its
      configuration, the upgrade file or the stores on disk; the parameter store
      accepts exactly what the modules accept, so that proposals keep the
      parameters valid.
    - The clients (C21, C34, C40).  A vesting account created from files vests and
      unlocks as the files say, through the parsing of JSON, the alignment of the
      schedules and the message server; the developer of a contract can register
      it with the nonces as printed, and the query commands show it.  A proposal
      posted over REST has the data of its request and is the one the command
      makes, and only the first handler of a module is reachable.
    - Inflation (C24).  Allocation conserves what was minted.
    - Epochs (C27, C38).  [BeginBlocker] refines an abstract timer and catches up
      after a halt.
    - Claims (C28, C29, C35, C36, C37).  The escrow covers the open quarters and
      the hooks and the migration of the airdrop keep it so, a claim is paid once,
      a received packet conserves the allocation, the end of the airdrop empties
      the escrow.

    Genesis round trips of single modules, atomicity of the messages, bounds of
    the provision and of a claim, numbers of epochs and of minted days, names and
    metadata, the acknowledgements of the transfer stack, tables of [app.go], the
    services and migrations the modules register ([services_registered]), the
    transaction counter, the migration of a genesis file, the entries that the
    query commands list and the addresses of a testnet are lemmas beside these, and
    so are the behaviours of the code that are not meant: the overflow of the end
    time of a vesting account ([end_time_overflow]), messages the ante handlers
    miss ([unchecked_messages]), a merge of claims records that overdraws the
    escrow ([merge_overdraws_escrow]), keys without a length
    ([foreign_withdrawer_listed]) and decimals that are left out
    ([missing_decimal_panics]).

    ** What is assumed of code outside the repository

    The laws are those the documentation of the libraries states; the ones to
    know when reading a theorem are these.  The bank moves coins as told and
    holds coins of valid denominations.  A query of the EVM changes nothing, a
    call moves no coins of another denomination than the EVM's own, and moves of
    such coins by the bank change neither the answers of queries nor the nonces
    ([EvmLaws]); otherwise a contract may do anything.  The transfer application of ibc-go
    mints and burns vouchers only ([foreign_keeps], for C4).  The block handlers
    of foreign modules reach the stores of these modules only by the actions of
    the chain (C3).  Decorators that run before the ones of the chain keep the
    accounts there are ([AnteLaws]).  A constructor of a foreign keeper returns
    when it finds its subspace and its module accounts ([ForeignKeepersLaws]).  A
    protobuf message with a field that is written has bytes ([CodecLaws]); the
    zero [TokenPair] and [FeeSplit] have none.

    ** Bounds and fuel

    The two merge loops of [schedule.go] take the number of periods of both
    schedules as fuel: every turn consumes one, and the theorems on them are
    stated for the functions with this fuel and say that a result is returned.
    [remove_prefixes] takes the length of the string, of which every turn
    removes at least four characters.  The JSON scanner takes the length of the
    text, of which every level of nesting and every character of a string takes
    one.  The other loops are structural.  The
    range conditions on times in the vesting theorems exclude [int64] overflow,
    which [end_time_overflow] shows to be reachable.  A call down the ICS4
    wrappers takes the number of keepers that pass it on as fuel; two are enough.  Reachability theorems quantify over any
    sequence of the module's operations, parameter changes and changes of the
    stores outside the module; a failed message is rolled back and is no step.

    ** What is not modelled

    Events, telemetry, logging and gas metering; rollback of transactions; the
    overflow panics of [sdk.Int] (256 bits) and [sdk.Dec] (315 bits), and nil
    values of these types, but for the one in the genesis of [x/incentives]
    ([dec_nil_add]) and in the parameters of [x/inflation] ([not_nil]); protobuf
    encodings; the keepers of the SDK, IBC and Ethermint and their construction;
    the routers, the simulation manager and the stores that [NewEvmos] sets up;
    gRPC gateways and other generated code, the loading of the compiled contracts,
    simulation and test support, the connection of the REST and gRPC servers; in
    the command line, cobra, keyrings, signing and sending, configuration files and
    processes (most of [testnet.go] and [root.go]); the connection of the query
    commands and the printing of their answers.  These parts are input and output,
    generated, or only call libraries.  A command ends with the message, the answer
    or the document it hands to the SDK.  Actions of the claims module are taken to
    be non-negative enumeration values, and SHA-256, which identifies token pairs,
    is idealised as free of collisions ([hash_inj]). *)

From stdpp Require Export base gmap strings list sorting.
From Stdlib Require Export ZArith Lia.

#[global] Open Scope Z_scope.

(** ** Errors and outcomes

    A Go function of the code base ends in one of three ways: it returns a
    value, it returns an error, or it panics.  [error] names the sentinel
    errors of the modules ([x/*/types/errors.go]) and those of the SDK the
    modules wrap; [ErrMsg] is an [errors.New]/[fmt.Errorf] value with its
    format string, and [ErrExternal] an error produced by a keeper that is not
    part of the repository. *)

Inductive error : Type :=
  (* cosmos-sdk sentinel errors wrapped by the modules *)
  | ErrUnauthorized | ErrInvalidRequest | ErrNotSupported | ErrNotFound
  | ErrLogic | ErrInvalidCoins | ErrInvalidAddress | ErrUnknownRequest
  | ErrJSONMarshal | ErrSendDisabled | ErrVMExecution
  (* x/vesting/types/errors.go *)
  | ErrInsufficientVestedCoins | ErrVestingLockup
  (* x/erc20/types/errors.go *)
  | ErrERC20Disabled | ErrInternalTokenPair | ErrTokenPairNotFound
  | ErrTokenPairAlreadyExists | ErrUndefinedOwner | ErrBalanceInvariance
  | ErrUnexpectedEvent | ErrABIPack | ErrABIUnpack | ErrEVMDenom | ErrEVMCall
  | ErrERC20TokenPairDisabled
  (* x/incentives, x/feesplit, x/recovery and app *)
  | ErrInternalIncentive | ErrInsufficientFunds | ErrInvalidPubKey | ErrUnknownAddress
  | ErrUnknownExtensionOptions | ErrorInvalidSigner | ErrBlockedAddress
  | ErrFeeSplitDisabled | ErrFeeSplitAlreadyRegistered | ErrFeeSplitNoContractDeployed
  | ErrFeeSplitContractNotRegistered | ErrFeeSplitDeployerIsNotEOA
  | ErrInvalidDenomForTransfer | ErrTraceNotFound | ErrChannelNotFound | ErrInvalidID
  | ErrInvalidChannelIdentifier
  (* x/claims/types/errors.go and types/errors.go *)
  | ErrInvalidAction | ErrKeyTypeNotSupported
  (* fmt.Errorf / errors.New, and errors of foreign keepers *)
  | ErrMsg (text : string)
  | ErrExternal (text : string).

#[global] Instance error_eq_dec : EqDecision error.
Proof. solve_decision. Defined.

Inductive outcome (A : Type) : Type :=
  | Ok (a : A)
  | Err (e : error)
  | Panic.
Arguments Ok {A} _.
Arguments Err {A} _.
Arguments Panic {A}.

#[global] Instance outcome_eq_dec {A} `{EqDecision A} : EqDecision (outcome A).
Proof. solve_decision. Defined.

Definition is_ok {A} (o : outcome A) : bool :=
  match o with Ok _ => true | _ => false end.

(** [obind] sequences computations that do not touch the state. *)
Definition obind {A B} (o : outcome A) (k : A → outcome B) : outcome B :=
  match o with Ok a => k a | Err e => Err e | Panic => Panic end.

(** ** The state monad

    Keeper methods read and write the multi-store through the context.  A
    method is a function from the store to its outcome and the store it leaves
    behind.  The store survives an error: discarding the writes of a failed
    transaction is the job of the caller ([baseapp] for messages), and several
    hooks of the code base deliberately keep the writes made before an error
    they only log. *)

Definition M (S A : Type) : Type := S → outcome A * S.

Definition ret {S A} (a : A) : M S A := λ s, (Ok a, s).
Definition fail {S A} (e : error) : M S A := λ s, (Err e, s).
Definition panic {S A} : M S A := λ s, (Panic, s).
Definition bind {S A B} (m : M S A) (k : A → M S B) : M S B :=
  λ s, match m s with
       | (Ok a, s') => k a s'
       | (Err e, s') => (Err e, s')
       | (Panic, s') => (Panic, s')
       end.
Definition gets {S A} (f : S → A) : M S A := λ s, (Ok (f s), s).
Definition modify {S} (f : S → S) : M S unit := λ s, (Ok tt, f s).
Definition lift {S A} (o : outcome A) : M S A := λ s, (o, s).

(** [try m] runs [m] and hands its error to the caller as a value, keeping the
    state: the Go idiom [if err := m(); err != nil { ... }] without an early
    return. *)
Definition try {S A} (m : M S A) : M S (A + error) :=
  λ s, match m s with
       | (Ok a, s') => (Ok (inl a), s')
       | (Err e, s') => (Ok (inr e), s')
       | (Panic, s') => (Panic, s')
       end.

(** [must m]: [if err != nil { panic(err) }]. *)
Definition must {S A} (m : M S A) : M S A :=
  λ s, match m s with (Err _, s') => (Panic, s') | r => r end.

(** [zoom] runs an operation of a foreign keeper on its part of the store. *)
Definition zoom {S X A} (get : S → X) (set : X → S → S) (m : M X A) : M S A :=
  λ s, let '(o, x) := m (get s) in (o, set x s).

Fixpoint foreach {S A} (l : list A) (body : A → M S unit) : M S unit :=
  match l with
  | [] => ret tt
  | a :: l' => bind (body a) (λ _, foreach l' body)
  end.

Declare Scope go_scope.
Delimit Scope go_scope with go.
Notation "'let!' x ':=' m 'in' k" := (bind m (λ x, k))
  (at level 10, x pattern, m at level 100, k at level 200) : go_scope.
Notation "m ';;;' k" := (bind m (λ _, k))
  (at level 100, k at level 200, right associativity) : go_scope.
Notation "'let?' x ':=' m 'in' k" := (obind m (λ x, k))
  (at level 10, x pattern, m at level 100, k at level 200) : go_scope.
#[global] Open Scope go_scope.

(** [check b e]: [if b { return err }]. *)
Definition check {S} (b : bool) (e : error) : M S unit :=
  if b then fail e else ret tt.
Definition ocheck (b : bool) (e : error) : outcome unit :=
  if b then Err e else Ok tt.

(** *** Inversion of successful runs *)

Lemma bind_ok {S A B} (m : M S A) (k : A → M S B) s b s' :
  bind m k s = (Ok b, s') →
  ∃ a s1, m s = (Ok a, s1) ∧ k a s1 = (Ok b, s').
Proof.
  unfold bind. destruct (m s) as [[a|e|] s1]; intros H; simplify_eq. eauto.
Qed.

Lemma obind_ok {A B} (o : outcome A) (k : A → outcome B) b :
  obind o k = Ok b → ∃ a, o = Ok a ∧ k a = Ok b.
Proof. destruct o; simpl; intros; simplify_eq; eauto. Qed.

(** The state a run leaves is determined. *)
Lemma run_det {S A} (m : M S A) s o o' s1 s2 : m s = (o, s1) → m s = (o', s2) → s1 = s2.
Proof. congruence. Qed.

Lemma check_ok {S} b e (s s' : S) :
  check b e s = (Ok tt, s') → b = false ∧ s' = s.
Proof. destruct b; unfold check, fail, ret; intros; by simplify_eq. Qed.

Lemma ocheck_ok b e : ocheck b e = Ok tt → b = false.
Proof. by destruct b. Qed.

Lemma try_ok {S A} (m : M S A) s r s' :
  try m s = (Ok r, s') →
  (∃ a, r = inl a ∧ m s = (Ok a, s')) ∨ (∃ e, r = inr e ∧ m s = (Err e, s')).
Proof.
  unfold try. destruct (m s) as [[a|e|] s1]; intros; simplify_eq; eauto.
Qed.

Lemma lift_ok {S A} (o : outcome A) (s : S) a s' : lift o s = (Ok a, s') → o = Ok a ∧ s' = s.
Proof. unfold lift. intros E. split; [exact (f_equal fst E)|exact (eq_sym (f_equal snd E))]. Qed.

Lemma must_ok {S A} (m : M S A) s a s' : must m s = (Ok a, s') → m s = (Ok a, s').
Proof. unfold must. by destruct (m s) as [[?|?|] ?]. Qed.

Lemma zoom_run {S Y A} (get : S → Y) set (m : M Y A) s o s' :
  zoom get set m s = (o, s') → ∃ y, m (get s) = (o, y) ∧ s' = set y s.
Proof. unfold zoom. destruct (m (get s)) as [o' y]. intros [= <- <-]. eauto. Qed.

Lemma zoom_ok {S X A} (get : S → X) set (m : M X A) s a s' :
  zoom get set m s = (Ok a, s') →
  ∃ x, m (get s) = (Ok a, x) ∧ s' = set x s.
Proof.
  unfold zoom. destruct (m (get s)) as [o x] eqn:E; intros; simplify_eq; eauto.
Qed.

(** A loop that succeeds keeps what its successful turns keep. *)
Lemma foreach_ok_inv {S A} (P : S → Prop) (l : list A) (f : A → M S unit) s s' :
  (∀ a s s', f a s = (Ok tt, s') → P s → P s') → foreach l f s = (Ok tt, s') → P s → P s'.
Proof.
  intros Hf. revert s. induction l as [|a l IH]; intros s Hrun HP; simpl in Hrun.
  - by injection Hrun as <-.
  - apply bind_ok in Hrun as ([] & s1 & Ha & Hrun). eauto.
Qed.

(** A loop that preserves an invariant at every iteration preserves it. *)
Lemma foreach_inv {S A} (I : S → Prop) (l : list A) body s o s' :
  (∀ a s o s', a ∈ l → I s → body a s = (o, s') → I s') →
  I s → foreach l body s = (o, s') → I s'.
Proof.
  revert s. induction l as [|a l IH]; intros s Hb HI; simpl.
  { unfold ret; intros; by simplify_eq. }
  unfold bind. destruct (body a s) as [o1 s1] eqn:E.
  assert (I s1) by (eapply (Hb a); eauto; set_solver).
  destruct o1; intros; simplify_eq; eauto.
  eapply IH; eauto. intros; eapply (Hb a1); eauto; set_solver.
Qed.

(** *** Tactics of the development

    [inv_ok] opens every successful run in the context, one bind at a time;
    [go_simpl] computes the pure combinators. *)

Ltac go_simpl := unfold ret, gets, modify, lift, fail, panic in *; simpl in *.

Ltac inv_ok_step :=
  match goal with
  | H : bind _ _ _ = (Ok _, _) |- _ =>
      apply bind_ok in H; destruct H as (? & ? & H & ?)
  | H : obind _ _ = Ok _ |- _ =>
      apply obind_ok in H; destruct H as (? & H & ?)
  | H : check _ _ _ = (Ok ?u, _) |- _ =>
      destruct u; apply check_ok in H; destruct H as [H ->]
  | H : ocheck _ _ = Ok ?u |- _ => destruct u; apply ocheck_ok in H
  | H : gets _ _ = (Ok _, _) |- _ => unfold gets in H; simplify_eq
  | H : modify _ _ = (Ok _, _) |- _ => unfold modify in H; simplify_eq
  | H : ret _ _ = (Ok _, _) |- _ => unfold ret in H; simplify_eq
  | H : lift _ _ = (Ok _, _) |- _ => unfold lift in H; simplify_eq
  | H : fail _ _ = (Ok _, _) |- _ => discriminate H
  | H : panic _ = (Ok _, _) |- _ => discriminate H
  | H : Ok _ = Ok _ |- _ => injection H as H
  | H : Err _ = Ok _ |- _ => discriminate H
  | H : Panic = Ok _ |- _ => discriminate H
  end.
Ltac inv_ok := repeat (inv_ok_step; try subst).

(** [bool_hyps] turns boolean tests of the code into propositions. *)
Ltac bool_hyps :=
  repeat match goal with
  | H : negb _ = true |- _ => apply negb_true_iff in H
  | H : negb _ = false |- _ => apply negb_false_iff in H
  | H : andb _ _ = true |- _ => apply andb_true_iff in H; destruct H
  | H : orb _ _ = false |- _ => apply orb_false_iff in H; destruct H
  | H : (_ =? _)%Z = true |- _ => apply Z.eqb_eq in H
  | H : (_ =? _)%Z = false |- _ => apply Z.eqb_neq in H
  | H : (_ <? _)%Z = true |- _ => apply Z.ltb_lt in H
  | H : (_ <? _)%Z = false |- _ => apply Z.ltb_ge in H
  | H : (_ <=? _)%Z = true |- _ => apply Z.leb_le in H
  | H : (_ <=? _)%Z = false |- _ => apply Z.leb_gt in H
  | H : bool_decide _ = true |- _ => apply bool_decide_eq_true in H
  | H : bool_decide _ = false |- _ => apply bool_decide_eq_false in H
  end.

(** ** Machine integers

    Go's [int64] and [uint64] wrap around. *)

Definition wrap64 (z : Z) : Z := (z + 2^63) mod 2^64 - 2^63.
Definition wrapu64 (z : Z) : Z := z mod 2^64.
Definition in_int64 (z : Z) : Prop := - 2^63 ≤ z < 2^63.
Definition in_uint64 (z : Z) : Prop := 0 ≤ z < 2^64.

Notation "a +i b" := (wrap64 (a + b)) (at level 50, left associativity) : go_scope.
Notation "a -i b" := (wrap64 (a - b)) (at level 50, left associativity) : go_scope.
Notation "a *i b" := (wrap64 (a * b)) (at level 40, left associativity) : go_scope.

Lemma wrap64_id z : in_int64 z → wrap64 z = z.
Proof. unfold in_int64, wrap64. intros. rewrite Z.mod_small; lia. Qed.

Lemma wrap64_in z : in_int64 (wrap64 z).
Proof.
  unfold wrap64, in_int64. pose proof (Z.mod_pos_bound (z + 2^63) (2^64)). lia.
Qed.

Lemma wrapu64_id z : in_uint64 z → wrapu64 z = z.
Proof. unfold in_uint64, wrapu64. intros. by rewrite Z.mod_small by lia. Qed.

(** ** Time

    A [time.Time] is its number of nanoseconds since the Unix epoch and a
    [time.Duration] a number of nanoseconds; [Unix()] is the floor in seconds. *)

Definition ns_per_s : Z := 1000000000.
Definition unix (t : Z) : Z := t / ns_per_s.
Definition from_unix (s : Z) : Z := s * ns_per_s.
(** [time.Time{}]: January 1, year 1, 00:00:00 UTC. *)
Definition zero_time : Z := -62135596800 * ns_per_s.

Lemma unix_from_unix s : unix (from_unix s) = s.
Proof. unfold unix, from_unix, ns_per_s. by rewrite Z.div_mul. Qed.

(** ** Sums over lists *)

Definition sumZ {A} (f : A → Z) (l : list A) : Z := foldr (λ a z, f a + z) 0 l.

Lemma sumZ_app {A} (f : A → Z) l k : sumZ f (l ++ k) = sumZ f l + sumZ f k.
Proof. induction l; simpl; lia. Qed.

Lemma sumZ_nonneg {A} (f : A → Z) l : Forall (λ a, 0 ≤ f a) l → 0 ≤ sumZ f l.
Proof. induction 1; simpl; lia. Qed.

Lemma sumZ_ext {A} (f g : A → Z) l :
  (∀ a, a ∈ l → f a = g a) → sumZ f l = sumZ g l.
Proof.
  induction l as [|a l IH]; intros H; simpl; [done|].
  rewrite IH, (H a); set_solver.
Qed.

Lemma sumZ_perm {A} (f : A → Z) l k : l ≡ₚ k → sumZ f l = sumZ f k.
Proof. induction 1; simpl; lia. Qed.

Lemma sumZ_add {A} (f g : A → Z) l :
  sumZ (λ a, f a + g a) l = sumZ f l + sumZ g l.
Proof. induction l; simpl; lia. Qed.

Lemma sumZ_le {A} (f g : A → Z) l :
  (∀ a, a ∈ l → f a ≤ g a) → sumZ f l ≤ sumZ g l.
Proof.
  induction l as [|a l IH]; intros H; simpl; [done|].
  assert (f a ≤ g a) by (apply H; set_solver).
  assert (sumZ f l ≤ sumZ g l) by (apply IH; set_solver). lia.
Qed.

Create HintDb evmos.
Create Rewrite HintDb evmos.
#[export] Hint Resolve wrap64_id wrap64_in wrapu64_id sumZ_nonneg : evmos.
#[export] Hint Rewrite @sumZ_app unix_from_unix : evmos.

(** ** Key-value stores with byte-ordered iteration

    An iterator over a prefix store visits the entries in ascending key order. *)

Definition key_le {V} (x y : string * V) : Prop := String.le x.1 y.1.
#[global] Instance key_le_dec {V} (x y : string * V) : Decision (key_le x y).
Proof. unfold key_le. apply _. Defined.

Definition kv_iter {V} (m : gmap string V) : list (string * V) :=
  merge_sort key_le (map_to_list m).

Lemma kv_iter_perm {V} (m : gmap string V) : kv_iter m ≡ₚ map_to_list m.
Proof. apply merge_sort_Permutation. Qed.

Lemma elem_of_kv_iter {V} (m : gmap string V) k v :
  (k, v) ∈ kv_iter m ↔ m !! k = Some v.
Proof. by rewrite kv_iter_perm, elem_of_map_to_list. Qed.

Lemma NoDup_kv_iter {V} (m : gmap string V) : NoDup (kv_iter m).*1.
Proof. rewrite kv_iter_perm. apply NoDup_fst_map_to_list. Qed.
#[export] Hint Resolve NoDup_kv_iter : evmos.

Lemma kv_iter_sorted {V} (m : gmap string V) : Sorted key_le (kv_iter m).
Proof. apply Sorted_merge_sort. intros x y. apply String.le_total. Qed.

(** The sum of a quantity over the entries of a store. *)
Definition map_sum {V} (f : V → Z) (m : gmap string V) : Z := sumZ (λ kv, f kv.2) (map_to_list m).

Lemma map_sum_kv_iter {V} (f : V → Z) (m : gmap string V) :
  sumZ (λ kv, f kv.2) (kv_iter m) = map_sum f m.
Proof. apply sumZ_perm, kv_iter_perm. Qed.

Lemma map_sum_empty {V} (f : V → Z) : map_sum f ∅ = 0.
Proof. unfold map_sum. by rewrite map_to_list_empty. Qed.

Lemma map_sum_insert_new {V} (f : V → Z) (m : gmap string V) k v :
  m !! k = None → map_sum f (<[k:=v]> m) = f v + map_sum f m.
Proof. intros Hk. unfold map_sum. by rewrite (sumZ_perm _ _ _ (map_to_list_insert m k v Hk)). Qed.

Lemma map_sum_delete {V} (f : V → Z) (m : gmap string V) k v :
  m !! k = Some v → map_sum f m = f v + map_sum f (delete k m).
Proof. intros Hk. unfold map_sum. by rewrite <- (sumZ_perm _ _ _ (map_to_list_delete m k v Hk)). Qed.

Lemma map_sum_insert {V} (f : V → Z) (m : gmap string V) k v w :
  m !! k = Some w → map_sum f (<[k:=v]> m) = map_sum f m - f w + f v.
Proof.
  intros Hk. rewrite (map_sum_delete f m k w Hk), <- insert_delete_eq.
  rewrite map_sum_insert_new by apply lookup_delete_eq. lia.
Qed.

Lemma map_sum_nonneg {V} (f : V → Z) (m : gmap string V) :
  (∀ k v, m !! k = Some v → 0 ≤ f v) → 0 ≤ map_sum f m.
Proof.
  intros Hf. apply sumZ_nonneg, Forall_forall. intros [k v] Hkv.
  apply elem_of_map_to_list in Hkv. eauto.
Qed.

Lemma map_sum_fmap {V} (f : V → Z) (g : V → V) (m : gmap string V) :
  (∀ k v, m !! k = Some v → f (g v) = f v) → map_sum f (g <$> m) = map_sum f m.
Proof.
  intros Hg. unfold map_sum. rewrite map_to_list_fmap. unfold sumZ at 1. rewrite foldr_fmap.
  apply (sumZ_ext (λ kv, f (g kv.2)) (λ kv, f kv.2)). intros [k v] Hkv. apply elem_of_map_to_list in Hkv. simpl. eauto.
Qed.

(** The sum of a quantity that depends on the key as well. *)
Definition map_sum_kv {V} (f : string → V → Z) (m : gmap string V) : Z :=
  sumZ (λ kv, f kv.1 kv.2) (map_to_list m).

Lemma map_sum_kv_insert {V} (f : string → V → Z) (m : gmap string V) k v :
  map_sum_kv f (<[k:=v]> m) =
  map_sum_kv f m + f k v - match m !! k with Some w => f k w | None => 0 end.
Proof.
  unfold map_sum_kv. destruct (m !! k) as [w|] eqn:Ek.
  - rewrite <- (insert_delete_eq m k v), (sumZ_perm _ _ _ (map_to_list_insert _ _ _ (lookup_delete_eq m k))).
    rewrite <- (sumZ_perm _ _ _ (map_to_list_delete m k w Ek)). simpl. lia.
  - rewrite (sumZ_perm _ _ _ (map_to_list_insert m k v Ek)). simpl. lia.
Qed.

Lemma sumZ_filter {A} (P : A → Prop) `{∀ a, Decision (P a)} (f : A → Z) l :
  sumZ f (filter P l) = sumZ (λ a, if decide (P a) then f a else 0) l.
Proof. induction l as [|a l IH]; [done|]. rewrite filter_cons. simpl. case_decide; simpl; lia. Qed.

(** ** Strings *)

Definition code (a : Ascii.ascii) : nat := Ascii.nat_of_ascii a.

Lemma length_substring n m s :
  String.length (String.substring n m s) = Nat.min m (String.length s - n).
Proof.
  revert n m. induction s as [|a s IH]; intros n m.
  - destruct n, m; simpl; lia.
  - destruct n as [|n], m as [|m]; cbn [String.substring String.length]; rewrite ?IH; lia.
Qed.

Lemma length_append a b : String.length (String.append a b) = (String.length a + String.length b)%nat.
Proof. induction a as [|x a IH]; simpl; [done|]. by rewrite IH. Qed.

Lemma append_inj a b c d :
  String.length a = String.length b → String.append a c = String.append b d → a = b ∧ c = d.
Proof.
  revert b. induction a as [|x a IH]; intros [|y b]; simpl; try done.
  intros Hl E. injection Hl as Hl. injection E as -> E. by destruct (IH b Hl E) as [-> ->].
Qed.

(** Strings with suffixes of the same length. *)
Lemma append_inj_r a b c d :
  String.length b = String.length d → String.append a b = String.append c d → a = c ∧ b = d.
Proof.
  intros Hl E. assert (Ha : String.length a = String.length c).
  { apply (f_equal String.length) in E. rewrite !length_append in E. lia. }
  by apply append_inj in E.
Qed.

Fixpoint all_chars (p : Ascii.ascii → bool) (s : string) : bool :=
  match s with EmptyString => true | String a s' => p a && all_chars p s' end.

Lemma all_chars_impl (p q : Ascii.ascii → bool) s :
  (∀ a, p a = true → q a = true) → all_chars p s = true → all_chars q s = true.
Proof.
  intros Hpq. induction s as [|a s IH]; simpl; [done|]. rewrite !andb_true_iff. intros [Ha Hs]. auto.
Qed.

Lemma substring_all s : String.substring 0 (String.length s) s = s.
Proof. induction s as [|a s IH]; simpl; [done|]. by rewrite IH. Qed.

Lemma prefix_append a b : String.prefix a (String.append a b) = true.
Proof. induction a as [|x a IH]; simpl; [by destruct b|]. destruct (Ascii.ascii_dec x x); [exact IH|congruence]. Qed.

Lemma prefix_append_eq a c b :
  String.length a = String.length c → String.prefix a (String.append c b) = true → a = c.
Proof.
  revert c. induction a as [|x a IH]; intros [|y c]; simpl; try done. intros Hl.
  destruct (Ascii.ascii_dec x y) as [->|]; [|done]. intros Hp. f_equal. injection Hl as Hl. eauto.
Qed.

(** Two strings split at the first bar in the same way. *)
Definition not_bar (a : Ascii.ascii) : bool := negb (Nat.eqb (code a) 124).
Lemma append_bar_inj a b c d :
  all_chars not_bar a = true → all_chars not_bar b = true →
  String.append a (String.append "|" c) = String.append b (String.append "|" d) → a = b ∧ c = d.
Proof.
  revert b. induction a as [|x a IH]; intros [|y b]; simpl; rewrite ?andb_true_iff.
  - intros _ _ E. by injection E.
  - intros _ [Hy _] E. injection E as <- _. done.
  - intros [Hx _] _ E. injection E as -> _. done.
  - intros [_ Ha] [_ Hb] E. injection E as -> E. by destruct (IH b Ha Hb E) as [-> ->].
Qed.

(** ** Blank strings

    [strings.TrimSpace(s) == ""]: the string is made of white-space runes only,
    in their UTF-8 encodings. *)

Definition ascii_space (a : Ascii.ascii) : bool :=
  let n := code a in (Nat.leb 9 n && Nat.leb n 13) || Nat.eqb n 32.
(** U+0085 and U+00A0 *)
Definition space2 (a b : Ascii.ascii) : bool :=
  Nat.eqb (code a) 194 && (Nat.eqb (code b) 133 || Nat.eqb (code b) 160).
(** U+1680, U+2000 to U+200A, U+2028, U+2029, U+202F, U+205F, U+3000 *)
Definition space3 (a b c : Ascii.ascii) : bool :=
  match code a, code b with
  | 225%nat, 154%nat => Nat.eqb (code c) 128
  | 226%nat, 128%nat => (Nat.leb 128 (code c) && Nat.leb (code c) 138) || Nat.eqb (code c) 168
                        || Nat.eqb (code c) 169 || Nat.eqb (code c) 175
  | 226%nat, 129%nat => Nat.eqb (code c) 159
  | 227%nat, 128%nat => Nat.eqb (code c) 128
  | _, _ => false
  end.

Fixpoint is_blank (s : string) : bool :=
  match s with
  | EmptyString => true
  | String a s1 =>
      if ascii_space a then is_blank s1 else
      match s1 with
      | EmptyString => false
      | String b s2 =>
          if space2 a b then is_blank s2 else
          match s2 with
          | EmptyString => false
          | String c s3 => if space3 a b c then is_blank s3 else false
          end
      end
  end.

(** ** Computations without errors *)

(** A computation that cannot return an error. *)
Definition never_err {S A} (m : M S A) : Prop := ∀ s e, (m s).1 ≠ Err e.

Lemma never_err_bind {S A B} (m : M S A) (k : A → M S B) :
  never_err m → (∀ a, never_err (k a)) → never_err (bind m k).
Proof.
  intros Hm Hk s e. specialize (Hm s e). unfold bind. destruct (m s) as [[a|e1|] s1]; simpl in *; [|congruence|done].
  apply Hk.
Qed.
Lemma never_err_try {S A} (m : M S A) : never_err (try m).
Proof. intros s e. unfold try. by destruct (m s) as [[a|e1|] s1]. Qed.
Lemma never_err_ret {S A} (a : A) : never_err (S := S) (ret a).
Proof. done. Qed.
Lemma never_err_gets {S A} (f : S → A) : never_err (gets f).
Proof. done. Qed.

#[export] Hint Resolve never_err_bind never_err_try never_err_ret never_err_gets : evmos.

(** ** Loops over snapshots with early exit

    [iterate]: the callback returns whether to stop. *)
Fixpoint iterate {S A} (l : list A) (fn : A → M S bool) : M S unit :=
  match l with
  | [] => ret tt
  | a :: l' => let! stop := fn a in if stop then ret tt else iterate l' fn
  end.
