(* ===== verification/Frame.v ===== *)
(** * Frames: what a computation leaves alone

    [framed R s m] says that [m], run from [s], ends in a state related to [s] by
    the preorder [R], whatever its outcome: the errors a caller swallows keep
    their writes.  One rule per combinator of the monad, and the tactic [frame]
    that applies them. *)

From S2P Require Import Prelude.

Section frames.
Context {S : Type} (R : relation S) `{!PreOrder R}.

Definition framed {A} (s : S) (m : M S A) : Prop := ∀ o s', m s = (o, s') → R s s'.

(** The state is the same or the computation only reads. *)
Lemma framed_same {A} s (m : M S A) : (m s).2 = s → framed s m.
Proof. intros E o s' Hm. rewrite Hm in E. simpl in E. by subst. Qed.

Lemma framed_ret {A} s (a : A) : framed s (ret a).
Proof. by apply framed_same. Qed.
Lemma framed_fail {A} s e : framed s (fail (A := A) e).
Proof. by apply framed_same. Qed.
Lemma framed_panic {A} s : framed s (panic (A := A)).
Proof. by apply framed_same. Qed.
Lemma framed_lift {A} s (o : outcome A) : framed s (lift o).
Proof. by apply framed_same. Qed.
Lemma framed_check s b e : framed s (check b e).
Proof. apply framed_same. by destruct b. Qed.
Lemma framed_gets {A} s (f : S → A) : framed s (gets f).
Proof. by apply framed_same. Qed.

Lemma framed_modify s f : R s (f s) → framed s (modify f).
Proof. intros HR o s' [= <- <-]. done. Qed.

Lemma framed_bind {A B} s (m : M S A) (k : A → M S B) :
  framed s m → (∀ a s1, m s = (Ok a, s1) → framed s1 (k a)) → framed s (bind m k).
Proof.
  intros Hm Hk o s'. unfold bind. destruct (m s) as [o1 s1] eqn:E. pose proof (Hm _ _ E) as HR.
  destruct o1 as [a|e|]; [|by intros [= <- <-]..]. intros Hrun. etransitivity; [exact HR|].
  by eapply Hk.
Qed.

Lemma framed_try {A} s (m : M S A) : framed s m → framed s (try m).
Proof. intros Hm o s'. unfold try. destruct (m s) as [[a|e|] s1] eqn:E; intros [= <- <-]; by eapply Hm. Qed.

Lemma framed_must {A} s (m : M S A) : framed s m → framed s (must m).
Proof. intros Hm o s'. unfold must. destruct (m s) as [[a|e|] s1] eqn:E; intros [= <- <-]; by eapply Hm. Qed.

Lemma framed_foreach {A} (l : list A) f s : (∀ a s, framed s (f a)) → framed s (foreach l f).
Proof.
  intros Hf. revert s. induction l as [|a l IH]; intros s; simpl; [apply framed_ret|].
  apply framed_bind; [done|]. intros; apply IH.
Qed.

Lemma framed_iterate {A} (l : list A) f s : (∀ a s, framed s (f a)) → framed s (iterate l f).
Proof.
  intros Hf. revert s. induction l as [|a l IH]; intros s; simpl; [apply framed_ret|].
  apply framed_bind; [done|]. intros [] s1 _; [apply framed_ret|apply IH].
Qed.
End frames.

(** A part of the state. *)
Lemma framed_zoom {S T A} (R : relation S) (Q : relation T) (get : S → T) set s (m : M T A) :
  (∀ t, Q (get s) t → R s (set t s)) → framed Q (get s) m → framed R s (zoom get set m).
Proof. intros HR Hm o s' Hrun. apply zoom_run in Hrun as (t & Ht & ->). eauto. Qed.

(** The states that agree on [f]. *)
Definition same_on {S B} (f : S → B) : relation S := λ s s', f s' = f s.

#[global] Instance same_on_preorder {S B} (f : S → B) : PreOrder (same_on f).
Proof. split; unfold same_on; [done|]. intros ? ? ? H1 H2. congruence. Qed.

(** [frame] opens a computation down to the calls it makes: it leaves goals for
    calls no hint in the database [frame] covers. *)
Create HintDb frame.
#[export] Hint Resolve framed_ret framed_fail framed_panic framed_lift framed_check framed_gets : frame.

Ltac frame_step :=
  match goal with
  | |- framed _ _ (bind _ _) => apply framed_bind; [apply _| |intros ? ? _]
  | |- framed _ _ (try _) => apply framed_try
  | |- framed _ _ (must _) => apply framed_must
  | |- framed _ _ (foreach _ _) => apply framed_foreach; [apply _|intros ? ?]
  | |- framed _ _ (iterate _ _) => apply framed_iterate; [apply _|intros ? ?]
  | |- framed _ _ (modify _) => apply framed_modify; first [done | fail]
  | |- framed _ _ (if ?b then _ else _) => destruct b
  | |- framed _ _ (match ?b with _ => _ end) => destruct b
  | |- framed _ _ (let '(_, _) := ?b in _) => destruct b
  | |- framed _ _ _ => solve [eauto with frame typeclass_instances]
  end.
Ltac frame := intros; repeat frame_step.

(** What every step keeps, a sequence of steps keeps. *)
Lemma rtc_keeps {S} (R : relation S) (P : S → Prop) s s' :
  (∀ s s', R s s' → P s → P s') → rtc R s s' → P s → P s'.
Proof. intros HR. induction 1; eauto. Qed.
