(* ===== verification/Sdk.v ===== *)
(** * Interfaces of the code the modules call but do not contain

    The modules are written against the Cosmos SDK ([sdk.Coins], [sdk.Dec], the
    bank, account, distribution and staking keepers).  None of that code is in
    the repository, so each piece is a type class: the operations as the
    modules call them, and, in a second class, the documented behaviour the
    theorems rely on.  [sdk.Int] values are integers; its 256-bit overflow
    panic is outside the model.  [SdkInstances] gives concrete implementations
    of every class and proves the laws of each. *)

From S2P Require Import Prelude.

(** ** [sdk.Coins] *)

Class SdkCoins (C : Type) := {
  (** [sdk.Coins{}], [sdk.NewCoins()] and [nil] *)
  coins_empty : C;
  (** [a.Add(b...)] *)
  coins_add : C → C → C;
  (** [a.Sub(b)], which panics when a resulting amount would be negative *)
  coins_sub : C → C → outcome C;
  (** [a.Min(b)] *)
  coins_min : C → C → C;
  (** [a.IsZero()] *)
  coins_is_zero : C → bool;
  (** [a.Empty()] *)
  coins_is_empty : C → bool;
  (** [a.IsAllLTE(b)] *)
  coins_is_all_lte : C → C → bool;
  (** [a.IsAnyGT(b)] *)
  coins_is_any_gt : C → C → bool;
  (** the coins appended one after the other to an empty [sdk.Coins] *)
  coins_collect : list (string * Z) → C;
  (** [a.AmountOf(denom)], [a.AmountOfNoDenomValidation(denom)] *)
  amount_of : C → string → Z;
  (** [sdk.Coins{sdk.Coin{Denom: d, Amount: a}}] *)
  coins_lit : string → Z → C;
  (** [sdk.NewCoins(sdk.NewCoin(d, a))], which panics on a negative amount or an
      invalid denomination and drops a zero coin *)
  coins_new : string → Z → outcome C;
  (** [sdk.ValidateDenom(d) == nil] *)
  denom_valid : string → bool;
  (** [a.IsValid()]: valid denominations, sorted, no duplicates, strictly positive amounts *)
  coins_valid : C → bool;
}.

(** The documented behaviour, on valid coins, denomination by denomination. *)
Class SdkCoinsLaws (C : Type) `{SdkCoins C} := {
  valid_empty : coins_valid coins_empty = true;
  amount_empty d : amount_of coins_empty d = 0;
  valid_nonneg c d : coins_valid c = true → 0 ≤ amount_of c d;
  valid_denom c d : coins_valid c = true → amount_of c d ≠ 0 → denom_valid d = true;
  valid_add a b :
    coins_valid a = true → coins_valid b = true → coins_valid (coins_add a b) = true;
  amount_add a b d :
    coins_valid a = true → coins_valid b = true →
    amount_of (coins_add a b) d = amount_of a d + amount_of b d;
  valid_min a b :
    coins_valid a = true → coins_valid b = true → coins_valid (coins_min a b) = true;
  amount_min a b d :
    coins_valid a = true → coins_valid b = true →
    amount_of (coins_min a b) d = Z.min (amount_of a d) (amount_of b d);
  sub_ok a b :
    coins_valid a = true → coins_valid b = true →
    (∀ d, amount_of b d ≤ amount_of a d) →
    ∃ c, coins_sub a b = Ok c ∧ coins_valid c = true ∧
         ∀ d, amount_of c d = amount_of a d - amount_of b d;
  sub_panics a b d :
    coins_valid a = true → coins_valid b = true →
    amount_of a d < amount_of b d → coins_sub a b = Panic;
  is_zero_spec c :
    coins_valid c = true → coins_is_zero c = true ↔ ∀ d, amount_of c d = 0;
  is_empty_spec c :
    coins_valid c = true → coins_is_empty c = true ↔ ∀ d, amount_of c d = 0;
  is_all_lte_spec a b :
    coins_valid a = true → coins_valid b = true →
    coins_is_all_lte a b = true ↔ ∀ d, amount_of a d ≤ amount_of b d;
  (** only denominations with a balance in [b] are compared *)
  is_any_gt_spec a b :
    coins_valid a = true → coins_valid b = true →
    coins_is_any_gt a b = true ↔ ∃ d, amount_of b d ≠ 0 ∧ amount_of b d < amount_of a d;
  (** coins in the order of their denominations *)
  valid_collect l :
    Sorted key_le l → NoDup l.*1 → Forall (λ c, 0 < c.2) l → Forall (λ c, denom_valid c.1 = true) l →
    coins_valid (coins_collect l) = true;
  amount_collect l d :
    Sorted key_le l → NoDup l.*1 → Forall (λ c, 0 < c.2) l →
    amount_of (coins_collect l) d = default 0 (list_to_map (M := gmap string Z) l !! d);
  (** a zero coin is dropped by [Add] *)
  valid_add_lit c d a :
    coins_valid c = true → denom_valid d = true → 0 ≤ a → coins_valid (coins_add c (coins_lit d a)) = true;
  amount_add_lit c d a d' :
    coins_valid c = true → 0 ≤ a →
    amount_of (coins_add c (coins_lit d a)) d' = amount_of c d' + if decide (d' = d) then a else 0;
  amount_lit d a d' : amount_of (coins_lit d a) d' = if decide (d' = d) then a else 0;
  valid_lit d a : 0 < a → denom_valid d = true → coins_valid (coins_lit d a) = true;
  (** a coin that is not positive is not valid *)
  invalid_lit d a : a ≤ 0 → coins_valid (coins_lit d a) = false;
  is_zero_lit d a : coins_is_zero (coins_lit d a) = (a =? 0);
  coins_new_ok d a :
    0 ≤ a → denom_valid d = true →
    ∃ c, coins_new d a = Ok c ∧ coins_valid c = true ∧
         ∀ d', amount_of c d' = if decide (d' = d) then a else 0;
  coins_new_inv d a c :
    coins_new d a = Ok c →
    0 ≤ a ∧ coins_valid c = true ∧
    ∀ d', amount_of c d' = if decide (d' = d) then a else 0;
}.

#[export] Hint Resolve valid_empty valid_add valid_min : evmos.

Section coins_facts.
Context {C : Type} `{SdkCoinsLaws C}.

(** [Sub] succeeds only when no amount would become negative. *)
Lemma coins_sub_inv a b c :
  coins_valid a = true → coins_valid b = true → coins_sub a b = Ok c →
  coins_valid c = true ∧ ∀ d, amount_of c d = amount_of a d - amount_of b d.
Proof.
  intros Ha Hb Hs.
  assert (Hle : ∀ d, amount_of b d ≤ amount_of a d).
  { intros d. destruct (decide (amount_of a d < amount_of b d)) as [Hlt|]; [|lia].
    rewrite (sub_panics a b d Ha Hb Hlt) in Hs. discriminate. }
  destruct (sub_ok a b Ha Hb Hle) as (c' & Hc & ? & ?).
  rewrite Hs in Hc. by injection Hc as <-.
Qed.

(** [a <= b && b <= a] is equality of the amounts. *)
Lemma lte_antisym a b :
  coins_valid a = true → coins_valid b = true →
  coins_is_all_lte a b = true → coins_is_all_lte b a = true →
  ∀ d, amount_of a d = amount_of b d.
Proof.
  intros Ha Hb Hab Hba d.
  pose proof (proj1 (is_all_lte_spec a b Ha Hb) Hab d).
  pose proof (proj1 (is_all_lte_spec b a Hb Ha) Hba d). lia.
Qed.
End coins_facts.

(** ** Addresses

    An [sdk.AccAddress] or a [common.Address] is its byte string. *)

Class SdkAddress := {
  (** [addr.String()]: the bech32 form with the chain's prefix *)
  acc_string : string → string;
  (** [sdk.AccAddressFromBech32(s)] *)
  acc_from_bech32 : string → option string;
}.

(** A blank string is no address; a decoded address is not empty and its own string denotes it. *)
Class SdkAddressLaws `{SdkAddress} := {
  bech32_blank s : is_blank s = true → acc_from_bech32 s = None;
  bech32_nonempty s a : acc_from_bech32 s = Some a → a ≠ EmptyString;
  bech32_roundtrip s a : acc_from_bech32 s = Some a → acc_from_bech32 (acc_string a) = Some a;
}.

Lemma bech32_empty `{SdkAddressLaws} : acc_from_bech32 EmptyString = None.
Proof. by apply bech32_blank. Qed.
Lemma bech32_not_blank `{SdkAddressLaws} s a : acc_from_bech32 s = Some a → is_blank s = false.
Proof. intros Ha. destruct (is_blank s) eqn:Hb; [|done]. by rewrite bech32_blank in Ha. Qed.

(** [sdk.MustAccAddressFromBech32(s)] panics on an invalid address. *)
Definition must_acc_from_bech32 `{SdkAddress} (s : string) : outcome string :=
  match acc_from_bech32 s with Some a => Ok a | None => Panic end.

(** [if _, err := sdk.AccAddressFromBech32(s); err != nil { return err }] *)
Definition check_bech32 `{SdkAddress} (s : string) : outcome unit :=
  match acc_from_bech32 s with Some _ => Ok tt | None => Err ErrInvalidAddress end.

(** ** Constants of Ethermint *)

Class Ethermint := {
  (** [ethermint.PowerReduction] *)
  PowerReduction : Z;
  (** [evm.DefaultEVMDenom] *)
  DefaultEVMDenom : string;
}.

(** ** A single coin

    [sdk.NewCoin(d, a)] panics exactly when [sdk.NewCoins] of it would. *)
Definition new_coin (C : Type) `{SdkCoins C} (denom : string) (amount : Z) : outcome (string * Z) :=
  let? _ := coins_new denom amount in Ok (denom, amount).
