(* ===== verification/Dec.v ===== *)
(** * [sdk.Dec]: fixed-point decimals with 18 digits

    The operations the modules use, as a class; their documented rounding, as
    laws on [dec_raw], the number of units of 10^-18; and an instance on [Z]
    with banker's rounding, for which the laws are proved. *)

From S2P Require Import Prelude.

Definition dec_unit : Z := 10^18.

Class SdkDec (D : Type) := {
  dec_raw : D → Z;
  (** [sdk.NewDec(i)], [i.ToDec()] *)
  dec_new : Z → D;
  (** [sdk.NewDecWithPrec(i, prec)] *)
  dec_with_prec : Z → Z → D;
  dec_add : D → D → D;
  dec_sub : D → D → D;
  dec_mul : D → D → D;
  (** [a.MulInt(i)] *)
  dec_mul_int : D → Z → D;
  (** [sdk.MinDec(a, b)] *)
  dec_min : D → D → D;
  (** [sdk.Dec{}.Add(a)]: the zero value of the type holds no number *)
  dec_nil_add : D → outcome D;
  (** [a.Quo(b)] panics on a zero divisor *)
  dec_quo : D → D → outcome D;
  (** [a.QuoInt(i)], [a.QuoInt64(i)] *)
  dec_quo_int : D → Z → outcome D;
  (** [a.Power(n)] *)
  dec_power : D → Z → D;
  dec_truncate_int : D → Z;
  dec_round_int : D → Z;
  (** [a.GT(b)], [a.GTE(b)], [a.LT(b)], [a.LTE(b)], [a.Equal(b)] *)
  dec_gt : D → D → bool;
  dec_gte : D → D → bool;
  dec_lt : D → D → bool;
  dec_lte : D → D → bool;
  dec_equal : D → D → bool;
  (** [a.IsNegative()], [a.IsPositive()], [a.IsZero()] *)
  dec_is_negative : D → bool;
  dec_is_positive : D → bool;
  dec_is_zero : D → bool;
}.

(** [n] is an integer nearest to [x / y]. *)
Definition nearest (n x y : Z) : Prop := 2 * Z.abs (y * n - x) ≤ y.

Class SdkDecLaws (D : Type) `{SdkDec D} := {
  raw_inj a b : dec_raw a = dec_raw b → a = b;
  raw_new i : dec_raw (dec_new i) = i * dec_unit;
  raw_with_prec i p : 0 ≤ p ≤ 18 → dec_raw (dec_with_prec i p) = i * 10 ^ (18 - p);
  raw_add a b : dec_raw (dec_add a b) = dec_raw a + dec_raw b;
  raw_sub a b : dec_raw (dec_sub a b) = dec_raw a - dec_raw b;
  (** multiplication rounds to the nearest *)
  raw_mul a b : nearest (dec_raw (dec_mul a b)) (dec_raw a * dec_raw b) dec_unit;
  raw_mul_int a i : dec_raw (dec_mul_int a i) = dec_raw a * i;
  raw_min a b : dec_raw (dec_min a b) = Z.min (dec_raw a) (dec_raw b);
  (** the number of the zero value is a nil pointer *)
  nil_add_panics a : dec_nil_add a = Panic;
  (** division is off by less than one unit in the last place *)
  raw_quo a b :
    dec_raw b ≠ 0 →
    ∃ c, dec_quo a b = Ok c ∧
         Z.abs (dec_raw c * dec_raw b - dec_raw a * dec_unit) < Z.abs (dec_raw b);
  quo_zero a b : dec_raw b = 0 → dec_quo a b = Panic;
  (** division by an integer truncates *)
  raw_quo_int a i :
    i ≠ 0 → ∃ c, dec_quo_int a i = Ok c ∧ dec_raw c = Z.quot (dec_raw a) i;
  quo_int_zero a : dec_quo_int a 0 = Panic;
  power_0 a : dec_raw (dec_power a 0) = dec_unit;
  power_unit_interval a n :
    0 ≤ n → 0 ≤ dec_raw a ≤ dec_unit → 0 ≤ dec_raw (dec_power a n) ≤ dec_unit;
  raw_truncate a : dec_truncate_int a = Z.quot (dec_raw a) dec_unit;
  raw_round a : nearest (dec_round_int a) (dec_raw a) dec_unit;
  gt_spec a b : dec_gt a b = (dec_raw b <? dec_raw a);
  gte_spec a b : dec_gte a b = (dec_raw b <=? dec_raw a);
  lt_spec a b : dec_lt a b = (dec_raw a <? dec_raw b);
  lte_spec a b : dec_lte a b = (dec_raw a <=? dec_raw b);
  equal_spec a b : dec_equal a b = (dec_raw a =? dec_raw b);
  is_negative_spec a : dec_is_negative a = (dec_raw a <? 0);
  is_positive_spec a : dec_is_positive a = (0 <? dec_raw a);
  dec_is_zero_spec a : dec_is_zero a = (dec_raw a =? 0);
}.

Section facts.
Context {D : Type} `{SdkDecLaws D}.

Lemma dec_unit_pos : 0 < dec_unit.
Proof. unfold dec_unit. lia. Qed.

(** An exact quotient is the only nearest integer. *)
Lemma nearest_exact n k y : 0 < y → nearest n (y * k) y → n = k.
Proof. unfold nearest. intros. nia. Qed.

Lemma nearest_nonneg n x y : 0 < y → 0 ≤ x → nearest n x y → 0 ≤ n.
Proof. unfold nearest. intros. nia. Qed.

Lemma nearest_le n x y k : 0 < y → x ≤ y * k → nearest n x y → n ≤ k.
Proof. unfold nearest. intros. nia. Qed.

Lemma nearest_ge n x y k : 0 < y → y * k ≤ x → nearest n x y → k ≤ n.
Proof. unfold nearest. intros. nia. Qed.

(** The product of an integer and a decimal is exact. *)
Lemma raw_mul_new i a : dec_raw (dec_mul (dec_new i) a) = i * dec_raw a.
Proof.
  apply (nearest_exact _ _ dec_unit dec_unit_pos).
  pose proof (raw_mul (dec_new i) a) as Hm. rewrite raw_new in Hm.
  replace (dec_unit * (i * dec_raw a)) with (i * dec_unit * dec_raw a) by lia. done.
Qed.

Lemma raw_mul_new_r i a : dec_raw (dec_mul a (dec_new i)) = dec_raw a * i.
Proof.
  apply (nearest_exact _ _ dec_unit dec_unit_pos).
  pose proof (raw_mul a (dec_new i)) as Hm. rewrite raw_new in Hm.
  replace (dec_unit * (dec_raw a * i)) with (dec_raw a * (i * dec_unit)) by lia. done.
Qed.

Lemma raw_mul_nonneg a b : 0 ≤ dec_raw a → 0 ≤ dec_raw b → 0 ≤ dec_raw (dec_mul a b).
Proof.
  intros. eapply nearest_nonneg; [apply dec_unit_pos| |apply raw_mul]. nia.
Qed.

Lemma raw_quo_nonneg a b c :
  0 ≤ dec_raw a → 0 < dec_raw b → dec_quo a b = Ok c → 0 ≤ dec_raw c.
Proof.
  intros Ha Hb Hq. pose proof dec_unit_pos.
  destruct (raw_quo a b) as (c' & Hc & Hr); [lia|]. rewrite Hq in Hc. injection Hc as <-. nia.
Qed.

(** A quotient of at most one is at most one. *)
Lemma raw_quo_le_unit a b c :
  0 ≤ dec_raw a ≤ dec_raw b → 0 < dec_raw b → dec_quo a b = Ok c → dec_raw c ≤ dec_unit.
Proof.
  intros Ha Hb Hq. pose proof dec_unit_pos.
  destruct (raw_quo a b) as (c' & Hc & Hr); [lia|]. rewrite Hq in Hc. injection Hc as <-. nia.
Qed.

Lemma truncate_nonneg a : 0 ≤ dec_raw a → 0 ≤ dec_truncate_int a.
Proof. intros. rewrite raw_truncate. pose proof dec_unit_pos. apply Z.quot_pos; lia. Qed.

Lemma truncate_new_mul i a :
  0 ≤ i → 0 ≤ dec_raw a → dec_truncate_int (dec_mul (dec_new i) a) = i * dec_raw a / dec_unit.
Proof.
  intros. rewrite raw_truncate, raw_mul_new. apply Z.quot_div_nonneg; [nia|apply dec_unit_pos].
Qed.
End facts.

(** ** The instance *)

(** [chopPrecisionAndRound]: banker's rounding of [x / 10^18]. *)
Definition chop_pos (x : Z) : Z :=
  let q := x / dec_unit in
  let r := x mod dec_unit in
  if 2 * r <? dec_unit then q
  else if dec_unit <? 2 * r then q + 1
  else if Z.even q then q else q + 1.
Definition chop (x : Z) : Z := if x <? 0 then - chop_pos (- x) else chop_pos x.

Lemma chop_pos_nearest x : nearest (chop_pos x) x dec_unit.
Proof.
  unfold nearest, chop_pos. pose proof dec_unit_pos.
  pose proof (Z.div_mod x dec_unit). pose proof (Z.mod_pos_bound x dec_unit).
  destruct (Z.ltb_spec (2 * (x mod dec_unit)) dec_unit); [nia|].
  destruct (Z.ltb_spec dec_unit (2 * (x mod dec_unit))); [nia|].
  destruct (Z.even _); nia.
Qed.

Lemma chop_nearest x : nearest (chop x) x dec_unit.
Proof.
  unfold chop. destruct (Z.ltb_spec x 0); [|apply chop_pos_nearest].
  pose proof (chop_pos_nearest (- x)). unfold nearest in *. nia.
Qed.

Definition zdec_mul (a b : Z) : Z := chop (a * b).
Definition zdec_quo (a b : Z) : outcome Z :=
  if b =? 0 then Panic else Ok (chop (Z.quot (a * dec_unit * dec_unit) b)).

(** Square and multiply from the least significant bit of the exponent: [d] is
    squared and [tmp] collects the odd factors. *)
Fixpoint zdec_power_pos (d tmp : Z) (n : positive) : Z :=
  match n with
  | xH => zdec_mul d tmp
  | xO n' => zdec_power_pos (zdec_mul d d) tmp n'
  | xI n' => zdec_power_pos (zdec_mul d d) (zdec_mul tmp d) n'
  end.
Definition zdec_power (d n : Z) : Z :=
  match n with Zpos p => zdec_power_pos d dec_unit p | _ => dec_unit end.

Lemma zdec_mul_unit a b :
  0 ≤ a ≤ dec_unit → 0 ≤ b ≤ dec_unit → 0 ≤ zdec_mul a b ≤ dec_unit.
Proof.
  intros Ha Hb. pose proof dec_unit_pos. pose proof (chop_nearest (a * b)) as Hc. split.
  - eapply nearest_nonneg; [done| |exact Hc]. nia.
  - eapply nearest_le; [done| |exact Hc]. nia.
Qed.

Lemma zdec_power_pos_unit d tmp p :
  0 ≤ d ≤ dec_unit → 0 ≤ tmp ≤ dec_unit → 0 ≤ zdec_power_pos d tmp p ≤ dec_unit.
Proof.
  revert d tmp. induction p; intros d tmp Hd Ht; simpl; auto using zdec_mul_unit.
Qed.

Lemma zdec_quo_bound a b :
  b ≠ 0 → Z.abs (chop (Z.quot (a * dec_unit * dec_unit) b) * b - a * dec_unit) < Z.abs b.
Proof.
  intros Hb. pose proof (Z.quot_rem' (a * dec_unit * dec_unit) b) as Hd.
  pose proof (Z.rem_bound_abs (a * dec_unit * dec_unit) b Hb) as Hr.
  set (q := Z.quot (a * dec_unit * dec_unit) b) in *.
  set (r := Z.rem (a * dec_unit * dec_unit) b) in *.
  pose proof (chop_nearest q) as Hc. unfold nearest in Hc. set (c := chop q) in *.
  assert (Hu : 2 < dec_unit) by (unfold dec_unit; lia).
  assert (H1 : dec_unit * (c * b - a * dec_unit) = (dec_unit * c - q) * b - r) by nia.
  assert (H2 : Z.abs (dec_unit * (c * b - a * dec_unit)) < dec_unit * Z.abs b).
  { rewrite H1. assert (2 * Z.abs ((dec_unit * c - q) * b) ≤ dec_unit * Z.abs b)
      by (rewrite Z.abs_mul; nia). nia. }
  rewrite Z.abs_mul in H2. nia.
Qed.

#[global] Instance zdec : SdkDec Z := {
  dec_raw a := a;
  dec_new i := i * dec_unit;
  dec_with_prec i p := i * 10 ^ (18 - p);
  dec_add := Z.add;
  dec_sub := Z.sub;
  dec_mul := zdec_mul;
  dec_mul_int := Z.mul;
  dec_min := Z.min;
  dec_nil_add _ := Panic;
  dec_quo := zdec_quo;
  dec_quo_int a i := if i =? 0 then Panic else Ok (Z.quot a i);
  dec_power := zdec_power;
  dec_truncate_int a := Z.quot a dec_unit;
  dec_round_int := chop;
  dec_gt a b := b <? a;
  dec_gte a b := b <=? a;
  dec_lt := Z.ltb;
  dec_lte := Z.leb;
  dec_equal := Z.eqb;
  dec_is_negative a := a <? 0;
  dec_is_positive a := 0 <? a;
  dec_is_zero a := a =? 0;
}.

#[global] Instance zdec_laws : SdkDecLaws Z.
Proof.
  constructor; simpl; try done.
  - intros. apply chop_nearest.
  - intros a b Hb. unfold zdec_quo. apply Z.eqb_neq in Hb as Hb'. rewrite Hb'.
    eexists. split; [done|]. by apply zdec_quo_bound.
  - intros a b ->. done.
  - intros a i Hi. apply Z.eqb_neq in Hi. rewrite Hi. by eexists.
  - intros a n Hn Ha. pose proof dec_unit_pos. destruct n; simpl; [lia| |lia].
    apply zdec_power_pos_unit; lia.
  - intros. apply chop_nearest.
Qed.
