(* ===== verification/Schedule.v ===== *)
(** * Vesting schedules: [x/vesting/types/schedule.go] and [utils.go]

    A schedule is a start time and a list of periods, each a length in seconds
    and an amount of coins released at its end.  All times are [int64] seconds
    and wrap around as in Go; the theorems state the range in which no sum
    wraps. *)

From S2P Require Import Prelude Sdk.

(** ** [sdkvesting.Period] and the two methods the module calls *)

Record Period (C : Type) := mkPeriod { Length : Z; Amount : C }.
Arguments mkPeriod {C} _ _.
Arguments Length {C} _.
Arguments Amount {C} _.

Class SdkPeriods (C : Type) := {
  (** [periods.TotalLength()] *)
  total_length : list (Period C) → Z;
  (** [periods.TotalAmount()] *)
  total_amount : list (Period C) → C;
}.

Class SdkPeriodsLaws (C : Type) `{SdkCoins C, SdkPeriods C} := {
  total_length_spec ps : total_length ps = wrap64 (sumZ Length ps);
  total_amount_valid ps :
    Forall (λ p, coins_valid (Amount p) = true) ps → coins_valid (total_amount ps) = true;
  total_amount_spec ps d :
    Forall (λ p, coins_valid (Amount p) = true) ps →
    amount_of (total_amount ps) d = sumZ (λ p, amount_of (Amount p) d) ps;
}.

(** ** [utils.go] *)

Definition Max64 (i j : Z) : Z := if j <? i then i else j.
Definition Min64 (i j : Z) : Z := if i <? j then i else j.

Section schedule.
Context {C : Type} `{SdkCoins C}.

Definition coinEq (a b : C) : bool := coins_is_all_lte a b && coins_is_all_lte b a.

(** ** [ReadSchedule] *)

Fixpoint read_schedule_loop (readTime elapsedTime : Z) (coins : C) (periods : list (Period C)) : C :=
  match periods with
  | [] => coins
  | period :: rest =>
      if readTime <? elapsedTime +i Length period then coins
      else read_schedule_loop readTime (elapsedTime +i Length period)
             (coins_add coins (Amount period)) rest
  end.

Definition ReadSchedule (startTime endTime : Z) (periods : list (Period C))
    (totalCoins : C) (readTime : Z) : C :=
  if readTime <=? startTime then coins_empty
  else if endTime <=? readTime then totalCoins
  else read_schedule_loop readTime startTime coins_empty periods.

(** ** [ReadPastPeriodCount] *)

Fixpoint past_period_loop (readTime elapsedTime : Z) (passed : nat) (periods : list (Period C)) : nat :=
  match periods with
  | [] => passed
  | period :: rest =>
      if readTime <? elapsedTime +i Length period then passed
      else past_period_loop readTime (elapsedTime +i Length period) (S passed) rest
  end.

Definition ReadPastPeriodCount (startTime endTime : Z) (periods : list (Period C))
    (readTime : Z) : nat :=
  if readTime <=? startTime then 0%nat
  else if endTime <=? readTime then length periods
  else past_period_loop readTime startTime 0%nat periods.

(** ** [DisjunctPeriods]

    The local variables the closures share are the fields of [dstate]; an index
    into a period slice is the suffix of the periods not merged yet. *)

Record dstate := mkD {
  d_timeA : Z; d_timeB : Z;
  d_restA : list (Period C); d_restB : list (Period C);
  d_end : Z; d_out : list (Period C);
}.

Definition d_emit (nextTime : Z) (amount : C) (st : dstate) : dstate :=
  mkD (d_timeA st) (d_timeB st) (d_restA st) (d_restB st) nextTime
      (d_out st ++ [mkPeriod (nextTime -i d_end st) amount]).

Definition d_consumeA (nextTime : Z) (a : Period C) (restA : list (Period C)) (st : dstate) : dstate :=
  let st := d_emit nextTime (Amount a) st in
  mkD nextTime (d_timeB st) restA (d_restB st) (d_end st) (d_out st).

Definition d_consumeB (nextTime : Z) (b : Period C) (restB : list (Period C)) (st : dstate) : dstate :=
  let st := d_emit nextTime (Amount b) st in
  mkD (d_timeA st) nextTime (d_restA st) restB (d_end st) (d_out st).

Definition d_consumeBoth (nextTime : Z) (a b : Period C) (restA restB : list (Period C))
    (st : dstate) : dstate :=
  let st := d_emit nextTime (coins_add (Amount a) (Amount b)) st in
  mkD nextTime nextTime restA restB (d_end st) (d_out st).

(** One iteration of the three loops: the first runs while both schedules have
    events, the other two drain what is left; [None] when all are consumed. *)
Definition d_step (st : dstate) : option dstate :=
  match d_restA st, d_restB st with
  | a :: restA, b :: restB =>
      let nextA := d_timeA st +i Length a in
      let nextB := d_timeB st +i Length b in
      Some (if nextA <? nextB then d_consumeA nextA a restA st
            else if nextB <? nextA then d_consumeB nextB b restB st
            else d_consumeBoth nextA a b restA restB st)
  | a :: restA, [] => Some (d_consumeA (d_timeA st +i Length a) a restA st)
  | [], b :: restB => Some (d_consumeB (d_timeB st +i Length b) b restB st)
  | [], [] => None
  end.

Fixpoint d_loop (fuel : nat) (st : dstate) : dstate :=
  match fuel with
  | O => st
  | S fuel => match d_step st with None => st | Some st' => d_loop fuel st' end
  end.

Definition DisjunctPeriods (startA startB : Z) (periodsA periodsB : list (Period C))
    : Z * Z * list (Period C) :=
  let startTime := Min64 startA startB in
  let st := d_loop (length periodsA + length periodsB)
              (mkD startA startB periodsA periodsB startTime []) in
  (startTime, d_end st, d_out st).

(** ** [ConjunctPeriods] *)

Record cstate := mkC {
  c_timeA : Z; c_timeB : Z;
  c_restA : list (Period C); c_restB : list (Period C);
  c_time : Z; c_amount : C; c_totalA : C; c_totalB : C;
  c_out : list (Period C);
}.

Definition c_emit (nextTime : Z) (coins : C) (st : cstate) : cstate :=
  mkC (c_timeA st) (c_timeB st) (c_restA st) (c_restB st) nextTime
      (coins_add (c_amount st) coins) (c_totalA st) (c_totalB st)
      (c_out st ++ [mkPeriod (nextTime -i c_time st) coins]).

(** The body the three closures share: emit the growth of the minimum. *)
Definition c_emit_min (nextTime : Z) (st : cstate) : outcome cstate :=
  let min := coins_min (c_totalA st) (c_totalB st) in
  if coins_is_all_lte (c_amount st) min then
    let? diff := coins_sub min (c_amount st) in
    Ok (if coins_is_zero diff then st else c_emit nextTime diff st)
  else Ok st.

Definition c_addA (a : Period C) (st : cstate) : cstate :=
  mkC (c_timeA st) (c_timeB st) (c_restA st) (c_restB st) (c_time st) (c_amount st)
      (coins_add (c_totalA st) (Amount a)) (c_totalB st) (c_out st).
Definition c_addB (b : Period C) (st : cstate) : cstate :=
  mkC (c_timeA st) (c_timeB st) (c_restA st) (c_restB st) (c_time st) (c_amount st)
      (c_totalA st) (coins_add (c_totalB st) (Amount b)) (c_out st).
Definition c_moveA (nextTime : Z) (restA : list (Period C)) (st : cstate) : cstate :=
  mkC nextTime (c_timeB st) restA (c_restB st) (c_time st) (c_amount st)
      (c_totalA st) (c_totalB st) (c_out st).
Definition c_moveB (nextTime : Z) (restB : list (Period C)) (st : cstate) : cstate :=
  mkC (c_timeA st) nextTime (c_restA st) restB (c_time st) (c_amount st)
      (c_totalA st) (c_totalB st) (c_out st).

Definition c_consumeA (nextTime : Z) (a : Period C) restA (st : cstate) : outcome cstate :=
  let? st := c_emit_min nextTime (c_addA a st) in Ok (c_moveA nextTime restA st).
Definition c_consumeB (nextTime : Z) (b : Period C) restB (st : cstate) : outcome cstate :=
  let? st := c_emit_min nextTime (c_addB b st) in Ok (c_moveB nextTime restB st).
Definition c_consumeBoth (nextTime : Z) (a b : Period C) restA restB (st : cstate) : outcome cstate :=
  let? st := c_emit_min nextTime (c_addB b (c_addA a st)) in
  Ok (c_moveB nextTime restB (c_moveA nextTime restA st)).

Definition c_step (st : cstate) : option (outcome cstate) :=
  match c_restA st, c_restB st with
  | a :: restA, b :: restB =>
      let nextA := c_timeA st +i Length a in
      let nextB := c_timeB st +i Length b in
      Some (if nextA <? nextB then c_consumeA nextA a restA st
            else if nextB <? nextA then c_consumeB nextB b restB st
            else c_consumeBoth nextA a b restA restB st)
  | a :: restA, [] => Some (c_consumeA (c_timeA st +i Length a) a restA st)
  | [], b :: restB => Some (c_consumeB (c_timeB st +i Length b) b restB st)
  | [], [] => None
  end.

Fixpoint c_loop (fuel : nat) (st : cstate) : outcome cstate :=
  match fuel with
  | O => Ok st
  | S fuel =>
      match c_step st with
      | None => Ok st
      | Some o => let? st' := o in c_loop fuel st'
      end
  end.

Definition ConjunctPeriods (startA startB : Z) (periodsA periodsB : list (Period C))
    : outcome (Z * Z * list (Period C)) :=
  let startTime := Min64 startA startB in
  let? st := c_loop (length periodsA + length periodsB)
               (mkC startA startB periodsA periodsB startTime
                    coins_empty coins_empty coins_empty []) in
  Ok (startTime, c_time st, c_out st).

(** ** [AlignSchedules]

    The code extends the first period of each slice in place; the model
    returns the two updated slices with the times. *)

Definition extend_first (delta : Z) (ps : list (Period C)) : list (Period C) :=
  match ps with
  | [] => []
  | p :: rest => mkPeriod (Length p +i delta) (Amount p) :: rest
  end.

Definition AlignSchedules `{SdkPeriods C} (startA startB : Z)
    (periodsA periodsB : list (Period C))
    : Z * Z * list (Period C) * list (Period C) :=
  let startTime := Min64 startA startB in
  let periodsA := extend_first (startA -i startTime) periodsA in
  let periodsB := extend_first (startB -i startTime) periodsB in
  let endA := startTime +i total_length periodsA in
  let endB := startTime +i total_length periodsB in
  (startTime, Max64 endA endB, periodsA, periodsB).

End schedule.
Arguments dstate : clear implicits.
Arguments cstate : clear implicits.

(** ** The abstract schedule

    A schedule denotes the list of its events in absolute time; what it has
    released at time [t] is the sum of the events up to and including [t]. *)

Section spec.
Context {C : Type} `{SdkCoinsLaws C}.

Fixpoint events (start : Z) (ps : list (Period C)) : list (Z * C) :=
  match ps with
  | [] => []
  | p :: rest => (start + Length p, Amount p) :: events (start + Length p) rest
  end.

Definition released (d : string) (t : Z) (evs : list (Z * C)) : Z :=
  sumZ (λ e, if e.1 <=? t then amount_of e.2 d else 0) evs.

#[local] Arguments released : simpl never.

Definition sched_end (start : Z) (ps : list (Period C)) : Z := start + sumZ Length ps.
Definition sched_total (d : string) (ps : list (Period C)) : Z :=
  sumZ (λ p, amount_of (Amount p) d) ps.

Definition period_ok (p : Period C) : Prop :=
  0 ≤ Length p ∧ coins_valid (Amount p) = true.

(** Times at which no [int64] sum or difference of the schedule code wraps. *)
Definition safe_time (t : Z) : Prop := - 2^62 ≤ t < 2^62.

Definition sched_ok (start : Z) (ps : list (Period C)) : Prop :=
  Forall period_ok ps ∧ safe_time start ∧ safe_time (sched_end start ps).

Lemma sumZ_length_nonneg ps : Forall period_ok ps → 0 ≤ sumZ Length ps.
Proof. intros Hp. apply sumZ_nonneg. eapply Forall_impl; eauto. by intros ? []. Qed.

Lemma sched_ok_cons start p ps :
  sched_ok start (p :: ps) →
  period_ok p ∧ in_int64 (start + Length p) ∧ safe_time (start + Length p) ∧
  sched_ok (start + Length p) ps.
Proof.
  intros (Hp & Hs & He). apply Forall_cons in Hp as [Hp Hps].
  pose proof (sumZ_length_nonneg _ Hps). destruct Hp as [Hl Hv].
  unfold sched_ok, sched_end, safe_time, in_int64, period_ok in *. simpl in *.
  repeat split; auto; lia.
Qed.

Lemma events_app start ps p :
  events start (ps ++ [p]) = events start ps ++ [(sched_end start ps + Length p, Amount p)].
Proof.
  revert start. induction ps as [|q ps IH]; intros start; unfold sched_end; simpl.
  - by rewrite Z.add_0_r.
  - rewrite IH. unfold sched_end. by rewrite Z.add_assoc.
Qed.

Lemma sched_end_app start ps p :
  sched_end start (ps ++ [p]) = sched_end start ps + Length p.
Proof. unfold sched_end. rewrite sumZ_app. simpl. lia. Qed.

Lemma released_nil d t : released d t [] = 0.
Proof. done. Qed.

Lemma released_cons d t e evs :
  released d t (e :: evs) = (if e.1 <=? t then amount_of e.2 d else 0) + released d t evs.
Proof. done. Qed.

Lemma released_app d t a b : released d t (a ++ b) = released d t a + released d t b.
Proof. apply sumZ_app. Qed.

Lemma events_time_ge start ps :
  Forall period_ok ps → Forall (λ e, start ≤ e.1) (events start ps).
Proof.
  intros Hp. revert start. induction Hp as [|p ps [Hl Hv] Hps IH]; intros start; simpl; constructor.
  - simpl. lia.
  - eapply Forall_impl; [apply IH|]. simpl. lia.
Qed.

Lemma events_time_le start ps :
  Forall period_ok ps → Forall (λ e, e.1 ≤ sched_end start ps) (events start ps).
Proof.
  intros Hp. revert start. induction Hp as [|p ps [Hl Hv] Hps IH]; intros start; simpl; constructor.
  - simpl. unfold sched_end. simpl. pose proof (sumZ_length_nonneg _ Hps). lia.
  - eapply Forall_impl; [apply IH|]. unfold sched_end. simpl. lia.
Qed.

Lemma released_before d t evs : Forall (λ e, t < e.1) evs → released d t evs = 0.
Proof.
  induction 1 as [|e evs He Hes IH]; [done|]. rewrite released_cons, IH. destruct (Z.leb_spec e.1 t); lia.
Qed.

Lemma released_after d t start ps :
  Forall period_ok ps → sched_end start ps ≤ t →
  released d t (events start ps) = sched_total d ps.
Proof.
  intros Hp. revert start. induction Hp as [|p ps [Hl Hv] Hps IH]; intros start He; [done|].
  simpl. rewrite released_cons. unfold sched_total in *; simpl.
  pose proof (sumZ_length_nonneg _ Hps). unfold sched_end in *; simpl in *.
  rewrite IH by lia. destruct (Z.leb_spec (start + Length p) t); lia.
Qed.

Lemma released_nonneg d t start ps :
  Forall period_ok ps → 0 ≤ released d t (events start ps).
Proof.
  intros Hp. revert start. induction Hp as [|p ps [Hl Hv] Hps IH]; intros start; [done|].
  simpl. rewrite released_cons; simpl. specialize (IH (start + Length p)).
  pose proof (valid_nonneg _ d Hv). destruct (_ <=? _); lia.
Qed.

(** What a schedule has released never decreases. *)
Lemma released_mono d t t' start ps :
  Forall period_ok ps → t ≤ t' →
  released d t (events start ps) ≤ released d t' (events start ps).
Proof.
  intros Hp Ht. revert start. induction Hp as [|p ps [Hl Hv] Hps IH]; intros start; [done|].
  simpl. rewrite !released_cons; simpl. specialize (IH (start + Length p)).
  pose proof (valid_nonneg _ d Hv).
  destruct (Z.leb_spec (start + Length p) t), (Z.leb_spec (start + Length p) t'); lia.
Qed.

Lemma sched_total_nonneg d ps : Forall period_ok ps → 0 ≤ sched_total d ps.
Proof.
  intros Hp. apply sumZ_nonneg. eapply Forall_impl; eauto. intros p []. by apply valid_nonneg.
Qed.

Lemma released_le_total d t start ps :
  Forall period_ok ps → released d t (events start ps) ≤ sched_total d ps.
Proof.
  intros Hp. rewrite <- (released_after d (Z.max t (sched_end start ps)) start ps) by (auto; lia).
  apply released_mono; auto; lia.
Qed.

(** *** [ReadSchedule] against the abstract schedule *)

Lemma read_schedule_loop_spec t e coins ps d :
  sched_ok e ps → coins_valid coins = true →
  coins_valid (read_schedule_loop t e coins ps) = true ∧
  amount_of (read_schedule_loop t e coins ps) d = amount_of coins d + released d t (events e ps).
Proof.
  revert e coins. induction ps as [|p ps IH]; intros e coins Hok Hv; simpl.
  { unfold released; simpl; split; [done|lia]. }
  destruct (sched_ok_cons _ _ _ Hok) as ([Hl Ha] & Hin & _ & Hok').
  rewrite wrap64_id by done. destruct (Z.ltb_spec t (e + Length p)).
  - split; [done|]. rewrite released_before; [lia|].
    constructor; simpl; [lia|]. destruct Hok' as [Hp _].
    eapply Forall_impl; [apply (events_time_ge _ _ Hp)|]. simpl. lia.
  - edestruct (IH (e + Length p) (coins_add coins (Amount p))) as [Hv' Hamt]; eauto with evmos.
    split; [done|]. rewrite Hamt, amount_add by done.
    rewrite released_cons; simpl. destruct (Z.leb_spec (e + Length p) t); lia.
Qed.

Lemma ReadSchedule_valid start end_ ps total t :
  sched_ok start ps → coins_valid total = true →
  coins_valid (ReadSchedule start end_ ps total t) = true.
Proof.
  intros Hok Ht. unfold ReadSchedule. destruct (_ <=? _); [apply valid_empty|].
  destruct (_ <=? _); [done|].
  apply (read_schedule_loop_spec _ _ _ _ ""%string); auto with evmos.
Qed.

(** A schedule whose recorded end and total agree with its periods. *)
Definition sched_wf (start end_ : Z) (ps : list (Period C)) (total : C) : Prop :=
  sched_ok start ps ∧ coins_valid total = true ∧ sched_end start ps ≤ end_ ∧
  ∀ d, amount_of total d = sched_total d ps.

Lemma ReadSchedule_released start end_ ps total t d :
  sched_wf start end_ ps total →
  amount_of (ReadSchedule start end_ ps total t) d =
  if t <=? start then 0 else released d t (events start ps).
Proof.
  intros (Hok & Hv & He & Htot). unfold ReadSchedule.
  destruct (Z.leb_spec t start); [apply amount_empty|].
  destruct (Z.leb_spec end_ t).
  - rewrite released_after; [apply Htot|apply Hok|lia].
  - edestruct (read_schedule_loop_spec t start coins_empty ps d) as [_ ->]; auto with evmos.
    by rewrite amount_empty.
Qed.

(** *** [ReadPastPeriodCount] *)

Lemma past_period_loop_acc t e n (ps : list (Period C)) :
  past_period_loop t e n ps = (n + past_period_loop t e 0 ps)%nat.
Proof.
  revert e n. induction ps as [|p ps IH]; intros e n; simpl; [lia|].
  destruct (_ <? _); [lia|]. rewrite IH, (IH _ 1%nat). lia.
Qed.

Lemma past_period_loop_le t e (ps : list (Period C)) : (past_period_loop t e 0 ps ≤ length ps)%nat.
Proof.
  revert e. induction ps as [|p ps IH]; intros e; simpl; [lia|].
  destruct (_ <? _); [lia|]. rewrite past_period_loop_acc. specialize (IH (e +i Length p)). lia.
Qed.

Lemma past_period_loop_split t e ps :
  sched_ok e ps → e ≤ t →
  let n := past_period_loop t e 0 ps in
  sched_end e (take n ps) ≤ t ∧
  ∀ d, released d t (events e ps) = sched_total d (take n ps).
Proof.
  revert e. induction ps as [|p ps IH]; intros e Hok Het; simpl.
  { split; [unfold sched_end; simpl; lia|done]. }
  destruct (sched_ok_cons _ _ _ Hok) as ([Hl Ha] & Hin & _ & Hok').
  rewrite wrap64_id by done. destruct (Z.ltb_spec t (e + Length p)).
  - simpl. split; [unfold sched_end; simpl; lia|]. intros d. apply released_before.
    constructor; simpl; [lia|]. destruct Hok' as [Hp _].
    eapply Forall_impl; [apply (events_time_ge _ _ Hp)|]. simpl. lia.
  - rewrite past_period_loop_acc. simpl. destruct (IH _ Hok') as [He Hr]; [lia|]. split.
    + unfold sched_end in *; simpl. lia.
    + intros d. specialize (Hr d). rewrite released_cons. unfold sched_total in *; simpl.
      destruct (Z.leb_spec (e + Length p) t); lia.
Qed.

Lemma ReadPastPeriodCount_le start end_ (ps : list (Period C)) t :
  (ReadPastPeriodCount start end_ ps t ≤ length ps)%nat.
Proof.
  unfold ReadPastPeriodCount. destruct (_ <=? _); [lia|]. destruct (_ <=? _); [lia|].
  apply past_period_loop_le.
Qed.

(** The periods counted as passed are exactly those [ReadSchedule] sums. *)
Lemma ReadPastPeriodCount_sum start end_ ps total t d :
  sched_wf start end_ ps total →
  amount_of (ReadSchedule start end_ ps total t) d =
  sched_total d (take (ReadPastPeriodCount start end_ ps t) ps).
Proof.
  intros Hwf. rewrite ReadSchedule_released by done.
  destruct Hwf as (Hok & Hv & He & Htot). unfold ReadPastPeriodCount.
  destruct (Z.leb_spec t start); [done|]. destruct (Z.leb_spec end_ t).
  - rewrite firstn_all. apply released_after; [apply Hok|lia].
  - apply past_period_loop_split; [done|lia].
Qed.

Lemma ReadPastPeriodCount_end start end_ ps total t :
  sched_wf start end_ ps total → start < t →
  sched_end start (take (ReadPastPeriodCount start end_ ps t) ps) ≤ t.
Proof.
  intros (Hok & Hv & He & Htot) Hst. unfold ReadPastPeriodCount.
  destruct (Z.leb_spec t start); [lia|]. destruct (Z.leb_spec end_ t).
  - rewrite firstn_all. lia.
  - apply past_period_loop_split; [done|lia].
Qed.

(** *** Prefixes of a schedule *)

Lemma events_split start ps qs :
  events start (ps ++ qs) = events start ps ++ events (sched_end start ps) qs.
Proof.
  revert start. induction ps as [|p ps IH]; intros start; unfold sched_end; simpl.
  - by rewrite Z.add_0_r.
  - rewrite IH. unfold sched_end. by rewrite Z.add_assoc.
Qed.

Lemma sched_end_split start ps qs :
  sched_end start (ps ++ qs) = sched_end start ps + sumZ Length qs.
Proof. unfold sched_end. rewrite sumZ_app. lia. Qed.

Lemma sched_ok_take start ps n : sched_ok start ps → sched_ok start (take n ps).
Proof.
  intros (Hp & Hs & He). rewrite <- (firstn_skipn n ps) in Hp, He.
  apply Forall_app in Hp as [Hp1 Hp2]. split; [done|]. split; [done|].
  rewrite sched_end_split in He. pose proof (sumZ_length_nonneg _ Hp1).
  pose proof (sumZ_length_nonneg _ Hp2). unfold safe_time, sched_end in *. lia.
Qed.

(** A prefix has released what the whole schedule has, capped at its own total. *)
Lemma released_take d t start ps n :
  Forall period_ok ps →
  released d t (events start (take n ps)) =
  Z.min (released d t (events start ps)) (sched_total d (take n ps)).
Proof.
  intros Hp. rewrite <- (firstn_skipn n ps) in Hp. apply Forall_app in Hp as [Hp1 Hp2].
  rewrite <- (firstn_skipn n ps) at 2. rewrite events_split, released_app.
  pose proof (released_le_total d t start _ Hp1).
  destruct (decide (sched_end start (take n ps) ≤ t)) as [Hle|Hgt].
  - rewrite (released_after d t start) in * by done.
    pose proof (released_nonneg d t (sched_end start (take n ps)) _ Hp2). lia.
  - rewrite (released_before d t (events (sched_end start (take n ps)) (drop n ps))); [lia|].
    eapply Forall_impl; [apply (events_time_ge _ _ Hp2)|]. simpl. lia.
Qed.

End spec.
