(* ===== verification/ScheduleMerge.v ===== *)
(** * Merging schedules: correctness of [DisjunctPeriods], [ConjunctPeriods]
    and [AlignSchedules] against the abstract schedule *)

From S2P Require Import Prelude Sdk Schedule.

Section merge.
Context {C : Type} `{SdkCoinsLaws C}.
Implicit Types ps qs out : list (Period C).
#[local] Arguments released : simpl never.

(** The output of both merges is a list of periods that starts at [s0], ends at
    [e] and has only non-negative lengths and valid amounts. *)
Definition out_ok (s0 e : Z) out : Prop :=
  Forall period_ok out ∧ e = sched_end s0 out ∧ safe_time e.

Lemma out_ok_nil s0 : safe_time s0 → out_ok s0 s0 [].
Proof. intros. repeat split; auto; try apply H1. unfold sched_end; simpl; lia. Qed.

Lemma out_ok_emit s0 e out τ c :
  out_ok s0 e out → e ≤ τ → safe_time τ → coins_valid c = true →
  out_ok s0 τ (out ++ [mkPeriod (τ -i e) c]) ∧
  ∀ d t, released d t (events s0 (out ++ [mkPeriod (τ -i e) c])) =
         released d t (events s0 out) + (if τ <=? t then amount_of c d else 0).
Proof.
  intros (Hok & He & Hse) Hle Hst Hv.
  assert (Hw : wrap64 (τ - e) = τ - e).
  { apply wrap64_id. unfold in_int64, safe_time in *. lia. }
  rewrite Hw. split; [split; [|split]|].
  - apply Forall_app; split; [done|]. constructor; [|done]. split; simpl; [lia|done].
  - rewrite sched_end_app. simpl. lia.
  - done.
  - intros d t. rewrite events_app, released_app, released_cons. simpl.
    rewrite <- He. replace (e + (τ - e)) with τ by lia. rewrite released_nil. lia.
Qed.

(** Every event of a pending schedule happens at [b] or later. *)
Definition not_before (b time : Z) ps : Prop := Forall (λ e, b ≤ e.1) (events time ps).

Lemma not_before_next b time p ps :
  sched_ok time (p :: ps) → b ≤ time + Length p → not_before b time (p :: ps).
Proof.
  intros Hok Hb. destruct (sched_ok_cons _ _ _ Hok) as (_ & _ & _ & [Hp _]).
  constructor; simpl; [done|]. eapply Forall_impl; [apply (events_time_ge _ _ Hp)|].
  simpl. lia.
Qed.

Lemma not_before_cons b time p ps :
  not_before b time (p :: ps) → b ≤ time + Length p.
Proof. intros Hn. by apply Forall_cons in Hn as [? _]. Qed.

Lemma not_before_tail b time p ps :
  not_before b time (p :: ps) → not_before b (time + Length p) ps.
Proof. intros Hn. by apply Forall_cons in Hn as [_ ?]. Qed.

Lemma not_before_after time p ps :
  sched_ok time (p :: ps) → not_before (time + Length p) (time + Length p) ps.
Proof.
  intros Hok. destruct (sched_ok_cons _ _ _ Hok) as (_ & _ & _ & [Hp _]).
  by apply events_time_ge.
Qed.

Lemma not_before_start time ps b : Forall period_ok ps → b ≤ time → not_before b time ps.
Proof.
  intros Hp Hb. eapply Forall_impl; [apply (events_time_ge _ _ Hp)|]. simpl. lia.
Qed.

#[local] Hint Resolve not_before_tail not_before_after not_before_next : evmos.

(** ** [DisjunctPeriods] *)

Record d_inv (s0 : Z) (val : string → Z → Z) (st : dstate C) : Prop := {
  di_out : out_ok s0 (d_end st) (d_out st);
  di_A : sched_ok (d_timeA st) (d_restA st);
  di_B : sched_ok (d_timeB st) (d_restB st);
  di_nA : not_before (d_end st) (d_timeA st) (d_restA st);
  di_nB : not_before (d_end st) (d_timeB st) (d_restB st);
  di_val : ∀ d t, released d t (events s0 (d_out st)) +
                  released d t (events (d_timeA st) (d_restA st)) +
                  released d t (events (d_timeB st) (d_restB st)) = val d t;
}.

Definition d_left (st : dstate C) : nat := length (d_restA st) + length (d_restB st).

Lemma d_consumeA_inv s0 val st a restA :
  d_inv s0 val st → d_restA st = a :: restA →
  not_before (d_timeA st + Length a) (d_timeB st) (d_restB st) →
  d_inv s0 val (d_consumeA (d_timeA st +i Length a) a restA st).
Proof.
  intros [Ho HA HB HnA HnB Hv] Er Hnext. rewrite Er in *.
  destruct (sched_ok_cons _ _ _ HA) as ([Hl Ha] & Hin & Hs & HA').
  destruct (out_ok_emit s0 _ _ (d_timeA st + Length a) (Amount a) Ho) as [Ho' Hr];
    eauto using not_before_cons.
  rewrite (wrap64_id _ Hin). constructor; simpl; auto with evmos.
  intros d t. rewrite Hr, <- Hv. simpl. rewrite released_cons. simpl. lia.
Qed.

Lemma d_consumeB_inv s0 val st b restB :
  d_inv s0 val st → d_restB st = b :: restB →
  not_before (d_timeB st + Length b) (d_timeA st) (d_restA st) →
  d_inv s0 val (d_consumeB (d_timeB st +i Length b) b restB st).
Proof.
  intros [Ho HA HB HnA HnB Hv] Er Hnext. rewrite Er in *.
  destruct (sched_ok_cons _ _ _ HB) as ([Hl Hb] & Hin & Hs & HB').
  destruct (out_ok_emit s0 _ _ (d_timeB st + Length b) (Amount b) Ho) as [Ho' Hr];
    eauto using not_before_cons.
  rewrite (wrap64_id _ Hin). constructor; simpl; auto with evmos.
  intros d t. rewrite Hr, <- Hv. simpl. rewrite released_cons. simpl. lia.
Qed.

Lemma d_consumeBoth_inv s0 val st a b restA restB :
  d_inv s0 val st → d_restA st = a :: restA → d_restB st = b :: restB →
  d_timeA st + Length a = d_timeB st + Length b →
  d_inv s0 val (d_consumeBoth (d_timeA st +i Length a) a b restA restB st).
Proof.
  intros [Ho HA HB HnA HnB Hv] ErA ErB Heq. rewrite ErA, ErB in *.
  destruct (sched_ok_cons _ _ _ HA) as ([Hl Ha] & Hin & Hs & HA').
  destruct (sched_ok_cons _ _ _ HB) as ([Hl' Hb] & Hin' & Hs' & HB').
  destruct (out_ok_emit s0 _ _ (d_timeA st + Length a) (coins_add (Amount a) (Amount b)) Ho)
    as [Ho' Hr]; eauto using not_before_cons with evmos.
  rewrite (wrap64_id _ Hin). constructor; simpl; auto with evmos.
  - by rewrite Heq.
  - rewrite Heq. auto with evmos.
  - intros d t. rewrite Hr, <- Hv, amount_add by done. simpl. rewrite !released_cons. simpl.
    rewrite <- Heq. destruct (_ <=? _); lia.
Qed.

Lemma d_step_inv s0 val st st' :
  d_inv s0 val st → d_step st = Some st' →
  d_inv s0 val st' ∧ (d_left st' < d_left st)%nat.
Proof.
  intros Hi. unfold d_step, d_left. pose proof Hi as [_ HA HB _ _ _].
  destruct (d_restA st) as [|a restA] eqn:EA, (d_restB st) as [|b restB] eqn:EB;
    intros Hs; try discriminate; injection Hs as <-.
  - split; [|simpl; rewrite EA; simpl; lia]. apply d_consumeB_inv; auto. rewrite EA. constructor.
  - split; [|simpl; rewrite EB; simpl; lia]. apply d_consumeA_inv; auto. rewrite EB. constructor.
  - destruct (sched_ok_cons _ _ _ HA) as (_ & HinA & _ & _).
    destruct (sched_ok_cons _ _ _ HB) as (_ & HinB & _ & _).
    rewrite (wrap64_id _ HinA), (wrap64_id _ HinB).
    destruct (Z.ltb_spec (d_timeA st + Length a) (d_timeB st + Length b)).
    { split; [|simpl; rewrite EB; simpl; lia]. rewrite <- (wrap64_id _ HinA).
      apply d_consumeA_inv; auto. rewrite EB. apply not_before_next; [done|lia]. }
    destruct (Z.ltb_spec (d_timeB st + Length b) (d_timeA st + Length a)).
    { split; [|simpl; rewrite EA; simpl; lia]. rewrite <- (wrap64_id _ HinB).
      apply d_consumeB_inv; auto. rewrite EA. apply not_before_next; [done|lia]. }
    split; [|simpl; lia]. rewrite <- (wrap64_id _ HinA). apply d_consumeBoth_inv; auto. lia.
Qed.

Lemma d_loop_inv s0 val fuel st :
  d_inv s0 val st → (d_left st ≤ fuel)%nat →
  d_inv s0 val (d_loop fuel st) ∧
  d_restA (d_loop fuel st) = [] ∧ d_restB (d_loop fuel st) = [].
Proof.
  revert st. induction fuel as [|fuel IH]; intros st Hi Hf; simpl.
  - unfold d_left in Hf. destruct (d_restA st), (d_restB st); simpl in *; try lia. auto.
  - destruct (d_step st) as [st'|] eqn:Es.
    + destruct (d_step_inv _ _ _ _ Hi Es). apply IH; [done|lia].
    + unfold d_step in Es. destruct (d_restA st) eqn:?, (d_restB st) eqn:?; try discriminate.
      auto.
Qed.

Lemma Min64_spec i j : Min64 i j = Z.min i j.
Proof. unfold Min64. destruct (Z.ltb_spec i j); lia. Qed.
Lemma Max64_spec i j : Max64 i j = Z.max i j.
Proof. unfold Max64. destruct (Z.ltb_spec j i); lia. Qed.

(** What the merged schedule has released is the sum of what the two schedules
    have released, at every time; its end is the time of its last event. *)
Lemma DisjunctPeriods_spec sA sB ps qs s e out :
  sched_ok sA ps → sched_ok sB qs →
  DisjunctPeriods sA sB ps qs = (s, e, out) →
  s = Z.min sA sB ∧ e = sched_end s out ∧ sched_ok s out ∧
  ∀ d t, released d t (events s out) =
         released d t (events sA ps) + released d t (events sB qs).
Proof.
  intros HA HB. unfold DisjunctPeriods. rewrite Min64_spec.
  set (st0 := mkD _ _ _ _ _ _). intros Hd.
  assert (Hm : safe_time (Z.min sA sB)).
  { destruct HA as (_ & ? & _), HB as (_ & ? & _). unfold safe_time in *. lia. }
  assert (Hi : d_inv (Z.min sA sB)
    (λ d t, released d t (events sA ps) + released d t (events sB qs)) st0).
  { constructor; simpl; auto.
    - by apply out_ok_nil.
    - apply not_before_start; [apply HA|lia].
    - apply not_before_start; [apply HB|lia]. }
  destruct (d_loop_inv _ _ (length ps + length qs) _ Hi) as ([Ho _ _ _ _ Hv] & EA & EB);
    [unfold d_left; simpl; lia|].
  injection Hd as <- <- <-. destruct Ho as (Hok & He & Hse).
  repeat split; auto; try apply Hm; try (rewrite <- He; apply Hse).
  intros d t. rewrite <- Hv, EA, EB. simpl. rewrite !released_nil. lia.
Qed.

(** ** [ConjunctPeriods]

    [b] is the time of the last event processed. Up to [b] the output already
    has the value of the minimum; from [b] on it is the running minimum of the
    two running totals. *)

Record c_inv (s0 : Z) (vA vB : string → Z → Z) (b : Z) (st : cstate C) : Prop := {
  ci_out : out_ok s0 (c_time st) (c_out st);
  ci_time : c_time st ≤ b;
  ci_A : sched_ok (c_timeA st) (c_restA st);
  ci_B : sched_ok (c_timeB st) (c_restB st);
  ci_nA : not_before b (c_timeA st) (c_restA st);
  ci_nB : not_before b (c_timeB st) (c_restB st);
  ci_vamt : coins_valid (c_amount st) = true;
  ci_vtA : coins_valid (c_totalA st) = true;
  ci_vtB : coins_valid (c_totalB st) = true;
  ci_min : ∀ d, amount_of (c_amount st) d =
                Z.min (amount_of (c_totalA st) d) (amount_of (c_totalB st) d);
  ci_now : ∀ d t, b ≤ t → released d t (events s0 (c_out st)) = amount_of (c_amount st) d;
  ci_valA : ∀ d t, b ≤ t →
    amount_of (c_totalA st) d + released d t (events (c_timeA st) (c_restA st)) = vA d t;
  ci_valB : ∀ d t, b ≤ t →
    amount_of (c_totalB st) d + released d t (events (c_timeB st) (c_restB st)) = vB d t;
  ci_past : ∀ d t, t < b → released d t (events s0 (c_out st)) = Z.min (vA d t) (vB d t);
}.

(** The guarded subtraction never panics, and leaves the running minimum. *)
Lemma c_emit_min_spec s0 τ st :
  out_ok s0 (c_time st) (c_out st) → c_time st ≤ τ → safe_time τ →
  coins_valid (c_amount st) = true → coins_valid (c_totalA st) = true →
  coins_valid (c_totalB st) = true →
  (∀ d, amount_of (c_amount st) d ≤
        Z.min (amount_of (c_totalA st) d) (amount_of (c_totalB st) d)) →
  ∃ tm am out,
    c_emit_min τ st = Ok (mkC (c_timeA st) (c_timeB st) (c_restA st) (c_restB st) tm am
                              (c_totalA st) (c_totalB st) out) ∧
    out_ok s0 tm out ∧ tm ≤ τ ∧ coins_valid am = true ∧
    (∀ d, amount_of am d = Z.min (amount_of (c_totalA st) d) (amount_of (c_totalB st) d)) ∧
    ∀ d t, released d t (events s0 out) = released d t (events s0 (c_out st)) +
      (if τ <=? t then amount_of am d - amount_of (c_amount st) d else 0).
Proof.
  intros Ho Ht Hs Hva HvA HvB Hle. unfold c_emit_min.
  set (m := coins_min (c_totalA st) (c_totalB st)).
  assert (Hvm : coins_valid m = true) by (subst m; auto with evmos).
  assert (Hm : ∀ d, amount_of m d = Z.min (amount_of (c_totalA st) d) (amount_of (c_totalB st) d))
    by (intros; by apply amount_min).
  rewrite (proj2 (is_all_lte_spec _ _ Hva Hvm)) by (intros; rewrite Hm; apply Hle).
  destruct (sub_ok m (c_amount st) Hvm Hva) as (diff & -> & Hvd & Hd);
    [intros; rewrite Hm; apply Hle|]. simpl.
  destruct (coins_is_zero diff) eqn:Ez.
  - pose proof (proj1 (is_zero_spec _ Hvd) Ez) as Hz. destruct st; simpl in *.
    eexists _, _, _. split; [reflexivity|]. repeat split; auto; try apply Ho.
    + intros d. specialize (Hz d). rewrite Hd, Hm in Hz. specialize (Hle d). lia.
    + intros d t. destruct (_ <=? _); lia.
  - destruct (out_ok_emit s0 _ _ τ diff Ho) as [Ho' Hr]; auto.
    eexists _, _, _. split; [reflexivity|].
    split; [apply Ho'|]. split; [lia|]. split; [by apply valid_add|].
    assert (Hamt : ∀ d, amount_of (coins_add (c_amount st) diff) d = amount_of m d).
    { intros d. rewrite amount_add by done. rewrite Hd. lia. }
    split; [intros; by rewrite Hamt|]. intros d t. rewrite Hr, Hamt, Hd. done.
Qed.

(** One event at time [τ], the earliest pending one, adding [xA] and [xB] to the
    two running totals. *)
Lemma c_advance s0 vA vB b st τ xA xB cA cB tA tB restA restB :
  c_inv s0 vA vB b st → b ≤ τ → safe_time τ →
  coins_valid cA = true → coins_valid cB = true →
  (∀ d, amount_of cA d = amount_of (c_totalA st) d + xA d ∧ 0 ≤ xA d) →
  (∀ d, amount_of cB d = amount_of (c_totalB st) d + xB d ∧ 0 ≤ xB d) →
  not_before τ (c_timeA st) (c_restA st) → not_before τ (c_timeB st) (c_restB st) →
  sched_ok tA restA → sched_ok tB restB → not_before τ tA restA → not_before τ tB restB →
  (∀ d t, τ ≤ t → released d t (events (c_timeA st) (c_restA st)) =
                  xA d + released d t (events tA restA)) →
  (∀ d t, τ ≤ t → released d t (events (c_timeB st) (c_restB st)) =
                  xB d + released d t (events tB restB)) →
  ∃ tm am out,
    c_emit_min τ (mkC (c_timeA st) (c_timeB st) (c_restA st) (c_restB st) (c_time st)
                      (c_amount st) cA cB (c_out st)) =
      Ok (mkC (c_timeA st) (c_timeB st) (c_restA st) (c_restB st) tm am cA cB out) ∧
    c_inv s0 vA vB τ (mkC tA tB restA restB tm am cA cB out).
Proof.
  intros [Ho Ht HA HB HnA HnB Hva HvA HvB Hmin Hnow HvalA HvalB Hpast]
    Hb Hs HcA HcB HxA HxB HnA' HnB' HA' HB' Hn1 Hn2 HrA HrB.
  destruct (c_emit_min_spec s0 τ (mkC (c_timeA st) (c_timeB st) (c_restA st) (c_restB st)
    (c_time st) (c_amount st) cA cB (c_out st))) as (tm & am & out & E & Ho' & Htm & Hvm & Hm & Hr);
    simpl; auto; [lia| |].
  { intros d. destruct (HxA d), (HxB d). rewrite Hmin. lia. }
  exists tm, am, out. split; [exact E|]. simpl in *.
  constructor; simpl; auto.
  - intros d t Hle. rewrite Hr, Hnow by lia. destruct (Z.leb_spec τ t); lia.
  - intros d t Hle. destruct (HxA d) as [-> _]. rewrite <- HvalA, HrA by lia. lia.
  - intros d t Hle. destruct (HxB d) as [-> _]. rewrite <- HvalB, HrB by lia. lia.
  - intros d t Hlt. rewrite Hr. destruct (Z.leb_spec τ t); [lia|].
    destruct (decide (t < b)); [rewrite Hpast by done; lia|].
    rewrite Hnow, Hmin, <- HvalA, <- HvalB by lia.
    rewrite !released_before; [lia| |];
      eapply Forall_impl; [apply HnB'| |apply HnA'|]; simpl; lia.
Qed.

Lemma released_head d t time p ps :
  time + Length p ≤ t →
  released d t (events time (p :: ps)) =
  amount_of (Amount p) d + released d t (events (time + Length p) ps).
Proof.
  intros Hle. simpl. rewrite released_cons. simpl. destruct (Z.leb_spec (time + Length p) t); lia.
Qed.

Definition c_left (st : cstate C) : nat := length (c_restA st) + length (c_restB st).

Definition c_progress s0 vA vB (st : cstate C) (o : outcome (cstate C)) : Prop :=
  ∃ st' b', o = Ok st' ∧ c_inv s0 vA vB b' st' ∧ (c_left st' < c_left st)%nat.

Lemma c_consumeA_inv s0 vA vB b st a restA :
  c_inv s0 vA vB b st → c_restA st = a :: restA →
  not_before (c_timeA st + Length a) (c_timeB st) (c_restB st) →
  c_progress s0 vA vB st (c_consumeA (c_timeA st +i Length a) a restA st).
Proof.
  intros Hi Er Hn. pose proof Hi as [_ _ HA HB HnA HnB _ HvA HvB _ _ _ _ _].
  rewrite Er in *. destruct (sched_ok_cons _ _ _ HA) as ([Hl Ha] & Hin & Hs & HA').
  rewrite (wrap64_id _ Hin).
  destruct (c_advance s0 vA vB b st (c_timeA st + Length a) (amount_of (Amount a)) (λ _, 0)
    (coins_add (c_totalA st) (Amount a)) (c_totalB st) (c_timeA st + Length a) (c_timeB st)
    restA (c_restB st)) as (tm & am & out & E & Hi');
    rewrite ?Er; eauto using not_before_cons, not_before_after, not_before_next with evmos.
  - intros d. rewrite amount_add by done. split; [done|by apply valid_nonneg].
  - intros d. lia.
  - apply not_before_next; [done|lia].
  - intros d t Hle. by apply released_head.
  - rewrite Er in E. unfold c_progress, c_consumeA, c_addA, c_left. rewrite Er, E. simpl.
    eexists _, _. split; [reflexivity|]. split; [exact Hi'|]. simpl. lia.
Qed.

Lemma c_consumeB_inv s0 vA vB b st p restB :
  c_inv s0 vA vB b st → c_restB st = p :: restB →
  not_before (c_timeB st + Length p) (c_timeA st) (c_restA st) →
  c_progress s0 vA vB st (c_consumeB (c_timeB st +i Length p) p restB st).
Proof.
  intros Hi Er Hn. pose proof Hi as [_ _ HA HB HnA HnB _ HvA HvB _ _ _ _ _].
  rewrite Er in *. destruct (sched_ok_cons _ _ _ HB) as ([Hl Hp] & Hin & Hs & HB').
  rewrite (wrap64_id _ Hin).
  destruct (c_advance s0 vA vB b st (c_timeB st + Length p) (λ _, 0) (amount_of (Amount p))
    (c_totalA st) (coins_add (c_totalB st) (Amount p)) (c_timeA st) (c_timeB st + Length p)
    (c_restA st) restB) as (tm & am & out & E & Hi');
    rewrite ?Er; eauto using not_before_cons, not_before_after, not_before_next with evmos.
  - intros d. lia.
  - intros d. rewrite amount_add by done. split; [done|by apply valid_nonneg].
  - apply not_before_next; [done|lia].
  - intros d t Hle. by apply released_head.
  - rewrite Er in E. unfold c_progress, c_consumeB, c_addB, c_left. rewrite Er, E. simpl.
    eexists _, _. split; [reflexivity|]. split; [exact Hi'|]. simpl. lia.
Qed.

Lemma c_consumeBoth_inv s0 vA vB b st a p restA restB :
  c_inv s0 vA vB b st → c_restA st = a :: restA → c_restB st = p :: restB →
  c_timeA st + Length a = c_timeB st + Length p →
  c_progress s0 vA vB st (c_consumeBoth (c_timeA st +i Length a) a p restA restB st).
Proof.
  intros Hi ErA ErB Heq. pose proof Hi as [_ _ HA HB HnA HnB _ HvA HvB _ _ _ _ _].
  rewrite ErA in *. rewrite ErB in *.
  destruct (sched_ok_cons _ _ _ HA) as ([Hl Ha] & Hin & Hs & HA').
  destruct (sched_ok_cons _ _ _ HB) as ([Hl' Hp] & Hin' & Hs' & HB').
  rewrite (wrap64_id _ Hin). set (τ := c_timeA st + Length a) in *.
  destruct (c_advance s0 vA vB b st τ (amount_of (Amount a)) (amount_of (Amount p))
    (coins_add (c_totalA st) (Amount a)) (coins_add (c_totalB st) (Amount p)) τ τ
    restA restB) as (tm & am & out & E & Hi');
    rewrite ?ErA, ?ErB; eauto using not_before_cons, not_before_after with evmos.
  - intros d. rewrite amount_add by done. split; [done|by apply valid_nonneg].
  - intros d. rewrite amount_add by done. split; [done|by apply valid_nonneg].
  - apply not_before_next; [done|]. subst τ. lia.
  - apply not_before_next; [done|]. subst τ. lia.
  - by rewrite Heq.
  - rewrite Heq. by apply not_before_after.
  - intros d t Hle. by apply released_head.
  - intros d t Hle. rewrite Heq. apply released_head. lia.
  - rewrite ErA, ErB in E. unfold c_progress, c_consumeBoth, c_addA, c_addB, c_left.
    rewrite ErA, ErB. simpl. rewrite E. simpl.
    eexists _, _. split; [reflexivity|]. split; [exact Hi'|]. simpl. lia.
Qed.

Lemma c_step_inv s0 vA vB b st o :
  c_inv s0 vA vB b st → c_step st = Some o → c_progress s0 vA vB st o.
Proof.
  intros Hi. unfold c_step. pose proof Hi as [_ _ HA HB _ _ _ _ _ _ _ _ _ _].
  destruct (c_restA st) as [|a restA] eqn:EA, (c_restB st) as [|p restB] eqn:EB;
    intros Hs; try discriminate; injection Hs as <-.
  - eapply c_consumeB_inv; eauto. rewrite EA. constructor.
  - eapply c_consumeA_inv; eauto. rewrite EB. constructor.
  - destruct (sched_ok_cons _ _ _ HA) as (_ & HinA & _ & _).
    destruct (sched_ok_cons _ _ _ HB) as (_ & HinB & _ & _).
    rewrite (wrap64_id _ HinA), (wrap64_id _ HinB).
    destruct (Z.ltb_spec (c_timeA st + Length a) (c_timeB st + Length p)).
    { rewrite <- (wrap64_id _ HinA). eapply c_consumeA_inv; eauto.
      rewrite EB. apply not_before_next; [done|lia]. }
    destruct (Z.ltb_spec (c_timeB st + Length p) (c_timeA st + Length a)).
    { rewrite <- (wrap64_id _ HinB). eapply c_consumeB_inv; eauto.
      rewrite EA. apply not_before_next; [done|lia]. }
    rewrite <- (wrap64_id _ HinA). eapply c_consumeBoth_inv; eauto. lia.
Qed.

Lemma c_loop_inv s0 vA vB fuel b st :
  c_inv s0 vA vB b st → (c_left st ≤ fuel)%nat →
  ∃ st' b', c_loop fuel st = Ok st' ∧ c_inv s0 vA vB b' st' ∧
            c_restA st' = [] ∧ c_restB st' = [].
Proof.
  revert b st. induction fuel as [|fuel IH]; intros b st Hi Hf; simpl.
  - unfold c_left in Hf. exists st, b.
    destruct (c_restA st), (c_restB st); simpl in *; try lia. auto.
  - destruct (c_step st) as [o|] eqn:Es.
    + destruct (c_step_inv _ _ _ _ _ _ Hi Es) as (st' & b' & -> & Hi' & Hl). simpl.
      apply (IH b'); [done|lia].
    + unfold c_step in Es. exists st, b.
      destruct (c_restA st) eqn:?, (c_restB st) eqn:?; try discriminate. auto.
Qed.

(** [ConjunctPeriods] never panics, and what its result has released is, at
    every time and for every denomination, the minimum of what the two
    schedules have released. *)
Lemma ConjunctPeriods_spec sA sB ps qs :
  sched_ok sA ps → sched_ok sB qs →
  ∃ e out,
    ConjunctPeriods sA sB ps qs = Ok (Z.min sA sB, e, out) ∧
    e = sched_end (Z.min sA sB) out ∧ sched_ok (Z.min sA sB) out ∧
    ∀ d t, released d t (events (Z.min sA sB) out) =
           Z.min (released d t (events sA ps)) (released d t (events sB qs)).
Proof.
  intros HA HB. unfold ConjunctPeriods. rewrite Min64_spec. set (st0 := mkC _ _ _ _ _ _ _ _ _).
  assert (Hm : safe_time (Z.min sA sB)).
  { destruct HA as (_ & ? & _), HB as (_ & ? & _). unfold safe_time in *. lia. }
  assert (Hi : c_inv (Z.min sA sB) (λ d t, released d t (events sA ps))
                     (λ d t, released d t (events sB qs)) (Z.min sA sB) st0).
  { constructor; simpl; auto using out_ok_nil, valid_empty; try lia.
    - apply not_before_start; [apply HA|lia].
    - apply not_before_start; [apply HB|lia].
    - intros d. by rewrite !amount_empty.
    - intros d t _. rewrite amount_empty. lia.
    - intros d t _. rewrite amount_empty. lia.
    - intros d t Hlt. rewrite released_nil, !released_before; [lia| |].
      + eapply Forall_impl; [apply (events_time_ge _ _ (proj1 HB))|]. simpl. lia.
      + eapply Forall_impl; [apply (events_time_ge _ _ (proj1 HA))|]. simpl. lia. }
  destruct (c_loop_inv _ _ _ (length ps + length qs) _ _ Hi)
    as (st & b & -> & [Ho _ _ _ _ _ _ _ _ Hmin Hnow HvalA HvalB Hpast] & EA & EB);
    [unfold c_left; simpl; lia|].
  simpl. eexists _, _. split; [reflexivity|]. destruct Ho as (Hok & He & Hse).
  repeat split; auto; try apply Hm; try (rewrite <- He; apply Hse).
  intros d t. destruct (decide (t < b)) as [|Hge]; [by apply Hpast|].
  rewrite Hnow, Hmin by lia. specialize (HvalA d t). specialize (HvalB d t).
  rewrite EA, EB in *. simpl in *. rewrite !released_nil in *. rewrite <- HvalA, <- HvalB; lia.
Qed.

End merge.
