(* ===== verification/SdkInstances.v ===== *)
(** * Concrete implementations of the interfaces

    Finite maps for [sdk.Coins] with the laws of [SdkCoinsLaws] proved, and the
    two methods of [sdkvesting.Periods].  The witnesses of the theorems run on
    these. *)

From S2P Require Import Prelude Sdk Schedule.

(** ** Coins as finite maps from denomination to amount *)

Abbreviation coins := (gmap string Z).

Definition gcoins_amount (c : coins) (d : string) : Z := default 0 (c !! d).
Definition gcoins_valid (c : coins) : bool := bool_decide (map_Forall (λ d v, 0 < v ∧ d ≠ EmptyString) c).
Definition gcoins_lte (a b : coins) : bool :=
  bool_decide (map_Forall (λ d v, v ≤ gcoins_amount b d) a).
Definition gcoins_diff (x y : option Z) : option Z :=
  let v := default 0 x - default 0 y in if decide (v = 0) then None else Some v.

(** Sums of zero are dropped. *)
Definition gcoins_plus (x y : option Z) : option Z :=
  let v := default 0 x + default 0 y in if decide (v = 0) then None else Some v.
Definition gcoins_add (a b : coins) : coins := merge gcoins_plus a b.

#[global] Instance gcoins : SdkCoins coins := {
  coins_empty := ∅;
  coins_add := gcoins_add;
  coins_sub a b := if gcoins_lte b a then Ok (merge gcoins_diff a b) else Panic;
  coins_min a b := intersection_with (λ x y, Some (Z.min x y)) a b;
  coins_is_zero c := bool_decide (map_Forall (λ _ v, v = 0) c);
  coins_is_empty c := bool_decide (c = ∅);
  coins_is_all_lte := gcoins_lte;
  coins_is_any_gt a b :=
    bool_decide (map_Exists (λ d v, gcoins_amount b d ≠ 0 ∧ gcoins_amount b d < v) a);
  coins_collect l := list_to_map l;
  amount_of := gcoins_amount;
  coins_lit d a := {[ d := a ]};
  coins_new d a := if (0 <=? a) && negb (String.eqb d "")
                   then Ok (if a =? 0 then ∅ else {[ d := a ]}) else Panic;
  denom_valid d := negb (String.eqb d "");
  coins_valid := gcoins_valid;
}.

Lemma gcoins_valid_spec c : gcoins_valid c = true ↔ ∀ d v, c !! d = Some v → 0 < v ∧ d ≠ EmptyString.
Proof. unfold gcoins_valid. rewrite bool_decide_eq_true. done. Qed.

Lemma gcoins_amount_nonneg c d : gcoins_valid c = true → 0 ≤ gcoins_amount c d.
Proof.
  rewrite gcoins_valid_spec. intros Hv. unfold gcoins_amount.
  destruct (c !! d) as [v|] eqn:E; simpl; [|lia]. specialize (Hv _ _ E). lia.
Qed.

Lemma gcoins_lte_spec a b :
  gcoins_valid b = true →
  gcoins_lte a b = true ↔ ∀ d, gcoins_amount a d ≤ gcoins_amount b d.
Proof.
  intros Hb. unfold gcoins_lte. rewrite bool_decide_eq_true. split.
  - intros Hle d. unfold gcoins_amount at 1. destruct (a !! d) as [v|] eqn:E; simpl.
    + by apply (Hle d v).
    + by apply gcoins_amount_nonneg.
  - intros Hle d v E. specialize (Hle d). unfold gcoins_amount at 1 in Hle.
    by rewrite E in Hle.
Qed.

Lemma gcoins_zero_spec c :
  gcoins_valid c = true → bool_decide (c = ∅) = true ↔ ∀ d, gcoins_amount c d = 0.
Proof.
  rewrite gcoins_valid_spec, bool_decide_eq_true. intros Hv. split.
  - intros -> d. unfold gcoins_amount. by rewrite lookup_empty.
  - intros Hz. apply map_eq. intros d. rewrite lookup_empty. specialize (Hz d).
    unfold gcoins_amount in Hz. destruct (c !! d) as [v|] eqn:E; [|done].
    specialize (Hv _ _ E). simpl in *. lia.
Qed.

Lemma gcoins_sub_spec a b :
  gcoins_valid a = true → gcoins_valid b = true → (∀ d, gcoins_amount b d ≤ gcoins_amount a d) →
  gcoins_valid (merge gcoins_diff a b) = true ∧
  ∀ d, gcoins_amount (merge gcoins_diff a b) d = gcoins_amount a d - gcoins_amount b d.
Proof.
  rewrite !gcoins_valid_spec. intros Ha Hb Hle. split.
  - intros d v. rewrite lookup_merge.
    specialize (Hle d). unfold gcoins_amount in Hle. specialize (Ha d). specialize (Hb d).
    destruct (a !! d), (b !! d); simpl in *; unfold gcoins_diff; simpl;
      try case_decide; intros; simplify_eq; (split; [lia|]); first [apply (Ha _ eq_refl)|apply (Hb _ eq_refl)].
  - intros d. unfold gcoins_amount at 1. rewrite lookup_merge. unfold gcoins_amount.
    destruct (a !! d), (b !! d); simpl; unfold gcoins_diff; simpl; try case_decide; simpl; lia.
Qed.

Lemma gcoins_singleton d a d' :
  gcoins_amount {[ d := a ]} d' = if decide (d' = d) then a else 0.
Proof.
  unfold gcoins_amount. rewrite lookup_singleton. repeat case_decide; simpl; congruence.
Qed.

Lemma gcoins_singleton_valid d a : 0 < a → d ≠ EmptyString → gcoins_valid {[ d := a ]} = true.
Proof.
  intros. rewrite gcoins_valid_spec. intros d' v. rewrite lookup_singleton_Some.
  intros [<- <-]. done.
Qed.
Lemma nonempty_denom d : negb (String.eqb d "") = true ↔ d ≠ EmptyString.
Proof. rewrite negb_true_iff. apply String.eqb_neq. Qed.

Lemma gcoins_amount_pos c d v : gcoins_valid c = true → c !! d = Some v ↔ gcoins_amount c d = v ∧ 0 < v.
Proof.
  rewrite gcoins_valid_spec. intros Hv. unfold gcoins_amount. specialize (Hv d).
  destruct (c !! d) as [w|]; simpl.
  - destruct (Hv w eq_refl) as [Hw _]. split; [by intros [= ->]|by intros [-> _]].
  - split; [done|]. intros [<- ?]. lia.
Qed.

Lemma gcoins_add_amount a b d :
  gcoins_amount (gcoins_add a b) d = gcoins_amount a d + gcoins_amount b d.
Proof.
  unfold gcoins_amount, gcoins_add. rewrite lookup_merge.
  destruct (a !! d), (b !! d); simpl; unfold gcoins_plus; simpl; try case_decide; simpl; lia.
Qed.

Lemma gcoins_add_valid a b :
  (∀ d, 0 ≤ gcoins_amount a d + gcoins_amount b d) → (∀ d, is_Some (a !! d) ∨ is_Some (b !! d) → d ≠ EmptyString) →
  gcoins_valid (gcoins_add a b) = true.
Proof.
  intros Hab Hd. rewrite gcoins_valid_spec. intros d v. unfold gcoins_add. rewrite lookup_merge.
  specialize (Hab d). specialize (Hd d). unfold gcoins_amount in Hab.
  destruct (a !! d), (b !! d); simpl in *; unfold gcoins_plus; simpl; try case_decide;
    intros; simplify_eq; (split; [lia|apply Hd; eauto]).
Qed.
Lemma gcoins_valid_denoms c d : gcoins_valid c = true → is_Some (c !! d) → d ≠ EmptyString.
Proof. rewrite gcoins_valid_spec. intros Hv [v Hc]. by apply (Hv _ _ Hc). Qed.

Lemma gcoins_any_gt_spec a b :
  gcoins_valid b = true →
  map_Exists (λ d v, gcoins_amount b d ≠ 0 ∧ gcoins_amount b d < v) a ↔
  ∃ d, gcoins_amount b d ≠ 0 ∧ gcoins_amount b d < gcoins_amount a d.
Proof.
  intros Hb. split.
  - intros (d & v & E & Hd & Hlt). exists d. split; [done|]. unfold gcoins_amount at 2. by rewrite E.
  - intros (d & Hd & Hlt). exists d. unfold gcoins_amount at 2 in Hlt.
    pose proof (gcoins_amount_nonneg b d Hb). destruct (a !! d) as [v|]; simpl in Hlt; [|lia]. eauto.
Qed.

Lemma gcoins_collect_valid l :
  NoDup l.*1 → Forall (λ c : string * Z, 0 < c.2) l → Forall (λ c : string * Z, negb (String.eqb c.1 "") = true) l →
  gcoins_valid (list_to_map l) = true.
Proof.
  intros Hnd Hp Hd. rewrite gcoins_valid_spec. intros d v E. apply elem_of_list_to_map in E; [|done].
  rewrite Forall_forall in Hp, Hd. split; [apply (Hp _ E)|apply nonempty_denom, (Hd _ E)].
Qed.

#[global] Instance gcoins_laws : SdkCoinsLaws coins.
Proof.
  constructor; simpl.
  - done.
  - intros d. unfold gcoins_amount. by rewrite lookup_empty.
  - intros. by apply gcoins_amount_nonneg.
  - intros c d Hc Ha. apply nonempty_denom, (gcoins_valid_denoms c); [done|].
    unfold gcoins_amount in Ha. destruct (c !! d); [eauto|done].
  - intros a b Ha Hb. apply gcoins_add_valid; intros d.
    + pose proof (gcoins_amount_nonneg a d Ha). pose proof (gcoins_amount_nonneg b d Hb). lia.
    + intros [Hs|Hs]; [by apply (gcoins_valid_denoms a)|by apply (gcoins_valid_denoms b)].
  - intros a b d _ _. apply gcoins_add_amount.
  - intros a b. rewrite !gcoins_valid_spec. intros Ha Hb d v. rewrite lookup_intersection_with.
    specialize (Ha d). specialize (Hb d).
    destruct (a !! d), (b !! d); simpl; intros; simplify_eq.
    destruct (Ha _ eq_refl). destruct (Hb _ eq_refl). split; [lia|done].
  - intros a b d. rewrite !gcoins_valid_spec. intros Ha Hb. unfold gcoins_amount.
    rewrite lookup_intersection_with. specialize (Ha d). specialize (Hb d).
    destruct (a !! d), (b !! d); simpl; try lia.
    + specialize (Ha _ eq_refl). lia.
    + specialize (Hb _ eq_refl). lia.
  - intros a b Ha Hb Hle. rewrite (proj2 (gcoins_lte_spec b a Ha)) by done.
    eexists. split; [done|]. by apply gcoins_sub_spec.
  - intros a b d Ha Hb Hlt. destruct (gcoins_lte b a) eqn:E; [|done].
    rewrite gcoins_lte_spec in E by done. specialize (E d). lia.
  - intros c Hv. rewrite <- gcoins_zero_spec by done. rewrite !bool_decide_eq_true. split.
    + intros Hz. apply map_eq. intros d. rewrite lookup_empty.
      destruct (c !! d) as [v|] eqn:E; [|done].
      rewrite gcoins_valid_spec in Hv. specialize (Hv _ _ E).
      specialize (Hz _ _ E). simpl in Hz. lia.
    + intros ->. apply map_Forall_empty.
  - intros c. by apply gcoins_zero_spec.
  - intros a b Ha Hb. by apply gcoins_lte_spec.
  - intros a b _ Hb. rewrite bool_decide_eq_true. by apply gcoins_any_gt_spec.
  - intros l _ Hnd Hp Hd. by apply gcoins_collect_valid.
  - done.
  - intros c d a Hc Hd Ha. apply gcoins_add_valid; intros d'.
    + rewrite gcoins_singleton. pose proof (gcoins_amount_nonneg c d' Hc). case_decide; lia.
    + intros [Hs|[v Hs]]; [by apply (gcoins_valid_denoms c)|]. apply lookup_singleton_Some in Hs as [<- _]. by apply nonempty_denom.
  - intros c d a d' Hc Ha. by rewrite gcoins_add_amount, gcoins_singleton.
  - intros. apply gcoins_singleton.
  - intros d a Ha Hd. apply gcoins_singleton_valid; [done|by apply nonempty_denom].
  - intros d a Ha. apply bool_decide_eq_false. intros Hm. rewrite map_Forall_singleton in Hm. lia.
  - intros d a. destruct (Z.eqb_spec a 0) as [->|Ha].
    + apply bool_decide_eq_true. by apply map_Forall_singleton.
    + apply bool_decide_eq_false. intros Hm. by apply map_Forall_singleton in Hm.
  - intros d a Ha Hd. pose proof (proj1 (nonempty_denom d) Hd) as Hne. rewrite Hd. destruct (Z.leb_spec 0 a); [|lia]. simpl.
    eexists. split; [done|]. destruct (Z.eqb_spec a 0); simpl.
    + subst. split; [done|]. intros d'. unfold gcoins_amount. rewrite lookup_empty.
      by case_decide.
    + split; [apply gcoins_singleton_valid; [lia|done]|]. intros. apply gcoins_singleton.
  - intros d a c. destruct (Z.leb_spec 0 a); simpl; [|done].
    destruct (negb _) eqn:Hne; [apply nonempty_denom in Hne|done]. intros Hc. injection Hc as <-. split; [done|].
    destruct (Z.eqb_spec a 0); simpl.
    + subst. split; [done|]. intros d'. unfold gcoins_amount. rewrite lookup_empty.
      by case_decide.
    + split; [apply gcoins_singleton_valid; [lia|done]|]. intros. apply gcoins_singleton.
Qed.

(** ** [sdkvesting.Periods] *)

#[global] Instance gperiods : SdkPeriods coins := {
  total_length ps := wrap64 (sumZ Length ps);
  total_amount ps := foldl (λ c p, coins_add c (Amount p)) coins_empty ps;
}.

Lemma foldl_coins_add (ps : list (Period coins)) c d :
  coins_valid c = true → Forall (λ p, coins_valid (Amount p) = true) ps →
  coins_valid (foldl (λ c p, coins_add c (Amount p)) c ps) = true ∧
  amount_of (foldl (λ c p, coins_add c (Amount p)) c ps) d =
  amount_of c d + sumZ (λ p, amount_of (Amount p) d) ps.
Proof.
  intros Hc Hp. revert c Hc. induction Hp as [|p ps Hp Hps IH]; intros c Hc.
  { split; [done|]. simpl. lia. }
  edestruct (IH (coins_add c (Amount p))) as [Hv Ha]; [by apply valid_add|].
  split; [exact Hv|]. simpl in *. rewrite Ha.
  pose proof (amount_add c (Amount p) d Hc Hp) as E. simpl in E. lia.
Qed.

#[global] Instance gperiods_laws : SdkPeriodsLaws coins.
Proof.
  constructor.
  - done.
  - intros ps Hp. by apply (foldl_coins_add ps ∅ ""%string).
  - intros ps d Hp. destruct (foldl_coins_add ps ∅ d) as [_ Ha]; [done|done|].
    etransitivity; [exact Ha|]. done.
Qed.
