(* ===== verification/Clawback.v ===== *)
(** * The clawback vesting account: [x/vesting/types/clawback_vesting_account.go] *)

From S2P Require Import Prelude Sdk Schedule ScheduleMerge.

(** [sdkvesting.BaseVestingAccount], reduced to the fields the module uses; the
    embedded [BaseAccount] is its address. *)
Record BaseVestingAccount (C : Type) := mkBase {
  ba_address : string;
  OriginalVesting : C;
  DelegatedFree : C;
  DelegatedVesting : C;
  EndTime : Z;
}.
Arguments mkBase {C} _ _ _ _ _.
Arguments ba_address {C} _.
Arguments OriginalVesting {C} _.
Arguments DelegatedFree {C} _.
Arguments DelegatedVesting {C} _.
Arguments EndTime {C} _.

Class SdkBaseVesting (C : Type) := {
  (** [bva.LockedCoinsFromVesting(vestingCoins)] *)
  LockedCoinsFromVesting : BaseVestingAccount C → C → outcome C;
  (** [bva.TrackDelegation(balance, vestingCoins, amount)] *)
  base_TrackDelegation : BaseVestingAccount C → C → C → C → outcome (BaseVestingAccount C);
  (** [bva.Validate()] *)
  base_Validate : BaseVestingAccount C → outcome unit;
}.

(** The coins that are not spendable: those vesting that are not delegated. *)
Class SdkBaseVestingLaws (C : Type) `{SdkCoins C, SdkBaseVesting C} := {
  locked_from_vesting_spec b v c d :
    coins_valid v = true → coins_valid (DelegatedVesting b) = true →
    LockedCoinsFromVesting b v = Ok c →
    amount_of c d = amount_of v d - Z.min (amount_of v d) (amount_of (DelegatedVesting b) d);
}.

(** [types.ClawbackVestingAccount] *)
Record ClawbackVestingAccount (C : Type) := mkVA {
  va_base : BaseVestingAccount C;
  FunderAddress : string;
  StartTime : Z;
  LockupPeriods : list (Period C);
  VestingPeriods : list (Period C);
}.
Arguments mkVA {C} _ _ _ _ _.
Arguments va_base {C} _.
Arguments FunderAddress {C} _.
Arguments StartTime {C} _.
Arguments LockupPeriods {C} _.
Arguments VestingPeriods {C} _.

Section account.
Context {C : Type} `{SdkCoins C, SdkPeriods C, SdkBaseVesting C, SdkAddress}.
Implicit Types va : ClawbackVestingAccount C.

Definition NewClawbackVestingAccount (baseAddr funder : string) (originalVesting : C)
    (startTime : Z) (lockupPeriods vestingPeriods : list (Period C)) : ClawbackVestingAccount C :=
  let '(_, endTime, lp, vp) :=
    AlignSchedules (unix startTime) (unix startTime) lockupPeriods vestingPeriods in
  mkVA (mkBase baseAddr originalVesting coins_empty coins_empty endTime)
       (acc_string funder) startTime lp vp.

Definition GetStartTime va : Z := unix (StartTime va).
Definition GetEndTime va : Z := EndTime (va_base va).
Definition GetVestingPeriods va : list (Period C) := VestingPeriods va.

Definition GetUnlockedOnly va (blockTime : Z) : C :=
  ReadSchedule (GetStartTime va) (EndTime (va_base va)) (LockupPeriods va)
               (OriginalVesting (va_base va)) (unix blockTime).

Definition GetVestedOnly va (blockTime : Z) : C :=
  ReadSchedule (GetStartTime va) (EndTime (va_base va)) (VestingPeriods va)
               (OriginalVesting (va_base va)) (unix blockTime).

Definition GetLockedOnly va (blockTime : Z) : outcome C :=
  coins_sub (OriginalVesting (va_base va)) (GetUnlockedOnly va blockTime).

(** A [nil] result of [Sub] is replaced by the empty coins, the same value here. *)
Definition GetUnvestedOnly va (blockTime : Z) : outcome C :=
  coins_sub (OriginalVesting (va_base va)) (GetVestedOnly va blockTime).

Definition GetVestedCoins va (blockTime : Z) : C :=
  let coins := coins_min (GetUnlockedOnly va blockTime) (GetVestedOnly va blockTime) in
  if coins_is_zero coins then coins_empty else coins.

Definition GetVestingCoins va (blockTime : Z) : outcome C :=
  coins_sub (OriginalVesting (va_base va)) (GetVestedCoins va blockTime).

Definition LockedCoins va (blockTime : Z) : outcome C :=
  let? vesting := GetVestingCoins va blockTime in
  LockedCoinsFromVesting (va_base va) vesting.

Definition TrackDelegation va (blockTime : Z) (balance amount : C)
    : outcome (ClawbackVestingAccount C) :=
  let? vesting := GetVestingCoins va blockTime in
  let? base := base_TrackDelegation (va_base va) balance vesting amount in
  Ok (mkVA base (FunderAddress va) (StartTime va) (LockupPeriods va) (VestingPeriods va)).

Definition GetPassedPeriodCount va (blockTime : Z) : nat :=
  ReadPastPeriodCount (GetStartTime va) (EndTime (va_base va)) (VestingPeriods va) (unix blockTime).

Definition HasLockedCoins va (blockTime : Z) : outcome bool :=
  let? locked := GetLockedOnly va blockTime in Ok (negb (coins_is_zero locked)).

(** The two accumulation loops of [Validate]. *)
Definition sum_periods (start : Z) (ps : list (Period C)) : Z * C :=
  foldl (λ acc p, (acc.1 +i Length p, coins_add acc.2 (Amount p))) (start, coins_empty) ps.

Definition Validate va : outcome unit :=
  let? _ := ocheck (GetEndTime va <=? GetStartTime va)
              (ErrMsg "vesting start-time must be before end-time") in
  let '(lockupEnd, lockupCoins) := sum_periods (GetStartTime va) (LockupPeriods va) in
  let? _ := ocheck (EndTime (va_base va) <? lockupEnd)
              (ErrMsg "lockup schedule extends beyond account end time") in
  let? _ := ocheck (negb (coinEq lockupCoins (OriginalVesting (va_base va))))
              (ErrMsg "original vesting coins does not match the sum of all coins in lockup periods") in
  let '(vestingEnd, vestingCoins) := sum_periods (GetStartTime va) (VestingPeriods va) in
  let? _ := ocheck (EndTime (va_base va) <? vestingEnd)
              (ErrMsg "vesting schedule exteds beyond account end time") in
  let? _ := ocheck (negb (coinEq vestingCoins (OriginalVesting (va_base va))))
              (ErrMsg "original vesting coins does not match the sum of all coins in vesting periods") in
  base_Validate (va_base va).

(** [va.ComputeClawback(clawbackTime)]: the account after the clawback and the
    amount clawed back. *)
Definition ComputeClawback va (clawbackTime : Z) : outcome (ClawbackVestingAccount C * C) :=
  if clawbackTime <? GetStartTime va then Ok (va, coins_empty) else
  let totalVested := GetVestedOnly va (from_unix clawbackTime) in
  let? totalUnvested := GetUnvestedOnly va (from_unix clawbackTime) in
  let passedPeriodID := GetPassedPeriodCount va (from_unix clawbackTime) in
  let newVestingPeriods := take passedPeriodID (VestingPeriods va) in
  let newVestingEnd := GetStartTime va +i total_length newVestingPeriods in
  let capPeriods := [mkPeriod 0 totalVested] in
  let? (_, newLockingEnd, newLockupPeriods) :=
    ConjunctPeriods (GetStartTime va) (GetStartTime va) (LockupPeriods va) capPeriods in
  let base := va_base va in
  Ok (mkVA (mkBase (ba_address base) totalVested (DelegatedFree base) (DelegatedVesting base)
                   (Max64 newVestingEnd newLockingEnd))
           (FunderAddress va) (StartTime va) newLockupPeriods newVestingPeriods,
      totalUnvested).

End account.

(** ** The account invariant *)

Section theory.
Context {C : Type} `{SdkCoinsLaws C, !SdkPeriods C, !SdkPeriodsLaws C, !SdkBaseVesting C, !SdkAddress}.
Implicit Types va : ClawbackVestingAccount C.
#[local] Arguments released : simpl never.

(** Both schedules start at the account's start, end by its end time and
    release the original vesting coins. *)
Definition va_wf va : Prop :=
  sched_wf (GetStartTime va) (GetEndTime va) (LockupPeriods va) (OriginalVesting (va_base va)) ∧
  sched_wf (GetStartTime va) (GetEndTime va) (VestingPeriods va) (OriginalVesting (va_base va)).

Definition unlocked va (d : string) (t : Z) : Z := amount_of (GetUnlockedOnly va t) d.
Definition vested va (d : string) (t : Z) : Z := amount_of (GetVestedOnly va t) d.
Definition original va (d : string) : Z := amount_of (OriginalVesting (va_base va)) d.

Section readings.
Context (start end_ : Z) (ps : list (Period C)) (total : C).
Context (Hwf : sched_wf start end_ ps total).

Lemma read_bounds t d :
  0 ≤ amount_of (ReadSchedule start end_ ps total t) d ≤ amount_of total d.
Proof.
  rewrite ReadSchedule_released by done. destruct Hwf as (Hok & Hv & He & ->).
  pose proof (sched_total_nonneg d _ (proj1 Hok)).
  pose proof (released_nonneg d t start _ (proj1 Hok)).
  pose proof (released_le_total d t start _ (proj1 Hok)). destruct (_ <=? _); lia.
Qed.

Lemma read_mono t t' d :
  t ≤ t' →
  amount_of (ReadSchedule start end_ ps total t) d ≤
  amount_of (ReadSchedule start end_ ps total t') d.
Proof.
  intros Ht. rewrite !ReadSchedule_released by done. destruct Hwf as (Hok & _).
  pose proof (released_mono d t t' start _ (proj1 Hok) Ht).
  pose proof (released_nonneg d t' start _ (proj1 Hok)).
  destruct (Z.leb_spec t start), (Z.leb_spec t' start); lia.
Qed.

Lemma read_valid t : coins_valid (ReadSchedule start end_ ps total t) = true.
Proof. destruct Hwf as (? & ? & _). by apply ReadSchedule_valid. Qed.

Lemma read_sub_total t :
  ∃ c, coins_sub total (ReadSchedule start end_ ps total t) = Ok c ∧ coins_valid c = true ∧
       ∀ d, amount_of c d = amount_of total d - amount_of (ReadSchedule start end_ ps total t) d.
Proof.
  apply sub_ok; [apply Hwf|apply read_valid|]. intros d. apply read_bounds.
Qed.
End readings.

Lemma GetVestedCoins_spec va t :
  va_wf va →
  coins_valid (GetVestedCoins va t) = true ∧
  ∀ d, amount_of (GetVestedCoins va t) d = Z.min (unlocked va d t) (vested va d t).
Proof.
  intros [Hl Hv]. unfold GetVestedCoins, unlocked, vested, GetUnlockedOnly, GetVestedOnly.
  pose proof (read_valid _ _ _ _ Hl (unix t)) as HvL.
  pose proof (read_valid _ _ _ _ Hv (unix t)) as HvV.
  destruct (coins_is_zero _) eqn:Ez; [|split; [by apply valid_min|intros; by apply amount_min]].
  split; [apply valid_empty|]. intros d.
  pose proof (proj1 (is_zero_spec _ (valid_min _ _ HvL HvV)) Ez d) as Hz.
  rewrite amount_min in Hz by done. by rewrite amount_empty.
Qed.

Lemma GetVestingCoins_spec va t :
  va_wf va →
  ∃ c, GetVestingCoins va t = Ok c ∧ coins_valid c = true ∧
       ∀ d, amount_of c d = original va d - Z.min (unlocked va d t) (vested va d t).
Proof.
  intros Hwf. destruct (GetVestedCoins_spec va t Hwf) as [Hvc Hc].
  destruct Hwf as [Hl Hv]. unfold GetVestingCoins.
  destruct (sub_ok (OriginalVesting (va_base va)) (GetVestedCoins va t)) as (c & -> & ? & Ha).
  - apply Hv.
  - done.
  - intros d. rewrite Hc. pose proof (read_bounds _ _ _ _ Hv (unix t) d).
    unfold vested, GetVestedOnly in *. unfold GetEndTime in *. lia.
  - exists c. repeat split; auto. intros d. rewrite Ha, Hc. done.
Qed.

(** *** [Validate] *)

Lemma sum_periods_loop start coins ps :
  sched_ok start ps → coins_valid coins = true →
  let r := foldl (λ acc p, (acc.1 +i Length p, coins_add acc.2 (Amount p))) (start, coins) ps in
  r.1 = sched_end start ps ∧ coins_valid r.2 = true ∧
  ∀ d, amount_of r.2 d = amount_of coins d + sched_total d ps.
Proof.
  revert start coins. induction ps as [|p ps IH]; intros start coins Hok Hv; simpl.
  { unfold sched_end; simpl. repeat split; auto; [lia|]. intros. unfold sched_total; simpl. lia. }
  destruct (sched_ok_cons _ _ _ Hok) as ([Hl Ha] & Hin & _ & Hok').
  rewrite wrap64_id by done.
  destruct (IH _ (coins_add coins (Amount p)) Hok') as (E1 & E2 & E3); [by apply valid_add|].
  repeat split; auto.
  - rewrite E1. unfold sched_end. simpl. lia.
  - intros d. rewrite E3, amount_add by done. unfold sched_total. simpl. lia.
Qed.

Lemma sum_periods_spec start ps :
  sched_ok start ps →
  (sum_periods start ps).1 = sched_end start ps ∧
  coins_valid (sum_periods start ps).2 = true ∧
  ∀ d, amount_of (sum_periods start ps).2 d = sched_total d ps.
Proof.
  intros Hok. destruct (sum_periods_loop start coins_empty ps Hok valid_empty) as (? & ? & Ha).
  repeat split; auto. intros d. unfold sum_periods. rewrite Ha, amount_empty. done.
Qed.

Lemma coinEq_spec (a b : C) :
  coins_valid a = true → coins_valid b = true →
  coinEq a b = true ↔ ∀ d, amount_of a d = amount_of b d.
Proof.
  intros Ha Hb. unfold coinEq. rewrite andb_true_iff. split.
  - intros []. by apply lte_antisym.
  - intros He. split; apply is_all_lte_spec; auto; intros d; rewrite He; done.
Qed.

(** *** [ComputeClawback] *)

Lemma total_length_prefix start (ps : list (Period C)) n :
  sched_ok start ps → start +i total_length (take n ps) = sched_end start (take n ps).
Proof.
  intros Hok. apply (sched_ok_take _ _ n) in Hok as (Hp & Hs & He).
  pose proof (sumZ_length_nonneg _ Hp). rewrite total_length_spec.
  unfold sched_end, safe_time in *. rewrite (wrap64_id (sumZ _ _)) by (unfold in_int64; lia).
  apply wrap64_id. unfold in_int64. lia.
Qed.

Section clawback.
Context (va : ClawbackVestingAccount C) (T : Z).
Context (Hwf : va_wf va) (HT : GetStartTime va ≤ T).
Let vestedT : C := GetVestedOnly va (from_unix T).
Let vp' : list (Period C) := take (GetPassedPeriodCount va (from_unix T)) (VestingPeriods va).

Lemma clawback_vested_valid : coins_valid vestedT = true.
Proof. destruct Hwf as [_ Hv]. by apply read_valid. Qed.

Lemma clawback_vesting_wf end_ :
  sched_end (GetStartTime va) vp' ≤ end_ → sched_wf (GetStartTime va) end_ vp' vestedT.
Proof.
  intros He. destruct Hwf as [_ Hv]. split; [apply sched_ok_take, Hv|].
  split; [apply clawback_vested_valid|]. split; [done|]. intros d.
  unfold vestedT, vp', GetVestedOnly, GetPassedPeriodCount. by apply ReadPastPeriodCount_sum.
Qed.

Lemma clawback_cap_ok : sched_ok (GetStartTime va) [mkPeriod 0 vestedT].
Proof.
  destruct Hwf as [_ [(_ & Hs & _) _]]. split; [|split; [done|]].
  - constructor; [|done]. split; simpl; [lia|apply clawback_vested_valid].
  - unfold sched_end, safe_time in *. simpl. lia.
Qed.

Lemma clawback_cap_released d t :
  GetStartTime va ≤ t →
  released d t (events (GetStartTime va) [mkPeriod 0 vestedT]) = amount_of vestedT d.
Proof.
  intros. simpl. rewrite released_cons, released_nil. simpl.
  destruct (Z.leb_spec (GetStartTime va + 0) t); lia.
Qed.

(** The lockup schedule capped at what has vested. *)
Lemma clawback_lockup :
  ∃ e lp', ConjunctPeriods (GetStartTime va) (GetStartTime va) (LockupPeriods va)
             [mkPeriod 0 vestedT] = Ok (GetStartTime va, e, lp') ∧
    e = sched_end (GetStartTime va) lp' ∧
    (∀ end_, e ≤ end_ → sched_wf (GetStartTime va) end_ lp' vestedT) ∧
    ∀ d t, GetStartTime va < t → released d t (events (GetStartTime va) lp') =
      Z.min (released d t (events (GetStartTime va) (LockupPeriods va))) (amount_of vestedT d).
Proof.
  pose proof Hwf as [Hl Hv].
  destruct (ConjunctPeriods_spec (GetStartTime va) (GetStartTime va) (LockupPeriods va) _
    (proj1 Hl) clawback_cap_ok) as (e & lp' & E & He & Hok & Hr).
  rewrite Z.min_id in *. exists e, lp'. split; [done|]. split; [done|]. split.
  - intros end_ Hle. split; [done|]. split; [apply clawback_vested_valid|]. split; [lia|].
    intros d. set (t := Z.max (GetStartTime va)
      (Z.max (sched_end (GetStartTime va) lp') (sched_end (GetStartTime va) (LockupPeriods va)))).
    rewrite <- (released_after d t (GetStartTime va) lp') by (auto; try apply Hok; lia).
    rewrite Hr, clawback_cap_released by lia. rewrite released_after by (try apply Hl; lia).
    pose proof (read_bounds _ _ _ _ Hv (unix (from_unix T)) d) as Hb.
    destruct Hl as (_ & _ & _ & <-).
    unfold vestedT, GetVestedOnly, GetEndTime in *. lia.
  - intros d t Ht. rewrite Hr, clawback_cap_released by lia. done.
Qed.

Lemma ComputeClawback_spec :
  ∃ va' c,
    ComputeClawback va T = Ok (va', c) ∧ va_wf va' ∧ coins_valid c = true ∧
    (∀ d, amount_of c d = original va d - vested va d (from_unix T)) ∧
    (∀ d, original va' d = vested va d (from_unix T)) ∧
    (∀ d t, vested va' d t = Z.min (vested va d t) (vested va d (from_unix T))) ∧
    (∀ d t, unlocked va' d t = Z.min (unlocked va d t) (vested va d (from_unix T))) ∧
    ba_address (va_base va') = ba_address (va_base va) ∧
    FunderAddress va' = FunderAddress va ∧ StartTime va' = StartTime va.
Proof.
  pose proof Hwf as [Hl Hv]. destruct clawback_lockup as (e & lp' & E & He & Hlwf & Hlr).
  destruct (read_sub_total _ _ _ _ Hv (unix (from_unix T))) as (c & Ec & Hvc & Hc).
  unfold ComputeClawback. destruct (Z.ltb_spec T (GetStartTime va)); [lia|].
  fold vestedT vp'. unfold GetUnvestedOnly, GetVestedOnly. unfold GetEndTime in Ec.
  rewrite Ec. simpl. fold vestedT. rewrite E. simpl.
  set (va' := mkVA _ _ _ _ _). exists va', c.
  assert (Hwf' : va_wf va').
  { split; unfold GetEndTime; simpl; rewrite Max64_spec.
    - apply Hlwf. lia.
    - apply clawback_vesting_wf. unfold vp'. rewrite total_length_prefix by apply Hv. lia. }
  pose proof Hwf' as [Hl' Hv'].
  split; [done|]. split; [done|]. split; [done|]. split; [exact Hc|]. split; [done|].
  pose proof (λ d, read_bounds _ _ _ _ Hv (unix (from_unix T)) d) as Hb.
  split; [|split; [|done]]; intros d t; specialize (Hb d).
  - unfold vested, GetVestedOnly.
    pose proof (ReadSchedule_released _ _ _ _ (unix t) d Hv') as R'.
    pose proof (ReadSchedule_released _ _ _ _ (unix t) d Hv) as R.
    unfold GetEndTime in *. rewrite R', R. simpl.
    change (GetStartTime va') with (GetStartTime va).
    destruct (Z.leb_spec (unix t) (GetStartTime va)); [lia|].
    unfold vp' at 1. rewrite released_take by apply Hv. f_equal.
    symmetry. by apply ReadPastPeriodCount_sum.
  - unfold unlocked, GetUnlockedOnly, vested.
    pose proof (ReadSchedule_released _ _ _ _ (unix t) d Hl') as R'.
    pose proof (ReadSchedule_released _ _ _ _ (unix t) d Hl) as R.
    unfold GetEndTime in *. rewrite R', R. simpl.
    change (GetStartTime va') with (GetStartTime va). fold vestedT.
    destruct (Z.leb_spec (unix t) (GetStartTime va)).
    + change (0 ≤ amount_of vestedT d ≤ amount_of (OriginalVesting (va_base va)) d) in Hb. lia.
    + rewrite Hlr by lia. done.
Qed.
End clawback.

End theory.
