(* ===== verification/EvmosUtils.v ===== *)
(** * Chain identifiers and key types: [types/utils.go] *)

From S2P Require Import Prelude Sdk.

Definition MainnetChainID : string := "evmos_9001".
Definition TestnetChainID : string := "evmos_9000".

Definition IsMainnet (chainID : string) : bool := String.prefix MainnetChainID chainID.
Definition IsTestnet (chainID : string) : bool := String.prefix TestnetChainID chainID.

(** The dynamic type of a [cryptotypes.PubKey], as far as the code looks. *)
Inductive PubKey : Type :=
  | EthSecp256k1
  | Ed25519
  | Multisig (keys : list PubKey)
  | OtherKey.

Definition single_key (pk : PubKey) : bool :=
  match pk with EthSecp256k1 | Ed25519 => true | _ => false end.

Definition IsSupportedKey (pubkey : PubKey) : bool :=
  match pubkey with
  | EthSecp256k1 | Ed25519 => true
  | Multisig [] => false
  | Multisig keys => forallb single_key keys
  | OtherKey => false
  end.

(** [sdk.GetFromBech32(address, prefix)] and [sdk.VerifyAddressFormat]. *)
Class Bech32 := {
  get_from_bech32 : string → string → option string;
  verify_address_format : string → option error;
}.

(** [strings.SplitN(address, "1", 2)[0]] *)
Fixpoint before_one (s : string) : string :=
  match s with
  | EmptyString => EmptyString
  | String a s' => if Nat.eqb (code a) 49 then EmptyString else String a (before_one s')
  end.

Definition GetEvmosAddressFromBech32 `{Bech32} (address : string) : outcome string :=
  let bech32Prefix := before_one address in
  let? _ := ocheck (String.eqb bech32Prefix address) ErrInvalidAddress in
  match get_from_bech32 address bech32Prefix with
  | None => Err ErrInvalidAddress
  | Some addressBz =>
      match verify_address_format addressBz with
      | Some e => Err e
      | None => Ok addressBz
      end
  end.
