(* ===== verification/Keepers.v ===== *)
(** * The keepers the modules call: bank, account, distribution, staking

    [X] is the part of the multi-store that belongs to modules outside the
    repository.  Each class lists the methods of the expected-keeper interfaces
    ([x/*/types/interfaces.go]) the modelled code calls; the [...Laws] classes
    state what a successful call does to the balances. *)

From S2P Require Import Prelude Sdk EvmosUtils Clawback.

(** [ctx]: what the code reads from the context besides the stores. *)
Record Ctx := mkCtx { BlockTime : Z; BlockHeight : Z; ChainID : string }.

(** The dynamic type of an [authtypes.AccountI], as far as the code looks at it. *)
Inductive account (C : Type) : Type :=
  | ClawbackAcc (va : ClawbackVestingAccount C)
  | VestingAcc (addr : string)
  | PlainAcc (addr : string).
Arguments ClawbackAcc {C} _.
Arguments VestingAcc {C} _.
Arguments PlainAcc {C} _.

Definition acc_address {C} (a : account C) : string :=
  match a with
  | ClawbackAcc va => ba_address (va_base va)
  | VestingAcc addr => addr
  | PlainAcc addr => addr
  end.

(** [acc.(vestexported.VestingAccount)] *)
Definition acc_is_vesting {C} (a : account C) : bool :=
  match a with ClawbackAcc _ | VestingAcc _ => true | PlainAcc _ => false end.

Class AccountKeeper (C X : Type) := {
  GetAccount : X → string → option (account C);
  SetAccount : account C → X → X;
  (** [ak.NewAccount(ctx, acc)]: assigns the next account number *)
  NewAccount : account C → X → X;
  RemoveAccount : account C → X → X;
  GetSequence : X → string → option Z;
  (** [authtypes.NewModuleAddress(name)] *)
  module_addr : string → string;
  (** [ak.GetModuleAccount(ctx, name) != nil]; creates a missing module account *)
  HasModuleAccount : string → M X bool;
}.

(** What the code asks about the dynamic type of the account at an address. *)
Class AccountTypes (X : Type) := {
  (** [acc.(ethermint.EthAccountI)] of type [AccountTypeContract] *)
  is_contract_account : X → string → bool;
  (** [acc.(authtypes.ModuleAccountI)] *)
  is_module_account : X → string → bool;
  (** [acc.GetPubKey()] *)
  pubkey_of : X → string → option PubKey;
}.

Class BankKeeper (C X : Type) := {
  GetBalance : X → string → string → Z;
  GetAllBalances : X → string → C;
  GetSupply : X → string → Z;
  (** the coins [IterateAccountBalances(ctx, addr, cb)] visits, in order *)
  AccountBalances : X → string → list (string * Z);
  SendCoins : string → string → C → M X unit;
  MintCoins : string → C → M X unit;
  BurnCoins : string → C → M X unit;
  SendCoinsFromModuleToAccount : string → string → C → M X unit;
  SendCoinsFromAccountToModule : string → string → C → M X unit;
  SendCoinsFromModuleToModule : string → string → C → M X unit;
  BlockedAddr : string → bool;
  IsSendEnabledCoin : X → string → bool;
}.

Class DistrKeeper (C X : Type) := {
  (** [k.FundCommunityPool(ctx, amount, sender)] *)
  FundCommunityPool : C → string → M X unit;
  (** the module account that holds the community pool *)
  distr_addr : string;
}.

Class StakingKeeper (X : Type) := {
  GetDelegatorBonded : X → string → Z;
  GetDelegatorUnbonding : X → string → Z;
  BondDenom : X → string;
  StakingTokenSupply : X → Z;
  TotalBondedTokens : X → Z;
}.

(** [amt] if the address is [b], else nothing. *)
Definition at_addr (a b : string) (amt : Z) : Z := if decide (a = b) then amt else 0.

(** [amt] of denomination [d] and nothing else. *)
Definition of_denom (d d' : string) (amt : Z) : Z := if decide (d' = d) then amt else 0.

(** [x'] differs from [x] by a transfer of [c] from [f] to [t]. *)
Definition transferred {C X} `{SdkCoins C, BankKeeper C X} (f t : string) (c : C) (x x' : X) : Prop :=
  ∀ a d, GetBalance x' a d =
         GetBalance x a d + at_addr a t (amount_of c d) - at_addr a f (amount_of c d).

Class BankLaws (C X : Type) `{SdkCoins C, AccountKeeper C X, BankKeeper C X} := {
  all_balances_valid x a : coins_valid (GetAllBalances x a) = true;
  all_balances_spec x a d : amount_of (GetAllBalances x a) d = GetBalance x a d;
  account_balances_sorted x a : Sorted key_le (AccountBalances x a) ∧ NoDup (AccountBalances x a).*1;
  account_balances_spec x a d v :
    (d, v) ∈ AccountBalances x a ↔ GetBalance x a d = v ∧ 0 < v;
  send_ok f t c x x' : SendCoins f t c x = (Ok tt, x') → transferred f t c x x';
  send_mod_acc_ok m t c x x' :
    SendCoinsFromModuleToAccount m t c x = (Ok tt, x') → transferred (module_addr m) t c x x';
  (** only valid coins can be sent *)
  send_mod_acc_valid m t c x x' :
    SendCoinsFromModuleToAccount m t c x = (Ok tt, x') → coins_valid c = true;
  send_valid f t c x x' : SendCoins f t c x = (Ok tt, x') → coins_valid c = true;
  (** a module account can send what it holds to an address that may receive *)
  send_mod_acc_total m t c x :
    coins_valid c = true → (∀ d, amount_of c d ≤ GetBalance x (module_addr m) d) → BlockedAddr t = false →
    ∃ x', SendCoinsFromModuleToAccount m t c x = (Ok tt, x');
  send_acc_mod_ok f m c x x' :
    SendCoinsFromAccountToModule f m c x = (Ok tt, x') → transferred f (module_addr m) c x x';
  send_mod_mod_ok m n c x x' :
    SendCoinsFromModuleToModule m n c x = (Ok tt, x') →
    transferred (module_addr m) (module_addr n) c x x';
  mint_ok m c x x' :
    MintCoins m c x = (Ok tt, x') →
    (∀ a d, GetBalance x' a d = GetBalance x a d + at_addr a (module_addr m) (amount_of c d)) ∧
    ∀ d, GetSupply x' d = GetSupply x d + amount_of c d;
  burn_ok m c x x' :
    BurnCoins m c x = (Ok tt, x') →
    (∀ a d, GetBalance x' a d = GetBalance x a d - at_addr a (module_addr m) (amount_of c d)) ∧
    ∀ d, GetSupply x' d = GetSupply x d - amount_of c d;
  send_mod_mod_supply m n c x x' d :
    SendCoinsFromModuleToModule m n c x = (Ok tt, x') → GetSupply x' d = GetSupply x d;
  send_mod_acc_supply m t c x x' d :
    SendCoinsFromModuleToAccount m t c x = (Ok tt, x') → GetSupply x' d = GetSupply x d;
  send_acc_mod_supply f m c x x' d :
    SendCoinsFromAccountToModule f m c x = (Ok tt, x') → GetSupply x' d = GetSupply x d;
  (** a failed transfer of a single coin changes nothing *)
  send_mod_acc_lit_err m t d a x e x' :
    SendCoinsFromModuleToAccount m t (coins_lit d a) x = (Err e, x') → x' = x;
  mint_lit_err m d a x e x' : MintCoins m (coins_lit d a) x = (Err e, x') → x' = x;
  send_acc f t c x o x' a acc :
    SendCoins f t c x = (o, x') → GetAccount x a = Some acc → GetAccount x' a = Some acc;
  balance_set_account acc x a d : GetBalance (SetAccount acc x) a d = GetBalance x a d;
  balance_new_account acc x a d : GetBalance (NewAccount acc x) a d = GetBalance x a d;
  balance_remove_account acc x a d : GetBalance (RemoveAccount acc x) a d = GetBalance x a d;
  balance_module_account m x o x' a d :
    HasModuleAccount m x = (o, x') → GetBalance x' a d = GetBalance x a d;
  remove_account_other acc x a :
    a ≠ acc_address acc →
    GetAccount (RemoveAccount acc x) a = GetAccount x a ∧
    GetSequence (RemoveAccount acc x) a = GetSequence x a;
  get_set_account acc x : GetAccount (SetAccount acc x) (acc_address acc) = Some acc;
  get_account_addr x a acc : GetAccount x a = Some acc → acc_address acc = a;
}.

Lemma balance_nonneg {C X} `{SdkCoinsLaws C, !AccountKeeper C X, !BankKeeper C X, !BankLaws C X} (x : X) a d :
  0 ≤ GetBalance (C := C) x a d.
Proof. rewrite <- all_balances_spec. apply valid_nonneg, all_balances_valid. Qed.

Class DistrLaws (C X : Type) `{SdkCoins C, AccountKeeper C X, BankKeeper C X, DistrKeeper C X} := {
  (** a module account can give what it holds *)
  fund_total c m x :
    coins_valid c = true → (∀ d, amount_of c d ≤ GetBalance x (module_addr m) d) →
    ∃ x', FundCommunityPool c (module_addr m) x = (Ok tt, x');
  fund_ok c f x x' :
    FundCommunityPool c f x = (Ok tt, x') → transferred f distr_addr c x x';
  (** a failed transfer of a single coin changes nothing *)
  fund_lit_err d a f x e x' :
    FundCommunityPool (coins_lit d a) f x = (Err e, x') → x' = x;
  fund_account c f x o x' a :
    FundCommunityPool c f x = (o, x') → a ≠ distr_addr →
    GetAccount x' a = GetAccount x a ∧ GetSequence x' a = GetSequence x a;
  fund_supply c f x x' d :
    FundCommunityPool c f x = (Ok tt, x') → GetSupply x' d = GetSupply x d;
}.

Class StakingLaws (X : Type) `{StakingKeeper X} := {
  bonded_nonneg x : 0 ≤ TotalBondedTokens x;
}.

Section transfers.
Context {C X : Type} `{SdkCoins C, BankKeeper C X}.

(** A transfer moves nothing for a third address or a denomination not sent. *)
Lemma transferred_other f t c (x x' : X) a d :
  transferred f t c x x' → a ≠ f → a ≠ t → GetBalance x' a d = GetBalance x a d.
Proof. intros Ht ? ?. rewrite Ht. unfold at_addr. repeat case_decide; try congruence. lia. Qed.

Lemma transferred_from f t c (x x' : X) d :
  transferred f t c x x' → f ≠ t → GetBalance x' f d = GetBalance x f d - amount_of c d.
Proof. intros Ht ?. rewrite Ht. unfold at_addr. repeat case_decide; try congruence. lia. Qed.

Lemma transferred_to f t c (x x' : X) d :
  transferred f t c x x' → f ≠ t → GetBalance x' t d = GetBalance x t d + amount_of c d.
Proof. intros Ht ?. rewrite Ht. unfold at_addr. repeat case_decide; try congruence. lia. Qed.
End transfers.
