(* ===== verification/Evm.v ===== *)
(** * The EVM keeper of Ethermint

    Messages, receipts and logs, the methods of the keeper the modules call, and
    what they rely on: the coins the EVM does not manage are left alone. *)

From S2P Require Import Prelude Sdk Keepers.

Record EvmMsg := mkEvmMsg {
  em_from : string;
  em_to : option string;   (* [None]: contract creation *)
  em_nonce : Z;
  em_gas : Z;
  em_data : string;
}.

(** A log of a receipt: the emitting contract, its topics and its data. *)
Record EvmLog := mkLog { log_Address : string; Topics : list string; log_Data : string }.

Record EvmResult := mkRes { Ret : string; VmError : string; Logs : list EvmLog }.

Definition Failed (res : EvmResult) : bool := negb (String.eqb (VmError res) EmptyString).

Class EvmKeeper (X : Type) := {
  (** [acc != nil && acc.IsContract()] of [GetAccountWithoutBalance] *)
  IsContract : X → string → bool;
  (** [GetAccountWithoutBalance(ctx, addr) != nil] *)
  HasEvmAccount : X → string → bool;
  EstimateGas : X → string → option string → string → outcome Z;
  ApplyMessage : EvmMsg → bool → M X EvmResult;
  (** [config.DefaultGasCap] *)
  DefaultGasCap : Z;
  (** the denomination the EVM itself moves, a parameter that is fixed during a message *)
  evm_denom : string;
}.

(** One successful move of coins by the bank. *)
Inductive bank_moves {C X : Type} `{BankKeeper C X} (c : C) (x x' : X) : Prop :=
  | bank_mints m : MintCoins m c x = (Ok tt, x') → bank_moves c x x'
  | bank_burns m : BurnCoins m c x = (Ok tt, x') → bank_moves c x x'
  | bank_pays m t : SendCoinsFromModuleToAccount m t c x = (Ok tt, x') → bank_moves c x x'.

(** A call that is not committed leaves the state alone, and no call touches
    the coins the EVM does not manage.  In the other direction, the EVM sees of the bank
    only the coins it manages: a query answers the same after the bank has moved other
    coins, and the nonces that were set are kept. *)
Class EvmLaws (C X : Type) `{SdkCoins C, !AccountKeeper C X, !BankKeeper C X, !EvmKeeper X} := {
  apply_no_commit msg x o x' : ApplyMessage msg false x = (o, x') → x' = x;
  apply_balances msg x o x' a d :
    ApplyMessage msg true x = (o, x') → d ≠ evm_denom → GetBalance x' a d = GetBalance x a d;
  apply_supply msg x o x' d :
    ApplyMessage msg true x = (o, x') → d ≠ evm_denom → GetSupply x' d = GetSupply x d;
  query_ignores_bank msg c x x' :
    bank_moves c x x' → amount_of c evm_denom = 0 →
    (ApplyMessage msg false x').1 = (ApplyMessage msg false x).1;
  bank_keeps_nonces a n c x x' :
    bank_moves c x x' → GetSequence (C := C) x a = Some n → GetSequence (C := C) x' a = Some n;
}.

(** What the hooks read of a transaction ([core.Message]) and of its receipt. *)
Record EvmTx := mkTx {
  tx_From : string;
  tx_To : option string;
  GasPrice : Z;
  GasUsed : Z;          (* uint64 *)
  tx_Logs : list EvmLog;
}.
