(* ===== verification/Erc20Types.v ===== *)
(** * Data of the erc20 module: [x/erc20/types]

    Token pairs, messages, metadata, and the string functions on names and
    denominations.  Hex addresses, SHA-256 and the address of a deployed
    contract are parameters. *)

From S2P Require Import Prelude Sdk.

Definition erc20_ModuleName : string := "erc20".

(** [common.HexToAddress], [common.BytesToAddress], [addr.String()], [common.IsHexAddress],
    [ethermint.ValidateAddress], [tmhash.Sum], [crypto.CreateAddress]. *)
Class EthAddress := {
  hex_to_address : string → string;
  bytes_to_address : string → string;
  address_hex : string → string;
  is_hex_address : string → bool;
  validate_address : string → bool;
  (** [ethermint.ValidateNonZeroAddress] *)
  validate_nonzero_address : string → bool;
  tmhash_sum : string → string;
  create_address : string → Z → string;
}.

(** The hex form of an address denotes it, a valid address is made of hex digits
    (so it has no bar and is not blank), and the hash has no collisions and is never empty. *)
Class EthAddressLaws `{EthAddress} := {
  hex_roundtrip a : String.length a = 20%nat → hex_to_address (address_hex a) = a;
  hex_to_address_length s : String.length (hex_to_address s) = 20%nat;
  bytes_to_address_id a : String.length a = 20%nat → bytes_to_address a = a;
  hex_length a : String.length a = 20%nat → String.length (address_hex a) = 42%nat;
  create_length a n : String.length (create_address a n) = 20%nat;
  valid_no_bar a : validate_address a = true → all_chars not_bar a = true;
  nonzero_not_blank a : validate_nonzero_address a = true → is_blank a = false;
  hash_inj a b : tmhash_sum a = tmhash_sum b → a = b;
  hash_nonempty a : tmhash_sum a ≠ EmptyString;
}.

(** ** Token pairs: [types/token_pair.go] *)

Inductive Owner : Type := OWNER_UNSPECIFIED | OWNER_MODULE | OWNER_EXTERNAL.

#[global] Instance Owner_eq_dec : EqDecision Owner.
Proof. solve_decision. Defined.

Record TokenPair := mkPair {
  Erc20Address : string;
  Denom : string;
  Enabled : bool;
  ContractOwner : Owner;
}.

#[global] Instance TokenPair_eq_dec : EqDecision TokenPair.
Proof. solve_decision. Defined.

Section pairs.
Context `{EthAddress}.

(** The argument [enabled] is not used. *)
Definition NewTokenPair (erc20Address denom : string) (enabled : bool) (contractOwner : Owner) : TokenPair :=
  mkPair (address_hex erc20Address) denom true contractOwner.

Definition GetID (tp : TokenPair) : string :=
  tmhash_sum (String.append (Erc20Address tp) (String.append "|" (Denom tp))).

Definition GetERC20Contract (tp : TokenPair) : string := hex_to_address (Erc20Address tp).

Definition TokenPair_Validate {C} `{SdkCoins C} (tp : TokenPair) : outcome unit :=
  let? _ := ocheck (negb (denom_valid (Denom tp))) (ErrExternal "invalid denom") in
  ocheck (negb (validate_address (Erc20Address tp))) (ErrExternal "invalid address").
End pairs.

Definition IsNativeCoin (tp : TokenPair) : bool := bool_decide (ContractOwner tp = OWNER_MODULE).
Definition IsNativeERC20 (tp : TokenPair) : bool := bool_decide (ContractOwner tp = OWNER_EXTERNAL).

(** ** Metadata and names: [types/utils.go], [types/proposal.go] *)

(** [banktypes.DenomUnit], [banktypes.Metadata] *)
Record DenomUnit := mkUnit { du_Denom : string; Exponent : Z; Aliases : list string }.
Record Metadata := mkMeta {
  Description : string; DenomUnits : list DenomUnit; Base : string;
  Display : string; Name : string; Symbol : string;
}.

Record ERC20Data := mkERC20Data { ed_Name : string; ed_Symbol : string; Decimals : Z }.

Definition CreateDenomDescription (address : string) : string :=
  String.append "Cosmos coin token representation of " address.
Definition CreateDenom (address : string) : string :=
  String.append erc20_ModuleName (String.append "/" address).

Definition is_digit (a : Ascii.ascii) : bool := Nat.leb 48 (code a) && Nat.leb (code a) 57.
Definition is_letter (a : Ascii.ascii) : bool :=
  (Nat.leb 65 (code a) && Nat.leb (code a) 90) || (Nat.leb 97 (code a) && Nat.leb (code a) 122).
(** [[a-zA-Z0-9/-]] *)
Definition is_denom_char (a : Ascii.ascii) : bool :=
  is_letter a || is_digit a || Nat.eqb (code a) 47 || Nat.eqb (code a) 45.
Definition is_newline (a : Ascii.ascii) : bool := Nat.eqb (code a) 10.

(** [(?m)^(\d+)]: [start] holds at the beginning of a line and inside the run
    of digits found there. *)
Fixpoint remove_numbers (start : bool) (s : string) : string :=
  match s with
  | EmptyString => EmptyString
  | String a s' =>
      if start && is_digit a then remove_numbers true s'
      else String a (remove_numbers (is_newline a) s')
  end.
Definition removeLeadingNumbers (str : string) : string := remove_numbers true str.

Fixpoint keep_denom_chars (s : string) : string :=
  match s with
  | EmptyString => EmptyString
  | String a s' => if is_denom_char a then String a (keep_denom_chars s') else keep_denom_chars s'
  end.
(** [^[^A-Za-z]|[^a-zA-Z0-9/-]]: the anchored alternative applies to the first
    character only.  All bytes of a rune outside ASCII are removed. *)
Definition removeSpecialChars (str : string) : string :=
  match str with
  | EmptyString => EmptyString
  | String a s' => if is_letter a then String a (keep_denom_chars s') else keep_denom_chars s'
  end.

Definition drop_chars (n : nat) (s : string) : string :=
  String.substring n (String.length s - n) s.

(** Every removed prefix has at least four characters: the length is enough fuel. *)
Fixpoint remove_prefixes (fuel : nat) (str : string) : string :=
  match fuel with
  | O => str
  | S fuel =>
      if String.prefix "ibc/" str then remove_prefixes fuel (drop_chars 4 str)
      else if String.prefix "erc20/" str then remove_prefixes fuel (drop_chars 6 str)
      else str
  end.
Definition removeInvalidPrefixes (str : string) : string := remove_prefixes (String.length str) str.

Definition SanitizeERC20Name (name : string) : string :=
  let name := removeLeadingNumbers name in
  let name := removeSpecialChars name in
  let name := if Nat.ltb 128 (String.length name) then String.substring 0 128 name else name in
  removeInvalidPrefixes name.

Fixpoint EqualStringSlice (aliasesA aliasesB : list string) : bool :=
  match aliasesA, aliasesB with
  | [], [] => true
  | a :: aliasesA, b :: aliasesB => String.eqb a b && EqualStringSlice aliasesA aliasesB
  | _, _ => false
  end.

Fixpoint equal_units (a b : list DenomUnit) : bool :=
  match a, b with
  | v :: a, w :: b =>
      (Exponent v =? Exponent w) && String.eqb (du_Denom v) (du_Denom w)
      && EqualStringSlice (Aliases v) (Aliases w) && equal_units a b
  | _, _ => true
  end.

Definition EqualMetadata (a b : Metadata) : outcome unit :=
  if String.eqb (Base a) (Base b) && String.eqb (Description a) (Description b)
     && String.eqb (Display a) (Display b) && String.eqb (Name a) (Name b)
     && String.eqb (Symbol a) (Symbol b)
  then
    let? _ := ocheck (negb (Nat.eqb (length (DenomUnits a)) (length (DenomUnits b))))
                     (ErrMsg "metadata provided has different denom units from stored") in
    ocheck (negb (equal_units (DenomUnits a) (DenomUnits b)))
           (ErrMsg "metadata provided has different denom unit from stored")
  else Err (ErrMsg "metadata provided is different from stored").

(** [strings.SplitN(s, "/", 2)] when the separator occurs. *)
Fixpoint split_slash (s : string) : option (string * string) :=
  match s with
  | EmptyString => None
  | String a s' =>
      if Nat.eqb (code a) 47 then Some (EmptyString, s')
      else match split_slash s' with Some (x, y) => Some (String a x, y) | None => None end
  end.

Definition ValidateErc20Denom `{EthAddress} (denom : string) : outcome unit :=
  match split_slash denom with
  | None => Err (ErrMsg "invalid denom")
  | Some (prefix, address) =>
      let? _ := ocheck (negb (String.eqb prefix erc20_ModuleName)) (ErrMsg "invalid denom") in
      ocheck (negb (validate_address address)) (ErrExternal "invalid address")
  end.

Definition validateIBCVoucherMetadata (metadata : Metadata) : outcome unit :=
  match split_slash (Base metadata) with
  | None => if negb (is_blank (Base metadata)) then Ok tt else Err (ErrMsg "invalid metadata")
  | Some (prefix, _) => ocheck (negb (String.eqb prefix "ibc")) (ErrMsg "invalid metadata")
  end.

(** ** Messages and proposals: [types/msg.go], [types/proposal.go] *)

Record MsgConvertCoin := mkConvertCoin {
  mcc_Denom : string; mcc_Amount : Z; mcc_Receiver : string; mcc_Sender : string;
}.
Record MsgConvertERC20 := mkConvertERC20 {
  ContractAddress : string; mce_Amount : Z; mce_Receiver : string; mce_Sender : string;
}.

Inductive Proposal : Type :=
  | RegisterCoinProposal (metadata : Metadata)
  | RegisterERC20Proposal (erc20Address : string)
  | ToggleTokenConversionProposal (token : string)
  | OtherProposal.

Section messages.
Context {C : Type} `{SdkCoins C, SdkAddress, EthAddress}.
(** [ibctransfertypes.ValidateIBCDenom], [metadata.Validate],
    [govtypes.ValidateAbstract] *)
Variable validate_ibc_denom : string → option error.
Variable metadata_validate : Metadata → option error.
Variable validate_abstract : Proposal → option error.

Definition from_opt (e : option error) : outcome unit :=
  match e with None => Ok tt | Some e => Err e end.

Definition MsgConvertCoin_ValidateBasic (msg : MsgConvertCoin) : outcome unit :=
  let? _ := match ValidateErc20Denom (mcc_Denom msg) with
            | Err _ => from_opt (validate_ibc_denom (mcc_Denom msg)) | o => o end in
  let? _ := ocheck (negb (0 <? mcc_Amount msg)) ErrInvalidCoins in
  let? _ := check_bech32 (mcc_Sender msg) in
  ocheck (negb (is_hex_address (mcc_Receiver msg))) ErrInvalidAddress.

Definition MsgConvertERC20_ValidateBasic (msg : MsgConvertERC20) : outcome unit :=
  let? _ := ocheck (negb (is_hex_address (ContractAddress msg))) ErrInvalidAddress in
  let? _ := ocheck (negb (0 <? mce_Amount msg)) ErrInvalidCoins in
  let? _ := check_bech32 (mce_Receiver msg) in
  ocheck (negb (is_hex_address (mce_Sender msg))) ErrInvalidAddress.

Definition Proposal_ValidateBasic (p : Proposal) : outcome unit :=
  match p with
  | RegisterCoinProposal metadata =>
      let? _ := from_opt (metadata_validate metadata) in
      let? _ := from_opt (validate_ibc_denom (Base metadata)) in
      let? _ := validateIBCVoucherMetadata metadata in
      from_opt (validate_abstract p)
  | RegisterERC20Proposal erc20Address =>
      let? _ := ocheck (negb (validate_address erc20Address)) (ErrExternal "ERC20 address") in
      from_opt (validate_abstract p)
  | ToggleTokenConversionProposal token =>
      let? _ := ocheck (negb (validate_address token) && negb (denom_valid token))
                       (ErrExternal "invalid denom") in
      from_opt (validate_abstract p)
  | OtherProposal => from_opt (validate_abstract p)
  end.
End messages.
