(* ===== verification/KeeperInstances.v ===== *)
(** * A concrete world for the witnesses

    A ledger of finite maps with an account table, and the proofs that it
    satisfies the laws of the keepers. *)

From S2P Require Import Prelude Sdk Schedule SdkInstances Clawback Keepers Erc20Types.

(** An ERC20 contract: its name, symbol and decimals, and the balances. *)
Record token := mkToken { tk_name : string; tk_symbol : string; tk_decimals : Z; tk_bal : gmap string Z }.

(** The contracts by address, and the bank's metadata by base denomination. *)
Record evm_store := mkEvm { ev_tokens : gmap string token; ev_meta : gmap string Metadata }.
Definition no_evm : evm_store := mkEvm ∅ ∅.

Record world := mkWorld {
  w_bal : gmap string coins;
  w_supply : gmap string Z;
  w_acc : gmap string (account coins);
  w_seq : gmap string Z;
  w_bonded : gmap string Z;
  w_evm : evm_store;
}.

Definition norm (c : coins) : coins := filter (λ kv, 0 < kv.2 ∧ kv.1 ≠ EmptyString) c.

Lemma norm_valid c : gcoins_valid (norm c) = true.
Proof.
  rewrite gcoins_valid_spec. intros d v. unfold norm. rewrite map_lookup_filter_Some.
  by intros [_ ?].
Qed.

Lemma norm_id c : gcoins_valid c = true → norm c = c.
Proof.
  rewrite gcoins_valid_spec. intros Hv. unfold norm. apply map_filter_id.
  intros d v E. simpl. by apply (Hv d).
Qed.

Definition w_all (x : world) (a : string) : coins := norm (default ∅ (w_bal x !! a)).

Definition w_set_bal (x : world) (a : string) (c : coins) : world :=
  mkWorld (<[a:=c]> (w_bal x)) (w_supply x) (w_acc x) (w_seq x) (w_bonded x) (w_evm x).

Definition w_credit (x : world) (a : string) (c : coins) : world :=
  w_set_bal x a (coins_add (w_all x a) c).
Definition w_debit (x : world) (a : string) (c : coins) : world :=
  w_set_bal x a (merge gcoins_diff (w_all x a) c).
Definition w_add_supply (x : world) (sign : Z) (c : coins) : world :=
  mkWorld (w_bal x) (union_with (λ v w, Some (v + w)) (w_supply x) ((λ v, sign * v) <$> c))
          (w_acc x) (w_seq x) (w_bonded x) (w_evm x).

Definition w_mod (m : string) : string := String.append "module/" m.

Definition w_send (f t : string) (c : coins) : M world unit := λ x,
  if gcoins_valid c && gcoins_lte c (w_all x f)
  then (Ok tt, w_credit (w_debit x f c) t c) else (Err (ErrExternal "insufficient funds"), x).
Definition w_mint (m : string) (c : coins) : M world unit := λ x,
  if gcoins_valid c then (Ok tt, w_add_supply (w_credit x (w_mod m) c) 1 c)
  else (Err (ErrExternal "invalid coins"), x).
Definition w_burn (m : string) (c : coins) : M world unit := λ x,
  if gcoins_valid c && gcoins_lte c (w_all x (w_mod m))
  then (Ok tt, w_add_supply (w_debit x (w_mod m) c) (-1) c)
  else (Err (ErrExternal "insufficient funds"), x).

Definition w_lookup (x : world) (a : string) : option (account coins) :=
  acc ← w_acc x !! a; if String.eqb (acc_address acc) a then Some acc else None.
Definition w_set_acc (acc : account coins) (x : world) : world :=
  mkWorld (w_bal x) (w_supply x) (<[acc_address acc:=acc]> (w_acc x)) (w_seq x) (w_bonded x) (w_evm x).
Definition w_rem_acc (acc : account coins) (x : world) : world :=
  mkWorld (w_bal x) (w_supply x) (delete (acc_address acc) (w_acc x)) (w_seq x) (w_bonded x) (w_evm x).

#[global] Instance w_accounts : AccountKeeper coins world := {
  GetAccount := w_lookup;
  SetAccount := w_set_acc;
  NewAccount _ x := x;
  RemoveAccount := w_rem_acc;
  GetSequence x a := w_seq x !! a;
  module_addr := w_mod;
  HasModuleAccount _ := ret true;
}.

#[global] Instance w_bank : BankKeeper coins world := {
  GetBalance x a d := gcoins_amount (w_all x a) d;
  GetAllBalances := w_all;
  GetSupply x d := default 0 (w_supply x !! d);
  AccountBalances x a := kv_iter (w_all x a);
  SendCoins := w_send;
  MintCoins := w_mint;
  BurnCoins := w_burn;
  SendCoinsFromModuleToAccount m t := w_send (w_mod m) t;
  SendCoinsFromAccountToModule f m := w_send f (w_mod m);
  SendCoinsFromModuleToModule m n := w_send (w_mod m) (w_mod n);
  BlockedAddr a := String.eqb a "blocked";
  IsSendEnabledCoin _ d := negb (String.eqb d "disabled");
}.

#[global] Instance w_distr : DistrKeeper coins world := {
  FundCommunityPool c f := w_send f (w_mod "distribution") c;
  distr_addr := w_mod "distribution";
}.

#[global] Instance w_staking : StakingKeeper world := {
  GetDelegatorBonded x a := default 0 (w_bonded x !! a);
  GetDelegatorUnbonding _ _ := 0;
  BondDenom _ := "aevmos"%string;
  StakingTokenSupply x := default 0 (w_supply x !! "aevmos"%string);
  TotalBondedTokens x := map_fold (λ _ v acc, Z.max 0 v + acc) 0 (w_bonded x);
}.

#[global] Instance w_ethermint : Ethermint := {
  PowerReduction := 10^18;
  DefaultEVMDenom := "aevmos"%string;
}.

#[global] Instance w_address : SdkAddress := {
  acc_string a := String.append "evmos1" a;
  acc_from_bech32 s := if String.eqb (String.substring 0 6 s) "evmos1" && Nat.ltb 6 (String.length s)
                       then Some (String.substring 6 (String.length s - 6) s) else None;
}.

Lemma w_bech32_string a : a ≠ EmptyString → acc_from_bech32 (acc_string a) = Some a.
Proof.
  intros Ha. destruct a as [|c a]; [done|]. simpl. f_equal.
  induction a as [|d a IH]; simpl in *; [done|]. f_equal. f_equal. by injection IH.
Qed.

Lemma w_bech32_blank s : is_blank s = true → acc_from_bech32 s = None.
Proof.
  intros Hb. simpl. destruct (String.eqb_spec (String.substring 0 6 s) "evmos1") as [E|]; [exfalso|done].
  destruct s as [|a [|b [|c s]]]; [done..|]. injection E as -> -> -> _. done.
Qed.

#[global] Instance w_address_laws : SdkAddressLaws.
Proof.
  assert (Hne : ∀ s a, acc_from_bech32 s = Some a → a ≠ EmptyString).
  { simpl. intros s a. destruct (_ && Nat.ltb 6 (String.length s)) eqn:E; [|done].
    apply andb_true_iff in E as [_ E]. apply Nat.ltb_lt in E. intros [= <-] Hz. apply (f_equal String.length) in Hz.
    rewrite length_substring in Hz. simpl in Hz. lia. }
  constructor; [exact w_bech32_blank|exact Hne|]. intros s a Ha. by apply w_bech32_string, (Hne s).
Qed.

#[global] Instance w_base : SdkBaseVesting coins := {
  LockedCoinsFromVesting b v := coins_sub v (coins_min v (DelegatedVesting b));
  base_TrackDelegation b _ _ _ := Ok b;
  base_Validate _ := Ok tt;
}.

(** ** The laws *)

Lemma w_all_set x a c b :
  gcoins_valid c = true → w_all (w_set_bal x a c) b = if decide (b = a) then c else w_all x b.
Proof.
  intros Hv. unfold w_all, w_set_bal. simpl. rewrite lookup_insert.
  repeat case_decide; simplify_eq; simpl; auto. by apply norm_id.
Qed.

Lemma w_credit_spec x a c b d :
  gcoins_valid c = true →
  gcoins_amount (w_all (w_credit x a c) b) d =
  gcoins_amount (w_all x b) d + at_addr b a (gcoins_amount c d).
Proof.
  intros Hv. unfold w_credit, at_addr.
  rewrite w_all_set by (exact (valid_add (w_all x a) c (norm_valid _) Hv)).
  case_decide; [subst|lia].
  exact (amount_add (w_all x a) c d (norm_valid _) Hv).
Qed.

Lemma w_debit_spec x a c b d :
  gcoins_valid c = true → gcoins_lte c (w_all x a) = true →
  gcoins_amount (w_all (w_debit x a c) b) d =
  gcoins_amount (w_all x b) d - at_addr b a (gcoins_amount c d).
Proof.
  intros Hc Hle. rewrite gcoins_lte_spec in Hle by apply norm_valid.
  destruct (gcoins_sub_spec (w_all x a) c) as [Hv Ha]; [apply norm_valid|done|done|].
  unfold w_debit, at_addr. rewrite w_all_set by done. case_decide; [subst; apply Ha|lia].
Qed.

Lemma w_send_transferred f t c x x' :
  w_send f t c x = (Ok tt, x') → transferred (C := coins) f t c x x'.
Proof.
  unfold w_send. destruct (gcoins_valid c) eqn:Hv; simpl; [|done].
  destruct (gcoins_lte c (w_all x f)) eqn:Hle; [|done]. intros E. injection E as <-.
  intros a d. simpl. rewrite w_credit_spec by done. rewrite w_debit_spec by done. lia.
Qed.

Lemma w_send_supply f t c x x' : w_send f t c x = (Ok tt, x') → w_supply x' = w_supply x.
Proof. unfold w_send. destruct (_ && _); intros E; [by injection E as <-|done]. Qed.

Lemma w_add_supply_spec x sign c d :
  default 0 (w_supply (w_add_supply x sign c) !! d) =
  default 0 (w_supply x !! d) + sign * gcoins_amount c d.
Proof.
  unfold w_add_supply, gcoins_amount. simpl. rewrite lookup_union_with, lookup_fmap.
  destruct (w_supply x !! d), (c !! d); simpl; lia.
Qed.

Lemma w_mint_spec m c x x' :
  w_mint m c x = (Ok tt, x') →
  (∀ a d, gcoins_amount (w_all x' a) d =
          gcoins_amount (w_all x a) d + at_addr a (w_mod m) (gcoins_amount c d)) ∧
  ∀ d, default 0 (w_supply x' !! d) = default 0 (w_supply x !! d) + gcoins_amount c d.
Proof.
  unfold w_mint. destruct (gcoins_valid c) eqn:Hv; [|done]. intros E. injection E as <-. split.
  - intros a d. by apply w_credit_spec.
  - intros d. rewrite w_add_supply_spec. simpl. lia.
Qed.

Lemma w_burn_spec m c x x' :
  w_burn m c x = (Ok tt, x') →
  (∀ a d, gcoins_amount (w_all x' a) d =
          gcoins_amount (w_all x a) d - at_addr a (w_mod m) (gcoins_amount c d)) ∧
  ∀ d, default 0 (w_supply x' !! d) = default 0 (w_supply x !! d) - gcoins_amount c d.
Proof.
  unfold w_burn. destruct (gcoins_valid c && _) eqn:E; [|done].
  apply andb_true_iff in E as [Hv Hle]. intros E. injection E as <-. split.
  - intros a d. by apply w_debit_spec.
  - intros d. rewrite w_add_supply_spec. simpl. lia.
Qed.

Lemma w_lookup_set acc x : w_lookup (w_set_acc acc x) (acc_address acc) = Some acc.
Proof.
  unfold w_lookup, w_set_acc. simpl. rewrite lookup_insert_eq. simpl. by rewrite String.eqb_refl.
Qed.

Lemma w_send_total f t (c : coins) x :
  gcoins_valid c = true → (∀ d, gcoins_amount c d ≤ gcoins_amount (w_all x f) d) → ∃ x', w_send f t c x = (Ok tt, x').
Proof. intros Hv Hle. unfold w_send. rewrite Hv, (proj2 (gcoins_lte_spec c (w_all x f) (norm_valid _)) Hle). by eexists. Qed.

#[global] Instance w_bank_laws : BankLaws coins world.
Proof.
  constructor; simpl.
  - intros. apply norm_valid.
  - done.
  - intros x a. split; [apply kv_iter_sorted|apply NoDup_kv_iter].
  - intros x a d v. rewrite elem_of_kv_iter. apply gcoins_amount_pos, norm_valid.
  - intros. by apply w_send_transferred.
  - intros. by apply w_send_transferred.
  - intros m t c x x'. unfold w_send. by destruct (gcoins_valid c).
  - intros f t c x x'. unfold w_send. by destruct (gcoins_valid c).
  - intros m t c x Hv Hle _. by apply w_send_total.
  - intros. by apply w_send_transferred.
  - intros. by apply w_send_transferred.
  - intros. by apply w_mint_spec.
  - intros. by apply w_burn_spec.
  - intros m n c x x' d Hs. by rewrite (w_send_supply _ _ _ _ _ Hs).
  - intros m n c x x' d Hs. by rewrite (w_send_supply _ _ _ _ _ Hs).
  - intros m n c x x' d Hs. by rewrite (w_send_supply _ _ _ _ _ Hs).
  - intros m t d a x e x'. unfold w_send. destruct (_ && _); intros; by simplify_eq.
  - intros m d a x e x'. unfold w_mint. destruct (gcoins_valid _); intros; by simplify_eq.
  - intros f t c x o x' a acc. unfold w_send. destruct (_ && _); intros; by simplify_eq.
  - done.
  - done.
  - done.
  - intros m x o x' a d Hr. unfold ret in Hr. by simplify_eq.
  - intros acc x a Ha. unfold w_lookup, w_rem_acc. simpl. by rewrite lookup_delete_ne.
  - intros. apply w_lookup_set.
  - intros x a acc. unfold w_lookup. destruct (w_acc x !! a) as [acc'|]; simpl; [|done].
    destruct (String.eqb_spec (acc_address acc') a); intros; by simplify_eq.
Qed.

#[global] Instance w_distr_laws : DistrLaws coins world.
Proof.
  constructor; simpl.
  - intros c m x Hv Hle. by apply w_send_total.
  - intros. by apply w_send_transferred.
  - intros d a f x e x'. unfold w_send. destruct (_ && _); intros; by simplify_eq.
  - intros c f x o x' a. unfold w_send. destruct (_ && _); intros; by simplify_eq.
  - intros c f x x' d Hs. by rewrite (w_send_supply _ _ _ _ _ Hs).
Qed.

#[global] Instance w_staking_laws : StakingLaws world.
Proof.
  constructor. intros x. simpl. apply (map_fold_weak_ind (λ r _, 0 ≤ r)); [lia|]. intros. lia.
Qed.

#[global] Instance w_base_laws : SdkBaseVestingLaws coins.
Proof.
  constructor. intros b v c d Hv Hd Hs.
  destruct (coins_sub_inv v (coins_min v (DelegatedVesting b)) c Hv
    (valid_min _ _ Hv Hd) Hs) as [_ Hc].
  etransitivity; [exact (Hc d)|]. f_equal. exact (amount_min v (DelegatedVesting b) d Hv Hd).
Qed.
