(* ===== verification/VestingMsgs.v ===== *)
(** * The vesting message server: [x/vesting/keeper/msg_server.go],
    [types/msg.go] and the balances query *)

From S2P Require Import Prelude Sdk Schedule ScheduleMerge Clawback Keepers.

(** ** Messages *)

Record MsgCreateClawbackVestingAccount (C : Type) := mkMsgCreate {
  mc_FromAddress : string;
  mc_ToAddress : string;
  mc_StartTime : Z;
  mc_LockupPeriods : list (Period C);
  mc_VestingPeriods : list (Period C);
  mc_Merge : bool;
}.
Arguments mkMsgCreate {C} _ _ _ _ _ _.
Arguments mc_FromAddress {C} _.
Arguments mc_ToAddress {C} _.
Arguments mc_StartTime {C} _.
Arguments mc_LockupPeriods {C} _.
Arguments mc_VestingPeriods {C} _.
Arguments mc_Merge {C} _.

Record MsgClawback := mkMsgClawback {
  cb_FunderAddress : string;
  cb_AccountAddress : string;
  cb_DestAddress : string;
}.

Section server.
Context {C X : Type} `{SdkCoins C, !SdkPeriods C, !SdkBaseVesting C, !SdkAddress,
  !AccountKeeper C X, !BankKeeper C X, !StakingKeeper X}.

(** *** [ValidateBasic] *)

(** The loop over the periods of one schedule. *)
Fixpoint validate_periods (coins : C) (ps : list (Period C)) : outcome C :=
  match ps with
  | [] => Ok coins
  | p :: rest =>
      if Length p <? 1 then Err ErrInvalidRequest
      else validate_periods (coins_add coins (Amount p)) rest
  end.

Definition MsgCreate_ValidateBasic (msg : MsgCreateClawbackVestingAccount C) : outcome unit :=
  let? _ := check_bech32 (mc_FromAddress msg) in
  let? _ := check_bech32 (mc_ToAddress msg) in
  let? lockupCoins := validate_periods coins_empty (mc_LockupPeriods msg) in
  let? vestingCoins := validate_periods coins_empty (mc_VestingPeriods msg) in
  ocheck (bool_decide (mc_LockupPeriods msg ≠ []) && bool_decide (mc_VestingPeriods msg ≠ []) &&
          negb (coins_is_all_lte lockupCoins vestingCoins &&
                coins_is_all_lte vestingCoins lockupCoins))
         ErrInvalidRequest.

Definition MsgClawback_ValidateBasic (msg : MsgClawback) : outcome unit :=
  let? _ := check_bech32 (cb_FunderAddress msg) in
  let? _ := check_bech32 (cb_AccountAddress msg) in
  if String.eqb (cb_DestAddress msg) "" then Ok tt else check_bech32 (cb_DestAddress msg).

(** *** [addGrant] *)

Definition addGrant (ctx : Ctx) (va : ClawbackVestingAccount C) (grantStartTime : Z)
    (grantLockupPeriods grantVestingPeriods : list (Period C)) (grantCoins : C)
    : M X (ClawbackVestingAccount C) :=
  let! bondedAmt := gets (λ x, GetDelegatorBonded x (ba_address (va_base va))) in
  let! unbondingAmt := gets (λ x, GetDelegatorUnbonding x (ba_address (va_base va))) in
  let delegatedAmt := bondedAmt + unbondingAmt in
  let! denom := gets BondDenom in
  let! delegated := lift (coins_new denom delegatedAmt) in
  let '(newLockupStart, newLockupEnd, newLockupPeriods) :=
    DisjunctPeriods (GetStartTime va) grantStartTime (LockupPeriods va) grantLockupPeriods in
  let '(newVestingStart, newVestingEnd, newVestingPeriods) :=
    DisjunctPeriods (GetStartTime va) grantStartTime (GetVestingPeriods va) grantVestingPeriods in
  check (negb (newLockupStart =? newVestingStart)) ErrVestingLockup ;;;
  let base := va_base va in
  let va1 := mkVA (mkBase (ba_address base) (coins_add (OriginalVesting base) grantCoins)
                          (DelegatedFree base) (DelegatedVesting base)
                          (Max64 newLockupEnd newVestingEnd))
                  (FunderAddress va) (from_unix newLockupStart)
                  newLockupPeriods newVestingPeriods in
  let! unvested := lift (GetVestingCoins va1 (BlockTime ctx)) in
  let dv := coins_min delegated unvested in
  let! df := lift (coins_sub delegated dv) in
  ret (mkVA (mkBase (ba_address base) (OriginalVesting (va_base va1)) df dv
                    (EndTime (va_base va1)))
            (FunderAddress va1) (StartTime va1) (LockupPeriods va1) (VestingPeriods va1)).

(** *** [CreateClawbackVestingAccount] *)

Definition CreateClawbackVestingAccount (ctx : Ctx) (msg : MsgCreateClawbackVestingAccount C)
    : M X unit :=
  let! from := lift (must_acc_from_bech32 (mc_FromAddress msg)) in
  let! to := lift (must_acc_from_bech32 (mc_ToAddress msg)) in
  check (BlockedAddr to) ErrUnauthorized ;;;
  let vestingCoins := total_amount (mc_VestingPeriods msg) in
  let lockupCoins := total_amount (mc_LockupPeriods msg) in
  (* if lockup absent, default to an instant unlock schedule *)
  let '(lockupPeriods, lockupCoins) :=
    if negb (coins_is_zero vestingCoins) && bool_decide (mc_LockupPeriods msg = [])
    then ([mkPeriod 0 vestingCoins], vestingCoins) else (mc_LockupPeriods msg, lockupCoins) in
  (* if vesting absent, default to an instant vesting schedule *)
  let '(vestingPeriods, vestingCoins) :=
    if negb (coins_is_zero lockupCoins) && bool_decide (mc_VestingPeriods msg = [])
    then ([mkPeriod 0 lockupCoins], lockupCoins) else (mc_VestingPeriods msg, vestingCoins) in
  check (negb (coins_is_all_lte vestingCoins lockupCoins && coins_is_all_lte lockupCoins vestingCoins))
        ErrInvalidRequest ;;;
  let! acc := gets (λ x, GetAccount x to) in
  match acc with
  | Some (ClawbackAcc vestingAcc) =>
      check (negb (mc_Merge msg)) ErrInvalidRequest ;;;
      check (negb (String.eqb (mc_FromAddress msg) (FunderAddress vestingAcc))) ErrInvalidRequest ;;;
      let! vestingAcc := addGrant ctx vestingAcc (unix (mc_StartTime msg))
                           lockupPeriods vestingPeriods vestingCoins in
      modify (SetAccount (ClawbackAcc vestingAcc))
  | Some _ => fail (if mc_Merge msg then ErrNotSupported else ErrInvalidRequest)
  | None =>
      let acc := ClawbackAcc (NewClawbackVestingAccount to from vestingCoins (mc_StartTime msg)
                                lockupPeriods vestingPeriods) in
      modify (NewAccount acc) ;;; modify (SetAccount acc)
  end ;;;
  SendCoins from to vestingCoins.

(** *** [Clawback] *)

Definition transferClawback (ctx : Ctx) (va : ClawbackVestingAccount C) (dest : string) : M X unit :=
  let! (updatedAcc, toClawBack) := lift (ComputeClawback va (unix (BlockTime ctx))) in
  if coins_is_zero toClawBack then ret tt else
  modify (SetAccount (ClawbackAcc updatedAcc)) ;;;
  SendCoins (ba_address (va_base updatedAcc)) dest toClawBack.

(** [AccAddressFromBech32] with its error ignored yields the empty address. *)
Definition acc_or_empty (s : string) : string := default ""%string (acc_from_bech32 s).

Definition Clawback (ctx : Ctx) (msg : MsgClawback) : M X unit :=
  let! addr := lift (must_acc_from_bech32 (cb_AccountAddress msg)) in
  let dest := acc_or_empty (if String.eqb (cb_DestAddress msg) "" then cb_FunderAddress msg
                            else cb_DestAddress msg) in
  check (BlockedAddr dest) ErrUnauthorized ;;;
  let! acc := gets (λ x, GetAccount x addr) in
  match acc with
  | None => fail ErrNotFound
  | Some (ClawbackAcc va) =>
      check (negb (String.eqb (FunderAddress va) (cb_FunderAddress msg))) ErrInvalidRequest ;;;
      check (BlockTime ctx <? StartTime va) ErrInvalidRequest ;;;
      transferClawback ctx va dest
  | Some _ => fail ErrInvalidRequest
  end.

(** *** The [Balances] query: locked, unvested and vested coins *)

Definition Balances (ctx : Ctx) (address : string) : M X (C * C * C) :=
  match acc_from_bech32 address with
  | None => fail (ErrMsg "invalid argument")
  | Some addr =>
      let! acc := gets (λ x, GetAccount x addr) in
      match acc with
      | None => fail (ErrMsg "account for address not found")
      | Some (ClawbackAcc va) =>
          let! locked := lift (GetLockedOnly va (BlockTime ctx)) in
          let! unvested := lift (GetUnvestedOnly va (BlockTime ctx)) in
          ret (locked, unvested, GetVestedOnly va (BlockTime ctx))
      | Some _ => fail (ErrMsg "account is not a vesting account")
      end
  end.

End server.

(** ** Lemmas *)

Section theory.
Context {C X : Type} `{SdkCoinsLaws C, !SdkPeriods C, !SdkPeriodsLaws C, !SdkBaseVesting C,
  !SdkAddress, !AccountKeeper C X, !BankKeeper C X, !StakingKeeper X, !BankLaws C X}.
Implicit Types va : ClawbackVestingAccount C.
#[local] Arguments released : simpl never.

(** A grant: two schedules from the same start that release the same coins. *)
Definition grant_wf (start : Z) (lp vp : list (Period C)) (coins : C) : Prop :=
  coins_valid coins = true ∧ sched_ok start lp ∧ sched_ok start vp ∧
  ∀ d, amount_of coins d = sched_total d lp ∧ amount_of coins d = sched_total d vp.

(** Merging two schedules adds their totals. *)
Lemma disjunct_wf sA sB ps qs s e out tA tB end_ :
  sched_ok sA ps → sched_ok sB qs → coins_valid tA = true → coins_valid tB = true →
  (∀ d, amount_of tA d = sched_total d ps) → (∀ d, amount_of tB d = sched_total d qs) →
  DisjunctPeriods sA sB ps qs = (s, e, out) → e ≤ end_ →
  sched_wf s end_ out (coins_add tA tB).
Proof.
  intros HA HB HvA HvB HtA HtB Hd Hle.
  destruct (DisjunctPeriods_spec _ _ _ _ _ _ _ HA HB Hd) as (Es & Ee & Hok & Hr).
  split; [done|]. split; [auto with evmos|]. split; [lia|]. intros d.
  rewrite amount_add, HtA, HtB by done.
  set (t := Z.max (sched_end s out) (Z.max (sched_end sA ps) (sched_end sB qs))).
  rewrite <- (released_after d t s out) by (try apply Hok; lia).
  rewrite Hr, !released_after; try lia; [apply HB|apply HA].
Qed.

Lemma addGrant_spec ctx va gs glp gvp gc (x : X) :
  va_wf va → grant_wf gs glp gvp gc →
  let delegated := GetDelegatorBonded x (ba_address (va_base va)) +
                   GetDelegatorUnbonding x (ba_address (va_base va)) in
  0 ≤ delegated → denom_valid (BondDenom x) = true →
  ∃ va', addGrant ctx va gs glp gvp gc x = (Ok va', x) ∧ va_wf va' ∧
    (∀ d, original va' d = original va d + amount_of gc d) ∧
    (∀ d t, Z.max (GetStartTime va) gs < unix t →
       vested va' d t = vested va d t + released d (unix t) (events gs gvp) ∧
       unlocked va' d t = unlocked va d t + released d (unix t) (events gs glp)) ∧
    (∀ d, amount_of (DelegatedVesting (va_base va')) d =
          Z.min (at_addr d (BondDenom x) delegated)
                (original va' d - Z.min (unlocked va' d (BlockTime ctx)) (vested va' d (BlockTime ctx)))) ∧
    (∀ d, amount_of (DelegatedFree (va_base va')) d =
          at_addr d (BondDenom x) delegated - amount_of (DelegatedVesting (va_base va')) d) ∧
    ba_address (va_base va') = ba_address (va_base va) ∧ FunderAddress va' = FunderAddress va.
Proof.
  intros [Hl Hv] (Hgc & Hglp & Hgvp & Htot) delegated Hdel Hden.
  destruct (coins_new_ok _ _ Hdel Hden) as (del & Edel & Hvdel & Hdela).
  unfold addGrant, bind, gets, lift, check. subst delegated. rewrite Edel.
  destruct (DisjunctPeriods (GetStartTime va) gs (LockupPeriods va) glp) as [[ls le] lps] eqn:EL.
  unfold GetVestingPeriods.
  destruct (DisjunctPeriods (GetStartTime va) gs (VestingPeriods va) gvp) as [[vs ve] vps] eqn:EV.
  pose proof Hl as (HlA & Hvo & _ & HlT). pose proof Hv as (HvA & _ & _ & HvT).
  destruct (DisjunctPeriods_spec _ _ _ _ _ _ _ HlA Hglp EL) as (Els & Ele & Hlok & Hlr).
  destruct (DisjunctPeriods_spec _ _ _ _ _ _ _ HvA Hgvp EV) as (Evs & Eve & Hvok & Hvr).
  rewrite <- Els in Evs. subst vs. rewrite Z.eqb_refl. simpl negb. cbn iota. unfold ret.
  set (va1 := mkVA _ _ _ lps vps).
  assert (Hs1 : GetStartTime va1 = ls) by apply unix_from_unix.
  assert (Hwf1 : va_wf va1).
  { split; rewrite Hs1; unfold GetEndTime; simpl; rewrite Max64_spec.
    - refine (disjunct_wf _ _ _ _ _ _ _ _ _ _ HlA Hglp Hvo Hgc HlT _ EL _); [|lia].
      intros d. apply Htot.
    - refine (disjunct_wf _ _ _ _ _ _ _ _ _ _ HvA Hgvp Hvo Hgc HvT _ EV _); [|lia].
      intros d. apply Htot. }
  destruct (GetVestingCoins_spec va1 (BlockTime ctx) Hwf1) as (unv & -> & Hvunv & Hunv).
  destruct (sub_ok del (coins_min del unv)) as (df & -> & Hvdf & Hdf); auto with evmos.
  { intros d. rewrite amount_min by done. lia. }
  set (va2 := mkVA _ _ _ _ _). exists va2. split; [done|].
  assert (Hread : (∀ d t, vested va2 d t = vested va1 d t) ∧
                  (∀ d t, unlocked va2 d t = unlocked va1 d t)) by done.
  destruct Hread as [Hrv Hrl]. pose proof Hwf1 as [Hl1 Hv1].
  split; [exact Hwf1|]. split.
  { intros d. unfold original. simpl. by apply amount_add. }
  split.
  { intros d t Hmax. rewrite Hrv, Hrl. unfold vested, unlocked, GetVestedOnly, GetUnlockedOnly.
    pose proof (ReadSchedule_released _ _ _ _ (unix t) d Hv1) as Rv1.
    pose proof (ReadSchedule_released _ _ _ _ (unix t) d Hl1) as Rl1.
    pose proof (ReadSchedule_released _ _ _ _ (unix t) d Hv) as Rv.
    pose proof (ReadSchedule_released _ _ _ _ (unix t) d Hl) as Rl.
    unfold GetEndTime in *. rewrite Rv1, Rl1, Rv, Rl, Hs1.
    destruct (Z.leb_spec (unix t) ls), (Z.leb_spec (unix t) (GetStartTime va)); try lia.
    simpl. rewrite Hlr, Hvr. lia. }
  assert (Hdva : ∀ d, amount_of (coins_min del unv) d = Z.min (amount_of del d) (amount_of unv d))
    by (intros; by apply amount_min).
  split; [intros d; simpl; rewrite Hdva, Hdela, Hunv; done|]. split; [|done].
  intros d. simpl. rewrite Hdf, Hdela. done.
Qed.

(** *** The handlers *)

Lemma transferClawback_ok ctx va dest (x x' : X) :
  va_wf va → GetStartTime va ≤ unix (BlockTime ctx) →
  transferClawback ctx va dest x = (Ok tt, x') →
  (∀ a d, GetBalance x' a d = GetBalance x a d +
     at_addr a dest (original va d - vested va d (BlockTime ctx)) -
     at_addr a (ba_address (va_base va)) (original va d - vested va d (BlockTime ctx))) ∧
  (x' = x ∧ (∀ d, original va d = vested va d (BlockTime ctx)) ∨
   ∃ va' c, ComputeClawback va (unix (BlockTime ctx)) = Ok (va', c) ∧
            GetAccount x' (ba_address (va_base va)) = Some (ClawbackAcc va')).
Proof.
  intros Hwf HT. unfold transferClawback.
  destruct (ComputeClawback_spec va (unix (BlockTime ctx)) Hwf HT)
    as (va' & c & E & Hwf' & Hvc & Hc & _ & _ & _ & Ha & Hf & _).
  assert (Hvest : ∀ d, vested va d (from_unix (unix (BlockTime ctx))) = vested va d (BlockTime ctx)).
  { intros d. unfold vested, GetVestedOnly. by rewrite unix_from_unix. }
  rewrite E. unfold bind, lift, modify, ret. destruct (coins_is_zero c) eqn:Ez; intros Hrun.
  - injection Hrun as <-. pose proof (proj1 (is_zero_spec _ Hvc) Ez) as Hz.
    assert (Hz' : ∀ d, original va d - vested va d (BlockTime ctx) = 0).
    { intros d. rewrite <- Hvest, <- Hc. apply Hz. }
    split; [intros a d; rewrite Hz'; unfold at_addr; repeat case_decide; lia|].
    left. split; [done|]. intros d. specialize (Hz' d). lia.
  - split.
    + intros a d. rewrite (send_ok _ _ _ _ _ Hrun a d), balance_set_account, Hc, Hvest, Ha. done.
    + right. exists va', c. split; [done|]. rewrite <- Ha.
      eapply send_acc; [exact Hrun|]. apply (get_set_account (ClawbackAcc va')).
Qed.

(** A successful [Clawback] was requested by the account's funder, after the
    start of the schedule, and ran [transferClawback]. *)
Lemma Clawback_inv ctx msg (x x' : X) :
  Clawback ctx msg x = (Ok tt, x') →
  ∃ addr va dest,
    acc_from_bech32 (cb_AccountAddress msg) = Some addr ∧
    GetAccount x addr = Some (ClawbackAcc va) ∧ ba_address (va_base va) = addr ∧
    FunderAddress va = cb_FunderAddress msg ∧ StartTime va ≤ BlockTime ctx ∧
    dest = acc_or_empty (if String.eqb (cb_DestAddress msg) "" then cb_FunderAddress msg
                         else cb_DestAddress msg) ∧
    BlockedAddr dest = false ∧
    transferClawback ctx va dest x = (Ok tt, x').
Proof.
  unfold Clawback, must_acc_from_bech32. intros Hrun. inv_ok.
  destruct (acc_from_bech32 (cb_AccountAddress msg)) as [addr|] eqn:Ea; inv_ok.
  destruct (GetAccount _ _) as [[va| |]|] eqn:Eacc; inv_ok.
  bool_hyps. eexists _, va, _. repeat split; eauto.
  - exact (get_account_addr _ _ _ Eacc).
  - by apply String.eqb_eq.
Qed.

End theory.
