(* ===== verification/VestingProps.v ===== *)
(** * Properties of the vesting module, with their witnesses *)

From S2P Require Import Prelude Sdk Schedule ScheduleMerge SdkInstances Clawback.
From S2P Require Import Keepers KeeperInstances VestingMsgs.

Section lemmas.
Context {C X : Type} `{SdkCoinsLaws C, !SdkPeriods C, !SdkPeriodsLaws C, !SdkBaseVesting C,
  !SdkAddress, !AccountKeeper C X, !BankKeeper C X, !StakingKeeper X, !BankLaws C X}.

Lemma addGrant_inv ctx va gs glp gvp gc (x x' : X) va' :
  addGrant ctx va gs glp gvp gc x = (Ok va', x') →
  x' = x ∧ ba_address (va_base va') = ba_address (va_base va) ∧
  FunderAddress va' = FunderAddress va ∧
  OriginalVesting (va_base va') = coins_add (OriginalVesting (va_base va)) gc.
Proof.
  unfold addGrant. intros Hrun. do 4 inv_ok_step; subst.
  inv_ok. destruct (DisjunctPeriods _ _ (LockupPeriods va) _) as [[? ?] ?].
  destruct (DisjunctPeriods _ _ (GetVestingPeriods va) _) as [[? ?] ?]. inv_ok. done.
Qed.

Lemma extend_first_zero start (ps : list (Period C)) :
  sched_ok start ps → extend_first (start -i start) ps = ps.
Proof.
  intros Hok. destruct ps as [|p ps]; [done|]. simpl.
  destruct (sched_ok_cons _ _ _ Hok) as ([Hl _] & _ & _ & (Hp & _ & He)).
  destruct Hok as (_ & Hs & _). pose proof (sumZ_length_nonneg _ Hp).
  rewrite Z.sub_diag, (wrap64_id 0), Z.add_0_r by (unfold in_int64; lia).
  rewrite wrap64_id by (unfold safe_time, sched_end, in_int64 in *; lia). by destruct p.
Qed.

Lemma new_account_wf addr funder coins startTime lp vp :
  grant_wf (unix startTime) lp vp coins →
  va_wf (NewClawbackVestingAccount addr funder coins startTime lp vp).
Proof.
  intros (Hv & Hlp & Hvp & Htot). unfold NewClawbackVestingAccount, AlignSchedules.
  rewrite Min64_spec, Z.min_id, !extend_first_zero by done.
  rewrite <- (firstn_all lp), <- (firstn_all vp), !total_length_prefix, !firstn_all by done.
  rewrite Max64_spec.
  split; (split; [done|]); (split; [done|]); (split; [unfold GetStartTime, GetEndTime; simpl; lia|]);
    intros d; apply Htot.
Qed.

(** The account is stored, and the coins are sent to it. *)
Lemma stored_and_sent from to coins acc (x y x' : X) :
  SendCoins from to coins (SetAccount acc y) = (Ok tt, x') →
  (∀ a d, GetBalance y a d = GetBalance x a d) → acc_address acc = to →
  transferred from to coins x x' ∧ GetAccount x' to = Some acc.
Proof.
  intros Hsend Hy Hacc. split.
  - intros a d. by rewrite (send_ok _ _ _ _ _ Hsend a d), balance_set_account, Hy.
  - eapply send_acc; [exact Hsend|]. rewrite <- Hacc. apply get_set_account.
Qed.

(** Two schedules with their amounts, and an instant schedule for an absent one. *)
Definition with_defaults (L V : list (Period C)) (cl cv : C) : list (Period C) * C * list (Period C) * C :=
  let '(lp, lc) := if negb (coins_is_zero cv) && bool_decide (L = []) then ([mkPeriod 0 cv], cv) else (L, cl) in
  let '(vp, vc) := if negb (coins_is_zero lc) && bool_decide (V = []) then ([mkPeriod 0 lc], lc) else (V, cv) in
  (lp, lc, vp, vc).

(** What a successful [CreateClawbackVestingAccount] did before the transfer. *)
Lemma create_inv ctx msg (x x' : X) :
  CreateClawbackVestingAccount ctx msg x = (Ok tt, x') →
  ∃ from to lp lc vp coins x1,
    acc_from_bech32 (mc_FromAddress msg) = Some from ∧
    acc_from_bech32 (mc_ToAddress msg) = Some to ∧ BlockedAddr to = false ∧
    with_defaults (mc_LockupPeriods msg) (mc_VestingPeriods msg) (total_amount (mc_LockupPeriods msg))
      (total_amount (mc_VestingPeriods msg)) = (lp, lc, vp, coins) ∧ coinEq coins lc = true ∧
    (GetAccount x to = None ∧
     (let acc := ClawbackAcc (NewClawbackVestingAccount to from coins (mc_StartTime msg) lp vp) in
       x1 = SetAccount acc (NewAccount acc x))
     ∨ ∃ va va', GetAccount x to = Some (ClawbackAcc va) ∧ mc_Merge msg = true ∧
       FunderAddress va = mc_FromAddress msg ∧
       addGrant ctx va (unix (mc_StartTime msg)) lp vp coins x = (Ok va', x) ∧
       x1 = SetAccount (ClawbackAcc va') x) ∧
    SendCoins from to coins x1 = (Ok tt, x').
Proof.
  unfold CreateClawbackVestingAccount, must_acc_from_bech32, with_defaults. intros Hrun.
  apply bind_ok in Hrun as (from & s1 & E1 & Hrun).
  destruct (acc_from_bech32 (mc_FromAddress msg)) as [from'|] eqn:Ef; inv_ok.
  destruct (acc_from_bech32 (mc_ToAddress msg)) as [to|] eqn:Et; inv_ok.
  destruct (if negb (coins_is_zero _) && _ then _ else _) as [lp lockupCoins].
  destruct (if negb (coins_is_zero lockupCoins) && _ then _ else _) as [vp coins].
  inv_ok. eexists _, _, lp, lockupCoins, vp, coins, _. split; [done|]. split; [done|]. split; [done|]. split; [done|].
  split; [by apply negb_false_iff|]. split; [|eassumption].
  destruct (GetAccount _ _) as [[va| |]|] eqn:Eacc; inv_ok.
  - right. match goal with H : addGrant _ _ _ _ _ _ _ = _ |- _ =>
      pose proof H as Hg; apply addGrant_inv in Hg as (-> & _) end.
    bool_hyps. eexists va, _. split; [done|]. split; [done|].
    split; [symmetry; by apply String.eqb_eq|]. split; [eassumption|done].
  - left. split; [done|]. done.
Qed.

End lemmas.

(** ** Sample data for the witnesses *)

Definition evmos (n : Z) : coins := {[ "aevmos"%string := n ]}.
Definition sample_lockup : list (Period coins) := [mkPeriod 10 (evmos 60); mkPeriod 10 (evmos 40)].
Definition sample_vesting : list (Period coins) := [mkPeriod 5 (evmos 50); mkPeriod 20 (evmos 50)].
Definition sample_va : ClawbackVestingAccount coins :=
  mkVA (mkBase "alice" (evmos 100) ∅ ∅ 125) "evmos1funder" (from_unix 100)
       sample_lockup sample_vesting.
Definition sample_world : world :=
  mkWorld {[ "alice"%string := evmos 100; "funder"%string := evmos 500 ]} ∅
          {[ "alice"%string := ClawbackAcc sample_va ]} ∅ {[ "alice"%string := 30 ]} no_evm.

Lemma evmos_valid n : 0 < n → coins_valid (evmos n) = true.
Proof. intros ?. by apply gcoins_singleton_valid. Qed.

Lemma evmos_amount n d : amount_of (evmos n) d = if decide (d = "aevmos"%string) then n else 0.
Proof. apply gcoins_singleton. Qed.

(** A two-period schedule of [evmos] coins is well formed. *)
Lemma sample_sched_wf start end_ l1 n1 l2 n2 :
  0 ≤ start → 0 ≤ l1 → 0 ≤ l2 → 0 < n1 → 0 < n2 → start + l1 + l2 ≤ end_ → end_ < 2^62 →
  sched_wf start end_ [mkPeriod l1 (evmos n1); mkPeriod l2 (evmos n2)] (evmos (n1 + n2)).
Proof.
  intros. split; [|split; [apply evmos_valid; lia|split]].
  - split; [repeat constructor; simpl; try lia; by apply evmos_valid|].
    unfold sched_end, safe_time. simpl. lia.
  - unfold sched_end. simpl. lia.
  - intros d. unfold sched_total. simpl sumZ. rewrite !evmos_amount. case_decide; lia.
Qed.

Lemma sample_va_wf : va_wf sample_va.
Proof. split; apply (sample_sched_wf 100 125); lia. Qed.

(** ** Schedules *)

(** [ReadSchedule] evaluates the step function of the schedule. For a
    schedule whose recorded end time and total agree with its periods, the
    coins read at [t] are, denomination by denomination, the sum of the events
    up to and including [t] (nothing up to the start time), they never exceed
    the total, and they never decrease as time passes. *)
Lemma read_schedule_step_function {C : Type} `{SdkCoinsLaws C}
    start end_ (ps : list (Period C)) total t t' d :
  sched_wf start end_ ps total → t ≤ t' →
  amount_of (ReadSchedule start end_ ps total t) d =
    (if t <=? start then 0 else released d t (events start ps)) ∧
  0 ≤ amount_of (ReadSchedule start end_ ps total t) d ≤ amount_of total d ∧
  amount_of (ReadSchedule start end_ ps total t) d ≤
  amount_of (ReadSchedule start end_ ps total t') d.
Proof.
  intros Hwf Ht. split; [by apply ReadSchedule_released|].
  split; [by apply read_bounds|by apply read_mono].
Qed.

Lemma read_schedule_step_function_witness :
  amount_of (ReadSchedule 100 125 sample_vesting (evmos 100) 110) "aevmos" = 50 ∧
  amount_of (ReadSchedule 100 125 sample_vesting (evmos 100) 110) "aevmos" ≤
  amount_of (ReadSchedule 100 125 sample_vesting (evmos 100) 130) "aevmos".
Proof.
  destruct (read_schedule_step_function 100 125 sample_vesting (evmos 100) 110 130 "aevmos")
    as (E & _ & Hle); [apply (sample_sched_wf 100 125); lia|lia|].
  split; [rewrite E; vm_compute; reflexivity|exact Hle].
Defined.

(** C26: [DisjunctPeriods] is the union of two schedules. The merged schedule
    starts at the earlier start, ends at its last event, has no negative
    period, and reading it at any time after both starts gives the sum of the
    two schedules read at that time. *)
Theorem disjunct_periods_is_sum {C : Type} `{SdkCoinsLaws C}
    sA sB eA eB (ps qs : list (Period C)) tA tB s e out t d :
  sched_wf sA eA ps tA → sched_wf sB eB qs tB →
  DisjunctPeriods sA sB ps qs = (s, e, out) → Z.max sA sB < t →
  s = Z.min sA sB ∧ sched_wf s e out (coins_add tA tB) ∧
  amount_of (ReadSchedule s e out (coins_add tA tB) t) d =
    amount_of (ReadSchedule sA eA ps tA t) d + amount_of (ReadSchedule sB eB qs tB t) d.
Proof.
  intros HA HB Hd Ht. pose proof HA as (HokA & HvA & _ & HtA).
  pose proof HB as (HokB & HvB & _ & HtB).
  destruct (DisjunctPeriods_spec _ _ _ _ _ _ _ HokA HokB Hd) as (Es & Ee & Hok & Hr).
  assert (Hwf : sched_wf s e out (coins_add tA tB)) 
    by exact (disjunct_wf _ _ _ _ _ _ _ _ _ e HokA HokB HvA HvB HtA HtB Hd (Z.le_refl e)).
  split; [done|]. split; [done|].
  rewrite !ReadSchedule_released by done. rewrite Hr.
  destruct (Z.leb_spec t s), (Z.leb_spec t sA), (Z.leb_spec t sB); lia.
Qed.

Lemma disjunct_periods_is_sum_witness :
  amount_of (ReadSchedule 100 130 (DisjunctPeriods 100 110 sample_vesting sample_lockup).2
               (coins_add (evmos 100) (evmos 100)) 121) "aevmos" = 50 + 60.
Proof.
  destruct (disjunct_periods_is_sum 100 110 125 130 sample_vesting sample_lockup (evmos 100)
    (evmos 100) 100 130 (DisjunctPeriods 100 110 sample_vesting sample_lockup).2 121 "aevmos")
    as (_ & _ & E); [apply (sample_sched_wf 100 125); lia|apply (sample_sched_wf 110 130); lia
                    |vm_compute; reflexivity|lia|].
  etransitivity; [exact E|]. vm_compute. reflexivity.
Defined.

(** C25: [ConjunctPeriods] is the pointwise minimum of two schedules. It never
    panics (its guarded subtraction cannot go negative), its result has no
    negative period and ends at its last event, and what it has released at
    any time is, for every denomination, the minimum of what the two inputs
    have released. *)
Theorem conjunct_periods_is_min {C : Type} `{SdkCoinsLaws C} sA sB (ps qs : list (Period C)) :
  sched_ok sA ps → sched_ok sB qs →
  ∃ e out,
    ConjunctPeriods sA sB ps qs = Ok (Z.min sA sB, e, out) ∧
    e = sched_end (Z.min sA sB) out ∧ sched_ok (Z.min sA sB) out ∧
    ∀ d t, released d t (events (Z.min sA sB) out) =
           Z.min (released d t (events sA ps)) (released d t (events sB qs)).
Proof. apply ConjunctPeriods_spec. Qed.

Lemma conjunct_periods_is_min_witness :
  ConjunctPeriods 100 100 sample_vesting sample_lockup =
    Ok (100, 125, [mkPeriod 10 (evmos 50); mkPeriod 15 (evmos 50)]) ∧
  ∃ e out, ConjunctPeriods 100 100 sample_vesting sample_lockup = Ok (100, e, out) ∧
           e = sched_end 100 out.
Proof.
  split; [vm_compute; reflexivity|].
  destruct (conjunct_periods_is_min 100 100 sample_vesting sample_lockup) as (e & out & E & He & _).
  - apply (sample_sched_wf 100 125); lia.
  - apply (sample_sched_wf 100 125); lia.
  - exists e, out. split; [exact E|exact He].
Defined.

(** ** The account *)

(** [Validate] accepts only well-formed accounts. If no period is negative,
    the amounts are valid coins and the times stay in range, an account that
    passes [Validate] has both schedules ending by its end time and releasing
    exactly its original vesting coins. *)
Lemma validate_sound {C : Type} `{SdkCoinsLaws C, !SdkPeriods C, !SdkBaseVesting C}
    (va : ClawbackVestingAccount C) :
  sched_ok (GetStartTime va) (LockupPeriods va) →
  sched_ok (GetStartTime va) (VestingPeriods va) →
  coins_valid (OriginalVesting (va_base va)) = true →
  Validate va = Ok tt →
  va_wf va ∧ GetStartTime va < GetEndTime va.
Proof.
  intros Hl Hv Ho. unfold Validate.
  destruct (sum_periods_spec _ _ Hl) as (El & HvL & HL).
  destruct (sum_periods_spec _ _ Hv) as (Ev & HvV & HV).
  destruct (sum_periods _ (LockupPeriods va)) as [le lc].
  destruct (sum_periods _ (VestingPeriods va)) as [ve vc]. simpl in *.
  intros Hval. inv_ok. bool_hyps.
  repeat match goal with Hq : coinEq _ _ = true |- _ => rewrite coinEq_spec in Hq by done end.
  split; [|done]. unfold GetEndTime in *.
  split; (split; [done|]); (split; [done|]); (split; [unfold GetEndTime; lia|]);
    intros d; [rewrite <- HL|rewrite <- HV]; done.
Qed.

Lemma validate_sound_witness : Validate sample_va = Ok tt ∧ va_wf sample_va.
Proof.
  split; [vm_compute; reflexivity|].
  apply (validate_sound sample_va).
  - apply sample_va_wf.
  - apply sample_va_wf.
  - vm_compute; reflexivity.
  - vm_compute; reflexivity.
Defined.

(** The account partitions its original vesting coins. For a well-formed
    account, at every time: locked plus unlocked coins, and unvested plus vested
    coins, both make up the original amount; none of the subtractions panics;
    the coins still vesting for the bank are those not both vested and
    unlocked, and those that are not spendable are these minus the delegated
    ones. *)
Lemma account_partition {C : Type}
    `{SdkCoinsLaws C, !SdkPeriods C, !SdkBaseVesting C, !SdkBaseVestingLaws C}
    (va : ClawbackVestingAccount C) t d :
  va_wf va → coins_valid (DelegatedVesting (va_base va)) = true →
  ∃ locked unvested vesting,
    GetLockedOnly va t = Ok locked ∧ GetUnvestedOnly va t = Ok unvested ∧
    GetVestingCoins va t = Ok vesting ∧
    amount_of locked d + unlocked va d t = original va d ∧
    amount_of unvested d + vested va d t = original va d ∧
    amount_of vesting d = original va d - Z.min (unlocked va d t) (vested va d t) ∧
    ∀ c, LockedCoins va t = Ok c →
      amount_of c d = Z.max 0 (amount_of vesting d - amount_of (DelegatedVesting (va_base va)) d).
Proof.
  intros Hwf Hdv. destruct (GetVestingCoins_spec va t Hwf) as (vesting & Ev & Hvv & Hva).
  pose proof Hwf as [Hl Hv].
  destruct (read_sub_total _ _ _ _ Hl (unix t)) as (lk & El & _ & Hlk).
  destruct (read_sub_total _ _ _ _ Hv (unix t)) as (uv & Eu & _ & Huv).
  exists lk, uv, vesting. split; [done|]. split; [done|]. split; [done|].
  split; [rewrite Hlk; unfold unlocked, GetUnlockedOnly, original, GetEndTime; lia|].
  split; [rewrite Huv; unfold vested, GetVestedOnly, original, GetEndTime; lia|].
  split; [apply Hva|]. intros c. unfold LockedCoins. rewrite Ev. simpl. intros Hc.
  rewrite (locked_from_vesting_spec _ _ _ d Hvv Hdv Hc). lia.
Qed.

Lemma account_partition_witness :
  ∃ locked unvested vesting,
    GetLockedOnly sample_va (from_unix 112) = Ok locked ∧
    GetUnvestedOnly sample_va (from_unix 112) = Ok unvested ∧
    GetVestingCoins sample_va (from_unix 112) = Ok vesting ∧
    amount_of locked "aevmos" + 60 = 100 ∧ amount_of unvested "aevmos" + 50 = 100.
Proof.
  destruct (account_partition sample_va (from_unix 112) "aevmos") as (l & u & v & El & Eu & Ev & Hl & Hu & _).
  - apply sample_va_wf.
  - vm_compute; reflexivity.
  - exists l, u, v. repeat split; [exact El|exact Eu|exact Ev|exact Hl|exact Hu].
Defined.

(** C1: [ComputeClawback] takes exactly the unvested coins and nothing else.
    For a well-formed account and any time from its start on, it never panics;
    the amount clawed back is the original amount minus what has vested; the
    account left behind is well formed, keeps exactly the vested coins, and at
    every past or future time has vested, and has unlocked, what it would have
    without the clawback, capped at the amount vested when it happened. *)
Theorem compute_clawback_correct {C : Type}
    `{SdkCoinsLaws C, !SdkPeriods C, !SdkPeriodsLaws C}
    (va : ClawbackVestingAccount C) (T : Z) :
  va_wf va → GetStartTime va ≤ T →
  ∃ va' c,
    ComputeClawback va T = Ok (va', c) ∧ va_wf va' ∧
    (∀ d, amount_of c d = original va d - vested va d (from_unix T)) ∧
    (∀ d, original va' d = vested va d (from_unix T)) ∧
    (∀ d t, vested va' d t = Z.min (vested va d t) (vested va d (from_unix T))) ∧
    (∀ d t, unlocked va' d t = Z.min (unlocked va d t) (vested va d (from_unix T))).
Proof.
  intros Hwf HT. destruct (ComputeClawback_spec va T Hwf HT)
    as (va' & c & E & Hwf' & _ & Hc & Ho & Hv & Hu & _).
  by exists va', c.
Qed.

Lemma compute_clawback_correct_witness :
  ∃ va' c, ComputeClawback sample_va 110 = Ok (va', c) ∧
           amount_of c "aevmos" = 100 - 50 ∧ original va' "aevmos" = 50.
Proof.
  destruct (compute_clawback_correct sample_va 110) as (va' & c & E & _ & Hc & Ho & _).
  - apply sample_va_wf.
  - vm_compute; discriminate.
  - exists va', c. split; [exact E|]. split; [exact (Hc "aevmos"%string)|exact (Ho "aevmos"%string)].
Defined.

(** A new account built from two schedules of the same total is well formed:
    aligning the schedules of one start time changes no period, and the end time
    covers both. *)
Lemma new_account_well_formed {C : Type}
    `{SdkCoinsLaws C, !SdkPeriods C, !SdkPeriodsLaws C, !SdkAddress}
    addr funder coins startTime (lp vp : list (Period C)) :
  grant_wf (unix startTime) lp vp coins →
  let va := NewClawbackVestingAccount addr funder coins startTime lp vp in
  va_wf va ∧ LockupPeriods va = lp ∧ VestingPeriods va = vp.
Proof.
  intros Hg. split; [by apply new_account_wf|]. destruct Hg as (_ & Hlp & Hvp & _).
  unfold NewClawbackVestingAccount, AlignSchedules. simpl.
  by rewrite Min64_spec, Z.min_id, !extend_first_zero.
Qed.

Lemma sample_grant_wf : grant_wf 100 sample_lockup sample_vesting (evmos 100).
Proof.
  pose proof (sample_sched_wf 100 125 10 60 10 40) as Hl.
  pose proof (sample_sched_wf 100 125 5 50 20 50) as Hv.
  destruct Hl as (Hl & ? & _ & Hlt); try lia. destruct Hv as (Hv & _ & _ & Hvt); try lia.
  split; [done|]. split; [done|]. split; [done|]. intros d. split; [apply Hlt|apply Hvt].
Qed.

Lemma new_account_well_formed_witness :
  va_wf (NewClawbackVestingAccount "alice" "funder" (evmos 100) (from_unix 100)
           sample_lockup sample_vesting).
Proof. apply (new_account_well_formed "alice" "funder"), sample_grant_wf. Defined.

(** Without the range condition the account is not well formed. A grant
    whose one period is as long as an [int64] allows passes [ValidateBasic],
    but the end time of the account it creates wraps to a negative number: the
    whole grant reads as vested and unlocked one second after the start. *)
Lemma end_time_overflow :
  let lp := [mkPeriod (2^63 - 1) (evmos 100)] in
  let va := NewClawbackVestingAccount "alice" "funder" (evmos 100) (from_unix 100) lp lp in
  MsgCreate_ValidateBasic
    (mkMsgCreate "evmos1funder" "evmos1alice" (from_unix 100) lp lp false) = Ok tt ∧
  GetEndTime va < 0 ∧
  GetVestedOnly va (from_unix 101) = evmos 100 ∧ GetUnlockedOnly va (from_unix 101) = evmos 100.
Proof. vm_compute. repeat split. Qed.

(** ** The message server *)

(** C2: a successful [Clawback] moves exactly the unvested coins. It was sent by
    the account's funder, after the schedule started, to an address that may
    receive funds; the balances differ from before by one transfer of the
    unvested coins from the account to that destination (the funder unless the
    message names one); and the stored account is the one [ComputeClawback]
    leaves, unless nothing was unvested, when the state is unchanged. *)
Theorem clawback_transfers_unvested {C X : Type} `{SdkCoinsLaws C, !SdkPeriods C,
    !SdkPeriodsLaws C, !SdkAddress, !AccountKeeper C X, !BankKeeper C X, !BankLaws C X}
    ctx msg (x x' : X) :
  (∀ a va, GetAccount x a = Some (ClawbackAcc va) → va_wf va) →
  Clawback ctx msg x = (Ok tt, x') →
  ∃ addr va dest,
    acc_from_bech32 (cb_AccountAddress msg) = Some addr ∧
    GetAccount x addr = Some (ClawbackAcc va) ∧
    FunderAddress va = cb_FunderAddress msg ∧ StartTime va ≤ BlockTime ctx ∧
    BlockedAddr dest = false ∧
    (cb_DestAddress msg = ""%string → dest = acc_or_empty (FunderAddress va)) ∧
    (∀ a d, GetBalance x' a d = GetBalance x a d +
       at_addr a dest (original va d - vested va d (BlockTime ctx)) -
       at_addr a addr (original va d - vested va d (BlockTime ctx))) ∧
    (x' = x ∧ (∀ d, original va d = vested va d (BlockTime ctx)) ∨
     ∃ va' c, ComputeClawback va (unix (BlockTime ctx)) = Ok (va', c) ∧
              GetAccount x' addr = Some (ClawbackAcc va')).
Proof.
  intros Hinv Hrun.
  destruct (Clawback_inv _ _ _ _ Hrun)
    as (addr & va & dest & Ea & Eacc & Eaddr & Ef & Hst & Ed & Hb & Ht).
  assert (Hst' : GetStartTime va ≤ unix (BlockTime ctx)).
  { unfold GetStartTime, unix, ns_per_s. apply Z.div_le_mono; lia. }
  destruct (transferClawback_ok ctx va dest x x' (Hinv _ _ Eacc) Hst' Ht) as [Hbal Hst2].
  rewrite Eaddr in *. exists addr, va, dest. repeat split; auto.
  intros Hd. rewrite Ed, Hd, Ef. done.
Qed.

Definition sample_ctx : Ctx := mkCtx (from_unix 110) 7 "evmos_9001-2".

Lemma sample_world_wf a va :
  GetAccount sample_world a = Some (ClawbackAcc va) → va_wf va.
Proof.
  simpl. unfold w_lookup. simpl. rewrite lookup_singleton. case_decide; simpl; [|done].
  subst. simpl. intros E. injection E as <-. apply sample_va_wf.
Qed.

Definition sample_clawback_msg : MsgClawback := mkMsgClawback "evmos1funder" "evmos1alice" "".

Lemma clawback_transfers_unvested_witness :
  let x' := (Clawback sample_ctx sample_clawback_msg sample_world).2 in
  GetBalance x' "alice" "aevmos" = 50 ∧ GetBalance x' "funder" "aevmos" = 550 ∧
  ∃ addr va dest,
    acc_from_bech32 (cb_AccountAddress sample_clawback_msg) = Some addr ∧
    GetAccount sample_world addr = Some (ClawbackAcc va) ∧ BlockedAddr dest = false ∧
    ∀ a d, GetBalance x' a d = GetBalance sample_world a d +
       at_addr a dest (original va d - vested va d (BlockTime sample_ctx)) -
       at_addr a addr (original va d - vested va d (BlockTime sample_ctx)).
Proof.
  split; [vm_compute; reflexivity|]. split; [vm_compute; reflexivity|].
  destruct (clawback_transfers_unvested sample_ctx sample_clawback_msg sample_world
    (Clawback sample_ctx sample_clawback_msg sample_world).2 sample_world_wf)
    as (addr & va & dest & Ea & Eacc & _ & _ & Hb & _ & Hbal & _); [vm_compute; reflexivity|].
  exists addr, va, dest. split; [exact Ea|]. split; [exact Eacc|]. split; [exact Hb|exact Hbal].
Defined.

(** A successful [CreateClawbackVestingAccount] funds the account it sets up.
    The recipient may receive funds; the granted coins move from the sender to
    the recipient and nothing else moves; and the recipient's stored account is
    a clawback account: either a new one, funded by the sender with the granted
    coins, or, only when the message asks for a merge and comes from the funder
    of the existing account, that account with the grant added. *)
Lemma create_vesting_account_funds {C X : Type} `{SdkCoinsLaws C, !SdkPeriods C,
    !SdkPeriodsLaws C, !SdkAddress, !AccountKeeper C X, !BankKeeper C X,
    !StakingKeeper X, !BankLaws C X} ctx msg (x x' : X) :
  CreateClawbackVestingAccount ctx msg x = (Ok tt, x') →
  ∃ from to coins va',
    acc_from_bech32 (mc_FromAddress msg) = Some from ∧
    acc_from_bech32 (mc_ToAddress msg) = Some to ∧ BlockedAddr to = false ∧
    transferred from to coins x x' ∧ GetAccount x' to = Some (ClawbackAcc va') ∧
    (GetAccount x to = None ∧ FunderAddress va' = acc_string from ∧
     OriginalVesting (va_base va') = coins
     ∨ ∃ va, GetAccount x to = Some (ClawbackAcc va) ∧ mc_Merge msg = true ∧
        FunderAddress va = mc_FromAddress msg ∧ FunderAddress va' = FunderAddress va ∧
        OriginalVesting (va_base va') = coins_add (OriginalVesting (va_base va)) coins).
Proof.
  intros Hrun. destruct (create_inv _ _ _ _ Hrun)
    as (from & to & lp & lc & vp & coins & x1 & Ef & Et & Hb & _ & _ & Hcase & Hsend).
  destruct Hcase as [[Hn ->]|(va & va' & Hva & Hm & Hf & Hg & ->)].
  - eapply stored_and_sent in Hsend as [Htr Hacc]; [|intros a d; apply balance_new_account|done].
    eexists from, to, coins, _. repeat split; eauto.
  - destruct (addGrant_inv _ _ _ _ _ _ _ _ _ Hg) as (_ & Ha & Hfu & Ho).
    pose proof (get_account_addr _ _ _ Hva) as Hva'. simpl in Hva'.
    apply (stored_and_sent _ _ _ _ x) in Hsend as [Htr Hacc]; [|done|simpl; congruence].
    exists from, to, coins, va'. repeat split; eauto. right. exists va. repeat split; auto.
Qed.

Definition sample_create_msg : MsgCreateClawbackVestingAccount coins :=
  mkMsgCreate "evmos1funder" "evmos1alice" (from_unix 105) sample_lockup [] true.

Lemma create_vesting_account_funds_witness :
  let x' := (CreateClawbackVestingAccount sample_ctx sample_create_msg sample_world).2 in
  GetBalance x' "alice" "aevmos" = 200 ∧
  ∃ from to coins va', transferred from to coins sample_world x' ∧
    GetAccount x' to = Some (ClawbackAcc va').
Proof.
  split; [vm_compute; reflexivity|].
  destruct (create_vesting_account_funds sample_ctx sample_create_msg sample_world
    (CreateClawbackVestingAccount sample_ctx sample_create_msg sample_world).2)
    as (f & t & c & va' & _ & _ & _ & Htr & Hacc & _); [vm_compute; reflexivity|].
  exists f, t, c, va'. split; [exact Htr|exact Hacc].
Defined.

(** C32: [addGrant] merges a grant without touching what was granted before.
    On a well-formed account and a well-formed grant it succeeds; the result is
    well formed, its original amount grows by the grant, and at every time after
    both starts it has vested, and unlocked, the sum of the two. The delegated
    amount is split into delegated-vesting, capped at the coins still vesting,
    and delegated-free, the rest. *)
Theorem add_grant_correct {C X : Type} `{SdkCoinsLaws C, !SdkPeriods C, !StakingKeeper X}
    ctx (va : ClawbackVestingAccount C) gs glp gvp gc (x : X) :
  va_wf va → grant_wf gs glp gvp gc →
  let delegated := GetDelegatorBonded x (ba_address (va_base va)) +
                   GetDelegatorUnbonding x (ba_address (va_base va)) in
  0 ≤ delegated → denom_valid (BondDenom x) = true →
  ∃ va', addGrant ctx va gs glp gvp gc x = (Ok va', x) ∧ va_wf va' ∧
    (∀ d, original va' d = original va d + amount_of gc d) ∧
    (∀ d t, Z.max (GetStartTime va) gs < unix t →
       vested va' d t = vested va d t + released d (unix t) (events gs gvp) ∧
       unlocked va' d t = unlocked va d t + released d (unix t) (events gs glp)) ∧
    ∀ d, amount_of (DelegatedVesting (va_base va')) d + amount_of (DelegatedFree (va_base va')) d =
           at_addr d (BondDenom x) delegated ∧
         amount_of (DelegatedVesting (va_base va')) d ≤
           original va' d - Z.min (unlocked va' d (BlockTime ctx)) (vested va' d (BlockTime ctx)).
Proof.
  intros Hwf Hg delegated Hd Hden.
  destruct (addGrant_spec ctx va gs glp gvp gc x Hwf Hg Hd Hden)
    as (va' & E & Hwf' & Ho & Hread & Hdv & Hdf & _).
  exists va'. split; [done|]. split; [done|]. split; [done|]. split; [done|].
  intros d. rewrite Hdf, Hdv. subst delegated. lia.
Qed.

Lemma add_grant_correct_witness :
  ∃ va', addGrant sample_ctx sample_va 100 sample_lockup sample_vesting (evmos 100) sample_world =
           (Ok va', sample_world) ∧ original va' "aevmos" = 200.
Proof.
  destruct (add_grant_correct sample_ctx sample_va 100 sample_lockup sample_vesting (evmos 100)
    sample_world) as (va' & E & _ & Ho & _).
  - apply sample_va_wf.
  - apply sample_grant_wf.
  - vm_compute; discriminate.
  - vm_compute; reflexivity.
  - exists va'. split; [exact E|exact (Ho "aevmos"%string)].
Defined.
