(* ===== verification/Epochs.v ===== *)
(** * The epochs module: [x/epochs]

    On-chain timers.  The state is the store of [EpochInfo]s by identifier, the
    events emitted in the block, and the rest of the stores, which the hooks of
    the subscribed modules change. *)

From S2P Require Import Prelude Keepers.

Record EpochInfo := mkEpoch {
  Identifier : string;
  ei_StartTime : Z;
  Duration : Z;
  CurrentEpoch : Z;
  CurrentEpochStartTime : Z;
  EpochCountingStarted : bool;
  CurrentEpochStartHeight : Z;
}.

#[global] Instance EpochInfo_eq_dec : EqDecision EpochInfo.
Proof. solve_decision. Defined.

Definition WeekEpochID : string := "week".
Definition DayEpochID : string := "day".
Definition HourEpochID : string := "hour".

(** ** [types/epoch_info.go], [types/identifier.go] *)

Definition StartInitialEpoch (ei : EpochInfo) : EpochInfo :=
  mkEpoch (Identifier ei) (ei_StartTime ei) (Duration ei) 1 (ei_StartTime ei) true
          (CurrentEpochStartHeight ei).

Definition EndEpoch (ei : EpochInfo) : EpochInfo :=
  mkEpoch (Identifier ei) (ei_StartTime ei) (Duration ei) (CurrentEpoch ei +i 1)
          (CurrentEpochStartTime ei + Duration ei) (EpochCountingStarted ei)
          (CurrentEpochStartHeight ei).

Definition EpochInfo_Validate (ei : EpochInfo) : outcome unit :=
  let? _ := ocheck (is_blank (Identifier ei)) (ErrMsg "epoch identifier cannot be blank") in
  let? _ := ocheck (Duration ei =? 0) (ErrMsg "epoch duration cannot be 0") in
  let? _ := ocheck (CurrentEpoch ei <? 0) (ErrMsg "current epoch cannot be negative") in
  ocheck (CurrentEpochStartHeight ei <? 0) (ErrMsg "current epoch start height cannot be negative").

Definition ValidateEpochIdentifierString (s : string) : outcome unit :=
  ocheck (is_blank s) (ErrMsg "blank epoch identifier").

(** ** Genesis: [types/genesis.go] *)

Definition hour : Z := 3600 * ns_per_s.

Definition DefaultGenesisState : list EpochInfo :=
  [ mkEpoch WeekEpochID zero_time (hour * 24 * 7) 0 zero_time false 0;
    mkEpoch DayEpochID zero_time (hour * 24) 0 zero_time false 0 ].

Fixpoint validate_epochs (seen : gset string) (l : list EpochInfo) : outcome unit :=
  match l with
  | [] => Ok tt
  | epoch :: rest =>
      let? _ := ocheck (bool_decide (Identifier epoch ∈ seen)) (ErrMsg "duplicated epoch entry") in
      let? _ := EpochInfo_Validate epoch in
      validate_epochs ({[ Identifier epoch ]} ∪ seen) rest
  end.

Definition epochs_GenesisState_Validate (gs : list EpochInfo) : outcome unit := validate_epochs ∅ gs.

(** ** The keeper *)

Inductive epoch_event : Type :=
  | EpochEnd (number : Z)
  | EpochStart (number startTime : Z).

Record epoch_state (X : Type) := mkES {
  epochs : gmap string EpochInfo;
  es_events : list epoch_event;
  es_ext : X;
}.
Arguments mkES {X} _ _ _.
Arguments epochs {X} _.
Arguments es_events {X} _.
Arguments es_ext {X} _.

(** [types.EpochHooks], the interface the subscribed modules implement. *)
Record EpochHooks (X : Type) := mkHooks {
  AfterEpochEnd : Ctx → string → Z → M X unit;
  BeforeEpochStart : Ctx → string → Z → M X unit;
}.
Arguments mkHooks {X} _ _.
Arguments AfterEpochEnd {X} _.
Arguments BeforeEpochStart {X} _.

(** [keeper/hooks.go]: [MultiEpochHooks] runs all hooks in sequence. *)
Definition MultiEpochHooks {X} (mh : list (EpochHooks X)) : EpochHooks X :=
  mkHooks (λ ctx id n, foreach mh (λ h, AfterEpochEnd h ctx id n))
          (λ ctx id n, foreach mh (λ h, BeforeEpochStart h ctx id n)).

Section keeper.
Context {X : Type}.
Implicit Types s : epoch_state X.

Definition GetEpochInfo s (identifier : string) : option EpochInfo := epochs s !! identifier.

Definition SetEpochInfo (epoch : EpochInfo) s : epoch_state X :=
  mkES (<[Identifier epoch := epoch]> (epochs s)) (es_events s) (es_ext s).

Definition DeleteEpochInfo (identifier : string) s : epoch_state X :=
  mkES (delete identifier (epochs s)) (es_events s) (es_ext s).

Definition emit (ev : epoch_event) s : epoch_state X :=
  mkES (epochs s) (es_events s ++ [ev]) (es_ext s).

(** A hook of another module: it has no access to the epochs store. *)
Definition run_hook {A} (m : M X A) : M (epoch_state X) A :=
  zoom es_ext (λ x s, mkES (epochs s) (es_events s) x) m.

Definition IterateEpochInfo (fn : EpochInfo → M (epoch_state X) bool) : M (epoch_state X) unit :=
  λ s, iterate (kv_iter (epochs s)).*2 fn s.

Definition AllEpochInfos s : list EpochInfo := (kv_iter (epochs s)).*2.

Variable hooks : EpochHooks X.

(** The callback [BeginBlocker] runs on every epoch. *)
Definition begin_epoch (ctx : Ctx) (epochInfo : EpochInfo) : M (epoch_state X) bool :=
  let shouldInitialEpochStart :=
    negb (EpochCountingStarted epochInfo) && negb (BlockTime ctx <? ei_StartTime epochInfo) in
  let epochEndTime := CurrentEpochStartTime epochInfo + Duration epochInfo in
  let shouldEpochEnd :=
    (epochEndTime <? BlockTime ctx) && negb shouldInitialEpochStart
    && negb (BlockTime ctx <? ei_StartTime epochInfo) in
  let epochInfo := mkEpoch (Identifier epochInfo) (ei_StartTime epochInfo) (Duration epochInfo)
    (CurrentEpoch epochInfo) (CurrentEpochStartTime epochInfo) (EpochCountingStarted epochInfo)
    (BlockHeight ctx) in
  let finish (epochInfo : EpochInfo) :=
    modify (SetEpochInfo epochInfo) ;;;
    modify (emit (EpochStart (CurrentEpoch epochInfo) (unix (CurrentEpochStartTime epochInfo)))) ;;;
    run_hook (BeforeEpochStart hooks ctx (Identifier epochInfo) (CurrentEpoch epochInfo)) ;;;
    ret false in
  if shouldInitialEpochStart then finish (StartInitialEpoch epochInfo)
  else if shouldEpochEnd then
    let epochInfo := EndEpoch epochInfo in
    modify (emit (EpochEnd (CurrentEpoch epochInfo))) ;;;
    run_hook (AfterEpochEnd hooks ctx (Identifier epochInfo) (CurrentEpoch epochInfo)) ;;;
    finish epochInfo
  else ret false.

Definition BeginBlocker (ctx : Ctx) : M (epoch_state X) unit := IterateEpochInfo (begin_epoch ctx).

(** *** [genesis.go] *)

Definition epochs_InitGenesis (ctx : Ctx) (genState : list EpochInfo) : M (epoch_state X) unit :=
  foreach genState (λ epoch,
    let start := if ei_StartTime epoch =? zero_time then BlockTime ctx else ei_StartTime epoch in
    modify (SetEpochInfo (mkEpoch (Identifier epoch) start (Duration epoch) (CurrentEpoch epoch)
      (CurrentEpochStartTime epoch) (EpochCountingStarted epoch) (BlockHeight ctx)))).

Definition epochs_ExportGenesis s : list EpochInfo := AllEpochInfos s.

(** *** [keeper/grpc_query.go] *)

Definition query_CurrentEpoch s (identifier : string) : outcome Z :=
  match GetEpochInfo s identifier with
  | None => Err (ErrMsg "epoch info not found")
  | Some info => Ok (CurrentEpoch info)
  end.

End keeper.

(** ** What a block does to one epoch *)

Definition starts (ctx : Ctx) (e : EpochInfo) : bool :=
  negb (EpochCountingStarted e) && negb (BlockTime ctx <? ei_StartTime e).
Definition ends (ctx : Ctx) (e : EpochInfo) : bool :=
  (CurrentEpochStartTime e + Duration e <? BlockTime ctx) && negb (starts ctx e)
  && negb (BlockTime ctx <? ei_StartTime e).
Definition at_height (ctx : Ctx) (e : EpochInfo) : EpochInfo :=
  mkEpoch (Identifier e) (ei_StartTime e) (Duration e) (CurrentEpoch e)
          (CurrentEpochStartTime e) (EpochCountingStarted e) (BlockHeight ctx).

Definition epoch_tick (ctx : Ctx) (e : EpochInfo) : EpochInfo :=
  if starts ctx e then StartInitialEpoch (at_height ctx e)
  else if ends ctx e then EndEpoch (at_height ctx e) else e.

Lemma epoch_tick_id ctx e : Identifier (epoch_tick ctx e) = Identifier e.
Proof. unfold epoch_tick. destruct (starts ctx e); [done|]. by destruct (ends ctx e). Qed.

(** Once counting has started, epoch number [n] starts [n-1] intervals after the
    first. *)
Definition epoch_inv (e : EpochInfo) : Prop :=
  EpochCountingStarted e = true →
  1 ≤ CurrentEpoch e ∧
  CurrentEpochStartTime e = ei_StartTime e + (CurrentEpoch e - 1) * Duration e.

(** Every epoch is stored under its identifier, satisfies [epoch_inv] and is at
    most the [n]-th. *)
Definition epochs_wf {X} (n : Z) (s : epoch_state X) : Prop :=
  ∀ k e, epochs s !! k = Some e →
  Identifier e = k ∧ epoch_inv e ∧ 0 ≤ CurrentEpoch e ≤ n.

Lemma epoch_tick_inv ctx e n :
  epoch_inv e → 0 ≤ CurrentEpoch e ≤ n → n < 2^63 - 1 →
  epoch_inv (epoch_tick ctx e) ∧ 0 ≤ CurrentEpoch (epoch_tick ctx e) ≤ n + 1.
Proof.
  intros He Hc Hn. unfold epoch_tick.
  destruct (starts ctx e) eqn:Es; [split; [intros _; simpl|simpl]; lia|].
  destruct (ends ctx e) eqn:Ee; [|split; [done|lia]].
  assert (Hw : CurrentEpoch e +i 1 = CurrentEpoch e + 1).
  { apply wrap64_id. unfold in_int64. lia. }
  unfold epoch_inv. simpl. rewrite Hw. split; [|lia].
  intros Hst. destruct (He Hst) as [H1 ->]. lia.
Qed.

Section runs.
Context {X : Type} (hooks : EpochHooks X).
Implicit Types s : epoch_state X.

Definition hooks_total : Prop :=
  ∀ ctx id n x, (∃ x', AfterEpochEnd hooks ctx id n x = (Ok tt, x')) ∧
                (∃ x', BeforeEpochStart hooks ctx id n x = (Ok tt, x')).

Lemma run_hook_ok {A} (m : M X A) s a s' :
  run_hook m s = (Ok a, s') →
  epochs s' = epochs s ∧ es_events s' = es_events s ∧ m (es_ext s) = (Ok a, es_ext s').
Proof. unfold run_hook. intros Hz. apply zoom_ok in Hz as (x & E & ->). done. Qed.

Lemma run_hook_total (m : M X unit) s :
  (∃ x', m (es_ext s) = (Ok tt, x')) → ∃ s', run_hook m s = (Ok tt, s').
Proof. intros [x' E]. unfold run_hook, zoom. rewrite E. eauto. Qed.

Lemma begin_epoch_ok ctx e s b s' :
  begin_epoch hooks ctx e s = (Ok b, s') →
  b = false ∧
  epochs s' = if starts ctx e || ends ctx e
              then <[Identifier e := epoch_tick ctx e]> (epochs s) else epochs s.
Proof.
  unfold begin_epoch, epoch_tick. fold (starts ctx e). fold (ends ctx e). fold (at_height ctx e).
  destruct (starts ctx e); [|destruct (ends ctx e)]; simpl; intros Hrun; inv_ok;
    repeat match goal with Hh : run_hook _ _ = (Ok _, _) |- _ =>
      apply run_hook_ok in Hh as (Hh & _ & _) end; simpl in *; split; congruence.
Qed.

Lemma begin_epoch_total ctx e s :
  hooks_total → ∃ s', begin_epoch hooks ctx e s = (Ok false, s').
Proof.
  intros Ht. unfold begin_epoch. fold (starts ctx e). fold (ends ctx e). fold (at_height ctx e).
  destruct (starts ctx e); [|destruct (ends ctx e); [|by eexists]]; unfold bind, modify.
  - edestruct run_hook_total as [s' ->]; [apply Ht|]. by eexists.
  - edestruct run_hook_total as [s1 ->]; [apply Ht|].
    edestruct run_hook_total as [s' ->]; [apply Ht|]. by eexists.
Qed.

Lemma iterate_total ctx l s :
  hooks_total → ∃ s', iterate l (begin_epoch hooks ctx) s = (Ok tt, s').
Proof.
  intros Ht. revert s. induction l as [|e l IH]; intros s; simpl; [by eexists|].
  unfold bind. destruct (begin_epoch_total ctx e s Ht) as [s1 ->]. apply IH.
Qed.

(** The callback never stops the iteration: every epoch of the snapshot ticks. *)
Lemma iterate_epochs ctx (l : list (string * EpochInfo)) s s' :
  NoDup l.*1 → Forall (λ ke, Identifier ke.2 = ke.1) l →
  (∀ k e, (k, e) ∈ l → epochs s !! k = Some e) →
  iterate l.*2 (begin_epoch hooks ctx) s = (Ok tt, s') →
  ∀ k, epochs s' !! k =
       if decide (k ∈ l.*1) then epoch_tick ctx <$> epochs s !! k else epochs s !! k.
Proof.
  revert s. induction l as [|[k0 e0] l IH]; intros s Hnd Hk Hin Hrun k; csimpl in *.
  { by inv_ok. }
  apply NoDup_cons in Hnd as [Hni Hnd]. apply Forall_cons in Hk as [Hk0 Hk]. simpl in Hk0.
  apply bind_ok in Hrun as (b & s1 & H1 & Hrun).
  apply begin_epoch_ok in H1 as [-> H1].
  assert (Hs1 : ∀ k', epochs s1 !! k' =
    if decide (k' = k0) then epoch_tick ctx <$> epochs s !! k' else epochs s !! k').
  { intros k'. rewrite H1, Hk0.
    assert (E0 : epochs s !! k0 = Some e0) by (apply Hin; set_solver).
    destruct (starts ctx e0 || ends ctx e0) eqn:Ese.
    - rewrite lookup_insert. repeat case_decide; try congruence. subst. by rewrite E0.
    - case_decide; [|done]. subst k'. rewrite E0. simpl. unfold epoch_tick.
      apply orb_false_iff in Ese as [-> ->]. done. }
  assert (Hin1 : ∀ k' e', (k', e') ∈ l → epochs s1 !! k' = Some e').
  { intros k' e' He'. rewrite Hs1. case_decide.
    - subst k'. exfalso. apply Hni. apply list_elem_of_fmap. by exists (k0, e').
    - apply Hin. set_solver. }
  rewrite (IH s1 Hnd Hk Hin1 Hrun k), Hs1.
  repeat case_decide; try done; exfalso; rewrite elem_of_cons in *; naive_solver.
Qed.

Lemma BeginBlocker_ok ctx s s' :
  (∀ k e, epochs s !! k = Some e → Identifier e = k) →
  BeginBlocker hooks ctx s = (Ok tt, s') →
  epochs s' = epoch_tick ctx <$> epochs s.
Proof.
  intros Hkey Hrun. unfold BeginBlocker, IterateEpochInfo in Hrun. apply map_eq. intros k.
  assert (Hmem : ∀ k e, (k, e) ∈ kv_iter (epochs s) → epochs s !! k = Some e).
  { intros k1 e1. apply elem_of_kv_iter. }
  rewrite (iterate_epochs ctx (kv_iter (epochs s)) s s'); auto with evmos.
  - rewrite lookup_fmap. case_decide as Hd; [done|].
    destruct (epochs s !! k) as [e|] eqn:E; [|done].
    exfalso. apply Hd. apply list_elem_of_fmap. exists (k, e). split; [done|].
    by apply elem_of_kv_iter.
  - apply Forall_forall. intros [k1 e1] He. simpl. by apply Hkey, Hmem.
Qed.

Lemma BeginBlocker_total ctx s :
  hooks_total → ∃ s', BeginBlocker hooks ctx s = (Ok tt, s').
Proof. apply iterate_total. Qed.

Lemma BeginBlocker_wf ctx n s s' :
  epochs_wf n s → n < 2^63 - 1 → BeginBlocker hooks ctx s = (Ok tt, s') → epochs_wf (n + 1) s'.
Proof.
  intros Hwf Hn Hrun k e'. rewrite (BeginBlocker_ok ctx s s'); [|intros; by apply Hwf|done].
  rewrite lookup_fmap, fmap_Some. intros (e & He & ->).
  destruct (Hwf k e He) as (Hid & Hinv & Hc). rewrite epoch_tick_id. split; [done|].
  by apply epoch_tick_inv.
Qed.

(** A sequence of blocks. *)
Definition run_blocks (blocks : list Ctx) : M (epoch_state X) unit :=
  foreach blocks (BeginBlocker hooks).

Lemma run_blocks_wf blocks n s s' :
  epochs_wf n s → n + Z.of_nat (length blocks) < 2^63 →
  run_blocks blocks s = (Ok tt, s') → epochs_wf (n + Z.of_nat (length blocks)) s'.
Proof.
  revert n s. induction blocks as [|ctx blocks IH]; intros n s Hwf Hn Hrun.
  { unfold run_blocks in Hrun. simpl in *. inv_ok. by rewrite Z.add_0_r. }
  unfold run_blocks in Hrun. simpl in *. apply bind_ok in Hrun as ([] & s1 & H1 & Hrun).
  replace (n + Z.of_nat (S (length blocks))) with (n + 1 + Z.of_nat (length blocks)) by lia.
  apply (IH (n + 1) s1); [|lia|done]. eapply BeginBlocker_wf; eauto. lia.
Qed.

Lemma run_blocks_total blocks s :
  hooks_total → ∃ s', run_blocks blocks s = (Ok tt, s').
Proof.
  intros Ht. revert s. induction blocks as [|ctx blocks IH]; intros s; [by eexists|].
  unfold run_blocks. simpl. unfold bind.
  destruct (BeginBlocker_total ctx s Ht) as [s1 ->]. apply IH.
Qed.

(** Repeated blocks at one block time tick each epoch that many times. *)
Lemma run_same_block ctx n s s' :
  (∀ k e, epochs s !! k = Some e → Identifier e = k) →
  run_blocks (replicate n ctx) s = (Ok tt, s') →
  epochs s' = Nat.iter n (epoch_tick ctx) <$> epochs s.
Proof.
  revert s. induction n as [|n IH]; intros s Hkey Hrun.
  { unfold run_blocks in Hrun. simpl in Hrun. inv_ok. apply map_eq. intros k.
    rewrite lookup_fmap. by destruct (epochs s' !! k). }
  unfold run_blocks in Hrun. simpl in Hrun. apply bind_ok in Hrun as ([] & s1 & H1 & Hrun).
  pose proof (BeginBlocker_ok ctx s s1 Hkey H1) as E1.
  rewrite (IH s1), E1; [|intros k e|done].
  - apply map_eq. intros k. rewrite !lookup_fmap. destruct (epochs s !! k); simpl; [|done].
    f_equal. by rewrite <- Nat.iter_succ_r.
  - rewrite E1, lookup_fmap, fmap_Some. intros (e0 & He & ->). rewrite epoch_tick_id. eauto.
Qed.

End runs.

(** The number of the epoch that contains [t]: the first epoch starts at the
    start time and an epoch ends one nanosecond after its interval. *)
Definition epoch_number (e : EpochInfo) (t : Z) : Z := (t - ei_StartTime e - 1) / Duration e + 1.

Lemma tick_towards ctx e :
  epoch_inv e → EpochCountingStarted e = true → 0 < Duration e →
  ei_StartTime e < BlockTime ctx → CurrentEpoch e < 2^63 - 1 →
  CurrentEpoch e ≤ epoch_number e (BlockTime ctx) →
  let e' := epoch_tick ctx e in
  epoch_inv e' ∧ EpochCountingStarted e' = true ∧ Duration e' = Duration e ∧
  ei_StartTime e' = ei_StartTime e ∧
  CurrentEpoch e' = Z.min (CurrentEpoch e + 1) (epoch_number e (BlockTime ctx)).
Proof.
  intros Hinv Hst HD HT Hov Hle. unfold epoch_tick, ends.
  assert (starts ctx e = false) as -> by (unfold starts; by rewrite Hst).
  destruct (Hinv Hst) as [Hc Hs]. unfold epoch_number in *.
  set (q := (BlockTime ctx - ei_StartTime e - 1) / Duration e) in *.
  assert (Hq : q * Duration e ≤ BlockTime ctx - ei_StartTime e - 1 < (q + 1) * Duration e).
  { subst q. pose proof (Z.div_mod (BlockTime ctx - ei_StartTime e - 1) (Duration e)).
    pose proof (Z.mod_pos_bound (BlockTime ctx - ei_StartTime e - 1) (Duration e)). nia. }
  destruct (Z.ltb_spec (BlockTime ctx) (ei_StartTime e)); [lia|].
  destruct (Z.ltb_spec (CurrentEpochStartTime e + Duration e) (BlockTime ctx)); simpl.
  - assert (Hw : CurrentEpoch e +i 1 = CurrentEpoch e + 1).
    { apply wrap64_id. unfold in_int64. lia. }
    assert (CurrentEpoch e ≤ q) by nia.
    unfold epoch_inv. simpl. rewrite Hw. repeat split; auto; try lia.
  - assert (q < CurrentEpoch e) by nia. repeat split; auto; lia.
Qed.

Lemma ticks_reach ctx n e :
  epoch_inv e → EpochCountingStarted e = true → 0 < Duration e →
  ei_StartTime e < BlockTime ctx → epoch_number e (BlockTime ctx) < 2^63 - 1 →
  CurrentEpoch e ≤ epoch_number e (BlockTime ctx) →
  CurrentEpoch (Nat.iter n (epoch_tick ctx) e) =
  Z.min (CurrentEpoch e + Z.of_nat n) (epoch_number e (BlockTime ctx)).
Proof.
  revert e. induction n as [|n IH]; intros e Hinv Hst HD HT Hov Hle; [simpl; lia|].
  rewrite Nat.iter_succ_r.
  destruct (tick_towards ctx e) as (Hi & Hs & Hd & Hss & Hc); auto; [lia|].
  assert (En : epoch_number (epoch_tick ctx e) (BlockTime ctx) = epoch_number e (BlockTime ctx)).
  { unfold epoch_number. by rewrite Hd, Hss. }
  rewrite IH, En; auto; lia.
Qed.
