(* ===== verification/EpochsProps.v ===== *)
(** * Properties of the epochs module

    What a block does to the stored epochs and which hooks it runs, the
    arithmetic of epoch numbers over a sequence of blocks, catching up after a
    halt, and the genesis round trip. *)

From S2P Require Import Prelude Keepers Epochs.

(** ** The hooks a block runs *)

Inductive hook_call : Type :=
  | CallAfterEnd (identifier : string) (number : Z)
  | CallBeforeStart (identifier : string) (number : Z).

(** The calls one epoch causes. *)
Definition hook_calls (ctx : Ctx) (e : EpochInfo) : list hook_call :=
  if starts ctx e then [CallBeforeStart (Identifier e) 1]
  else if ends ctx e then
    [CallAfterEnd (Identifier e) (CurrentEpoch e +i 1);
     CallBeforeStart (Identifier e) (CurrentEpoch e +i 1)]
  else [].

Definition run_call {X} (hooks : EpochHooks X) (ctx : Ctx) (c : hook_call) : M X unit :=
  match c with
  | CallAfterEnd id n => AfterEpochEnd hooks ctx id n
  | CallBeforeStart id n => BeforeEpochStart hooks ctx id n
  end.

Lemma foreach_app {S A} (l k : list A) (body : A → M S unit) s :
  foreach (l ++ k) body s = (foreach l body ;;; foreach k body) s.
Proof.
  revert s. induction l as [|a l IH]; intros s; simpl; [done|].
  unfold bind. by destruct (body a s) as [[[]| |] s1]; rewrite ?IH.
Qed.

Section hooks.
Context {X : Type} (hooks : EpochHooks X).

Lemma begin_epoch_calls ctx e (s : epoch_state X) :
  ∃ s', begin_epoch hooks ctx e s =
        (match (foreach (hook_calls ctx e) (run_call hooks ctx) (es_ext s)).1 with
         | Ok _ => Ok false | Err er => Err er | Panic => Panic end, s') ∧
        es_ext s' = (foreach (hook_calls ctx e) (run_call hooks ctx) (es_ext s)).2.
Proof.
  unfold begin_epoch, hook_calls. fold (starts ctx e) (ends ctx e) (at_height ctx e).
  destruct (starts ctx e); [|destruct (ends ctx e)]; simpl; [| |by exists s];
    unfold bind, modify, run_hook, zoom, ret; simpl;
    repeat match goal with |- context [AfterEpochEnd ?h ?c ?i ?n ?x] =>
      destruct (AfterEpochEnd h c i n x) as [[[]| |] ?]; simpl end;
    repeat match goal with |- context [BeforeEpochStart ?h ?c ?i ?n ?x] =>
      destruct (BeforeEpochStart h c i n x) as [[[]| |] ?]; simpl end; by eexists.
Qed.

Lemma iterate_calls ctx l (s : epoch_state X) :
  let r := iterate l (begin_epoch hooks ctx) s in
  (r.1, es_ext r.2) = foreach (flat_map (hook_calls ctx) l) (run_call hooks ctx) (es_ext s).
Proof.
  revert s. induction l as [|e l IH]; intros s; simpl; [done|].
  rewrite foreach_app. unfold bind.
  destruct (begin_epoch_calls ctx e s) as (s1 & -> & Hs1).
  destruct (foreach (hook_calls ctx e) _ _) as [[[]| |] x1]; simpl in *; subst; auto.
Qed.
End hooks.

(** A block runs exactly the hooks of the epochs that start or end in it,
    in the order of the identifiers, [AfterEpochEnd] before [BeforeEpochStart],
    and stops at the first panic of a hook.  Both hooks of an epoch that ends
    get the number of the epoch that starts. *)
Lemma begin_blocker_hooks {X} (hooks : EpochHooks X) ctx (s : epoch_state X) :
  let r := BeginBlocker hooks ctx s in
  (r.1, es_ext r.2) =
  foreach (flat_map (hook_calls ctx) (AllEpochInfos s)) (run_call hooks ctx) (es_ext s).
Proof. apply iterate_calls. Qed.

(** ** The stored epochs *)

Lemma NoDup_all_ids {X} (s : epoch_state X) :
  (∀ k e, epochs s !! k = Some e → Identifier e = k) → NoDup (map Identifier (AllEpochInfos s)).
Proof.
  intros Hkey. unfold AllEpochInfos.
  replace (map Identifier (kv_iter (epochs s)).*2) with (kv_iter (epochs s)).*1; [auto with evmos|].
  assert (Hall : Forall (λ ke, Identifier ke.2 = ke.1) (kv_iter (epochs s))).
  { apply Forall_forall. intros [k e] He. apply elem_of_kv_iter in He. simpl. eauto. }
  induction Hall as [|[k e] l Hk _ IH]; [done|]. csimpl. simpl in Hk. by rewrite Hk, IH.
Qed.


(** Over any sequence of blocks, epoch number [n] of an identifier starts
    exactly [n - 1] durations after the start time, and a block advances the
    number by at most one. *)
Lemma epoch_numbers_invariant {X} (hooks : EpochHooks X) blocks n s s' k e :
  epochs_wf n s → n + Z.of_nat (length blocks) < 2^63 →
  run_blocks hooks blocks s = (Ok tt, s') → GetEpochInfo s' k = Some e →
  Identifier e = k ∧ 0 ≤ CurrentEpoch e ≤ n + Z.of_nat (length blocks) ∧
  (EpochCountingStarted e = true →
   1 ≤ CurrentEpoch e ∧
   CurrentEpochStartTime e = ei_StartTime e + (CurrentEpoch e - 1) * Duration e).
Proof.
  intros Hwf Hn Hrun He.
  destruct (run_blocks_wf hooks blocks n s s' Hwf Hn Hrun k e He) as (? & Hi & ?). auto.
Qed.

(** C38: after a halt, a started epoch catches up one number per block and then
    stays: after enough blocks at time [t] its number is that of the interval
    that contains [t]. *)
Theorem epochs_catch_up {X} (hooks : EpochHooks X) ctx (n : nat) s k e :
  hooks_total hooks →
  (∀ k e, epochs s !! k = Some e → Identifier e = k) →
  GetEpochInfo s k = Some e → epoch_inv e → EpochCountingStarted e = true → 0 < Duration e →
  ei_StartTime e < BlockTime ctx → epoch_number e (BlockTime ctx) < 2^63 - 1 →
  CurrentEpoch e ≤ epoch_number e (BlockTime ctx) →
  epoch_number e (BlockTime ctx) - CurrentEpoch e ≤ Z.of_nat n →
  ∃ s' e', run_blocks hooks (replicate n ctx) s = (Ok tt, s') ∧
    GetEpochInfo s' k = Some e' ∧ CurrentEpoch e' = epoch_number e (BlockTime ctx).
Proof.
  intros Ht Hkey He Hi Hst HD HT Hov Hle Hn.
  destruct (run_blocks_total hooks (replicate n ctx) s Ht) as [s' Hrun].
  exists s', (Nat.iter n (epoch_tick ctx) e). split; [done|]. split.
  - unfold GetEpochInfo in *. by rewrite (run_same_block hooks ctx n s s' Hkey Hrun), lookup_fmap, He.
  - rewrite ticks_reach by done. lia.
Qed.

(** ** Genesis *)

Lemma validate_epochs_nodup seen l :
  validate_epochs seen l = Ok tt →
  NoDup (map Identifier l) ∧ (∀ e, e ∈ l → Identifier e ∉ seen) ∧
  Forall (λ e, is_blank (Identifier e) = false ∧ Duration e ≠ 0 ∧ 0 ≤ CurrentEpoch e ∧
               0 ≤ CurrentEpochStartHeight e) l.
Proof.
  revert seen. induction l as [|e l IH]; intros seen; simpl.
  { intros _. split; [constructor|]. split; [set_solver|constructor]. }
  unfold EpochInfo_Validate. intros Hv. inv_ok. bool_hyps.
  match goal with Hr : validate_epochs _ _ = _ |- _ => apply IH in Hr as (Hnd & Hni & Hf) end.
  split; [|split].
  - constructor; [|done]. intros Hin. apply list_elem_of_In, in_map_iff in Hin as (e' & He' & Hin).
    apply list_elem_of_In in Hin. specialize (Hni e' Hin). set_solver.
  - intros e' He'. apply elem_of_cons in He' as [->|He']; [done|]. specialize (Hni e' He'). set_solver.
  - constructor; auto.
Qed.

(** What genesis stores for an epoch. *)
Definition init_epoch (ctx : Ctx) (e : EpochInfo) : EpochInfo :=
  mkEpoch (Identifier e) (if ei_StartTime e =? zero_time then BlockTime ctx else ei_StartTime e)
    (Duration e) (CurrentEpoch e) (CurrentEpochStartTime e) (EpochCountingStarted e) (BlockHeight ctx).

Lemma init_lookup {X} ctx gs (s s' : epoch_state X) k :
  NoDup (map Identifier gs) →
  epochs_InitGenesis ctx gs s = (Ok tt, s') →
  epochs s' !! k =
  match list_find (λ e, Identifier e = k) gs with
  | Some (_, e) => Some (init_epoch ctx e) | None => epochs s !! k end.
Proof.
  unfold epochs_InitGenesis. revert s. induction gs as [|e gs IH]; intros s Hnd Hrun; simpl in *.
  { by inv_ok. }
  apply NoDup_cons in Hnd as [Hni Hnd].
  apply bind_ok in Hrun as ([] & s1 & H1 & Hrun). unfold modify in H1. injection H1 as <-.
  rewrite (IH _ Hnd Hrun). simpl.
  destruct (list_find (λ e, Identifier e = k) gs) as [[i e']|] eqn:Ef; simpl.
  - apply list_find_Some in Ef as (Hl & Hid & _). case_decide as Hd; [|done].
    exfalso. apply Hni. rewrite Hd, <- Hid. apply list_elem_of_In, in_map, list_elem_of_In.
    by eapply list_elem_of_lookup_2.
  - rewrite lookup_insert. unfold init_epoch. repeat case_decide; simpl; congruence.
Qed.

Lemma init_total {X} ctx gs (s : epoch_state X) : ∃ s', epochs_InitGenesis ctx gs s = (Ok tt, s').
Proof.
  unfold epochs_InitGenesis. revert s.
  induction gs as [|e gs IH]; intros s; simpl; [by eexists|]. apply IH.
Qed.

(** A genesis state that passes [Validate] has no duplicated identifier, and
    initialising an empty store with it and exporting gives back every entry
    (with its start time and height filled in) and nothing else. *)
Lemma epochs_genesis_roundtrip {X} ctx gs ev (x : X) :
  epochs_GenesisState_Validate gs = Ok tt →
  NoDup (map Identifier gs) ∧
  ∃ s', epochs_InitGenesis ctx gs (mkES ∅ ev x) = (Ok tt, s') ∧
    epochs_ExportGenesis s' ≡ₚ map (init_epoch ctx) gs.
Proof.
  intros Hv. apply validate_epochs_nodup in Hv as (Hnd & _ & _). split; [done|].
  destruct (init_total ctx gs (mkES ∅ ev x)) as [s' Hrun]. exists s'. split; [done|].
  unfold epochs_ExportGenesis, AllEpochInfos. rewrite kv_iter_perm.
  assert (He : epochs s' = list_to_map (map (λ e, (Identifier e, init_epoch ctx e)) gs)).
  { apply map_eq. intros k. rewrite (init_lookup ctx gs _ s' k Hnd Hrun). simpl.
    clear Hrun Hnd. rewrite lookup_empty. induction gs as [|e gs IH]; [done|]. simpl.
    rewrite lookup_insert. rewrite <- IH. unfold init_epoch.
    repeat case_decide; try congruence.
    by destruct (list_find _ gs) as [[? ?]|]. }
  rewrite He, map_to_list_to_map.
  - rewrite <- list_fmap_compose. done.
  - by rewrite <- list_fmap_compose.
Qed.

(** ** Witnesses *)

Section samples.
Local Open Scope string_scope.

(** Hooks that record their calls. *)
Definition log_hooks : EpochHooks (list hook_call) :=
  mkHooks (λ _ id n, modify (λ l, (l ++ [CallAfterEnd id n])%list))
          (λ _ id n, modify (λ l, (l ++ [CallBeforeStart id n])%list)).

Lemma log_hooks_total : hooks_total log_hooks.
Proof. intros ctx id n x. split; by eexists. Qed.

Definition block_at (t h : Z) : Ctx := mkCtx (from_unix t) h "evmos_9001-2".

(** A day counter at its third day, started at second 1000. *)
Definition day3 : EpochInfo :=
  mkEpoch DayEpochID (from_unix 1000) (hour * 24) 3 (from_unix 1000 + 2 * (hour * 24)) true 7.
Definition sample_epochs : epoch_state (list hook_call) := mkES {[ DayEpochID := day3 ]} [] [].

Lemma sample_keys k e : epochs sample_epochs !! k = Some e → Identifier e = k.
Proof. simpl. rewrite lookup_singleton_Some. by intros [<- <-]. Qed.

Lemma sample_wf : epochs_wf 3 sample_epochs.
Proof.
  intros k e. simpl. rewrite lookup_singleton_Some. intros [<- <-].
  split; [done|]. split; [intros _|]; simpl; lia.
Qed.

(** The epoch that ends is number 3; both hooks are called with number 4. *)
Example ending_epoch_hook_number :
  es_ext (BeginBlocker log_hooks (block_at (1000 + 3 * 86400 + 5) 8) sample_epochs).2 =
  [CallAfterEnd "day" 4; CallBeforeStart "day" 4].
Proof. vm_compute. reflexivity. Qed.


Lemma epoch_numbers_invariant_witness :
  CurrentEpochStartTime (epoch_tick (block_at 500000 9) day3) =
  ei_StartTime day3 + (4 - 1) * Duration day3.
Proof.
  destruct (epoch_numbers_invariant log_hooks [block_at 500000 9] 3 sample_epochs
    (run_blocks log_hooks [block_at 500000 9] sample_epochs).2 DayEpochID
    (epoch_tick (block_at 500000 9) day3)) as (_ & _ & Hs).
  - apply sample_wf.
  - simpl. lia.
  - vm_compute. reflexivity.
  - vm_compute. reflexivity.
  - destruct Hs as [_ Hs]; [vm_compute; reflexivity|].
    rewrite Hs. vm_compute. reflexivity.
Defined.

Lemma epochs_catch_up_witness :
  ∃ s' e', run_blocks log_hooks (replicate 3 (block_at (1000 + 5 * 86400 + 1) 9)) sample_epochs = (Ok tt, s') ∧
    GetEpochInfo s' DayEpochID = Some e' ∧ CurrentEpoch e' = 6.
Proof.
  assert (En : 6 = epoch_number day3 (BlockTime (block_at (1000 + 5 * 86400 + 1) 9)))
    by (vm_compute; reflexivity).
  rewrite En.
  apply epochs_catch_up; try rewrite <- En;
    try (exact log_hooks_total); try (exact sample_keys); try (vm_compute; done).
Defined.

Lemma epochs_genesis_roundtrip_witness :
  NoDup (map Identifier DefaultGenesisState) ∧
  ∃ s', epochs_InitGenesis (block_at 77 1) DefaultGenesisState (mkES ∅ [] tt) = (Ok tt, s') ∧
    epochs_ExportGenesis s' ≡ₚ map (init_epoch (block_at 77 1)) DefaultGenesisState.
Proof. apply epochs_genesis_roundtrip. vm_compute. reflexivity. Defined.
End samples.
