(* ===== verification/Inflation.v ===== *)
(** * The inflation module: [x/inflation]

    Mints the epoch provision at the end of every epoch, shares it out, and
    lowers the provision from period to period. *)

From S2P Require Import Prelude Sdk Dec Keepers EvmosUtils Epochs.

(** ** Parameters: [types/params.go] *)

Record ExponentialCalculation (D : Type) := mkExp {
  ec_A : D; ec_R : D; ec_C : D; BondingTarget : D; MaxVariance : D;
}.
Arguments mkExp {D} _ _ _ _ _.
Arguments ec_A {D} _.
Arguments ec_R {D} _.
Arguments ec_C {D} _.
Arguments BondingTarget {D} _.
Arguments MaxVariance {D} _.

Record InflationDistribution (D : Type) := mkDist {
  StakingRewards : D; UsageIncentives : D; CommunityPool : D;
}.
Arguments mkDist {D} _ _ _.
Arguments StakingRewards {D} _.
Arguments UsageIncentives {D} _.
Arguments CommunityPool {D} _.

Record InflParams (D : Type) := mkInflParams {
  MintDenom : string;
  i_ExponentialCalculation : ExponentialCalculation D;
  i_InflationDistribution : InflationDistribution D;
  EnableInflation : bool;
}.
Arguments mkInflParams {D} _ _ _ _.
Arguments MintDenom {D} _.
Arguments i_ExponentialCalculation {D} _.
Arguments i_InflationDistribution {D} _.
Arguments EnableInflation {D} _.

Record InflGenesis (D : Type) := mkInflGenesis {
  gs_Params : InflParams D;
  gs_Period : Z;
  gs_EpochIdentifier : string;
  gs_EpochsPerPeriod : Z;
  gs_SkippedEpochs : Z;
}.
Arguments mkInflGenesis {D} _ _ _ _ _.
Arguments gs_Params {D} _.
Arguments gs_Period {D} _.
Arguments gs_EpochIdentifier {D} _.
Arguments gs_EpochsPerPeriod {D} _.
Arguments gs_SkippedEpochs {D} _.

Definition inflation_ModuleName : string := "inflation".
Definition incentives_ModuleName : string := "incentives".

Section types.
Context {D C : Type} `{SdkDec D, SdkCoins C, Ethermint}.
Implicit Types params : InflParams D.

Definition infl_DefaultParams : InflParams D :=
  mkInflParams DefaultEVMDenom
    (mkExp (dec_new 300000000) (dec_with_prec 50 2) (dec_new 9375000)
           (dec_with_prec 66 2) (dec_new 0))
    (mkDist (dec_with_prec 533333334 9) (dec_with_prec 333333333 9) (dec_with_prec 133333333 9))
    true.

Definition validateMintDenom (v : string) : outcome unit :=
  let? _ := ocheck (is_blank v) (ErrMsg "mint denom cannot be blank") in
  ocheck (negb (denom_valid v)) (ErrExternal "invalid denom").

Definition validateExponentialCalculation (v : ExponentialCalculation D) : outcome unit :=
  let? _ := ocheck (dec_is_negative (ec_A v)) (ErrMsg "initial value cannot be negative") in
  let? _ := ocheck (dec_gt (ec_R v) (dec_new 1)) (ErrMsg "reduction factor cannot be greater than 1") in
  let? _ := ocheck (dec_is_negative (ec_R v)) (ErrMsg "reduction factor cannot be negative") in
  let? _ := ocheck (dec_is_negative (ec_C v)) (ErrMsg "long term inflation cannot be negative") in
  let? _ := ocheck (dec_gt (BondingTarget v) (dec_new 1)) (ErrMsg "bonded target cannot be greater than 1") in
  let? _ := ocheck (negb (dec_is_positive (BondingTarget v)))
                   (ErrMsg "bonded target cannot be zero or negative") in
  ocheck (dec_is_negative (MaxVariance v)) (ErrMsg "max variance cannot be negative").

Definition validateInflationDistribution (v : InflationDistribution D) : outcome unit :=
  let? _ := ocheck (dec_is_negative (StakingRewards v))
                   (ErrMsg "staking distribution ratio must not be negative") in
  let? _ := ocheck (dec_is_negative (UsageIncentives v))
                   (ErrMsg "pool incentives distribution ratio must not be negative") in
  let? _ := ocheck (dec_is_negative (CommunityPool v))
                   (ErrMsg "community pool distribution ratio must not be negative") in
  let totalProportions :=
    dec_add (dec_add (StakingRewards v) (UsageIncentives v)) (CommunityPool v) in
  ocheck (negb (dec_equal totalProportions (dec_new 1)))
         (ErrMsg "total distributions ratio should be 1").

Definition infl_Params_Validate params : outcome unit :=
  let? _ := validateMintDenom (MintDenom params) in
  let? _ := validateExponentialCalculation (i_ExponentialCalculation params) in
  validateInflationDistribution (i_InflationDistribution params).

(** ** Genesis: [types/genesis.go] *)

Definition infl_DefaultGenesisState : InflGenesis D :=
  mkInflGenesis infl_DefaultParams 0 DayEpochID 365 0.

Definition validateEpochsPerPeriod (v : Z) : outcome unit :=
  ocheck (v <=? 0) (ErrMsg "epochs per period must be positive").

Definition infl_GenesisState_Validate (gs : InflGenesis D) : outcome unit :=
  let? _ := ValidateEpochIdentifierString (gs_EpochIdentifier gs) in
  let? _ := validateEpochsPerPeriod (gs_EpochsPerPeriod gs) in
  infl_Params_Validate (gs_Params gs).

(** ** [types/inflation_calculation.go] *)

Definition CalculateEpochMintProvision params (period epochsPerPeriod : Z) (bondedRatio : D)
    : outcome D :=
  let x := period in
  let a := ec_A (i_ExponentialCalculation params) in
  let r := ec_R (i_ExponentialCalculation params) in
  let c := ec_C (i_ExponentialCalculation params) in
  let bTarget := BondingTarget (i_ExponentialCalculation params) in
  let maxVariance := MaxVariance (i_ExponentialCalculation params) in
  let decay := dec_sub (dec_new 1) r in
  let exponentialDecay := dec_add (dec_mul a (dec_power decay x)) c in
  let bondedRatio := if dec_gte bondedRatio bTarget then bTarget else bondedRatio in
  let? incentive := dec_quo maxVariance bTarget in
  let sub := dec_mul bondedRatio incentive in
  let bondingIncentive := dec_sub (dec_add (dec_new 1) maxVariance) sub in
  let periodProvision := dec_mul exponentialDecay bondingIncentive in
  let? epochProvision := dec_quo periodProvision (dec_new epochsPerPeriod) in
  Ok (dec_mul epochProvision (dec_new PowerReduction)).

End types.

(** ** The keeper *)

Record infl_state (D X : Type) := mkInfl {
  i_params : InflParams D;
  (* the entries of the module's store; [None]: the key is not set *)
  i_period : option Z;
  i_provision : option D;
  i_identifier : option string;
  i_epochsPerPeriod : option Z;
  i_skipped : option Z;
  i_ext : X;
}.
Arguments mkInfl {D X} _ _ _ _ _ _ _.
Arguments i_params {D X} _.
Arguments i_period {D X} _.
Arguments i_provision {D X} _.
Arguments i_identifier {D X} _.
Arguments i_epochsPerPeriod {D X} _.
Arguments i_skipped {D X} _.
Arguments i_ext {D X} _.

Section keeper.
Context {D C X : Type} `{SdkDec D, SdkCoins C, Ethermint}.
Context `{AccountKeeper C X, BankKeeper C X, DistrKeeper C X, StakingKeeper X}.
Variable feeCollectorName : string.
Implicit Types s : infl_state D X.
Local Abbreviation IM := (M (infl_state D X)).

(** *** Store access: [keeper/params.go], [periods.go], [epoch_info.go],
    [epoch_mint_provisions.go] *)

Definition infl_GetParams s : InflParams D := i_params s.

(** [SetParamSet] panics when a validation function rejects its value. *)
Definition infl_SetParams (params : InflParams D) : IM unit := λ s,
  if is_ok (infl_Params_Validate params)
  then (Ok tt, mkInfl params (i_period s) (i_provision s) (i_identifier s) (i_epochsPerPeriod s)
                      (i_skipped s) (i_ext s))
  else (Panic, s).

Definition GetPeriod s : Z := default 0 (i_period s).
Definition SetPeriod (period : Z) s : infl_state D X :=
  mkInfl (i_params s) (Some period) (i_provision s) (i_identifier s) (i_epochsPerPeriod s)
         (i_skipped s) (i_ext s).

Definition GetEpochIdentifier s : string := default EmptyString (i_identifier s).
Definition SetEpochIdentifier (epochIdentifier : string) s : infl_state D X :=
  mkInfl (i_params s) (i_period s) (i_provision s) (Some epochIdentifier) (i_epochsPerPeriod s)
         (i_skipped s) (i_ext s).

Definition GetEpochsPerPeriod s : Z := default 0 (i_epochsPerPeriod s).
Definition SetEpochsPerPeriod (epochsPerPeriod : Z) s : infl_state D X :=
  mkInfl (i_params s) (i_period s) (i_provision s) (i_identifier s) (Some epochsPerPeriod)
         (i_skipped s) (i_ext s).

Definition GetSkippedEpochs s : Z := default 0 (i_skipped s).
Definition SetSkippedEpochs (skippedEpochs : Z) s : infl_state D X :=
  mkInfl (i_params s) (i_period s) (i_provision s) (i_identifier s) (i_epochsPerPeriod s)
         (Some skippedEpochs) (i_ext s).

(** The second result of [GetEpochMintProvision] is whether the key is set; the
    first is zero when it is not. *)
Definition GetEpochMintProvision s : D * bool :=
  match i_provision s with Some p => (p, true) | None => (dec_new 0, false) end.
Definition SetEpochMintProvision (epochMintProvision : D) s : infl_state D X :=
  mkInfl (i_params s) (i_period s) (Some epochMintProvision) (i_identifier s) (i_epochsPerPeriod s)
         (i_skipped s) (i_ext s).

(** A call of a foreign keeper. *)
Definition iext {A} (m : M X A) : IM A :=
  zoom i_ext (λ x s, mkInfl (i_params s) (i_period s) (i_provision s) (i_identifier s)
                            (i_epochsPerPeriod s) (i_skipped s) x) m.

(** *** [keeper/inflation.go] *)

Definition teamAlloc : Z := 200000000 * PowerReduction.

Definition infl_MintCoins (coin : string * Z) : IM unit :=
  let! coins := lift (coins_new coin.1 coin.2) in
  if coins_is_empty coins then ret tt else iext (MintCoins inflation_ModuleName coins).

Definition GetProportions (coin : string * Z) (distribution : D) : outcome (string * Z) :=
  new_coin C coin.1 (dec_truncate_int (dec_mul (dec_new coin.2) distribution)).

Definition AllocateExponentialInflation (mintedCoin : string * Z) : IM (C * C * C) :=
  let! params := gets infl_GetParams in
  let proportions := i_InflationDistribution params in
  let! coin := lift (GetProportions mintedCoin (StakingRewards proportions)) in
  let! staking := lift (coins_new coin.1 coin.2) in
  iext (SendCoinsFromModuleToModule inflation_ModuleName feeCollectorName staking) ;;;
  let! coin := lift (GetProportions mintedCoin (UsageIncentives proportions)) in
  let! incentives := lift (coins_new coin.1 coin.2) in
  iext (SendCoinsFromModuleToModule inflation_ModuleName incentives_ModuleName incentives) ;;;
  let moduleAddr := module_addr inflation_ModuleName in
  let! communityPool := gets (λ s, GetAllBalances (i_ext s) moduleAddr) in
  iext (FundCommunityPool communityPool moduleAddr) ;;;
  ret (staking, incentives, communityPool).

Definition MintAndAllocateInflation (coin : string * Z) : IM (C * C * C) :=
  infl_MintCoins coin ;;; AllocateExponentialInflation coin.

Definition BondedRatio (ctx : Ctx) s : outcome D :=
  let stakeSupply := StakingTokenSupply (i_ext s) in
  let isMainnet := IsMainnet (ChainID ctx) in
  if negb (0 <? stakeSupply) || (isMainnet && (stakeSupply <=? teamAlloc)) then Ok (dec_new 0)
  else
    let stakeSupply := if isMainnet then stakeSupply - teamAlloc else stakeSupply in
    dec_quo_int (dec_new (TotalBondedTokens (i_ext s))) stakeSupply.

Definition GetCirculatingSupply (ctx : Ctx) s : D :=
  let mintDenom := MintDenom (infl_GetParams s) in
  let circulatingSupply := dec_new (GetSupply (i_ext s) mintDenom) in
  let teamAllocation := dec_new teamAlloc in
  if IsMainnet (ChainID ctx) then dec_sub circulatingSupply teamAllocation else circulatingSupply.

Definition GetInflationRate (ctx : Ctx) s : outcome D :=
  let '(epochMintProvision, _) := GetEpochMintProvision s in
  if dec_is_zero epochMintProvision then Ok (dec_new 0) else
  let epp := GetEpochsPerPeriod s in
  if epp =? 0 then Ok (dec_new 0) else
  let epochsPerPeriod := dec_new epp in
  let circulatingSupply := GetCirculatingSupply ctx s in
  if dec_is_zero circulatingSupply then Ok (dec_new 0) else
  let? q := dec_quo (dec_mul epochMintProvision epochsPerPeriod) circulatingSupply in
  Ok (dec_mul q (dec_new 100)).

(** *** [keeper/hooks.go] *)

(** The test that ends a period, on wrapping integers. *)
Definition period_passed (epochNumber epochsPerPeriod period skippedEpochs : Z) : bool :=
  epochsPerPeriod <?
  epochNumber -i epochsPerPeriod *i wrap64 period -i wrap64 skippedEpochs.

Definition infl_AfterEpochEnd (ctx : Ctx) (epochIdentifier : string) (epochNumber : Z) : IM unit :=
  let! params := gets infl_GetParams in
  let! skippedEpochs := gets GetSkippedEpochs in
  if negb (EnableInflation params) then
    if negb (String.eqb epochIdentifier DayEpochID) then ret tt
    else modify (SetSkippedEpochs (wrapu64 (skippedEpochs + 1)))
  else
  let! expEpochID := gets GetEpochIdentifier in
  if negb (String.eqb epochIdentifier expEpochID) then ret tt else
  let! (epochMintProvision, found) := gets GetEpochMintProvision in
  if negb found then panic else
  let! mintedCoin := lift (new_coin C (MintDenom params) (dec_truncate_int epochMintProvision)) in
  must (MintAndAllocateInflation mintedCoin) ;;;
  let! period := gets GetPeriod in
  let! epochsPerPeriod := gets GetEpochsPerPeriod in
  if period_passed epochNumber epochsPerPeriod period skippedEpochs then
    modify (SetPeriod (wrapu64 (period + 1))) ;;;
    let! period := gets GetPeriod in
    let! bondedRatio := (λ s, lift (BondedRatio ctx s) s) in
    let! newProvision :=
      lift (CalculateEpochMintProvision params period epochsPerPeriod bondedRatio) in
    modify (SetEpochMintProvision newProvision)
  else ret tt.

Definition infl_Hooks : EpochHooks (infl_state D X) :=
  mkHooks infl_AfterEpochEnd (λ _ _ _, ret tt).

(** *** [genesis.go] *)

Definition infl_InitGenesis (ctx : Ctx) (data : InflGenesis D) : IM unit :=
  let! acc := iext (HasModuleAccount inflation_ModuleName) in
  if negb acc then panic else
  infl_SetParams (gs_Params data) ;;;
  modify (SetPeriod (gs_Period data)) ;;;
  modify (SetEpochIdentifier (gs_EpochIdentifier data)) ;;;
  modify (SetEpochsPerPeriod (gs_EpochsPerPeriod data)) ;;;
  modify (SetSkippedEpochs (gs_SkippedEpochs data)) ;;;
  let! bondedRatio := (λ s, lift (BondedRatio ctx s) s) in
  let! epochMintProvision := lift (CalculateEpochMintProvision (gs_Params data) (gs_Period data)
                                     (gs_EpochsPerPeriod data) bondedRatio) in
  modify (SetEpochMintProvision epochMintProvision).

Definition infl_ExportGenesis s : InflGenesis D :=
  mkInflGenesis (infl_GetParams s) (GetPeriod s) (GetEpochIdentifier s) (GetEpochsPerPeriod s)
                (GetSkippedEpochs s).

(** *** [keeper/grpc_query.go] *)

Definition query_Period s : outcome Z := Ok (GetPeriod s).

Variable new_dec_coin : string → D → outcome (string * D).  (* [sdk.NewDecCoinFromDec] *)

Definition query_EpochMintProvision s : outcome (string * D) :=
  let '(epochMintProvision, found) := GetEpochMintProvision s in
  if negb found then Err (ErrMsg "epoch mint provision not found")
  else new_dec_coin (MintDenom (infl_GetParams s)) epochMintProvision.

Definition query_SkippedEpochs s : outcome Z := Ok (GetSkippedEpochs s).
Definition query_InflationRate (ctx : Ctx) s : outcome D := GetInflationRate ctx s.
Definition query_CirculatingSupply (ctx : Ctx) s : outcome (string * D) :=
  new_dec_coin (MintDenom (infl_GetParams s)) (GetCirculatingSupply ctx s).

End keeper.
