(* ===== verification/InflationProps.v ===== *)
(** * Properties of the inflation module

    The provision formula stays within its bounds, the allocation conserves
    what is minted, the periods follow the number of minted epochs, and the
    epochs module drives exactly these steps. *)

From S2P Require Import Prelude Sdk Dec SdkInstances Keepers KeeperInstances EvmosUtils Epochs EpochsProps Inflation.

Section provision.
Context {D C : Type} `{SdkDecLaws D, SdkCoinsLaws C, Ethermint}.

(** What the parameter validation guarantees. *)
Record params_ok (p : InflParams D) : Prop := {
  pa_A : 0 ≤ dec_raw (ec_A (i_ExponentialCalculation p));
  pa_R : 0 ≤ dec_raw (ec_R (i_ExponentialCalculation p)) ≤ dec_unit;
  pa_C : 0 ≤ dec_raw (ec_C (i_ExponentialCalculation p));
  pa_T : 0 < dec_raw (BondingTarget (i_ExponentialCalculation p)) ≤ dec_unit;
  pa_V : 0 ≤ dec_raw (MaxVariance (i_ExponentialCalculation p));
  pa_S : 0 ≤ dec_raw (StakingRewards (i_InflationDistribution p));
  pa_U : 0 ≤ dec_raw (UsageIncentives (i_InflationDistribution p));
  pa_P : 0 ≤ dec_raw (CommunityPool (i_InflationDistribution p));
  pa_sum : dec_raw (StakingRewards (i_InflationDistribution p)) +
           dec_raw (UsageIncentives (i_InflationDistribution p)) +
           dec_raw (CommunityPool (i_InflationDistribution p)) = dec_unit;
}.

Lemma params_validate_ok (p : InflParams D) :
  infl_Params_Validate (C := C) p = Ok tt → params_ok p ∧ denom_valid (MintDenom p) = true.
Proof.
  unfold infl_Params_Validate, validateMintDenom, validateExponentialCalculation,
    validateInflationDistribution.
  intros Hv. inv_ok.
  rewrite ?is_negative_spec, ?is_positive_spec, ?gt_spec, ?equal_spec, ?raw_add, ?raw_new in *.
  bool_hyps. split; [|done]. constructor; lia.
Qed.

(** The incentive for bonding is between 0 and [1 + MaxVariance]. *)
Lemma bonding_incentive_bounds (b t v q : D) :
  0 ≤ dec_raw b ≤ dec_raw t → 0 < dec_raw t ≤ dec_unit → 0 ≤ dec_raw v → dec_quo v t = Ok q →
  let i := dec_sub (dec_add (dec_new 1) v) (dec_mul b q) in
  0 ≤ dec_raw i ≤ dec_unit + dec_raw v.
Proof.
  intros Hb Ht Hv Hq. cbv zeta. rewrite raw_sub, raw_add, raw_new, Z.mul_1_l.
  pose proof (raw_quo_nonneg v t q Hv (proj1 Ht) Hq) as Hq0.
  pose proof (raw_mul_nonneg b q (proj1 Hb) Hq0) as Hm0. split; [|lia].
  destruct (raw_quo v t) as (q' & Hq' & Hr); [lia|]. rewrite Hq in Hq'. injection Hq' as <-.
  assert (Hu : 2 < dec_unit) by (unfold dec_unit; lia).
  assert (Hle : dec_raw (dec_mul b q) ≤ dec_raw v + 1).
  { eapply nearest_le; [apply dec_unit_pos| |apply raw_mul]. nia. }
  lia.
Qed.

(** The decayed yearly amount is between 0 and [A + C]. *)
Lemma decay_bounds (e : ExponentialCalculation D) period :
  0 ≤ period → 0 ≤ dec_raw (ec_A e) → 0 ≤ dec_raw (ec_R e) ≤ dec_unit → 0 ≤ dec_raw (ec_C e) →
  let d := dec_add (dec_mul (ec_A e) (dec_power (dec_sub (dec_new 1) (ec_R e)) period)) (ec_C e) in
  0 ≤ dec_raw d ≤ dec_raw (ec_A e) + dec_raw (ec_C e).
Proof.
  intros Hp HA HR HC. cbv zeta. pose proof dec_unit_pos.
  destruct (power_unit_interval (dec_sub (dec_new 1) (ec_R e)) period Hp) as [Hw0 Hw1].
  { rewrite raw_sub, raw_new. lia. }
  set (w := dec_power (dec_sub (dec_new 1) (ec_R e)) period) in *.
  pose proof (raw_mul_nonneg (ec_A e) w HA Hw0).
  assert (dec_raw (dec_mul (ec_A e) w) ≤ dec_raw (ec_A e)).
  { eapply nearest_le; [done| |apply raw_mul]. nia. }
  rewrite raw_add. lia.
Qed.

(** Dividing the yearly provision [d * i] over [n] epochs. *)
Lemma epoch_share (d i : D) n dmax imax :
  0 < n → 0 ≤ dec_raw d ≤ dmax → 0 ≤ dec_raw i ≤ imax →
  ∃ c, dec_quo (dec_mul d i) (dec_new n) = Ok c ∧ 0 ≤ dec_raw c ∧
       dec_raw c * (n * dec_unit) ≤ dmax * imax + (n + 1) * dec_unit.
Proof.
  intros Hn Hd Hi. pose proof dec_unit_pos.
  pose proof (raw_mul_nonneg d i (proj1 Hd) (proj1 Hi)) as Hpp0.
  pose proof (raw_mul d i) as Hpp. unfold nearest in Hpp. set (pp := dec_mul d i) in *.
  destruct (raw_quo pp (dec_new n)) as (c & Hc & Hr); [rewrite raw_new; lia|].
  exists c. split; [done|]. split.
  { eapply raw_quo_nonneg; [exact Hpp0| |exact Hc]. rewrite raw_new. lia. }
  rewrite raw_new in Hr.
  assert (dec_raw d * dec_raw i ≤ dmax * imax) by nia.
  assert (dec_raw c * n < dec_raw pp + n) by nia. nia.
Qed.

Lemma calculate_provision (params : InflParams D) period epochsPerPeriod bondedRatio :
  params_ok params → 0 ≤ period → 0 < epochsPerPeriod → 0 ≤ dec_raw bondedRatio →
  0 ≤ PowerReduction →
  ∃ p, CalculateEpochMintProvision params period epochsPerPeriod bondedRatio = Ok p ∧
    let e := i_ExponentialCalculation params in
    0 ≤ dec_raw p ∧
    dec_raw p * (epochsPerPeriod * dec_unit) ≤
    PowerReduction * ((dec_raw (ec_A e) + dec_raw (ec_C e)) * (dec_unit + dec_raw (MaxVariance e))
                      + (epochsPerPeriod + 1) * dec_unit).
Proof.
  intros [] Hp He Hb HPR. unfold CalculateEpochMintProvision. cbv zeta.
  set (e := i_ExponentialCalculation params) in *.
  set (b := if dec_gte bondedRatio (BondingTarget e) then BondingTarget e else bondedRatio).
  assert (Hb' : 0 ≤ dec_raw b ≤ dec_raw (BondingTarget e)).
  { subst b. rewrite gte_spec.
    destruct (Z.leb_spec (dec_raw (BondingTarget e)) (dec_raw bondedRatio)); lia. }
  destruct (raw_quo (MaxVariance e) (BondingTarget e)) as (q & Hq & _); [lia|].
  pose proof (bonding_incentive_bounds b (BondingTarget e) (MaxVariance e) q Hb' pa_T0 pa_V0 Hq) as Hi.
  pose proof (decay_bounds e period Hp pa_A0 pa_R0 pa_C0) as Hd. cbv zeta in Hi, Hd.
  destruct (epoch_share _ _ epochsPerPeriod _ _ He Hd Hi) as (c & Hc & Hc0 & Hc1).
  rewrite Hq. simpl. rewrite Hc. simpl. eexists. split; [reflexivity|].
  rewrite raw_mul_new_r. split; [nia|].
  rewrite (Z.mul_comm (dec_raw c)), <- Z.mul_assoc. apply Z.mul_le_mono_nonneg_l; lia.
Qed.

(** With valid parameters the provision of a period is defined, is not
    negative, and is at most [(A + C) * (1 + MaxVariance) / epochsPerPeriod]
    up to one unit in the last place of each rounding. *)
Lemma epoch_provision_bounds (params : InflParams D) period epochsPerPeriod bondedRatio :
  infl_Params_Validate (C := C) params = Ok tt →
  0 ≤ period → 0 < epochsPerPeriod → 0 ≤ dec_raw bondedRatio → 0 ≤ PowerReduction →
  ∃ p, CalculateEpochMintProvision params period epochsPerPeriod bondedRatio = Ok p ∧
    let e := i_ExponentialCalculation params in
    0 ≤ dec_raw p ∧
    dec_raw p * (epochsPerPeriod * dec_unit) ≤
    PowerReduction * ((dec_raw (ec_A e) + dec_raw (ec_C e)) * (dec_unit + dec_raw (MaxVariance e))
                      + (epochsPerPeriod + 1) * dec_unit).
Proof. intros Hval. apply params_validate_ok in Hval as [Hok _]. by apply calculate_provision. Qed.
End provision.

Section allocation.
Context {D C X : Type} `{SdkDecLaws D, SdkCoinsLaws C, Ethermint}.
Context `{!AccountKeeper C X, !BankKeeper C X, !DistrKeeper C X, !StakingKeeper X}.
Context `{!BankLaws C X, !DistrLaws C X}.
Variable feeCollectorName : string.
Implicit Types s : infl_state D X.

(** The share of [amt] a distribution ratio stands for. *)
Definition share (amt : Z) (ratio : D) : Z := amt * dec_raw ratio / dec_unit.

Definition same_settings s s' : Prop :=
  i_params s' = i_params s ∧ i_period s' = i_period s ∧ i_provision s' = i_provision s ∧
  i_identifier s' = i_identifier s ∧ i_epochsPerPeriod s' = i_epochsPerPeriod s ∧
  i_skipped s' = i_skipped s.

#[local] Instance same_settings_preorder : PreOrder same_settings.
Proof.
  split; [by intros ?|]. unfold same_settings. intros a b c (?&?&?&?&?&?) (?&?&?&?&?&?).
  repeat split; congruence.
Qed.

Lemma iext_ok {A} (m : M X A) s a s' :
  iext m s = (Ok a, s') → m (i_ext s) = (Ok a, i_ext s') ∧ same_settings s s'.
Proof. unfold iext. intros Hz. apply zoom_ok in Hz as (x & Hm & ->). done. Qed.

Lemma get_proportions_ok d amt (ratio : D) coin c :
  0 ≤ amt → 0 ≤ dec_raw ratio →
  GetProportions (C := C) (d, amt) ratio = Ok coin → coins_new coin.1 coin.2 = Ok c →
  ∀ d', amount_of (C := C) c d' = if decide (d' = d) then share amt ratio else 0.
Proof.
  intros Ha Hr Hp Hc. unfold GetProportions, new_coin in Hp. inv_ok.
  apply coins_new_inv in Hc as (_ & _ & Hc). simpl in Hc.
  intros d'. rewrite Hc, truncate_new_mul by done. done.
Qed.

Lemma infl_mint_ok d amt s s' :
  infl_MintCoins (C := C) (d, amt) s = (Ok tt, s') →
  0 ≤ amt ∧ same_settings s s' ∧
  (∀ a d', GetBalance (i_ext s') a d' = GetBalance (i_ext s) a d' +
     at_addr a (module_addr inflation_ModuleName) (if decide (d' = d) then amt else 0)) ∧
  ∀ d', GetSupply (i_ext s') d' = GetSupply (i_ext s) d' + if decide (d' = d) then amt else 0.
Proof.
  unfold infl_MintCoins. simpl. intros Hrun. inv_ok.
  match goal with Hcn : coins_new _ _ = Ok ?c |- _ =>
    apply coins_new_inv in Hcn as (Hn & Hv & Hc); destruct (coins_is_empty c) eqn:Em end; inv_ok.
  - pose proof (proj1 (is_empty_spec _ Hv) Em) as Ez. repeat split; auto; intros.
    all: rewrite <- Hc, Ez; unfold at_addr; repeat case_decide; lia.
  - match goal with He : iext _ _ = _ |- _ => apply iext_ok in He as [Hm Hs] end.
    apply mint_ok in Hm as [Hb Hsup]. do 2 (split; [done|]). split; intros.
    + by rewrite Hb, Hc.
    + by rewrite Hsup, Hc.
Qed.

(** The four accounts of the allocation are different. *)
Definition distinct_accounts : Prop :=
  NoDup [module_addr inflation_ModuleName; module_addr feeCollectorName;
         module_addr incentives_ModuleName; distr_addr].

(** What the allocation of [amt] does to the balances. *)
Definition allocated (p : InflParams D) (d : string) (amt : Z) (x x' : X) : Prop :=
  let stk := share amt (StakingRewards (i_InflationDistribution p)) in
  let inc := share amt (UsageIncentives (i_InflationDistribution p)) in
  let m := module_addr inflation_ModuleName in
  ∀ a d', GetBalance x' a d' = GetBalance x a d'
    + at_addr a (module_addr feeCollectorName) (of_denom d d' stk)
    + at_addr a (module_addr incentives_ModuleName) (of_denom d d' inc)
    + at_addr a distr_addr (GetBalance x m d' - of_denom d d' (stk + inc))
    - at_addr a m (GetBalance x m d').

Lemma sweep_balances m f i p c1 c2 (x0 x1 x2 x3 : X) a d :
  NoDup [m; f; i; p] →
  transferred m f c1 x0 x1 → transferred m i c2 x1 x2 →
  transferred m p (GetAllBalances x2 m) x2 x3 →
  GetBalance x3 a d = GetBalance x0 a d + at_addr a f (amount_of c1 d) + at_addr a i (amount_of c2 d)
    + at_addr a p (GetBalance x0 m d - (amount_of c1 d + amount_of c2 d))
    - at_addr a m (GetBalance x0 m d).
Proof.
  intros Hnd T1 T2 T3. rewrite !NoDup_cons, !elem_of_cons in Hnd.
  rewrite T3, all_balances_spec, !T2, !T1. unfold at_addr.
  rewrite !(decide_True (P := m = m)) by done.
  repeat case_decide; subst; try lia; exfalso; naive_solver.
Qed.

Lemma shares_bound amt (p : InflParams D) :
  0 ≤ amt → params_ok p →
  let stk := share amt (StakingRewards (i_InflationDistribution p)) in
  let inc := share amt (UsageIncentives (i_InflationDistribution p)) in
  0 ≤ stk ∧ 0 ≤ inc ∧ stk + inc ≤ amt.
Proof.
  intros Ha []. unfold share. pose proof dec_unit_pos.
  set (a := dec_raw (StakingRewards _)) in *. set (b := dec_raw (UsageIncentives _)) in *.
  pose proof (Z.mul_div_le (amt * a) dec_unit). pose proof (Z.mul_div_le (amt * b) dec_unit).
  split; [apply Z.div_pos; nia|]. split; [apply Z.div_pos; nia|]. nia.
Qed.

Lemma alloc_ok d amt s r s' :
  distinct_accounts → params_ok (i_params s) → 0 ≤ amt →
  AllocateExponentialInflation feeCollectorName (d, amt) s = (Ok r, s') →
  same_settings s s' ∧ allocated (i_params s) d amt (i_ext s) (i_ext s') ∧
  ∀ d', GetSupply (i_ext s') d' = GetSupply (i_ext s) d'.
Proof.
  intros Hdist [] Hamt Hrun. unfold AllocateExponentialInflation in Hrun. simpl in Hrun.
  unfold infl_GetParams in Hrun. inv_ok.
  repeat match goal with He : iext _ _ = (Ok ?u, _) |- _ =>
    destruct u; apply iext_ok in He; destruct He as [? ?] end.
  match goal with
  | P1 : GetProportions _ (StakingRewards _) = Ok ?c1, N1 : coins_new ?c1.1 _ = _,
    P2 : GetProportions _ (UsageIncentives _) = Ok ?c2, N2 : coins_new ?c2.1 _ = _,
    S1 : SendCoinsFromModuleToModule _ feeCollectorName _ _ = _,
    S2 : SendCoinsFromModuleToModule _ incentives_ModuleName _ _ = _,
    S3 : FundCommunityPool _ _ _ = _ |- _ =>
    pose proof (get_proportions_ok _ _ _ _ _ Hamt pa_S0 P1 N1) as A1;
    pose proof (get_proportions_ok _ _ _ _ _ Hamt pa_U0 P2 N2) as A2;
    split; [by repeat (etransitivity; [eassumption|])|]; split;
    [|intros d'; by rewrite (fund_supply _ _ _ _ _ S3), (send_mod_mod_supply _ _ _ _ _ _ S2),
        (send_mod_mod_supply _ _ _ _ _ _ S1)];
    apply send_mod_mod_ok in S1, S2; apply fund_ok in S3
  end.
  intros a d'. cbv zeta. unfold of_denom.
  rewrite (sweep_balances _ _ _ _ _ _ _ _ _ _ a d' Hdist ltac:(eassumption) ltac:(eassumption)
    ltac:(eassumption)), A1, A2.
  by destruct (decide (d' = d)).
Qed.

Lemma mint_and_allocate_ok d amt s r s' :
  distinct_accounts → params_ok (i_params s) →
  MintAndAllocateInflation feeCollectorName (d, amt) s = (Ok r, s') →
  let m := module_addr inflation_ModuleName in
  let p := i_InflationDistribution (i_params s) in
  let stk := share amt (StakingRewards p) in
  let inc := share amt (UsageIncentives p) in
  same_settings s s' ∧ 0 ≤ amt ∧ 0 ≤ stk ∧ 0 ≤ inc ∧ stk + inc ≤ amt ∧
  (∀ d', GetSupply (i_ext s') d' = GetSupply (i_ext s) d' + of_denom d d' amt) ∧
  ∀ a d', GetBalance (i_ext s') a d' = GetBalance (i_ext s) a d'
    + at_addr a (module_addr feeCollectorName) (of_denom d d' stk)
    + at_addr a (module_addr incentives_ModuleName) (of_denom d d' inc)
    + at_addr a distr_addr (GetBalance (i_ext s) m d' + of_denom d d' (amt - stk - inc))
    - at_addr a m (GetBalance (i_ext s) m d').
Proof.
  intros Hdist Hok Hrun. cbv zeta. unfold MintAndAllocateInflation in Hrun.
  apply bind_ok in Hrun as ([] & s1 & Hmint & Hrun).
  apply infl_mint_ok in Hmint as (Ha & Hs1 & Hb1 & Hsup1).
  assert (Ep : i_params s1 = i_params s) by apply Hs1.
  apply alloc_ok in Hrun as (Hs2 & Hb2 & Hsup2); [|done|by rewrite Ep|done].
  destruct (shares_bound amt (i_params s) Ha Hok) as (? & ? & ?).
  split; [by etransitivity|]. do 4 (split; [done|]). split.
  - intros d'. by rewrite Hsup2, Hsup1.
  - intros a d'. rewrite Hb2, Ep, !Hb1. cbv zeta. unfold at_addr, of_denom.
    repeat case_decide; subst; try done; lia.
Qed.

(** C24: minting [amt] and allocating it raises the supply by exactly [amt];
    the fee collector gets the truncated staking share, the incentives module
    the truncated usage share, the community pool the rest together with what
    the inflation module held before, and the module is left with nothing.
    The shares never exceed what was minted. *)
Theorem inflation_allocation d amt s r s' :
  distinct_accounts → infl_Params_Validate (C := C) (i_params s) = Ok tt →
  MintAndAllocateInflation feeCollectorName (d, amt) s = (Ok r, s') →
  let m := module_addr inflation_ModuleName in
  let p := i_InflationDistribution (i_params s) in
  let stk := share amt (StakingRewards p) in
  let inc := share amt (UsageIncentives p) in
  0 ≤ stk ∧ 0 ≤ inc ∧ stk + inc ≤ amt ∧
  (∀ d', GetSupply (i_ext s') d' = GetSupply (i_ext s) d' + of_denom d d' amt) ∧
  (∀ d', GetBalance (i_ext s') m d' = 0) ∧
  ∀ a d', a ≠ m → GetBalance (i_ext s') a d' = GetBalance (i_ext s) a d'
    + at_addr a (module_addr feeCollectorName) (of_denom d d' stk)
    + at_addr a (module_addr incentives_ModuleName) (of_denom d d' inc)
    + at_addr a distr_addr (GetBalance (i_ext s) m d' + of_denom d d' (amt - stk - inc)).
Proof.
  intros Hdist Hval Hrun. apply params_validate_ok in Hval as [Hok _].
  destruct (mint_and_allocate_ok d amt s r s' Hdist Hok Hrun) as (_ & _ & ? & ? & ? & ? & Hb).
  cbv zeta in *. do 4 (split; [done|]).
  unfold distinct_accounts in Hdist. apply NoDup_cons in Hdist as [Hni _]. split.
  - intros d'. rewrite Hb. unfold at_addr. rewrite !(decide_False (P := _ = _)) by set_solver.
    rewrite decide_True by done. lia.
  - intros a d' Ham. rewrite Hb. unfold at_addr at 4. rewrite decide_False by done. lia.
Qed.

(** ** The epoch hook *)

Lemma after_end_disabled ctx id n s :
  EnableInflation (i_params s) = false →
  infl_AfterEpochEnd (C := C) feeCollectorName ctx id n s =
  (Ok tt, if String.eqb id DayEpochID then SetSkippedEpochs (wrapu64 (GetSkippedEpochs s + 1)) s else s).
Proof.
  intros Hen. unfold infl_AfterEpochEnd, bind, gets, infl_GetParams, modify, ret. simpl.
  rewrite Hen. simpl. by destruct (String.eqb id DayEpochID).
Qed.

Lemma after_end_other ctx id n s :
  EnableInflation (i_params s) = true → id ≠ GetEpochIdentifier s →
  infl_AfterEpochEnd (C := C) feeCollectorName ctx id n s = (Ok tt, s).
Proof.
  intros Hen Hid. unfold infl_AfterEpochEnd, bind, gets, infl_GetParams, ret. simpl.
  rewrite Hen. simpl. by apply String.eqb_neq in Hid as ->.
Qed.

(** The whole effect of a minting epoch. *)
Definition minted_epoch (ctx : Ctx) (n : Z) s s' : Prop :=
  ∃ p0 r s1, i_provision s = Some p0 ∧
    MintAndAllocateInflation (C := C) feeCollectorName
      (MintDenom (i_params s), dec_truncate_int p0) s = (Ok r, s1) ∧
    if period_passed n (GetEpochsPerPeriod s1) (GetPeriod s1) (GetSkippedEpochs s) then
      ∃ b p1, BondedRatio ctx (SetPeriod (wrapu64 (GetPeriod s1 + 1)) s1) = Ok b ∧
        CalculateEpochMintProvision (i_params s) (wrapu64 (GetPeriod s1 + 1))
          (GetEpochsPerPeriod s1) b = Ok p1 ∧
        s' = SetEpochMintProvision p1 (SetPeriod (wrapu64 (GetPeriod s1 + 1)) s1)
    else s' = s1.

Lemma after_end_mints ctx n s s' :
  EnableInflation (i_params s) = true →
  infl_AfterEpochEnd feeCollectorName ctx (GetEpochIdentifier s) n s = (Ok tt, s') →
  minted_epoch ctx n s s'.
Proof.
  intros Hen Hrun. unfold infl_AfterEpochEnd, new_coin in Hrun.
  apply bind_ok in Hrun as (p & s0 & Hg & Hrun). unfold gets, infl_GetParams in Hg.
  injection Hg as <- <-.
  apply bind_ok in Hrun as (k & s0 & Hg & Hrun). unfold gets in Hg. injection Hg as <- <-.
  rewrite Hen in Hrun. simpl in Hrun.
  apply bind_ok in Hrun as (i & s0 & Hg & Hrun). unfold gets in Hg. injection Hg as <- <-.
  rewrite String.eqb_refl in Hrun. simpl in Hrun.
  apply bind_ok in Hrun as ([p0 found] & s0 & Hg & Hrun). unfold gets, GetEpochMintProvision in Hg.
  destruct (i_provision s) as [p0'|] eqn:Ep; injection Hg as <- <- <-; simpl in Hrun; [|done].
  apply bind_ok in Hrun as (mc & s0 & Hc & Hrun). unfold lift in Hc.
  destruct (coins_new (MintDenom (i_params s)) (dec_truncate_int p0')) as [c| |];
    simpl in Hc; [|done|done]. injection Hc as <- <-.
  apply bind_ok in Hrun as (r & s1 & Hm & Hrun). apply must_ok in Hm.
  exists p0', r, s1. split; [done|]. split; [done|].
  apply bind_ok in Hrun as (pe & s0 & Hg & Hrun). unfold gets in Hg. injection Hg as <- <-.
  apply bind_ok in Hrun as (ep & s0 & Hg & Hrun). unfold gets in Hg. injection Hg as <- <-.
  destruct (period_passed _ _ _ _); inv_ok; [|done]. eauto 10.
Qed.

(** At the end of an epoch of the module's identifier, with inflation
    enabled, the supply of the mint denomination grows by the truncated
    provision.  The provision changes only when the period passes, to the value
    of the formula for the next period. *)
Lemma epoch_end_mints ctx n s s' :
  distinct_accounts → infl_Params_Validate (C := C) (i_params s) = Ok tt →
  EnableInflation (i_params s) = true →
  infl_AfterEpochEnd feeCollectorName ctx (GetEpochIdentifier s) n s = (Ok tt, s') →
  ∃ p0, i_provision s = Some p0 ∧
    (∀ d, GetSupply (i_ext s') d =
          GetSupply (i_ext s) d + of_denom (MintDenom (i_params s)) d (dec_truncate_int p0)) ∧
    i_params s' = i_params s ∧ GetSkippedEpochs s' = GetSkippedEpochs s ∧
    if period_passed n (GetEpochsPerPeriod s) (GetPeriod s) (GetSkippedEpochs s) then
      GetPeriod s' = wrapu64 (GetPeriod s + 1) ∧
      ∃ b p1, BondedRatio ctx s' = Ok b ∧ i_provision s' = Some p1 ∧
        CalculateEpochMintProvision (i_params s) (GetPeriod s') (GetEpochsPerPeriod s) b = Ok p1
    else GetPeriod s' = GetPeriod s ∧ i_provision s' = Some p0.
Proof.
  intros Hdist Hval Hen Hrun. apply params_validate_ok in Hval as [Hok _].
  apply after_end_mints in Hrun as (p0 & r & s1 & Hp & Hm & Hcase); [|done].
  destruct (mint_and_allocate_ok _ _ s r s1 Hdist Hok Hm) as ((E1&E2&E3&E4&E5&E6) & _ & _ & _ & _ & Hsup & _).
  exists p0. split; [done|]. unfold GetEpochsPerPeriod, GetPeriod, GetSkippedEpochs in *.
  rewrite E2, E5 in Hcase. destruct (period_passed _ _ _ _).
  - destruct Hcase as (b & p1 & Hb & Hc & ->). simpl. rewrite E6. repeat split; auto. eauto 10.
  - subst s'. rewrite E2, E6, E3, Hp. repeat split; auto.
Qed.

(** ** Periods

    A configuration is the number of the current day, the number of epochs in
    which coins were minted, and the state of the module.  Parameters change
    between epochs; other timers tick and other modules write to their stores in
    between. *)

Definition with_iext (x : X) s : infl_state D X :=
  mkInfl (i_params s) (i_period s) (i_provision s) (i_identifier s) (i_epochsPerPeriod s) (i_skipped s) x.

Inductive infl_step : Z * Z * infl_state D X → Z * Z * infl_state D X → Prop :=
  | step_params n minted s params s' :
      infl_SetParams (C := C) params s = (Ok tt, s') →
      infl_step (n, minted, s) (n, minted, s')
  | step_day ctx n minted s s' :
      infl_AfterEpochEnd (C := C) feeCollectorName ctx DayEpochID (n + 1) s = (Ok tt, s') →
      infl_step (n, minted, s)
                (n + 1, minted + (if EnableInflation (i_params s) then 1 else 0), s')
  | step_other ctx id m n minted s s' :
      id ≠ DayEpochID →
      infl_AfterEpochEnd (C := C) feeCollectorName ctx id m s = (Ok tt, s') →
      infl_step (n, minted, s) (n, minted, s')
  | step_foreign n minted s x : infl_step (n, minted, s) (n, minted, with_iext x s).

(** The module counts days; every day since the first was minted or skipped, and
    a period lasts [epochsPerPeriod] minted days. *)
Record period_inv (epp : Z) (c : Z * Z * infl_state D X) : Prop := {
  pi_params : infl_Params_Validate (C := C) (i_params c.2) = Ok tt;
  pi_id : GetEpochIdentifier c.2 = DayEpochID;
  pi_epp : GetEpochsPerPeriod c.2 = epp;
  pi_minted : 0 ≤ c.1.2;
  pi_skipped : 0 ≤ GetSkippedEpochs c.2;
  pi_days : c.1.1 = 1 + c.1.2 + GetSkippedEpochs c.2;
  pi_period : GetPeriod c.2 = c.1.2 / epp;
}.

Lemma period_passed_counts epp minted skipped :
  0 < epp < 2^63 → 0 ≤ minted → 0 ≤ skipped → 2 + minted + skipped < 2^63 →
  (minted + 1) / epp =
  if period_passed (2 + minted + skipped) epp (minted / epp) skipped
  then minted / epp + 1 else minted / epp.
Proof.
  intros He Hm Hs Hn. unfold period_passed.
  pose proof (Z.div_mod minted epp). pose proof (Z.mod_pos_bound minted epp).
  set (q := minted / epp) in *. set (r := minted mod epp) in *.
  assert (0 ≤ q ≤ minted) by (split; [apply Z.div_pos; lia|apply Z.div_le_upper_bound; nia]).
  assert (0 ≤ epp * q ≤ minted) by nia.
  rewrite (wrap64_id q), (wrap64_id skipped), (wrap64_id (epp * q)), (wrap64_id (_ - epp * q)),
    wrap64_id by (unfold in_int64; lia).
  destruct (Z.ltb_spec epp (2 + minted + skipped - epp * q - skipped)).
  - symmetry. apply (Z.div_unique_pos _ _ _ 0); nia.
  - symmetry. apply (Z.div_unique_pos _ _ _ (r + 1)); nia.
Qed.

Lemma period_inv_minted epp ctx n minted s s' :
  distinct_accounts → 0 < epp < 2^63 → n + 1 < 2^63 →
  period_inv epp (n, minted, s) → minted_epoch ctx (n + 1) s s' →
  period_inv epp (n + 1, minted + 1, s').
Proof.
  intros Hdist He Hn [] (p0 & r & s1 & Hp & Hm & Hcase). simpl in *.
  destruct (params_validate_ok _ pi_params0) as [Hok _].
  destruct (mint_and_allocate_ok _ _ s r s1 Hdist Hok Hm) as ((E1&E2&E3&E4&E5&E6) & _).
  pose proof (period_passed_counts epp minted (GetSkippedEpochs s)) as Hpp.
  assert (0 ≤ minted / epp ≤ minted) by (split; [apply Z.div_pos; lia|apply Z.div_le_upper_bound; nia]).
  unfold GetEpochsPerPeriod, GetPeriod, GetSkippedEpochs, GetEpochIdentifier in *.
  rewrite E2, E5, pi_epp0, pi_period0 in Hcase.
  replace (n + 1) with (2 + minted + default 0 (i_skipped s)) in * by lia.
  destruct (period_passed _ _ _ _).
  - destruct Hcase as (b & p1 & _ & _ & ->).
    constructor; simpl; unfold GetEpochsPerPeriod, GetPeriod, GetSkippedEpochs, GetEpochIdentifier;
      simpl; rewrite ?E1, ?E4, ?E5, ?E6; auto; try lia.
    rewrite wrapu64_id by (unfold in_uint64; lia). lia.
  - subst s'.
    constructor; simpl; unfold GetEpochsPerPeriod, GetPeriod, GetSkippedEpochs, GetEpochIdentifier;
      simpl; rewrite ?E1, ?E2, ?E4, ?E5, ?E6; auto; lia.
Qed.

Lemma period_inv_skipped epp n minted s :
  n + 1 < 2^63 → period_inv epp (n, minted, s) →
  period_inv epp (n + 1, minted, SetSkippedEpochs (wrapu64 (GetSkippedEpochs s + 1)) s).
Proof.
  intros Hn []. simpl in *.
  rewrite wrapu64_id by (unfold in_uint64; lia).
  constructor; simpl; unfold GetSkippedEpochs in *; simpl; auto; lia.
Qed.

(** What a day does, by cases on whether inflation is enabled. *)
Lemma period_inv_step epp c c' :
  distinct_accounts → 0 < epp < 2^63 → infl_step c c' → c'.1.1 < 2^63 →
  period_inv epp c → period_inv epp c'.
Proof.
  intros Hdist He [n minted s params s' Hset|ctx n minted s s' Hrun|ctx id m n minted s s' Hid Hrun|n minted s x] Hn Hinv;
    simpl in Hn.
  - unfold infl_SetParams in Hset. destruct (infl_Params_Validate params) as [[]| |] eqn:Ev;
      simpl in Hset; [|done|done]. injection Hset as <-. by destruct Hinv; constructor.
  - destruct (EnableInflation (i_params s)) eqn:Een.
    + rewrite <- (pi_id _ _ Hinv) in Hrun. apply after_end_mints in Hrun; [|done].
      by eapply period_inv_minted.
    + rewrite after_end_disabled in Hrun by done. rewrite String.eqb_refl in Hrun.
      injection Hrun as <-. rewrite Z.add_0_r. by apply period_inv_skipped.
  - pose proof (pi_id _ _ Hinv) as Ei. simpl in Ei.
    destruct (EnableInflation (i_params s)) eqn:Een.
    + rewrite after_end_other in Hrun by congruence. by injection Hrun as <-.
    + rewrite after_end_disabled in Hrun by done. apply String.eqb_neq in Hid as Hid'.
      rewrite Hid' in Hrun. by injection Hrun as <-.
  - by destruct Hinv; constructor.
Qed.

Lemma infl_step_days c c' : infl_step c c' → c.1.1 ≤ c'.1.1.
Proof. destruct 1; simpl; lia. Qed.

(** From genesis on, whatever the order of parameter changes, days, other
    timers and changes outside the module, the period is the number of minted days divided by the epochs per
    period: days on which inflation was disabled do not count. *)
Lemma periods_count_minted_days epp s0 n minted s :
  distinct_accounts → 0 < epp < 2^63 →
  infl_Params_Validate (C := C) (i_params s0) = Ok tt →
  GetEpochIdentifier s0 = DayEpochID → GetEpochsPerPeriod s0 = epp →
  GetSkippedEpochs s0 = 0 → GetPeriod s0 = 0 →
  rtc infl_step (1, 0, s0) (n, minted, s) → n < 2^63 →
  GetPeriod s = minted / epp ∧ n = 1 + minted + GetSkippedEpochs s.
Proof.
  intros Hdist He Hval Hid Hepp Hsk Hper Hrun.
  cut ((n, minted, s).1.1 < 2^63 → period_inv epp (n, minted, s)).
  { intros Hc Hn. by destruct (Hc Hn). }
  refine (rtc_ind_r (λ c, c.1.1 < 2^63 → period_inv epp c) (1, 0, s0) _ _ _ Hrun).
  { intros _. constructor; simpl; auto; try lia. }
  intros c c' Hsteps Hst IH Hn. pose proof (infl_step_days _ _ Hst).
  eapply period_inv_step; [done|done|exact Hst|done|]. apply IH. lia.
Qed.

(** ** The epochs module drives the steps

    The hooks of the epochs module run on a larger state [Y], of which the
    inflation module is a part: other subscribers may write to the stores outside
    the module before and after it. *)

Section drive.
Context {Y : Type} (hooks : EpochHooks Y) (part : Y → infl_state D X).

Definition same_infl (s s' : infl_state D X) : Prop := ∃ x, s' = with_iext x s.

Record drives_inflation : Prop := {
  drive_after ctx id n y y' :
    AfterEpochEnd hooks ctx id n y = (Ok tt, y') →
    ∃ s s', same_infl (part y) s ∧ same_infl s' (part y') ∧
      infl_AfterEpochEnd (C := C) feeCollectorName ctx id n s = (Ok tt, s');
  drive_before ctx id n y y' :
    BeforeEpochStart hooks ctx id n y = (Ok tt, y') → same_infl (part y) (part y');
}.

Hypothesis driver : drives_inflation.

Lemma same_infl_step n minted s s' : same_infl s s' → rtc infl_step (n, minted, s) (n, minted, s').
Proof. intros [x ->]. apply rtc_once, step_foreign. Qed.

(** One call of [AfterEpochEnd] is a step between changes outside the module. *)
Lemma after_call_steps ctx id k n minted n' minted' y y' :
  AfterEpochEnd hooks ctx id k y = (Ok tt, y') →
  (∀ s s', same_infl (part y) s → infl_AfterEpochEnd (C := C) feeCollectorName ctx id k s = (Ok tt, s') →
           infl_step (n, minted, s) (n', minted', s')) →
  rtc infl_step (n, minted, part y) (n', minted', part y').
Proof.
  intros Hrun Hstep. destruct (drive_after driver _ _ _ _ _ Hrun) as (s & s' & Hs & Hs' & Ha).
  etransitivity; [by apply same_infl_step|]. eapply rtc_l; [by apply Hstep|]. by apply same_infl_step.
Qed.

Lemma other_epoch_steps ctx e n minted y y' :
  Identifier e ≠ DayEpochID →
  foreach (hook_calls ctx e) (run_call hooks ctx) y = (Ok tt, y') →
  rtc infl_step (n, minted, part y) (n, minted, part y').
Proof.
  intros Hid. unfold hook_calls. destruct (starts ctx e); [|destruct (ends ctx e)]; simpl; intros Hrun; inv_ok;
    try done;
    repeat match goal with Ha : _ = (Ok ?u, _) |- _ => is_var u; destruct u end.
  - by eapply same_infl_step, drive_before.
  - etransitivity; [|by eapply same_infl_step, drive_before].
    eapply after_call_steps; [done|]. intros s s' _ Ha. by eapply step_other.
Qed.

Lemma day_epoch_steps ctx e minted y y' :
  Identifier e = DayEpochID → EpochCountingStarted e = true → 0 ≤ CurrentEpoch e < 2^63 - 1 →
  foreach (hook_calls ctx e) (run_call hooks ctx) y = (Ok tt, y') →
  ∃ minted', rtc infl_step (CurrentEpoch e, minted, part y) (CurrentEpoch (epoch_tick ctx e), minted', part y').
Proof.
  intros Hid Hst Hb. unfold hook_calls, epoch_tick.
  assert (starts ctx e = false) as -> by (unfold starts; by rewrite Hst).
  destruct (ends ctx e); simpl; intros Hrun; inv_ok; [|by exists minted].
  repeat match goal with Ha : _ = (Ok ?u, _) |- _ => is_var u; destruct u end.
  match goal with Ha : AfterEpochEnd _ _ _ _ _ = _ |- _ => rewrite Hid in Ha;
    rewrite wrap64_id in Ha |- * by (unfold in_int64; lia); rename Ha into Hafter end.
  exists (minted + if EnableInflation (i_params (part y)) then 1 else 0).
  etransitivity; [|by eapply same_infl_step, drive_before].
  eapply after_call_steps; [exact Hafter|]. intros s s' [x ->] Ha. by apply (step_day _ _ _ _ _ Ha).
Qed.

Lemma all_epochs_steps ctx l n minted y y' :
  NoDup (map Identifier l) →
  (∀ e, e ∈ l → Identifier e = DayEpochID →
        EpochCountingStarted e = true ∧ 0 ≤ CurrentEpoch e < 2^63 - 1 ∧ CurrentEpoch e = n) →
  foreach (flat_map (hook_calls ctx) l) (run_call hooks ctx) y = (Ok tt, y') →
  ∃ n' minted', rtc infl_step (n, minted, part y) (n', minted', part y') ∧
    ((∃ e, e ∈ l ∧ Identifier e = DayEpochID ∧ n' = CurrentEpoch (epoch_tick ctx e)) ∨
     (∀ e, e ∈ l → Identifier e ≠ DayEpochID) ∧ n' = n).
Proof.
  revert n minted y. induction l as [|e l IH]; intros n minted y Hnd Hday Hrun.
  { simpl in Hrun. inv_ok. exists n, minted. split; [done|]. right. set_solver. }
  apply NoDup_cons in Hnd as [Hni Hnd]. simpl in Hrun. rewrite foreach_app in Hrun.
  apply bind_ok in Hrun as ([] & y1 & Hhead & Hrun).
  destruct (decide (Identifier e = DayEpochID)) as [Hid|Hid].
  - destruct (Hday e) as (Hst & Hb & Hn); [set_solver|done|].
    assert (Hrest : ∀ e', e' ∈ l → Identifier e' ≠ DayEpochID).
    { intros e' He' Heq. apply Hni. rewrite Hid, <- Heq.
      by apply list_elem_of_In, in_map, list_elem_of_In. }
    destruct (day_epoch_steps ctx e minted y y1 Hid Hst Hb Hhead) as [m1 H1'].
    destruct (IH (CurrentEpoch (epoch_tick ctx e)) m1 y1 Hnd) as (n' & m' & H2' & Hor);
      [naive_solver|done|].
    exists n', m'. split; [rewrite <- Hn; by etransitivity|]. left. exists e.
    destruct Hor as [(e' & He' & Heq & _)|[_ ->]]; [by destruct (Hrest e' He')|]. set_solver.
  - pose proof (other_epoch_steps ctx e n minted y y1 Hid Hhead) as H1'.
    destruct (IH n minted y1 Hnd) as (n' & m' & H2' & Hor); [set_solver|done|].
    exists n', m'. split; [by etransitivity|].
    destruct Hor as [(e' & ? & ? & ?)|[? ?]]; [left; exists e'; set_solver|right; set_solver].
Qed.

(** A block of the epochs module, whose hooks drive the inflation module, is a
    sequence of steps of the module, in which the day counter of the steps is the
    stored number of the day epoch. *)
Lemma epochs_drive_inflation ctx (s s' : epoch_state Y) e minted :
  (∀ k e, epochs s !! k = Some e → Identifier e = k) →
  GetEpochInfo s DayEpochID = Some e → EpochCountingStarted e = true →
  0 ≤ CurrentEpoch e < 2^63 - 1 →
  BeginBlocker hooks ctx s = (Ok tt, s') →
  ∃ e' minted', GetEpochInfo s' DayEpochID = Some e' ∧
    rtc infl_step (CurrentEpoch e, minted, part (es_ext s)) (CurrentEpoch e', minted', part (es_ext s')).
Proof.
  intros Hkey Hday Hst Hb Hrun.
  assert (Hmem : ∀ e1, e1 ∈ AllEpochInfos s → epochs s !! Identifier e1 = Some e1).
  { intros e1 He1. apply list_elem_of_fmap in He1 as ([k e2] & -> & He2). simpl.
    apply elem_of_kv_iter in He2. by rewrite (Hkey k e2 He2). }
  assert (Hd : e ∈ AllEpochInfos s).
  { apply list_elem_of_fmap. exists (DayEpochID, e). split; [done|]. by apply elem_of_kv_iter. }
  assert (Heq : ∀ e1, e1 ∈ AllEpochInfos s → Identifier e1 = DayEpochID → e1 = e).
  { intros e1 He1 Hid. apply Hmem in He1. unfold GetEpochInfo in Hday. congruence. }
  pose proof (iterate_calls hooks ctx (AllEpochInfos s) s) as Hcalls. cbv zeta in Hcalls.
  change (iterate (AllEpochInfos s) (begin_epoch hooks ctx) s) with (BeginBlocker hooks ctx s) in Hcalls.
  rewrite Hrun in Hcalls. simpl in Hcalls.
  destruct (all_epochs_steps ctx (AllEpochInfos s) (CurrentEpoch e) minted (es_ext s) (es_ext s'))
    as (n' & m' & Hsteps & Hor).
  - unfold AllEpochInfos. apply (NoDup_all_ids s Hkey).
  - intros e1 He1 Hid. rewrite (Heq e1 He1 Hid). done.
  - done.
  - exists (epoch_tick ctx e), m'. split.
    + unfold GetEpochInfo in *. by rewrite (BeginBlocker_ok hooks ctx s s' Hkey Hrun), lookup_fmap, Hday.
    + destruct Hor as [(e1 & He1 & Hid & ->)|[Hno _]]; [|destruct (Hno e Hd); by apply Hkey].
      by rewrite (Heq e1 He1 Hid) in Hsteps.
Qed.
End drive.
End allocation.

Section genesis.
Context {D C X : Type} `{SdkDecLaws D, SdkCoinsLaws C, Ethermint}.
Context `{!AccountKeeper C X, !BankKeeper C X, !DistrKeeper C X, !StakingKeeper X, !StakingLaws X}.
Implicit Types s : infl_state D X.

Lemma bonded_ratio_total ctx s : ∃ b, BondedRatio ctx s = Ok b ∧ 0 ≤ dec_raw b.
Proof.
  unfold BondedRatio. set (tot := StakingTokenSupply (i_ext s)).
  destruct (negb (0 <? tot) || _) eqn:Eg.
  { eexists. split; [done|]. rewrite raw_new. lia. }
  bool_hyps. set (sup := if IsMainnet (ChainID ctx) then tot - teamAlloc else tot).
  assert (Hsup : 0 < sup).
  { subst sup. destruct (IsMainnet (ChainID ctx)); simpl in *; bool_hyps; lia. }
  destruct (raw_quo_int (dec_new (TotalBondedTokens (i_ext s))) sup) as (b & Hb & Hr); [lia|].
  exists b. split; [done|]. rewrite Hr, raw_new. pose proof (bonded_nonneg (i_ext s)).
  pose proof dec_unit_pos. apply Z.quot_pos; nia.
Qed.

(** A validated genesis state is accepted, sets a provision that is not
    negative, and is exported unchanged. *)
Lemma inflation_genesis_roundtrip ctx gs s x1 :
  infl_GenesisState_Validate (C := C) gs = Ok tt → 0 ≤ gs_Period gs → 0 ≤ PowerReduction →
  HasModuleAccount (C := C) inflation_ModuleName (i_ext s) = (Ok true, x1) →
  ∃ s' p, infl_InitGenesis (C := C) ctx gs s = (Ok tt, s') ∧ infl_ExportGenesis s' = gs ∧
    i_provision s' = Some p ∧ 0 ≤ dec_raw p.
Proof.
  intros Hval Hper HPR Hacc. unfold infl_GenesisState_Validate, validateEpochsPerPeriod in Hval.
  inv_ok. bool_hyps.
  match goal with Hp : infl_Params_Validate _ = Ok ?u |- _ =>
    destruct u; destruct (params_validate_ok _ Hp) as [Hok _]; rename Hp into Hpv end.
  unfold infl_InitGenesis, bind, iext, zoom. rewrite Hacc. simpl. unfold infl_SetParams.
  rewrite Hpv. simpl.
  match goal with |- context [BondedRatio ctx ?s1] =>
    destruct (bonded_ratio_total ctx s1) as (b & Hb & Hb0) end.
  unfold lift. rewrite Hb.
  destruct (calculate_provision (gs_Params gs) (gs_Period gs) (gs_EpochsPerPeriod gs) b)
    as (p & Hp & Hp0 & _); auto.
  rewrite Hp. eexists _, p. split; [reflexivity|]. by destruct gs.
Qed.
End genesis.

(** ** Witnesses *)

Section samples.
Local Open Scope string_scope.
Local Open Scope Z_scope.

(** The provision of the default genesis, as the module's tests expect it. *)
Example default_provision :
  CalculateEpochMintProvision (D := Z) infl_DefaultParams 0 365 (dec_new 0) =
  Ok (847602739726027397260274 * dec_unit).
Proof. vm_compute. reflexivity. Qed.

Definition empty_world : world := mkWorld ∅ ∅ ∅ ∅ ∅ no_evm.
Definition day_ctx : Ctx := mkCtx (from_unix 500000) 9 "evmos_9000-4".

(** The state after the default genesis. *)
Definition infl_sample : infl_state Z world :=
  (infl_InitGenesis (C := coins) day_ctx infl_DefaultGenesisState
     (mkInfl infl_DefaultParams None None None None None empty_world)).2.

Lemma sample_accounts : distinct_accounts (C := coins) (X := world) "fee_collector".
Proof.
  unfold distinct_accounts. rewrite !NoDup_cons, !elem_of_cons. simpl.
  repeat split; try (intros Hin; repeat (destruct Hin as [Hin|Hin]; [discriminate|]));
    try (apply not_elem_of_nil in Hin; done); try apply not_elem_of_nil. apply NoDup_nil_2.
Qed.

Lemma sample_params : infl_Params_Validate (C := coins) (i_params infl_sample) = Ok tt.
Proof. vm_compute. reflexivity. Qed.

Lemma epoch_provision_bounds_witness :
  ∃ p : Z, CalculateEpochMintProvision infl_DefaultParams 3 365 (dec_with_prec 40 2) = Ok p ∧ 0 ≤ p.
Proof.
  destruct (epoch_provision_bounds (D := Z) (C := coins) infl_DefaultParams 3 365 (dec_with_prec 40 2))
    as (p & Hp & Hp0 & _); [vm_compute; done..|]. exists p. split; [exact Hp|exact Hp0].
Defined.

Lemma inflation_allocation_witness :
  let s' := (MintAndAllocateInflation (C := coins) "fee_collector" ("aevmos", 1000) infl_sample).2 in
  GetBalance (i_ext s') "module/inflation" "aevmos" = 0 ∧
  GetSupply (i_ext s') "aevmos" = 1000.
Proof.
  cbv zeta.
  destruct (MintAndAllocateInflation (C := coins) "fee_collector" ("aevmos", 1000) infl_sample)
    as [o s'] eqn:Hrun.
  assert (∃ r, o = Ok r) as [r ->].
  { assert (is_ok o = true) as Ho.
    { change o with ((o, s').1). rewrite <- Hrun. vm_compute. reflexivity. }
    destruct o as [r| |]; [by exists r|done|done]. }
  destruct (inflation_allocation "fee_collector" "aevmos" 1000 infl_sample r s' sample_accounts
    sample_params Hrun) as (_ & _ & _ & Hs & Hm & _).
  split; [apply Hm|]. rewrite Hs. vm_compute. reflexivity.
Defined.

Lemma epoch_end_mints_witness :
  let s' := (infl_AfterEpochEnd (C := coins) "fee_collector" day_ctx "day" 366 infl_sample).2 in
  ∃ p0, i_provision infl_sample = Some p0 ∧
    GetSupply (i_ext s') "aevmos" = dec_truncate_int p0 ∧ GetPeriod s' = 1.
Proof.
  cbv zeta.
  destruct (epoch_end_mints (C := coins) "fee_collector" day_ctx 366 infl_sample
    (infl_AfterEpochEnd (C := coins) "fee_collector" day_ctx "day" 366 infl_sample).2)
    as (p0 & Hp & Hs & _ & _ & Hcase); [apply sample_accounts|vm_compute; done..|].
  exists p0. split; [done|]. split; [rewrite Hs; vm_compute; done|].
  vm_compute. reflexivity.
Defined.

Lemma sample_steps :
  rtc (infl_step (C := coins) (X := world) "fee_collector") (1, 0, infl_sample)
    (2, 1, (infl_AfterEpochEnd (C := coins) "fee_collector" day_ctx "day" 2 infl_sample).2).
Proof.
  apply rtc_once. apply (step_day "fee_collector" day_ctx 1 0 infl_sample).
  vm_compute. reflexivity.
Qed.

Lemma periods_count_minted_days_witness :
  GetPeriod (infl_AfterEpochEnd (C := coins) "fee_collector" day_ctx "day" 2 infl_sample).2 = 1 / 365.
Proof.
  destruct (periods_count_minted_days (C := coins) "fee_collector" 365 infl_sample 2 1
    (infl_AfterEpochEnd (C := coins) "fee_collector" day_ctx "day" 2 infl_sample).2) as [Hp _];
    [apply sample_accounts|done|apply sample_params|vm_compute; done..|apply sample_steps|done|].
  exact Hp.
Defined.

Lemma inflation_genesis_roundtrip_witness :
  ∃ s' p, infl_InitGenesis (C := coins) (D := Z) day_ctx infl_DefaultGenesisState infl_sample = (Ok tt, s') ∧
    infl_ExportGenesis s' = infl_DefaultGenesisState ∧ i_provision s' = Some p ∧ 0 ≤ dec_raw p.
Proof.
  apply (inflation_genesis_roundtrip (C := coins) day_ctx infl_DefaultGenesisState infl_sample
    (i_ext infl_sample)); vm_compute; done.
Defined.

(** With the weekly timer as the module's identifier, a week in which inflation
    is disabled counts seven skipped epochs instead of one. *)
Example disabled_week_skips_days :
  let p := mkInflParams "aevmos" (i_ExponentialCalculation infl_DefaultParams)
             (i_InflationDistribution infl_DefaultParams) false in
  let s := mkInfl p (Some 0) (Some 0) (Some WeekEpochID) (Some 52) (Some 0) empty_world in
  let end_of id s := (infl_AfterEpochEnd (D := Z) (C := coins) "fee_collector" day_ctx id 2 s).2 in
  GetSkippedEpochs (end_of WeekEpochID (Nat.iter 7 (end_of DayEpochID) s)) = 7.
Proof. vm_compute. reflexivity. Qed.
End samples.
