(* ===== verification/Ibc.v ===== *)
(** * IBC transfer packets: [ibc/utils.go]

    The packet codec of the transfer module is a parameter; the acknowledgement
    of a packet is a result or an error. *)

From S2P Require Import Prelude Sdk EvmosUtils.

Record Packet := mkPacket {
  SourcePort : string; SourceChannel : string;
  DestinationPort : string; DestinationChannel : string;
  Data : string;
}.

Record FungibleTokenPacketData := mkFTPD {
  pd_Denom : string; pd_Amount : string; pd_Sender : string; pd_Receiver : string;
}.

Inductive Acknowledgement : Type :=
  | AckResult (result : string)
  | AckError (err : error).

Definition ack_success (ack : Acknowledgement) : bool :=
  match ack with AckResult _ => true | AckError _ => false end.

(** [transfertypes.ModuleCdc.UnmarshalJSON] and [sdk.NewIntFromString]. *)
Class IbcCodec := {
  decode_packet : string → option FungibleTokenPacketData;
  decode_ack : string → option Acknowledgement;
  int_from_string : string → option Z;
}.

Section utils.
Context `{Bech32, IbcCodec}.

Definition GetTransferSenderRecipient (packet : Packet)
    : outcome (string * string * string * string) :=
  match decode_packet (Data packet) with
  | None => Err ErrUnknownRequest
  | Some data =>
      let? sender := GetEvmosAddressFromBech32 (pd_Sender data) in
      let? recipient := GetEvmosAddressFromBech32 (pd_Receiver data) in
      Ok (sender, recipient, pd_Sender data, pd_Receiver data)
  end.

Definition GetTransferAmount (packet : Packet) : outcome string :=
  match decode_packet (Data packet) with
  | None => Err ErrUnknownRequest
  | Some data =>
      let? _ := ocheck (String.eqb (pd_Amount data) EmptyString) ErrInvalidCoins in
      match int_from_string (pd_Amount data) with
      | None => Err ErrInvalidCoins
      | Some _ => Ok (pd_Amount data)
      end
  end.
End utils.
