(* ===== verification/IbcInstances.v ===== *)
(** * Concrete codecs for the IBC witnesses

    A packet is its four fields separated by bars, an acknowledgement starts
    with a letter that says whether it is an error, and an address is the
    prefix, the separator and the bytes. *)

From S2P Require Import Prelude Sdk EvmosUtils Ibc.

Fixpoint split_bar (s : string) : list string :=
  match s with
  | EmptyString => [EmptyString]
  | String a s' =>
      if Nat.eqb (code a) 124 then EmptyString :: split_bar s'
      else match split_bar s' with
           | f :: r => String a f :: r
           | [] => [String a EmptyString]
           end
  end.

Fixpoint digits_value (acc : Z) (s : string) : option Z :=
  match s with
  | EmptyString => Some acc
  | String a s' =>
      let n := Z.of_nat (code a) in
      if (48 <=? n) && (n <=? 57) then digits_value (10 * acc + (n - 48)) s' else None
  end.

#[global] Instance bar_codec : IbcCodec := {
  decode_packet s := match split_bar s with
                     | [d; a; f; t] => Some (mkFTPD d a f t) | _ => None end;
  decode_ack s := match s with
                  | String a r => if Nat.eqb (code a) 69 then Some (AckError (ErrExternal r))
                                  else Some (AckResult r)
                  | EmptyString => None end;
  int_from_string s := match s with EmptyString => None | _ => digits_value 0 s end;
}.

#[global] Instance prefix_bech32 : Bech32 := {
  get_from_bech32 address prefix :=
    Some (String.substring (String.length prefix + 1) (String.length address) address);
  verify_address_format a := if String.eqb a EmptyString then Some ErrInvalidAddress else None;
}.
