(* ===== verification/Claims.v ===== *)
(** * The claims module: [x/claims]

    The airdrop: a record per address with an initial amount and four actions;
    a quarter of the amount is claimed by each action, decaying with time, and
    the rest goes to the community pool.  Slices shared between copies of a
    record are written only where the copy is not read afterwards, so records
    are values here. *)

From S2P Require Import Prelude Sdk Dec Keepers EvmosUtils Ibc.

(** ** Actions and records: [types/claims.pb.go], [types/claims_record.go] *)

(** An [Action] is an [int32]; values above the last action are possible.  No
    caller passes a negative one, on which the slice access would panic. *)
Definition Action : Type := Z.
Definition ActionUnspecified : Action := 0.
Definition ActionVote : Action := 1.
Definition ActionDelegate : Action := 2.
Definition ActionEVM : Action := 3.
Definition ActionIBCTransfer : Action := 4.
(** [len(Action_name) - 1], [len(Action_value) - 1] *)
Definition num_actions : nat := 4.

Record ClaimsRecord := mkCR {
  InitialClaimableAmount : Z;
  ActionsCompleted : list bool;
}.

Record ClaimsRecordAddress := mkCRA {
  cra_Address : string;
  cra_InitialClaimableAmount : Z;
  cra_ActionsCompleted : list bool;
}.

#[global] Instance ClaimsRecord_eq_dec : EqDecision ClaimsRecord.
Proof. solve_decision. Defined.

Definition IBCTriggerAmt : string := "63743".

Definition NewClaimsRecord (initialClaimableAmt : Z) : ClaimsRecord :=
  mkCR initialClaimableAmt [false; false; false; false].

Definition ClaimsRecord_Validate (cr : ClaimsRecord) : outcome unit :=
  let? _ := ocheck (negb (0 <? InitialClaimableAmount cr))
                   (ErrMsg "initial claimable amount is not positive") in
  ocheck (Nat.eqb (length (ActionsCompleted cr)) 0
          || negb (Nat.eqb num_actions (length (ActionsCompleted cr))))
         (ErrMsg "action length mismatch").

(** The index [action-1], when the record and the action are valid. *)
Definition action_index (cr : ClaimsRecord) (action : Action) : option nat :=
  if negb (Nat.eqb (length (ActionsCompleted cr)) num_actions) then None
  else if (action =? 0) || (Z.of_nat num_actions <? action) then None
  else Some (Z.to_nat (action - 1)).

Definition MarkClaimed (action : Action) (cr : ClaimsRecord) : ClaimsRecord :=
  match action_index cr action with
  | None => cr
  | Some i => mkCR (InitialClaimableAmount cr) (<[i:=true]> (ActionsCompleted cr))
  end.

Definition HasClaimedAction (cr : ClaimsRecord) (action : Action) : bool :=
  match action_index cr action with
  | None => false
  | Some i => nth i (ActionsCompleted cr) false
  end.

Definition HasClaimedAny (cr : ClaimsRecord) : bool := existsb id (ActionsCompleted cr).

Definition HasClaimedAll (cr : ClaimsRecord) : bool :=
  if Nat.eqb (length (ActionsCompleted cr)) 0 then false else forallb id (ActionsCompleted cr).

Definition ClaimsRecordAddress_Validate `{SdkAddress} (cra : ClaimsRecordAddress) : outcome unit :=
  let? _ := check_bech32 (cra_Address cra) in
  let? _ := ocheck (negb (0 <? cra_InitialClaimableAmount cra))
                   (ErrMsg "initial claimable amount is not positive") in
  ocheck (negb (Nat.eqb num_actions (length (cra_ActionsCompleted cra))))
         (ErrMsg "action length mismatch").

(** ** Parameters: [types/params.go] *)

Record ClaimsParams := mkClaimsParams {
  EnableClaims : bool;
  ClaimsDenom : string;
  AirdropStartTime : Z;
  DurationUntilDecay : Z;
  DurationOfDecay : Z;
  AuthorizedChannels : list string;
  EVMChannels : list string;
}.

Definition DefaultDurationUntilDecay : Z := 2629800 * ns_per_s.
Definition DefaultDurationOfDecay : Z := 2 * DefaultDurationUntilDecay.

Definition claims_DefaultParams : ClaimsParams :=
  mkClaimsParams true "aevmos" zero_time DefaultDurationUntilDecay DefaultDurationOfDecay
    ["channel-0"%string; "channel-3"%string] ["channel-2"%string].

Section params.
Context {C : Type} `{SdkCoins C}.
(** [host.ChannelIdentifierValidator(id) == nil] *)
Variable channel_id_valid : string → bool.

Fixpoint ValidateChannels (channels : list string) : outcome unit :=
  match channels with
  | [] => Ok tt
  | channel :: rest =>
      let? _ := ocheck (negb (channel_id_valid channel)) (ErrExternal "invalid channel identifier") in
      ValidateChannels rest
  end.

Definition validateDuration (v : Z) : outcome unit :=
  ocheck (v <=? 0) (ErrMsg "duration must be positive").

Definition claims_Params_Validate (p : ClaimsParams) : outcome unit :=
  let? _ := ocheck (DurationOfDecay p <=? 0) (ErrMsg "duration of decay must be positive") in
  let? _ := ocheck (DurationUntilDecay p <=? 0) (ErrMsg "duration until decay must be positive") in
  let? _ := ocheck (negb (denom_valid (ClaimsDenom p))) (ErrExternal "invalid denom") in
  let? _ := ValidateChannels (AuthorizedChannels p) in
  ValidateChannels (EVMChannels p).
End params.

Definition DecayStartTime (p : ClaimsParams) : Z := AirdropStartTime p + DurationUntilDecay p.
Definition AirdropEndTime (p : ClaimsParams) : Z :=
  AirdropStartTime p + DurationUntilDecay p + DurationOfDecay p.

Definition IsClaimsActive (p : ClaimsParams) (blockTime : Z) : bool :=
  negb (negb (EnableClaims p) || (blockTime <? AirdropStartTime p) || (AirdropEndTime p <? blockTime)).

Definition IsAuthorizedChannel (p : ClaimsParams) (channel : string) : bool :=
  existsb (String.eqb channel) (AuthorizedChannels p).
Definition IsEVMChannel (p : ClaimsParams) (channel : string) : bool :=
  existsb (String.eqb channel) (EVMChannels p).

(** [t.Sub(u)]: a duration is 64 bits wide and the result saturates. *)
Definition time_sub (t u : Z) : Z := Z.max (- 2^63) (Z.min (2^63 - 1) (t - u)).

(** ** The keeper *)

Definition claims_ModuleName : string := "claims".

Record claims_state (X : Type) := mkClaims {
  c_params : ClaimsParams;
  c_records : gmap string ClaimsRecord;
  c_ext : X;
}.
Arguments mkClaims {X} _ _ _.
Arguments c_params {X} _.
Arguments c_records {X} _.
Arguments c_ext {X} _.

Section keeper.
Context {D C X : Type} `{SdkDec D, SdkCoins C}.
Context `{!AccountKeeper C X, !BankKeeper C X, !DistrKeeper C X}.
Context `{SdkAddress, Bech32, IbcCodec}.
Variable channel_id_valid : string → bool.
Implicit Types s : claims_state X.
Local Abbreviation CM := (M (claims_state X)).

(** *** Store access: [keeper/claims_records.go], [keeper/params.go], [keeper/keeper.go] *)

Definition claims_GetParams s : ClaimsParams := c_params s.
Definition claims_SetParams (params : ClaimsParams) : CM unit := λ s,
  if is_ok (claims_Params_Validate (C := C) channel_id_valid params)
  then (Ok tt, mkClaims params (c_records s) (c_ext s)) else (Panic, s).

Definition GetClaimsRecord s (addr : string) : option ClaimsRecord := c_records s !! addr.
Definition HasClaimsRecord s (addr : string) : bool :=
  match c_records s !! addr with Some _ => true | None => false end.
Definition SetClaimsRecord (addr : string) (claimsRecord : ClaimsRecord) s : claims_state X :=
  mkClaims (c_params s) (<[addr:=claimsRecord]> (c_records s)) (c_ext s).
Definition DeleteClaimsRecord (addr : string) s : claims_state X :=
  mkClaims (c_params s) (delete addr (c_records s)) (c_ext s).
Definition IterateClaimsRecords (handlerFn : string * ClaimsRecord → CM bool) : CM unit :=
  λ s, iterate (kv_iter (c_records s)) handlerFn s.
Definition GetClaimsRecords s : list ClaimsRecordAddress :=
  map (λ acr, mkCRA (acc_string acr.1) (InitialClaimableAmount acr.2) (ActionsCompleted acr.2))
      (kv_iter (c_records s)).

Definition GetModuleAccountAddress : string := module_addr claims_ModuleName.
Definition GetModuleAccountBalances s : C := GetAllBalances (c_ext s) GetModuleAccountAddress.

Definition cext {A} (m : M X A) : CM A :=
  zoom c_ext (λ x s, mkClaims (c_params s) (c_records s) x) m.

(** *** [keeper/claim.go] *)

Definition ClaimableAmountForAction (ctx : Ctx) (claimsRecord : ClaimsRecord) (action : Action)
    (params : ClaimsParams) : outcome (Z * Z) :=
  if InitialClaimableAmount claimsRecord =? 0 then Ok (0, 0) else
  if HasClaimedAction claimsRecord action then Ok (0, 0) else
  let actionsCount := Z.of_nat num_actions in
  let initialClaimablePerAction := Z.quot (InitialClaimableAmount claimsRecord) actionsCount in
  let decayStartTime := DecayStartTime params in
  if negb (decayStartTime <? BlockTime ctx) then Ok (initialClaimablePerAction, 0) else
  let elapsedDecay := time_sub (BlockTime ctx) decayStartTime in
  let? elapsedDecayRatio := dec_quo_int (dec_new elapsedDecay) (DurationOfDecay params) in
  let claimableRatio := dec_sub (dec_new 1) elapsedDecayRatio in
  let claimableCoins :=
    dec_round_int (dec_mul (D := D) (dec_new initialClaimablePerAction) claimableRatio) in
  let remainder := initialClaimablePerAction - claimableCoins in
  Ok (claimableCoins, remainder).

Definition GetClaimableAmountForAction (ctx : Ctx) (claimsRecord : ClaimsRecord) (action : Action)
    (params : ClaimsParams) : outcome (Z * Z) :=
  if negb (IsClaimsActive params (BlockTime ctx)) then Ok (0, 0)
  else ClaimableAmountForAction ctx claimsRecord action params.

Definition ClaimCoinsForAction (ctx : Ctx) (addr : string) (claimsRecord : ClaimsRecord)
    (action : Action) (params : ClaimsParams) : CM Z :=
  if (action =? ActionUnspecified) || (ActionIBCTransfer <? action) then fail ErrInvalidAction else
  if negb (IsClaimsActive params (BlockTime ctx)) then ret 0 else
  if HasClaimedAction claimsRecord action then ret 0 else
  let! (claimableAmount, remainderAmount) :=
    lift (GetClaimableAmountForAction ctx claimsRecord action params) in
  if claimableAmount =? 0 then ret 0 else
  let claimedCoins := coins_lit (ClaimsDenom params) claimableAmount in
  let remainderCoins := coins_lit (ClaimsDenom params) remainderAmount in
  cext (SendCoinsFromModuleToAccount claims_ModuleName addr claimedCoins) ;;;
  (if negb (remainderAmount =? 0)
   then cext (FundCommunityPool remainderCoins GetModuleAccountAddress) else ret tt) ;;;
  let claimsRecord := MarkClaimed action claimsRecord in
  modify (SetClaimsRecord addr claimsRecord) ;;;
  ret claimableAmount.

(** One action of the loop of [MergeClaimsRecords]: the claimed and remaining
    amounts so far and the merged record. *)
Definition merge_action (ctx : Ctx) (sender recipient : ClaimsRecord) (params : ClaimsParams)
    (acc : Z * Z * ClaimsRecord) (action : Action) : outcome (Z * Z * ClaimsRecord) :=
  let '(claimedAmt, remainderAmt, mergedRecord) := acc in
  let? _ := ocheck (HasClaimedAction sender action) ErrNotSupported in
  if HasClaimedAction recipient action then
    let? (amt, remainder) := GetClaimableAmountForAction ctx sender action params in
    Ok (claimedAmt + amt, remainderAmt + remainder, MarkClaimed action mergedRecord)
  else if negb (action =? ActionIBCTransfer) then Ok (claimedAmt, remainderAmt, mergedRecord)
  else
    let? (amtIBCRecipient, remainderRecipient) :=
      GetClaimableAmountForAction ctx recipient action params in
    let? (amtIBCSender, remainderSender) := GetClaimableAmountForAction ctx sender action params in
    Ok (claimedAmt + amtIBCRecipient + amtIBCSender,
        remainderAmt + remainderRecipient + remainderSender, MarkClaimed action mergedRecord).

Fixpoint merge_actions (ctx : Ctx) (sender recipient : ClaimsRecord) (params : ClaimsParams)
    (acc : Z * Z * ClaimsRecord) (actions : list Action) : outcome (Z * Z * ClaimsRecord) :=
  match actions with
  | [] => Ok acc
  | action :: rest =>
      let? acc := merge_action ctx sender recipient params acc action in
      merge_actions ctx sender recipient params acc rest
  end.

Definition all_actions : list Action := [ActionVote; ActionDelegate; ActionEVM; ActionIBCTransfer].

Definition MergeClaimsRecords (ctx : Ctx) (recipient : string)
    (senderClaimsRecord recipientClaimsRecord : ClaimsRecord) (params : ClaimsParams) : CM ClaimsRecord :=
  let totalClaimableAmt :=
    InitialClaimableAmount senderClaimsRecord + InitialClaimableAmount recipientClaimsRecord in
  let mergedRecord := NewClaimsRecord totalClaimableAmt in
  let! (claimedAmt, remainderAmt, mergedRecord) :=
    lift (merge_actions ctx senderClaimsRecord recipientClaimsRecord params (0, 0, mergedRecord)
            all_actions) in
  if claimedAmt =? 0 then ret mergedRecord else
  let claimedCoins := coins_lit (ClaimsDenom params) claimedAmt in
  cext (SendCoinsFromModuleToAccount claims_ModuleName recipient claimedCoins) ;;;
  let remainderCoins := coins_lit (ClaimsDenom params) remainderAmt in
  if coins_is_zero remainderCoins then ret mergedRecord else
  cext (FundCommunityPool remainderCoins GetModuleAccountAddress) ;;;
  ret mergedRecord.

(** *** [keeper/abci.go] *)

Definition ClawbackEscrowedTokens : CM unit :=
  let! balances := gets GetModuleAccountBalances in
  if coins_is_zero balances then ret tt
  else cext (FundCommunityPool balances GetModuleAccountAddress).

(** The callback of the iteration; it always continues. *)
Definition clawback_account (claimsDenom : string) (acr : string * ClaimsRecord) : CM bool :=
  let addr := acr.1 in
  let! acc := gets (λ s, GetAccount (C := C) (c_ext s) addr) in
  match acc with
  | None => ret false
  | Some acc =>
      if acc_is_vesting acc then ret false else
      let! seq := gets (λ s, GetSequence (C := C) (c_ext s) addr) in
      match seq with
      | None => ret false
      | Some seq =>
          if negb (seq =? 0) then ret false else
          let! clawbackCoin := gets (λ s, GetBalance (C := C) (c_ext s) addr claimsDenom) in
          if clawbackCoin =? 0 then
            cext (modify (RemoveAccount acc)) ;;; ret false
          else
            let! r := try (cext (FundCommunityPool (coins_lit claimsDenom clawbackCoin) addr)) in
            ret false
      end
  end.

Definition ClawbackEmptyAccounts (claimsDenom : string) : CM unit :=
  let! addresses := gets (λ s, (kv_iter (c_records s)).*1) in
  IterateClaimsRecords (clawback_account claimsDenom) ;;;
  foreach addresses (λ addr, modify (DeleteClaimsRecord addr)).

Definition EndAirdrop (params : ClaimsParams) : CM unit :=
  ClawbackEscrowedTokens ;;;
  ClawbackEmptyAccounts (ClaimsDenom params) ;;;
  claims_SetParams (mkClaimsParams false (ClaimsDenom params) (AirdropStartTime params)
    (DurationUntilDecay params) (DurationOfDecay params) (AuthorizedChannels params)
    (EVMChannels params)).

Definition EndBlocker (ctx : Ctx) : CM unit :=
  let! params := gets claims_GetParams in
  if negb (EnableClaims params) then ret tt else
  let elapsedAirdropTime := time_sub (BlockTime ctx) (AirdropStartTime params) in
  if elapsedAirdropTime <=? DurationUntilDecay params +i DurationOfDecay params then ret tt
  else must (EndAirdrop params).

(** *** [keeper/hooks.go] *)

(** The three hooks differ in the action; a failed claim is only logged. *)
Definition claim_hook (ctx : Ctx) (addr : string) (action : Action) : CM unit :=
  let! params := gets claims_GetParams in
  let! claimsRecord := gets (λ s, GetClaimsRecord s addr) in
  match claimsRecord with
  | None => ret tt
  | Some claimsRecord =>
      let! r := try (ClaimCoinsForAction ctx addr claimsRecord action params) in ret tt
  end.

Definition AfterProposalVote (ctx : Ctx) (voterAddr : string) : CM unit :=
  claim_hook ctx voterAddr ActionVote.
Definition AfterDelegationModified (ctx : Ctx) (delAddr : string) : CM unit :=
  claim_hook ctx delAddr ActionDelegate.
Definition claims_PostTxProcessing (ctx : Ctx) (from : string) : CM unit :=
  claim_hook ctx from ActionEVM.

(** *** [keeper/ibc_callbacks.go] *)

Definition claims_OnAcknowledgementPacket (ctx : Ctx) (packet : Packet) (acknowledgement : string)
    : CM unit :=
  let! params := gets claims_GetParams in
  if negb (IsClaimsActive params (BlockTime ctx)) then ret tt else
  match decode_ack acknowledgement with
  | None => fail ErrUnknownRequest
  | Some ack =>
      if negb (ack_success ack) then ret tt else
      let! (sender, _, _, _) := lift (GetTransferSenderRecipient packet) in
      let! claimsRecord := gets (λ s, GetClaimsRecord s sender) in
      match claimsRecord with
      | None => ret tt
      | Some claimsRecord =>
          ClaimCoinsForAction ctx sender claimsRecord ActionIBCTransfer params ;;; ret tt
      end
  end.

(** [if err != nil { return channeltypes.NewErrorAcknowledgement(err.Error()) }]
    around a call whose result is not used otherwise. *)
Definition or_error_ack {A} (m : CM A) (k : A → CM Acknowledgement) : CM Acknowledgement :=
  let! r := try m in
  match r with inl a => k a | inr e => ret (AckError e) end.

(** The final switch, on the records of the sender and the recipient. *)
Definition recv_claims (ctx : Ctx) (params : ClaimsParams) (sender recipient : string)
    (senderRecord recipientRecord : option ClaimsRecord)
    (sameAddress fromEVMChain isTriggerAmt : bool) (ack : Acknowledgement) : CM Acknowledgement :=
  match senderRecord, recipientRecord with
  | Some senderClaimsRecord, Some recipientClaimsRecord =>
      if negb sameAddress && isTriggerAmt then
        or_error_ack (MergeClaimsRecords ctx recipient senderClaimsRecord recipientClaimsRecord params)
          (λ merged,
             modify (SetClaimsRecord recipient merged) ;;;
             modify (DeleteClaimsRecord sender) ;;;
             ret ack)
      else if sameAddress && fromEVMChain then
        or_error_ack (ClaimCoinsForAction ctx recipient recipientClaimsRecord ActionIBCTransfer params)
          (λ _, ret ack)
      else ret ack
  | Some senderClaimsRecord, None =>
      if isTriggerAmt then
        or_error_ack (ClaimCoinsForAction ctx recipient senderClaimsRecord ActionIBCTransfer params)
          (λ claimedAmt,
             if claimedAmt =? 0 then ret ack
             else modify (DeleteClaimsRecord sender) ;;; ret ack)
      else ret ack
  | None, Some recipientClaimsRecord =>
      or_error_ack (ClaimCoinsForAction ctx recipient recipientClaimsRecord ActionIBCTransfer params)
        (λ _, ret ack)
  | None, None => ret ack
  end.

Definition claims_OnRecvPacket (ctx : Ctx) (packet : Packet) (ack : Acknowledgement)
    : CM Acknowledgement :=
  let! params := gets claims_GetParams in
  if negb (IsClaimsActive params (BlockTime ctx)) then ret ack else
  match GetTransferSenderRecipient packet with
  | Panic => panic
  | Err e => ret (AckError e)
  | Ok (sender, recipient, senderBech32, recipientBech32) =>
      if BlockedAddr (C := C) (X := X) sender || BlockedAddr (C := C) (X := X) recipient
      then ret (AckError ErrUnauthorized) else
      let! senderRecord := gets (λ s, GetClaimsRecord s sender) in
      if match senderRecord with
         | Some r => HasClaimedAction r ActionIBCTransfer | None => false end
      then ret ack else
      let sameAddress := String.eqb sender recipient in
      let fromEVMChain := IsEVMChannel params (DestinationChannel packet) in
      if sameAddress && negb fromEVMChain then
        match senderRecord with
        | Some r => if negb (HasClaimedAny r) then ret (AckError ErrKeyTypeNotSupported) else ret ack
        | None => ret ack
        end
      else
      if negb (IsAuthorizedChannel params (DestinationChannel packet)) then ret ack else
      let! recipientRecord := gets (λ s, GetClaimsRecord s recipient) in
      match GetTransferAmount packet with
      | Panic => panic
      | Err e => ret (AckError e)
      | Ok amt =>
          recv_claims ctx params sender recipient senderRecord recipientRecord sameAddress
            fromEVMChain (String.eqb amt IBCTriggerAmt) ack
      end
  end.

(** *** [ibc_middleware.go]

    [app_*]: the callbacks of the application below in the stack. *)
Section middleware.
Variable app_OnRecvPacket : Ctx → Packet → CM Acknowledgement.
Variable app_OnAcknowledgementPacket : Ctx → Packet → string → CM unit.

Definition claims_mw_OnRecvPacket (ctx : Ctx) (packet : Packet) : CM Acknowledgement :=
  let! ack := app_OnRecvPacket ctx packet in
  if negb (ack_success ack) then ret ack else claims_OnRecvPacket ctx packet ack.

Definition claims_mw_OnAcknowledgementPacket (ctx : Ctx) (packet : Packet) (acknowledgement : string)
    : CM unit :=
  app_OnAcknowledgementPacket ctx packet acknowledgement ;;;
  claims_OnAcknowledgementPacket ctx packet acknowledgement.
End middleware.

(** *** [keeper/invariants.go]: [true] when the invariant is broken *)

Definition ClaimsInvariant (ctx : Ctx) s : outcome bool :=
  let numActions := dec_new (D := D) 4 in
  let params := claims_GetParams s in
  if negb (IsClaimsActive params (BlockTime ctx)) then Ok false else
  let? expectedUnclaimed :=
    foldl (λ acc acr,
      let? acc := acc in
      let? initialClaimablePerAction :=
        dec_quo (dec_new (InitialClaimableAmount acr.2)) numActions in
      Ok (foldl (λ acc (actionCompleted : bool),
                   if actionCompleted then acc else dec_add acc initialClaimablePerAction)
                acc (ActionsCompleted acr.2)))
      (Ok (dec_new 0)) (kv_iter (c_records s)) in
  let balance := GetBalance (C := C) (c_ext s) GetModuleAccountAddress (ClaimsDenom params) in
  Ok (negb (dec_equal expectedUnclaimed (dec_new balance))).

(** *** Genesis: [types/genesis.go], [genesis.go] *)

Fixpoint validate_claims (seen : gset string) (l : list ClaimsRecordAddress) : outcome unit :=
  match l with
  | [] => Ok tt
  | cra :: rest =>
      let? _ := ocheck (bool_decide (cra_Address cra ∈ seen))
                       (ErrMsg "duplicated claims record entry") in
      let? _ := ClaimsRecordAddress_Validate cra in
      validate_claims ({[ cra_Address cra ]} ∪ seen) rest
  end.

Definition claims_GenesisState_Validate (params : ClaimsParams) (records : list ClaimsRecordAddress)
    : outcome unit :=
  let? _ := validate_claims ∅ records in
  claims_Params_Validate (C := C) channel_id_valid params.

(** What the genesis loop adds to the expected escrow for a record. *)
Definition unclaimed_quarters (cr : ClaimsRecord) : Z :=
  let initialClaimablePerAction := Z.quot (InitialClaimableAmount cr) 4 in
  foldl (λ acc (actionCompleted : bool),
           if actionCompleted then acc else acc + initialClaimablePerAction)
        0 (ActionsCompleted cr).

Fixpoint init_records (records : list ClaimsRecordAddress) (sumUnclaimed : Z) : CM Z :=
  match records with
  | [] => ret sumUnclaimed
  | claimsRecord :: rest =>
      let! addr := lift (must_acc_from_bech32 (cra_Address claimsRecord)) in
      let cr := mkCR (cra_InitialClaimableAmount claimsRecord) (cra_ActionsCompleted claimsRecord) in
      if negb (Nat.eqb (length (ActionsCompleted cr)) num_actions) then panic else
      modify (SetClaimsRecord addr cr) ;;;
      init_records rest (sumUnclaimed + unclaimed_quarters cr)
  end.

Definition claims_InitGenesis (ctx : Ctx) (params : ClaimsParams) (records : list ClaimsRecordAddress)
    : CM unit :=
  let! acc := cext (HasModuleAccount claims_ModuleName) in
  if negb acc then panic else
  let params :=
    mkClaimsParams (EnableClaims params) (ClaimsDenom params)
      (if AirdropStartTime params =? zero_time then BlockTime ctx else AirdropStartTime params)
      (DurationUntilDecay params) (DurationOfDecay params) (AuthorizedChannels params)
      (EVMChannels params) in
  claims_SetParams params ;;;
  let! totalEscrowed := gets (λ s, amount_of (GetModuleAccountBalances s) (ClaimsDenom params)) in
  let! sumUnclaimed := init_records records 0 in
  if negb (sumUnclaimed =? totalEscrowed) then panic else ret tt.

Definition claims_ExportGenesis s : ClaimsParams * list ClaimsRecordAddress :=
  (claims_GetParams s, GetClaimsRecords s).

(** *** [keeper/grpc_query.go] *)

Definition query_TotalUnclaimed s : outcome C := Ok (GetModuleAccountBalances s).

Definition query_claims (ctx : Ctx) (claimsRecord : ClaimsRecord) (params : ClaimsParams)
    (action : Action) : outcome (Action * bool * Z) :=
  let? (claimableAmt, _) := ClaimableAmountForAction ctx claimsRecord action params in
  Ok (action, HasClaimedAction claimsRecord action, claimableAmt).

Definition query_ClaimsRecord (ctx : Ctx) (address : string) s
    : outcome (Z * list (Action * bool * Z)) :=
  match acc_from_bech32 address with
  | None => Err ErrInvalidAddress
  | Some addr =>
      match GetClaimsRecord s addr with
      | None => Err ErrNotFound
      | Some claimsRecord =>
          let params := claims_GetParams s in
          let? c1 := query_claims ctx claimsRecord params ActionVote in
          let? c2 := query_claims ctx claimsRecord params ActionDelegate in
          let? c3 := query_claims ctx claimsRecord params ActionEVM in
          let? c4 := query_claims ctx claimsRecord params ActionIBCTransfer in
          Ok (InitialClaimableAmount claimsRecord, [c1; c2; c3; c4])
      end
  end.
End keeper.
