(* ===== verification/ClaimsProps.v ===== *)
(** * Properties of the claims module

    The claimable amount and its decay, what a claim does, the escrow that
    backs the unclaimed actions, IBC merges and migrations, the end of the
    airdrop and genesis. *)

From S2P Require Import Prelude Sdk Dec SdkInstances Keepers KeeperInstances EvmosUtils Ibc IbcInstances Claims.

(** ** Records *)

(** The share of one action. *)
Definition quarter (cr : ClaimsRecord) : Z := Z.quot (InitialClaimableAmount cr) 4.

Definition record_ok (cr : ClaimsRecord) : Prop :=
  0 < InitialClaimableAmount cr ∧ length (ActionsCompleted cr) = 4%nat.

Definition valid_action (a : Action) : Prop := 1 ≤ a ≤ 4.

Lemma record_validate_ok cr : ClaimsRecord_Validate cr = Ok tt ↔ record_ok cr.
Proof.
  unfold ClaimsRecord_Validate, record_ok. split.
  - intros Hv. inv_ok. bool_hyps. split; [done|].
    match goal with Hl : Nat.eqb num_actions _ = true |- _ => apply Nat.eqb_eq in Hl; by rewrite <- Hl end.
  - intros [Ha Hl]. rewrite Hl. simpl. by apply Z.ltb_lt in Ha as ->.
Qed.

Lemma action_index_ok cr a :
  length (ActionsCompleted cr) = 4%nat → valid_action a →
  action_index cr a = Some (Z.to_nat (a - 1)).
Proof.
  intros Hl [H1 H4]. unfold action_index. rewrite Hl.
  rewrite (proj2 (Z.eqb_neq a 0)), (proj2 (Z.ltb_ge (Z.of_nat num_actions) a)); [done|unfold num_actions; lia..].
Qed.

Lemma quarter_nonneg cr : 0 < InitialClaimableAmount cr → 0 ≤ quarter cr.
Proof. intros. apply Z.quot_pos; lia. Qed.

(** Marking an action and reading another. *)
Lemma has_claimed_mark cr a b :
  length (ActionsCompleted cr) = 4%nat → valid_action a → valid_action b →
  HasClaimedAction (MarkClaimed a cr) b = (a =? b) || HasClaimedAction cr b.
Proof.
  intros Hl Ha Hb. unfold HasClaimedAction, MarkClaimed. rewrite (action_index_ok cr a Hl Ha).
  rewrite (action_index_ok (mkCR _ _) b) by (simpl; by rewrite ?length_insert).
  rewrite (action_index_ok cr b Hl Hb). simpl.
  destruct cr as [amt [|c0 [|c1 [|c2 [|c3 [|? ?]]]]]]; try discriminate Hl. clear Hl. simpl.
  assert (Ea : a = 1 ∨ a = 2 ∨ a = 3 ∨ a = 4) by (destruct Ha; lia).
  assert (Eb : b = 1 ∨ b = 2 ∨ b = 3 ∨ b = 4) by (destruct Hb; lia).
  by destruct Ea as [->|[->|[->| ->]]], Eb as [->|[->|[->| ->]]].
Qed.

Lemma mark_amount a cr : InitialClaimableAmount (MarkClaimed a cr) = InitialClaimableAmount cr.
Proof. unfold MarkClaimed. by destruct (action_index cr a). Qed.

Lemma mark_length a cr : length (ActionsCompleted (MarkClaimed a cr)) = length (ActionsCompleted cr).
Proof. unfold MarkClaimed. destruct (action_index cr a); [|done]. apply length_insert. Qed.

Lemma mark_ok a cr : record_ok cr → record_ok (MarkClaimed a cr).
Proof. unfold record_ok. by rewrite mark_amount, mark_length. Qed.

(** Marking an unclaimed action lowers the unclaimed amount by a quarter. *)
Lemma unclaimed_mark cr a :
  length (ActionsCompleted cr) = 4%nat → valid_action a → HasClaimedAction cr a = false →
  unclaimed_quarters (MarkClaimed a cr) = unclaimed_quarters cr - quarter cr.
Proof.
  intros Hl Ha. unfold HasClaimedAction, MarkClaimed, unclaimed_quarters, quarter.
  rewrite (action_index_ok cr a Hl Ha).
  destruct cr as [amt [|c0 [|c1 [|c2 [|c3 [|? ?]]]]]]; try discriminate Hl. clear Hl. simpl.
  set (q := Z.quot amt 4). clearbody q.
  assert (Ea : a = 1 ∨ a = 2 ∨ a = 3 ∨ a = 4) by (destruct Ha; lia).
  destruct Ea as [->|[->|[->| ->]]]; simpl; intros E;
    destruct c0, c1, c2, c3; simpl in *; try discriminate E; lia.
Qed.

Lemma unclaimed_nonneg cr : record_ok cr → 0 ≤ unclaimed_quarters cr.
Proof.
  intros [Ha Hl]. pose proof (quarter_nonneg cr Ha) as Hq. unfold unclaimed_quarters, quarter in *.
  destruct cr as [amt [|c0 [|c1 [|c2 [|c3 [|? ?]]]]]]; try discriminate Hl.
  simpl in *. destruct c0, c1, c2, c3; lia.
Qed.

Lemma unclaimed_ge_quarter cr a :
  record_ok cr → valid_action a → HasClaimedAction cr a = false →
  quarter cr ≤ unclaimed_quarters cr.
Proof.
  intros Hok Ha Hh. pose proof (unclaimed_nonneg (MarkClaimed a cr) (mark_ok a cr Hok)) as Hn.
  destruct Hok. rewrite unclaimed_mark in Hn; auto. lia.
Qed.

(** ** The claimable amount *)

Section claimable.
Context {D : Type} `{SdkDecLaws D}.

Lemma nearest_mono n m x y u : 0 < u → x < y → nearest n x u → nearest m y u → n ≤ m.
Proof. unfold nearest. intros. nia. Qed.

(** The fraction of the share that is left [e] after the decay started. *)
Definition left_ratio (e d : Z) : Z := dec_unit - Z.quot (e * dec_unit) d.

Lemma left_ratio_bounds e d : 0 ≤ e ≤ d → 0 < d → 0 ≤ left_ratio e d ≤ dec_unit.
Proof.
  intros He Hd. unfold left_ratio. pose proof dec_unit_pos.
  rewrite Z.quot_div_nonneg by nia. split.
  - assert (e * dec_unit / d ≤ dec_unit) by (apply Z.div_le_upper_bound; nia). lia.
  - assert (0 ≤ e * dec_unit / d) by (apply Z.div_pos; nia). lia.
Qed.

(** The claimable amount in decay, as a rounding of the share. *)
Lemma claimable_in_decay ctx cr a p :
  record_ok cr → HasClaimedAction cr a = false → 0 < DurationOfDecay p < 2^63 →
  DecayStartTime p < BlockTime ctx ≤ AirdropEndTime p →
  ∃ w : D, dec_raw w = quarter cr * left_ratio (BlockTime ctx - DecayStartTime p) (DurationOfDecay p) ∧
    ClaimableAmountForAction (D := D) ctx cr a p = Ok (dec_round_int w, quarter cr - dec_round_int w).
Proof.
  intros [Ha _] Hh Hd [Ht1 Ht2]. unfold ClaimableAmountForAction.
  destruct (Z.eqb_spec (InitialClaimableAmount cr) 0); [lia|]. rewrite Hh.
  apply Z.ltb_lt in Ht1 as Hlt. rewrite Hlt. cbn [negb]. cbv zeta.
  assert (Et : time_sub (BlockTime ctx) (DecayStartTime p) = BlockTime ctx - DecayStartTime p).
  { unfold time_sub, AirdropEndTime, DecayStartTime in *. lia. }
  rewrite Et.
  destruct (raw_quo_int (dec_new (BlockTime ctx - DecayStartTime p)) (DurationOfDecay p))
    as (r & Hr & Hraw); [lia|].
  rewrite Hr. cbn [obind]. eexists. split; [|reflexivity].
  rewrite raw_mul_new, raw_sub, Hraw, !raw_new, Z.mul_1_l. done.
Qed.

Lemma claimable_before_decay ctx cr a p :
  record_ok cr → HasClaimedAction cr a = false → BlockTime ctx ≤ DecayStartTime p →
  ClaimableAmountForAction (D := D) ctx cr a p = Ok (quarter cr, 0).
Proof.
  intros [Ha _] Hh Ht. unfold ClaimableAmountForAction.
  destruct (Z.eqb_spec (InitialClaimableAmount cr) 0); [lia|]. rewrite Hh.
  by destruct (Z.ltb_spec (DecayStartTime p) (BlockTime ctx)); [lia|].
Qed.

Lemma claims_active_spec p t :
  IsClaimsActive p t = true ↔ EnableClaims p = true ∧ AirdropStartTime p ≤ t ≤ AirdropEndTime p.
Proof.
  unfold IsClaimsActive. rewrite negb_true_iff, !orb_false_iff, negb_false_iff, !Z.ltb_ge. tauto.
Qed.

(** Share and remainder of an open action while claims are active. *)
Lemma claimable_split ctx cr a p :
  record_ok cr → HasClaimedAction cr a = false → 0 < DurationOfDecay p < 2^63 →
  IsClaimsActive p (BlockTime ctx) = true →
  ∃ c, GetClaimableAmountForAction (D := D) ctx cr a p = Ok (c, quarter cr - c) ∧
       0 ≤ c ≤ quarter cr.
Proof.
  intros Hok Hh Hd Hact. unfold GetClaimableAmountForAction. rewrite Hact. simpl.
  pose proof (quarter_nonneg cr (proj1 Hok)) as Hq. pose proof dec_unit_pos as Hu.
  apply claims_active_spec in Hact as (_ & _ & He).
  destruct (Z.le_gt_cases (BlockTime ctx) (DecayStartTime p)).
  - exists (quarter cr). rewrite claimable_before_decay by done. split; [|lia].
    by rewrite Z.sub_diag.
  - destruct (claimable_in_decay ctx cr a p Hok Hh Hd) as (w & Hw & ->); [lia|].
    eexists. split; [reflexivity|]. pose proof (raw_round w) as Hr. rewrite Hw in Hr.
    destruct (left_ratio_bounds (BlockTime ctx - DecayStartTime p) (DurationOfDecay p));
      [unfold AirdropEndTime, DecayStartTime in *; lia|lia|].
    split; [eapply nearest_nonneg|eapply nearest_le]; try exact Hr; nia.
Qed.

(** The amounts of an open action do not grow with time. *)
Lemma claimable_decay ctx ctx' cr a p c r c' r' :
  record_ok cr → HasClaimedAction cr a = false → 0 < DurationOfDecay p < 2^63 →
  BlockTime ctx ≤ BlockTime ctx' →
  IsClaimsActive p (BlockTime ctx) = true → IsClaimsActive p (BlockTime ctx') = true →
  GetClaimableAmountForAction (D := D) ctx cr a p = Ok (c, r) →
  GetClaimableAmountForAction (D := D) ctx' cr a p = Ok (c', r') → c' ≤ c.
Proof.
  intros Hok Hh Hd Ht Hact Hact' Hc Hc'.
  destruct (claimable_split ctx' cr a p Hok Hh Hd Hact') as (c1 & Hc1 & Hb1).
  rewrite Hc' in Hc1. injection Hc1 as <- _.
  unfold GetClaimableAmountForAction in Hc, Hc'. rewrite Hact in Hc. rewrite Hact' in Hc'. simpl in *.
  apply claims_active_spec in Hact as (_ & _ & He). apply claims_active_spec in Hact' as (_ & _ & He').
  destruct (Z.le_gt_cases (BlockTime ctx) (DecayStartTime p)).
  { rewrite claimable_before_decay in Hc by done. injection Hc as <- _. lia. }
  destruct (claimable_in_decay ctx cr a p Hok Hh Hd) as (w & Hw & Ew); [lia|].
  destruct (claimable_in_decay ctx' cr a p Hok Hh Hd) as (w' & Hw' & Ew'); [lia|].
  rewrite Ew in Hc. rewrite Ew' in Hc'. injection Hc as <- _. injection Hc' as <- _.
  pose proof dec_unit_pos as Hu. pose proof (quarter_nonneg cr (proj1 Hok)).
  assert (Hle : dec_raw w' ≤ dec_raw w).
  { rewrite Hw, Hw'. apply Z.mul_le_mono_nonneg_l; [done|]. unfold left_ratio.
    apply Z.sub_le_mono_l. apply Z.quot_le_mono; nia. }
  destruct (decide (dec_raw w' = dec_raw w)) as [E|]; [by rewrite (raw_inj _ _ E)|].
  eapply (nearest_mono _ _ (dec_raw w') (dec_raw w) dec_unit Hu); [lia|apply raw_round..].
Qed.

(** While claims are active, an open action of a valid record gives its
    owner an amount between zero and a quarter of the initial amount, the rest
    of the quarter being the remainder; the full quarter before the decay
    starts; never more at a later time. *)
Lemma claimable_amount ctx ctx' cr a p :
  ClaimsRecord_Validate cr = Ok tt → HasClaimedAction cr a = false →
  0 < DurationOfDecay p < 2^63 → BlockTime ctx ≤ BlockTime ctx' →
  IsClaimsActive p (BlockTime ctx) = true → IsClaimsActive p (BlockTime ctx') = true →
  ∃ c c', GetClaimableAmountForAction (D := D) ctx cr a p = Ok (c, quarter cr - c) ∧
    GetClaimableAmountForAction (D := D) ctx' cr a p = Ok (c', quarter cr - c') ∧
    0 ≤ c' ≤ c ∧ c ≤ quarter cr ∧ (BlockTime ctx ≤ DecayStartTime p → c = quarter cr).
Proof.
  intros Hok Hh Hd Ht Hact Hact'. apply record_validate_ok in Hok.
  destruct (claimable_split ctx cr a p Hok Hh Hd Hact) as (c & Hc & Hb).
  destruct (claimable_split ctx' cr a p Hok Hh Hd Hact') as (c' & Hc' & Hb').
  exists c, c'. do 2 (split; [done|]).
  pose proof (claimable_decay ctx ctx' cr a p _ _ _ _ Hok Hh Hd Ht Hact Hact' Hc Hc').
  split; [lia|]. split; [lia|]. intros Hbefore. unfold GetClaimableAmountForAction in Hc.
  rewrite Hact in Hc. simpl in Hc. rewrite claimable_before_decay in Hc by done. congruence.
Qed.
End claimable.

(** ** What a claim does *)

Section claims.
Context {D C X : Type} `{SdkDecLaws D, SdkCoinsLaws C}.
Context `{!AccountKeeper C X, !BankKeeper C X, !DistrKeeper C X, !BankLaws C X, !DistrLaws C X}.
Context `{SdkAddress, Bech32, IbcCodec}.
Implicit Types s : claims_state X.

Local Abbreviation escrow := (GetModuleAccountAddress (C := C) (X := X)).

(** [c] coins of the escrow for [addr] and [r] for the community pool. *)
Definition paid (denom addr : string) (c r : Z) (x x' : X) : Prop :=
  ∀ a d, GetBalance x' a d = GetBalance x a d + at_addr a addr (of_denom denom d c)
    + at_addr a distr_addr (of_denom denom d r) - at_addr a escrow (of_denom denom d (c + r)).

Lemma cext_ok {A} (m : M X A) s a s' :
  cext m s = (Ok a, s') →
  m (c_ext s) = (Ok a, c_ext s') ∧ c_params s' = c_params s ∧ c_records s' = c_records s.
Proof. unfold cext. intros Hz. apply zoom_ok in Hz as (x & Hm & ->). done. Qed.

Lemma cext_err {A} (m : M X A) s e s' :
  cext m s = (Err e, s') →
  ∃ x', m (c_ext s) = (Err e, x') ∧ s' = mkClaims (c_params s) (c_records s) x'.
Proof. unfold cext, zoom. destruct (m (c_ext s)) as [o x]. intros E. injection E as -> <-. eauto. Qed.

Lemma send_lit_paid addr denom c x x' :
  SendCoinsFromModuleToAccount claims_ModuleName addr (coins_lit (C := C) denom c) x = (Ok tt, x') →
  paid denom addr c 0 x x'.
Proof.
  intros Hs a d. apply send_mod_acc_ok in Hs. rewrite Hs, amount_lit.
  unfold at_addr, of_denom, GetModuleAccountAddress in *. repeat case_decide; lia.
Qed.

Lemma fund_lit_paid addr denom r x x' :
  FundCommunityPool (coins_lit (C := C) denom r) escrow x = (Ok tt, x') → paid denom addr 0 r x x'.
Proof.
  intros Hs a d. apply fund_ok in Hs. rewrite Hs, amount_lit.
  unfold at_addr, of_denom, GetModuleAccountAddress in *. repeat case_decide; lia.
Qed.

Lemma paid_trans denom addr c r c' r' x x1 x2 :
  paid denom addr c r x x1 → paid denom addr c' r' x1 x2 → paid denom addr (c + c') (r + r') x x2.
Proof.
  intros H1' H2' a d. rewrite H2', H1'. unfold at_addr, of_denom. repeat case_decide; lia.
Qed.

(** A successful claim pays nothing and changes nothing, or pays the claimable
    amount and marks the action. *)
Lemma claim_coins_ok ctx addr cr action params s c s' :
  0 ≤ action →
  ClaimCoinsForAction (D := D) (C := C) ctx addr cr action params s = (Ok c, s') →
  (c = 0 ∧ s' = s) ∨
  (c ≠ 0 ∧ valid_action action ∧ IsClaimsActive params (BlockTime ctx) = true ∧ HasClaimedAction cr action = false ∧
   ∃ r, GetClaimableAmountForAction (D := D) ctx cr action params = Ok (c, r) ∧
     c_params s' = c_params s ∧ c_records s' = <[addr := MarkClaimed action cr]> (c_records s) ∧
     paid (ClaimsDenom params) addr c r (c_ext s) (c_ext s')).
Proof.
  intros Hpos. unfold ClaimCoinsForAction.
  destruct ((action =? ActionUnspecified) || (ActionIBCTransfer <? action)) eqn:Eact; [done|].
  destruct (IsClaimsActive params (BlockTime ctx)); simpl; [|intros; left; by inv_ok].
  destruct (HasClaimedAction cr action); [intros; left; by inv_ok|]. intros Hrun.
  apply bind_ok in Hrun as ([c1 r] & s0 & Hc & Hrun). unfold lift in Hc.
  injection Hc as Hc <-.
  destruct (Z.eqb_spec c1 0) as [->|Hn]; [left; by inv_ok|].
  apply bind_ok in Hrun as ([] & s1 & H1' & Hrun). apply cext_ok in H1' as (Hsend & Hp1 & Hr1).
  apply send_lit_paid in Hsend.
  apply bind_ok in Hrun as ([] & s2 & H2' & Hrun).
  assert (Hpaid : c_params s2 = c_params s ∧ c_records s2 = c_records s ∧
    paid (ClaimsDenom params) addr c1 r (c_ext s) (c_ext s2)).
  { destruct (Z.eqb_spec r 0) as [->|Hr]; simpl in H2'.
    - inv_ok. done.
    - apply cext_ok in H2' as (Hf & Hp2 & Hr2). apply (fund_lit_paid addr) in Hf.
      pose proof (paid_trans _ _ _ _ _ _ _ _ _ Hsend Hf) as Ht. rewrite Z.add_0_r in Ht.
      split; [congruence|]. split; [congruence|]. exact Ht. }
  inv_ok. right. destruct Hpaid as (Hp & Hrec & Hpaid). bool_hyps.
  unfold ActionUnspecified, ActionIBCTransfer in *. split; [done|].
  split; [unfold valid_action; lia|]. do 2 (split; [done|]). exists r. simpl. rewrite Hrec, Hp. done.
Qed.

(** C29: a claim is paid at most once.  A successful claim either changes nothing
    and pays nothing, or pays the claimable amount to the address and the
    remainder of the quarter to the community pool, both from the escrow, and
    stores the record with the action marked; a second claim of the action of
    the stored record pays nothing and changes nothing. *)
Theorem claim_once ctx ctx' addr cr action params params' s c s' :
  0 ≤ action → ClaimsRecord_Validate cr = Ok tt → 0 < DurationOfDecay params < 2^63 →
  ClaimCoinsForAction (D := D) (C := C) ctx addr cr action params s = (Ok c, s') →
  (c = 0 ∧ s' = s) ∨
  (0 < c ≤ quarter cr ∧ c_params s' = c_params s ∧
   c_records s' = <[addr := MarkClaimed action cr]> (c_records s) ∧
   paid (ClaimsDenom params) addr c (quarter cr - c) (c_ext s) (c_ext s') ∧
   ∃ cr', GetClaimsRecord s' addr = Some cr' ∧ HasClaimedAction cr' action = true ∧
     ClaimCoinsForAction (D := D) (C := C) ctx' addr cr' action params' s' = (Ok 0, s')).
Proof.
  intros Hpos Hok Hd Hrun. apply record_validate_ok in Hok.
  apply claim_coins_ok in Hrun as [?|(Hn & Ha & Hact & Hh & r & Hc & Hp & Hrec & Hpaid)];
    [by left|right|done].
  destruct (claimable_split ctx cr action params Hok Hh Hd Hact) as (c1 & Hc1 & Hb).
  rewrite Hc in Hc1. injection Hc1 as <- ->.
  assert (Hm : HasClaimedAction (MarkClaimed action cr) action = true).
  { destruct Hok. rewrite has_claimed_mark by done. by rewrite Z.eqb_refl. }
  split; [lia|]. do 3 (split; [done|]). exists (MarkClaimed action cr).
  unfold GetClaimsRecord. rewrite Hrec, lookup_insert_eq. do 2 (split; [done|]).
  unfold ClaimCoinsForAction. rewrite Hm.
  destruct (_ || _) eqn:Eo.
  { unfold valid_action, ActionUnspecified, ActionIBCTransfer in *.
    apply orb_true_iff in Eo as [Eo|Eo]; [apply Z.eqb_eq in Eo|apply Z.ltb_lt in Eo]; lia. }
  by destruct (IsClaimsActive params' (BlockTime ctx')).
Qed.

(** ** The escrow *)

(** The sum of the quarters of all open actions. *)
Definition escrowed s : Z := map_sum unclaimed_quarters (c_records s).

Record claims_inv s : Prop := {
  ci_records : ∀ k cr, c_records s !! k = Some cr → record_ok cr;
  ci_denom : denom_valid (ClaimsDenom (c_params s)) = true;
  ci_decay : 0 < DurationOfDecay (c_params s) < 2^63;
  ci_escrow : GetBalance (C := C) (c_ext s) escrow (ClaimsDenom (c_params s)) = escrowed s;
}.

(** The escrow covers the quarter of every open action. *)
Lemma escrow_covers s k cr action :
  claims_inv s → c_records s !! k = Some cr → valid_action action →
  HasClaimedAction cr action = false →
  quarter cr ≤ GetBalance (C := C) (c_ext s) escrow (ClaimsDenom (c_params s)).
Proof.
  intros [Hrec _ _ ->] Hk Ha Hh. unfold escrowed. rewrite (map_sum_delete _ _ _ _ Hk).
  pose proof (unclaimed_ge_quarter cr action (Hrec _ _ Hk) Ha Hh).
  assert (0 ≤ map_sum unclaimed_quarters (delete k (c_records s))); [|lia].
  apply map_sum_nonneg. intros k' cr' Hk'. apply lookup_delete_Some in Hk' as [_ Hk'].
  eapply unclaimed_nonneg, Hrec, Hk'.
Qed.

(** With a covered escrow a claim fails only before anything is paid. *)
Lemma claim_coins_err ctx addr k cr action s e s' :
  claims_inv s → c_records s !! k = Some cr → valid_action action → addr ≠ escrow →
  ClaimCoinsForAction (D := D) (C := C) ctx addr cr action (c_params s) s = (Err e, s') → s' = s.
Proof.
  intros Hinv Hk Ha Hne. unfold ClaimCoinsForAction.
  destruct (_ || _); [intros E; by injection E|].
  destruct (IsClaimsActive _ _) eqn:Hact; simpl; [|done].
  destruct (HasClaimedAction cr action) eqn:Hh; [done|].
  destruct (claimable_split (D := D) ctx cr action (c_params s) (ci_records _ Hinv _ _ Hk) Hh
    (ci_decay _ Hinv) Hact) as (c & Hc & Hb).
  pose proof (escrow_covers s k cr action Hinv Hk Ha Hh) as Hcov.
  unfold bind at 1, lift. rewrite Hc. destruct (Z.eqb_spec c 0); [done|].
  unfold bind at 1. destruct (cext (SendCoinsFromModuleToAccount _ _ _) s) as [[[]|e1|] s1] eqn:Es;
    intros Hrun; [|injection Hrun as -> ->|done].
  - apply cext_ok in Es as (Hs & _ & _). apply send_lit_paid in Hs.
    unfold bind at 1 in Hrun. destruct (Z.eqb_spec (quarter cr - c) 0); simpl in Hrun; [done|].
    destruct (fund_total (coins_lit (C := C) (ClaimsDenom (c_params s)) (quarter cr - c))
      claims_ModuleName (c_ext s1)) as [x2 Hf].
    + apply valid_lit; [lia|apply Hinv].
    + intros d. rewrite amount_lit, Hs. pose proof (balance_nonneg (c_ext s) escrow d).
      unfold at_addr, of_denom, GetModuleAccountAddress in *. repeat case_decide; subst; try done; lia.
    + unfold cext, zoom in Hrun. unfold GetModuleAccountAddress in *. by rewrite Hf in Hrun.
  - apply cext_err in Es as (x' & Hs & ->). apply send_mod_acc_lit_err in Hs as ->. by destruct s.
Qed.

Lemma claim_keeps_inv ctx addr cr action s c s' :
  claims_inv s → c_records s !! addr = Some cr → 0 ≤ action → addr ≠ escrow → distr_addr ≠ escrow →
  ClaimCoinsForAction (D := D) (C := C) ctx addr cr action (c_params s) s = (Ok c, s') →
  claims_inv s'.
Proof.
  intros Hinv Hk Hpos Hne Hde Hrun.
  apply claim_coins_ok in Hrun as [[_ ->]|(Hn & Ha & Hact & Hh & r & Hc & Hp & Hrec & Hpaid)]; [done| |done].
  pose proof Hinv as [Hok Hden Hdec Hesc].
  destruct (claimable_split (D := D) ctx cr action (c_params s) (Hok _ _ Hk) Hh Hdec Hact) as (c1 & Hc1 & Hb).
  rewrite Hc in Hc1. injection Hc1 as <- ->.
  constructor; rewrite ?Hp; auto.
  - intros k' cr'. rewrite Hrec, lookup_insert. case_decide; [|apply Hok].
    intros E. injection E as <-. apply mark_ok. eauto.
  - rewrite Hpaid, Hesc. unfold escrowed. rewrite Hrec, (map_sum_insert _ _ _ _ _ Hk).
    rewrite unclaimed_mark by (try done; apply (Hok _ _ Hk)).
    unfold at_addr, of_denom, GetModuleAccountAddress in *. repeat case_decide; try congruence; lia.
Qed.

Lemma claim_hook_keeps_inv ctx addr action s s' :
  claims_inv s → valid_action action → addr ≠ escrow → distr_addr ≠ escrow →
  claim_hook (D := D) (C := C) ctx addr action s = (Ok tt, s') → claims_inv s'.
Proof.
  intros Hinv Ha Hne Hde Hrun. unfold claim_hook, claims_GetParams, GetClaimsRecord in Hrun.
  apply bind_ok in Hrun as (p & s0 & Hg & Hrun). unfold gets in Hg. injection Hg as <- <-.
  apply bind_ok in Hrun as (o & s0 & Hg & Hrun). unfold gets in Hg. injection Hg as <- <-.
  destruct (c_records s !! addr) as [cr|] eqn:Hk; [|by inv_ok].
  apply bind_ok in Hrun as (r & s1 & Ht & Hrun). inv_ok.
  apply try_ok in Ht as [(c & -> & Hc)|(e & -> & He)].
  - eapply claim_keeps_inv; eauto. destruct Ha; lia.
  - by rewrite (claim_coins_err ctx addr addr cr action s e s').
Qed.

(** C28: the vote, delegation and EVM hooks keep the escrow equal to the sum of
    the open quarters of all records, whatever they pay and even when they
    swallow the error of a failed claim. *)
Theorem claim_hooks_keep_escrow ctx addr hook s s' :
  hook ∈ [AfterProposalVote (D := D) (C := C) ctx addr; AfterDelegationModified (D := D) (C := C) ctx addr;
          claims_PostTxProcessing (D := D) (C := C) ctx addr] →
  claims_inv s → addr ≠ escrow → distr_addr ≠ escrow →
  hook s = (Ok tt, s') → claims_inv s'.
Proof.
  intros Hin Hinv Hne Hde Hrun. rewrite !elem_of_cons in Hin.
  destruct Hin as [->|[->|[->|Hin]]]; [..|by apply not_elem_of_nil in Hin];
    (eapply claim_hook_keeps_inv; [exact Hinv| |exact Hne|exact Hde|exact Hrun]);
    unfold valid_action, ActionVote, ActionDelegate, ActionEVM; lia.
Qed.

(** ** IBC transfers *)

(** What a received packet may do to the records of its sender and recipient. *)
Inductive recv_effect (sender recipient : string)
    : gmap string ClaimsRecord → gmap string ClaimsRecord → Prop :=
  | recv_nothing m : recv_effect sender recipient m m
  | recv_claim m r :
      m !! recipient = Some r →
      recv_effect sender recipient m (<[recipient := MarkClaimed ActionIBCTransfer r]> m)
  | recv_migrate m r :
      m !! sender = Some r → m !! recipient = None →
      recv_effect sender recipient m
        (delete sender (<[recipient := MarkClaimed ActionIBCTransfer r]> m))
  | recv_merge m rs rr merged :
      m !! sender = Some rs → m !! recipient = Some rr → sender ≠ recipient →
      InitialClaimableAmount merged = InitialClaimableAmount rs + InitialClaimableAmount rr →
      length (ActionsCompleted merged) = 4%nat →
      (∀ a, valid_action a → HasClaimedAction rs a = false) →
      (∀ a, valid_action a →
            HasClaimedAction merged a = (a =? ActionIBCTransfer) || HasClaimedAction rr a) →
      recv_effect sender recipient m (delete sender (<[recipient := merged]> m)).

(** The amount ever allocated to the records. *)
Definition allocations (m : gmap string ClaimsRecord) : Z := map_sum InitialClaimableAmount m.

Lemma recv_effect_allocations sender recipient m m' :
  recv_effect sender recipient m m' → allocations m' = allocations m.
Proof.
  unfold allocations. destruct 1 as [m|m r Hr|m r Hs Hr|m rs rr merged Hs Hr Hne Ha]; [done|..].
  - rewrite (map_sum_insert _ _ _ _ _ Hr), mark_amount. lia.
  - assert (sender ≠ recipient) by congruence.
    pose proof (map_sum_insert_new InitialClaimableAmount m recipient (MarkClaimed ActionIBCTransfer r) Hr) as Hi.
    rewrite mark_amount in Hi.
    rewrite (map_sum_delete _ (<[recipient:=_]> m) sender r) in Hi by (by rewrite lookup_insert_ne).
    lia.
  - pose proof (map_sum_insert InitialClaimableAmount m recipient merged rr Hr) as Hi.
    rewrite (map_sum_delete _ (<[recipient:=_]> m) sender rs) in Hi by (by rewrite lookup_insert_ne).
    lia.
Qed.

Lemma or_error_ack_ok {A} (m : M (claims_state X) A) k s a s' :
  or_error_ack m k s = (Ok a, s') → ack_success a = true →
  ∃ r s1, m s = (Ok r, s1) ∧ k r s1 = (Ok a, s').
Proof.
  unfold or_error_ack. intros Hrun Hs. apply bind_ok in Hrun as (r & s1 & Ht & Hrun).
  apply try_ok in Ht as [(b & -> & Hm)|(e & -> & Hm)]; [by eauto|]. by inv_ok.
Qed.

(** The marks the merge loop leaves. *)
Definition merge_mark (rr : ClaimsRecord) (m : ClaimsRecord) (a : Action) : ClaimsRecord :=
  if HasClaimedAction rr a || (a =? ActionIBCTransfer) then MarkClaimed a m else m.

Lemma merge_actions_ok ctx rs rr params acc actions c r m :
  merge_actions (D := D) ctx rs rr params acc actions = Ok (c, r, m) →
  m = foldl (merge_mark rr) acc.2 actions ∧ ∀ a, a ∈ actions → HasClaimedAction rs a = false.
Proof.
  revert acc. induction actions as [|a actions IH]; intros [[c0 r0] m0]; simpl.
  { intros E. injection E as -> -> ->. split; [done|]. set_solver. }
  intros Hm. unfold merge_action in Hm. inv_ok. unfold merge_mark at 2.
  destruct (HasClaimedAction rr a); [|destruct (a =? ActionIBCTransfer)]; simpl in *; inv_ok;
    repeat match goal with Hp : (let (_, _) := ?q in _) = Ok _ |- _ => destruct q; inv_ok end;
    match goal with Hr : merge_actions _ _ _ _ _ _ = _ |- _ => apply IH in Hr as [-> Hr] end;
    (split; [done|]); intros b Hb; apply elem_of_cons in Hb as [->|Hb]; auto.
Qed.

Lemma merge_marks_claimed rr total a :
  length (ActionsCompleted rr) = 4%nat → valid_action a →
  HasClaimedAction (foldl (merge_mark rr) (NewClaimsRecord total) all_actions) a =
  (a =? ActionIBCTransfer) || HasClaimedAction rr a.
Proof.
  intros Hl Ha. unfold all_actions, NewClaimsRecord, HasClaimedAction, merge_mark, valid_action in *.
  destruct rr as [amt [|c0 [|c1 [|c2 [|c3 [|? ?]]]]]]; try discriminate Hl. clear Hl.
  assert (Ea : a = 1 ∨ a = 2 ∨ a = 3 ∨ a = 4) by lia.
  destruct Ea as [->|[->|[->| ->]]], c0, c1, c2, c3; reflexivity.
Qed.

Lemma merge_marks_amount rr m l :
  InitialClaimableAmount (foldl (merge_mark rr) m l) = InitialClaimableAmount m ∧
  length (ActionsCompleted (foldl (merge_mark rr) m l)) = length (ActionsCompleted m).
Proof.
  revert m. induction l as [|a l IH]; intros m; simpl; [done|].
  destruct (IH (merge_mark rr m a)) as [-> ->]. unfold merge_mark.
  destruct (_ || _); [by rewrite mark_amount, mark_length|done].
Qed.

Lemma merge_records_ok ctx recipient rs rr params s m s' :
  MergeClaimsRecords (D := D) (C := C) ctx recipient rs rr params s = (Ok m, s') →
  c_params s' = c_params s ∧ c_records s' = c_records s ∧
  m = foldl (merge_mark rr)
        (NewClaimsRecord (InitialClaimableAmount rs + InitialClaimableAmount rr)) all_actions ∧
  ∀ a, a ∈ all_actions → HasClaimedAction rs a = false.
Proof.
  unfold MergeClaimsRecords. intros Hrun.
  apply bind_ok in Hrun as ([[c r] m1] & s0 & Hm & Hrun). apply lift_ok in Hm as [Hm ->].
  apply merge_actions_ok in Hm as [Hm Hall]. simpl in Hm.
  destruct (c =? 0); [by inv_ok|].
  apply bind_ok in Hrun as ([] & s1 & H1' & Hrun). apply cext_ok in H1' as (_ & Hp1 & Hr1).
  destruct (coins_is_zero _); [by inv_ok|].
  apply bind_ok in Hrun as ([] & s2 & H2' & Hrun). apply cext_ok in H2' as (_ & Hp2 & Hr2).
  inv_ok. repeat split; auto; congruence.
Qed.

Lemma recv_claim_effect ctx sender recipient rr s c s' :
  c_records s !! recipient = Some rr →
  ClaimCoinsForAction (D := D) (C := C) ctx recipient rr ActionIBCTransfer (c_params s) s = (Ok c, s') →
  ∀ ack : Acknowledgement, ack = ack ∧ c_params s' = c_params s ∧
  recv_effect sender recipient (c_records s) (c_records s').
Proof.
  intros Hr Hc ack.
  apply claim_coins_ok in Hc as [[_ ->]|(_ & _ & _ & _ & r & _ & Hp & Hrec & _)]; [| |done].
  - do 2 (split; [done|]). constructor.
  - rewrite Hrec. do 2 (split; [done|]). by apply recv_claim.
Qed.

Lemma recv_claims_ok ctx params sender recipient s ack ack' s' fromEVM trigger :
  params = c_params s →
  (∀ k cr, c_records s !! k = Some cr → length (ActionsCompleted cr) = 4%nat) →
  recv_claims (D := D) (C := C) ctx params sender recipient (c_records s !! sender)
    (c_records s !! recipient) (String.eqb sender recipient) fromEVM trigger ack s = (Ok ack', s') →
  ack_success ack' = true →
  ack' = ack ∧ c_params s' = c_params s ∧
  recv_effect sender recipient (c_records s) (c_records s').
Proof.
  intros -> Hlen. unfold recv_claims.
  destruct (c_records s !! sender) as [rs|] eqn:Es, (c_records s !! recipient) as [rr|] eqn:Er.
  - destruct (String.eqb_spec sender recipient) as [Heq|Hne]; simpl.
    + destruct fromEVM; intros Hrun Hs; [|inv_ok; do 2 (split; [done|]); constructor].
      apply or_error_ack_ok in Hrun as (c & s1 & Hc & Hrun); [|done]. inv_ok.
      eapply recv_claim_effect; eauto.
    + destruct trigger; intros Hrun Hs; [|inv_ok; do 2 (split; [done|]); constructor].
      apply or_error_ack_ok in Hrun as (m & s1 & Hm & Hrun); [|done]. inv_ok.
      apply merge_records_ok in Hm as (Hp & Hrec & -> & Hall).
      unfold SetClaimsRecord, DeleteClaimsRecord. cbn [c_params c_records]. rewrite Hp, Hrec.
      do 2 (split; [done|]). eapply recv_merge; eauto.
      * apply merge_marks_amount.
      * apply merge_marks_amount.
      * intros a [? ?]. apply Hall. unfold all_actions, ActionVote, ActionDelegate, ActionEVM, ActionIBCTransfer.
        assert (a = 1 ∨ a = 2 ∨ a = 3 ∨ a = 4) by lia. set_solver.
      * intros a Ha. by apply merge_marks_claimed; [eapply Hlen|].
  - destruct trigger; intros Hrun Hs; [|inv_ok; do 2 (split; [done|]); constructor].
    apply or_error_ack_ok in Hrun as (c & s1 & Hc & Hrun); [|done].
    apply claim_coins_ok in Hc as [[-> ->]|(Hn & _ & _ & _ & r & _ & Hp & Hrec & _)];
      [simpl in Hrun; inv_ok; do 2 (split; [done|]); constructor| |done].
    destruct (Z.eqb_spec c 0); [done|]. inv_ok. simpl. rewrite Hrec.
    do 2 (split; [done|]). by apply recv_migrate.
  - intros Hrun Hs. apply or_error_ack_ok in Hrun as (c & s1 & Hc & Hrun); [|done]. inv_ok.
    eapply recv_claim_effect; eauto.
  - intros Hrun Hs. inv_ok. do 2 (split; [done|]). constructor.
Qed.

(** C35: a packet that is acknowledged with success leaves the acknowledgement of
    the transfer unchanged and touches the records only in one of four ways:
    not at all; the recipient claims the IBC action; the sender's record moves
    to the recipient; or the two records are merged into the recipient's,
    with the sum of the amounts and the recipient's actions and the IBC action
    marked.  The total allocation of the airdrop is the same afterwards. *)
Theorem recv_packet_conserves ctx packet ack s ack' s' :
  (∀ k cr, c_records s !! k = Some cr → ClaimsRecord_Validate cr = Ok tt) →
  claims_OnRecvPacket (D := D) (C := C) ctx packet ack s = (Ok ack', s') →
  ack_success ack' = true →
  ack' = ack ∧ c_params s' = c_params s ∧ allocations (c_records s') = allocations (c_records s) ∧
  (s' = s ∨ IsClaimsActive (c_params s) (BlockTime ctx) = true ∧
   ∃ sender recipient b1 b2, GetTransferSenderRecipient packet = Ok (sender, recipient, b1, b2) ∧
     IsAuthorizedChannel (c_params s) (DestinationChannel packet) = true ∧
     BlockedAddr (C := C) (X := X) recipient = false ∧
     recv_effect sender recipient (c_records s) (c_records s')).
Proof.
  intros Hval Hrun Hs. unfold claims_OnRecvPacket, claims_GetParams, GetClaimsRecord in Hrun.
  apply bind_ok in Hrun as (p & s0 & Hg & Hrun). unfold gets in Hg. injection Hg as <- <-.
  destruct (IsClaimsActive (c_params s) (BlockTime ctx)); simpl in Hrun; [|inv_ok; eauto 10].
  destruct (GetTransferSenderRecipient packet) as [[[[sender recipient] b1] b2]|e|];
    [|inv_ok; done|done].
  destruct (BlockedAddr sender); simpl in Hrun; [inv_ok; done|].
  destruct (BlockedAddr recipient) eqn:Eb; simpl in Hrun; [inv_ok; done|].
  apply bind_ok in Hrun as (o & s0 & Hg & Hrun). unfold gets in Hg. injection Hg as <- <-.
  destruct (match c_records s !! sender with Some _ => _ | None => _ end); [inv_ok; eauto 10|].
  destruct (String.eqb sender recipient && negb (IsEVMChannel _ _)).
  { destruct (c_records s !! sender) as [r|]; [destruct (negb (HasClaimedAny r))|]; inv_ok; eauto 10; done. }
  destruct (IsAuthorizedChannel _ _) eqn:Eauth; simpl in Hrun; [|inv_ok; eauto 10].
  apply bind_ok in Hrun as (o & s0 & Hg & Hrun). unfold gets in Hg. injection Hg as <- <-.
  destruct (GetTransferAmount packet) as [amt|e|]; [|inv_ok; done|done].
  apply recv_claims_ok in Hrun as (-> & Hp & Heff); [|done| |done].
  - split; [done|]. split; [done|]. split; [by eapply recv_effect_allocations|]. right. eauto 10.
  - intros k cr Hk. apply record_validate_ok, (Hval k cr Hk).
Qed.

(** ** The end of the airdrop *)

(** An account that never sent a transaction and is not a vesting account. *)
Definition inactive (x : X) (a : string) : bool :=
  match GetAccount (C := C) x a, GetSequence (C := C) x a with
  | Some acc, Some seq => negb (acc_is_vesting acc) && (seq =? 0)
  | _, _ => false
  end.

(** From [x] to [x'], [a] keeps its balances, or its balance of [denom] is gone. *)
Definition kept_or_swept (denom a : string) (x x' : X) : Prop :=
  (∀ d, GetBalance (C := C) x' a d = GetBalance (C := C) x a d) ∨
  GetBalance (C := C) x' a denom = 0 ∧
  ∀ d, d ≠ denom → GetBalance (C := C) x' a d = GetBalance (C := C) x a d.

Lemma fund_all_sweeps denom addr (x x' : X) :
  FundCommunityPool (coins_lit (C := C) denom (GetBalance (C := C) x addr denom)) addr x = (Ok tt, x') →
  ∀ a, a ≠ distr_addr →
  (a ≠ addr → ∀ d, GetBalance (C := C) x' a d = GetBalance (C := C) x a d) ∧
  kept_or_swept denom a x x'.
Proof.
  intros Hf a Ha. apply fund_ok in Hf. split.
  - intros Hne d. by eapply transferred_other.
  - destruct (decide (a = addr)) as [->|Hne].
    + right. split.
      * rewrite (transferred_from _ _ _ _ _ _ Hf Ha), amount_lit, decide_True by done. lia.
      * intros d Hd. rewrite (transferred_from _ _ _ _ _ _ Hf Ha), amount_lit, decide_False by done. lia.
    + left. intros d. by eapply transferred_other.
Qed.

(** One account of the clawback. *)
Record clawed (denom addr : string) s s' : Prop := {
  cl_params : c_params s' = c_params s;
  cl_records : c_records s' = c_records s;
  cl_spared a : a ≠ distr_addr → a ≠ addr ∨ inactive (c_ext s) addr = false →
    ∀ d, GetBalance (C := C) (c_ext s') a d = GetBalance (C := C) (c_ext s) a d;
  cl_swept a : a ≠ distr_addr → kept_or_swept denom a (c_ext s) (c_ext s');
  cl_inactive a : a ≠ distr_addr → a ≠ addr → inactive (c_ext s') a = inactive (c_ext s) a;
}.

Lemma clawed_same denom addr s : clawed denom addr s s.
Proof. constructor; try done. intros a _. by left. Qed.

Lemma clawback_account_ok denom addr cr s b s' :
  clawback_account (C := C) denom (addr, cr) s = (Ok b, s') → b = false ∧ clawed denom addr s s'.
Proof.
  unfold clawback_account. simpl. intros Hrun.
  apply bind_ok in Hrun as (o & s0 & Hg & Hrun). unfold gets in Hg. injection Hg as <- <-.
  destruct (GetAccount (c_ext s) addr) as [acc|] eqn:Eacc; [|inv_ok; split; [done|apply clawed_same]].
  destruct (acc_is_vesting acc) eqn:Ev; [inv_ok; split; [done|apply clawed_same]|].
  apply bind_ok in Hrun as (o & s0 & Hg & Hrun). unfold gets in Hg. injection Hg as <- <-.
  destruct (GetSequence (c_ext s) addr) as [seq|] eqn:Eseq; [|inv_ok; split; [done|apply clawed_same]].
  destruct (Z.eqb_spec seq 0) as [->|]; simpl in Hrun; [|inv_ok; split; [done|apply clawed_same]].
  assert (Hina : inactive (c_ext s) addr = true) by (unfold inactive; by rewrite Eacc, Eseq, Ev).
  apply bind_ok in Hrun as (bal & s0 & Hg & Hrun). unfold gets in Hg. injection Hg as <- <-.
  destruct (Z.eqb_spec (GetBalance (c_ext s) addr denom) 0) as [Hz|Hnz].
  - unfold cext, zoom, bind, modify, ret in Hrun. simpl in Hrun. injection Hrun as <- <-.
    split; [done|]. pose proof (get_account_addr _ _ _ Eacc) as Hadr.
    constructor; simpl; auto.
    + intros. apply balance_remove_account.
    + intros a _. left. intros. apply balance_remove_account.
    + intros a _ Hne. unfold inactive. rewrite <- Hadr in Hne.
      by destruct (remove_account_other acc (c_ext s) a Hne) as [-> ->].
  - apply bind_ok in Hrun as (r & s1 & Ht & Hrun). inv_ok. split; [done|].
    apply try_ok in Ht as [([] & -> & Hf)|(e & -> & Hf)].
    + apply cext_ok in Hf as (Hf & Hp & Hr). pose proof (fund_all_sweeps denom addr _ _ Hf) as Hsw.
      constructor; auto.
      * intros a Ha [Hne|Hn]; [by apply Hsw|congruence].
      * intros a Ha. by apply Hsw.
      * intros a Ha _. unfold inactive. by destruct (fund_account _ _ _ _ _ a Hf Ha) as [-> ->].
    + apply cext_err in Hf as (x' & Hf & ->). apply fund_lit_err in Hf as ->.
      destruct s. apply clawed_same.
Qed.

Lemma kept_or_swept_trans denom a x x1 x2 :
  kept_or_swept denom a x x1 → kept_or_swept denom a x1 x2 → kept_or_swept denom a x x2.
Proof.
  intros [H1'|[H1' H1'']] [H2'|[H2' H2'']].
  - left. intros d. by rewrite H2', H1'.
  - right. split; [done|]. intros d Hd. by rewrite H2'', H1' by done.
  - right. split; [by rewrite H2'|]. intros d Hd. by rewrite H2', H1'' by done.
  - right. split; [done|]. intros d Hd. by rewrite H2'', H1'' by done.
Qed.

Lemma clawback_iter_ok denom l s s' :
  NoDup l.*1 → iterate l (clawback_account (C := C) denom) s = (Ok tt, s') →
  c_params s' = c_params s ∧ c_records s' = c_records s ∧
  ∀ a, a ≠ distr_addr → kept_or_swept denom a (c_ext s) (c_ext s') ∧
    (a ∉ l.*1 ∨ inactive (c_ext s) a = false →
     ∀ d, GetBalance (C := C) (c_ext s') a d = GetBalance (C := C) (c_ext s) a d).
Proof.
  revert s. induction l as [|[addr cr] l IH]; intros s Hnd Hrun.
  { simpl in Hrun. inv_ok. repeat split; auto. by left. }
  csimpl in *. apply NoDup_cons in Hnd as [Hni Hnd].
  apply bind_ok in Hrun as (b & s1 & Hc & Hrun). apply clawback_account_ok in Hc as [-> []].
  destruct (IH s1 Hnd Hrun) as (Hp & Hr & Hbal).
  split; [congruence|]. split; [congruence|]. intros a Ha.
  destruct (Hbal a Ha) as [Hks Hsp]. split; [eapply kept_or_swept_trans; eauto|].
  intros Hcond d. rewrite not_elem_of_cons in Hcond.
  destruct (decide (a = addr)) as [->|Hne].
  - destruct Hcond as [[? _]|Hin]; [done|]. rewrite Hsp by (by left). by apply cl_spared0; [|right].
  - rewrite Hsp by (rewrite (cl_inactive0 a Ha Hne); tauto). by apply cl_spared0; [|left].
Qed.

Lemma delete_all_records l s s' :
  foreach l (λ addr, modify (DeleteClaimsRecord addr)) s = (Ok tt, s') →
  c_params s' = c_params s ∧ c_ext s' = c_ext s ∧
  ∀ k, c_records s' !! k = if decide (k ∈ l) then None else c_records s !! k.
Proof.
  revert s. induction l as [|k0 l IH]; intros s Hrun; simpl in Hrun.
  { inv_ok. repeat split; auto. }
  apply bind_ok in Hrun as ([] & s1 & H1' & Hrun). unfold modify in H1'. injection H1' as <-.
  destruct (IH _ Hrun) as (-> & -> & Hk). do 2 (split; [done|]). intros k. rewrite Hk. simpl.
  rewrite lookup_delete. repeat case_decide; try done; set_solver.
Qed.

Lemma clawback_escrow_ok s s' :
  distr_addr ≠ escrow → ClawbackEscrowedTokens (C := C) s = (Ok tt, s') →
  c_params s' = c_params s ∧ c_records s' = c_records s ∧
  (∀ d, GetBalance (C := C) (c_ext s') escrow d = 0) ∧
  ∀ a, a ≠ distr_addr → a ≠ escrow →
    (∀ d, GetBalance (C := C) (c_ext s') a d = GetBalance (C := C) (c_ext s) a d) ∧
    inactive (c_ext s') a = inactive (c_ext s) a.
Proof.
  intros Hde Hrun. unfold ClawbackEscrowedTokens, GetModuleAccountBalances in Hrun.
  apply bind_ok in Hrun as (bal & s0 & Hg & Hrun). unfold gets in Hg. injection Hg as <- <-.
  destruct (coins_is_zero _) eqn:Ez.
  - inv_ok. do 2 (split; [done|]). split; [|done]. intros d. rewrite <- all_balances_spec.
    by apply is_zero_spec; [apply all_balances_valid|].
  - apply cext_ok in Hrun as (Hf & Hp & Hr). do 2 (split; [done|]).
    pose proof (fund_ok _ _ _ _ Hf) as Ht. split.
    + intros d. rewrite (transferred_from _ _ _ _ _ _ Ht) by done. rewrite all_balances_spec. lia.
    + intros a Ha Hae. split; [intros d; by eapply transferred_other|].
      unfold inactive. by destruct (fund_account _ _ _ _ _ a Hf Ha) as [-> ->].
Qed.

Lemma end_airdrop_ok chan_ok s s' :
  distr_addr ≠ escrow → EndAirdrop (C := C) chan_ok (c_params s) s = (Ok tt, s') →
  c_records s' = ∅ ∧ EnableClaims (c_params s') = false ∧
  (∀ d, GetBalance (C := C) (c_ext s') escrow d = 0) ∧
  ∀ a, a ≠ distr_addr → a ≠ escrow →
    kept_or_swept (ClaimsDenom (c_params s)) a (c_ext s) (c_ext s') ∧
    (c_records s !! a = None ∨ inactive (c_ext s) a = false →
     ∀ d, GetBalance (C := C) (c_ext s') a d = GetBalance (C := C) (c_ext s) a d).
Proof.
  intros Hde Hrun. unfold EndAirdrop, ClawbackEmptyAccounts, IterateClaimsRecords in Hrun.
  apply bind_ok in Hrun as ([] & s1 & Hesc & Hrun).
  apply clawback_escrow_ok in Hesc as (Hp1 & Hr1 & Hz1 & Hb1); [|done].
  apply bind_ok in Hrun as ([] & s2 & Hcl & Hset).
  apply bind_ok in Hcl as (l & s0 & Hg & Hcl). unfold gets in Hg. injection Hg as <- <-.
  apply bind_ok in Hcl as ([] & s3 & Hit & Hdel).
  apply clawback_iter_ok in Hit as (Hp3 & Hr3 & Hb3); [|apply NoDup_kv_iter].
  apply delete_all_records in Hdel as (Hp2 & Hx2 & Hk2).
  unfold claims_SetParams in Hset. destruct (is_ok _); [|done]. injection Hset as <-. simpl.
  rewrite Hx2. split; [|split; [done|split]].
  - apply map_eq. intros k. rewrite Hk2, Hr3, lookup_empty. case_decide as Hd; [done|].
    destruct (c_records s1 !! k) as [cr|] eqn:Ek; [|done].
    exfalso. apply Hd, list_elem_of_fmap. exists (k, cr). split; [done|]. by apply elem_of_kv_iter.
  - intros d. destruct (Hb3 escrow) as [[Hsame|[Hz Hother]] _]; [done|by rewrite Hsame|].
    destruct (decide (d = ClaimsDenom (c_params s))) as [->|]; [done|]. by rewrite Hother.
  - intros a Ha Hae. destruct (Hb3 a Ha) as [Hks Hsp]. destruct (Hb1 a Ha Hae) as [Hsame Hina]. split.
    + eapply kept_or_swept_trans; [left; exact Hsame|exact Hks].
    + intros Hcond d. rewrite Hsp; [apply Hsame|]. rewrite Hina.
      destruct Hcond as [Hn|]; [left|by right]. intros Hin.
      apply list_elem_of_fmap in Hin as ([k cr] & -> & Hin). apply elem_of_kv_iter in Hin.
      simpl in *. congruence.
Qed.

(** C36: the end blocker does nothing until claims are enabled and the block time
    is after the end of the airdrop.  Then it empties the escrow into the
    community pool, removes every record and disables claims; accounts without
    a record, vesting accounts and accounts that have sent a transaction keep
    their coins, and any other account loses at most its claims coins. *)
Theorem end_blocker_ends_airdrop chan_ok ctx s s' :
  distr_addr ≠ escrow → 0 ≤ DurationUntilDecay (c_params s) → 0 ≤ DurationOfDecay (c_params s) →
  DurationUntilDecay (c_params s) + DurationOfDecay (c_params s) < 2^63 - 1 →
  EndBlocker (C := C) chan_ok ctx s = (Ok tt, s') →
  if EnableClaims (c_params s) && (AirdropEndTime (c_params s) <? BlockTime ctx) then
    c_records s' = ∅ ∧ EnableClaims (c_params s') = false ∧
    (∀ d, GetBalance (C := C) (c_ext s') escrow d = 0) ∧
    ∀ a, a ≠ distr_addr → a ≠ escrow →
      kept_or_swept (ClaimsDenom (c_params s)) a (c_ext s) (c_ext s') ∧
      (c_records s !! a = None ∨ inactive (c_ext s) a = false →
       ∀ d, GetBalance (C := C) (c_ext s') a d = GetBalance (C := C) (c_ext s) a d)
  else s' = s.
Proof.
  intros Hde H1' H2' Hb Hrun. unfold EndBlocker, claims_GetParams in Hrun.
  apply bind_ok in Hrun as (p & s0 & Hg & Hrun). unfold gets in Hg. injection Hg as <- <-.
  destruct (EnableClaims (c_params s)); simpl in Hrun |- *; [|by inv_ok].
  rewrite wrap64_id in Hrun by (unfold in_int64; lia). unfold AirdropEndTime, time_sub in *.
  destruct (Z.leb_spec (Z.max (- 2^63) (Z.min (2^63 - 1) (BlockTime ctx - AirdropStartTime (c_params s))))
    (DurationUntilDecay (c_params s) + DurationOfDecay (c_params s))).
  - inv_ok. destruct (Z.ltb_spec (AirdropStartTime (c_params s') + DurationUntilDecay (c_params s') +
      DurationOfDecay (c_params s')) (BlockTime ctx)); [lia|done].
  - destruct (Z.ltb_spec (AirdropStartTime (c_params s) + DurationUntilDecay (c_params s) +
      DurationOfDecay (c_params s)) (BlockTime ctx)); [|lia].
    apply must_ok in Hrun. by eapply end_airdrop_ok.
Qed.

(** ** Genesis *)

Lemma validate_claims_pos seen l :
  validate_claims seen l = Ok tt → ∀ r, r ∈ l → 0 < cra_InitialClaimableAmount r.
Proof.
  revert seen. induction l as [|r0 l IH]; intros seen Hv r Hr; [set_solver|]. simpl in Hv.
  unfold ClaimsRecordAddress_Validate in Hv. inv_ok. bool_hyps.
  apply elem_of_cons in Hr as [->|Hr]; [done|]. eauto.
Qed.

Lemma init_records_ok l sum s t s' :
  init_records l sum s = (Ok t, s') → NoDup (map (λ r, acc_from_bech32 (cra_Address r)) l) →
  (∀ r a, r ∈ l → acc_from_bech32 (cra_Address r) = Some a → c_records s !! a = None) →
  (∀ r, r ∈ l → 0 < cra_InitialClaimableAmount r) →
  (∀ k cr, c_records s !! k = Some cr → record_ok cr) →
  c_params s' = c_params s ∧ c_ext s' = c_ext s ∧
  t - sum = escrowed s' - escrowed s ∧ (∀ k cr, c_records s' !! k = Some cr → record_ok cr).
Proof.
  revert sum s. induction l as [|r l IH]; intros sum s Hrun Hnd Hfresh Hpos Hrec; simpl in Hrun.
  { inv_ok. do 2 (split; [done|]). split; [lia|done]. }
  apply NoDup_cons in Hnd as [Hni Hnd].
  apply bind_ok in Hrun as (a & s0 & Ha & Hrun). apply lift_ok in Ha as [Ha ->].
  unfold must_acc_from_bech32 in Ha. destruct (acc_from_bech32 (cra_Address r)) as [a0|] eqn:Ea; [|done].
  injection Ha as ->. destruct (Nat.eqb_spec (length (cra_ActionsCompleted r)) num_actions); simpl in Hrun; [|done].
  apply bind_ok in Hrun as ([] & s1 & H1' & Hrun). unfold modify in H1'. injection H1' as <-.
  assert (Hnew : c_records s !! a = None) by (eapply (Hfresh r); [set_solver|done]).
  apply IH in Hrun as (Hp & Hx & Ht & Hok); [|done|..].
  - split; [exact Hp|]. split; [exact Hx|]. split; [|exact Hok].
    unfold escrowed in *. simpl in *. rewrite map_sum_insert_new in Ht by done. lia.
  - intros r' b Hr' Hb. simpl. rewrite lookup_insert_ne; [eapply (Hfresh r'); [set_solver|done]|].
    intros ->. apply Hni. rewrite <- Hb. apply list_elem_of_In.
    exact (in_map (λ r, acc_from_bech32 (cra_Address r)) l r' (proj1 (list_elem_of_In _ _) Hr')).
  - intros r' Hr'. apply Hpos. set_solver.
  - intros k cr. simpl. rewrite lookup_insert. case_decide; [|apply Hrec].
    intros E. injection E as <-. split; simpl; [apply Hpos; set_solver|done].
Qed.

Lemma init_genesis_ok chan_ok ctx params l s s' :
  claims_InitGenesis (C := C) chan_ok ctx params l s = (Ok tt, s') →
  NoDup (map (λ r, acc_from_bech32 (cra_Address r)) l) → c_records s = ∅ →
  (∀ r, r ∈ l → 0 < cra_InitialClaimableAmount r) → DurationOfDecay params < 2^63 →
  claims_inv s'.
Proof.
  intros Hrun Hnd Hempty Hpos Hdec. unfold claims_InitGenesis in Hrun.
  apply bind_ok in Hrun as (b & s1 & Hm & Hrun). apply cext_ok in Hm as (Hm & Hp1 & Hr1).
  destruct b; simpl in Hrun; [|done].
  apply bind_ok in Hrun as ([] & s2 & Hset & Hrun). unfold claims_SetParams in Hset.
  destruct (claims_Params_Validate chan_ok _) as [[]| |] eqn:Hv; simpl in Hset; [|done|done].
  injection Hset as <-.
  apply bind_ok in Hrun as (tot & s0 & Hg & Hrun). unfold gets in Hg. injection Hg as <- <-.
  apply bind_ok in Hrun as (sum & s3 & Hin & Hrun).
  apply init_records_ok in Hin as (Hp3 & Hx3 & Hsum & Hok); [|done|..].
  - match type of Hrun with context [sum =? ?t] =>
      destruct (Z.eqb_spec sum t) as [E|]; simpl in Hrun; [|done] end. inv_ok.
    unfold claims_Params_Validate in Hv. inv_ok. bool_hyps. simpl in *.
    constructor; rewrite ?Hp3; simpl; auto.
    rewrite Hx3, <- all_balances_spec. unfold GetModuleAccountBalances in *. simpl in *.
    unfold escrowed in *. simpl in *. rewrite Hr1, Hempty, map_sum_empty in Hsum. lia.
  - simpl. intros r a _ _. by rewrite Hr1, Hempty, lookup_empty.
  - done.
  - simpl. intros k cr. by rewrite Hr1, Hempty, lookup_empty.
Qed.

(** A genesis of positive amounts for distinct addresses that initialises the
    module establishes the escrow invariant: the escrow holds exactly the
    truncated quarters of the open actions. *)
Lemma genesis_establishes_escrow chan_ok ctx params l s s' :
  claims_GenesisState_Validate (C := C) chan_ok params l = Ok tt →
  NoDup (map (λ r, acc_from_bech32 (cra_Address r)) l) → c_records s = ∅ →
  DurationOfDecay params < 2^63 →
  claims_InitGenesis (C := C) chan_ok ctx params l s = (Ok tt, s') →
  claims_inv s'.
Proof.
  intros Hv Hnd Hempty Hdec Hrun. eapply init_genesis_ok; eauto.
  unfold claims_GenesisState_Validate in Hv. inv_ok.
  match goal with Hg : validate_claims _ _ = Ok ?u |- _ => destruct u; eapply validate_claims_pos, Hg end.
Qed.
End claims.

(** ** Witnesses *)

Section samples.
Local Open Scope string_scope.
Local Open Scope Z_scope.

Definition chan_ok (c : string) : bool := negb (String.eqb c "").
Definition claims_ctx (t : Z) : Ctx := mkCtx (from_unix t) 5 "evmos_9001-2".

(** An airdrop that starts at second 1000, with a decay from 2000 to 4000. *)
Definition airdrop : ClaimsParams :=
  mkClaimsParams true "aevmos" (from_unix 1000) (from_unix 1000) (from_unix 2000)
    ["channel-0"] ["channel-2"].

Definition rec (amt : Z) : ClaimsRecord := NewClaimsRecord amt.
Definition ledger (n : Z) : world :=
  mkWorld {[ "module/claims" := {[ "aevmos" := n ]}; "bob" := {[ "aevmos" := 7 ]} ]} ∅
    {[ "bob" := PlainAcc "bob" ]} {[ "bob" := 0 ]} ∅ no_evm.

(** Two addresses with 6 coins each: eight open quarters of one coin. *)
Definition claims_sample : claims_state world :=
  mkClaims airdrop {[ "alice" := rec 6; "bob" := rec 6 ]} (ledger 8).

Lemma claims_sample_records k cr : c_records claims_sample !! k = Some cr → cr = rec 6.
Proof.
  simpl. intros Hk. apply lookup_insert_Some in Hk as [[_ <-]|[_ Hk]]; [done|].
  by apply lookup_singleton_Some in Hk as [_ <-].
Qed.

Lemma claims_sample_inv : claims_inv (C := coins) claims_sample.
Proof.
  constructor; try (vm_compute; done).
  intros k cr Hk. apply claims_sample_records in Hk as ->. split; vm_compute; done.
Qed.

Lemma claimable_amount_witness :
  ∃ c c', GetClaimableAmountForAction (D := Z) (claims_ctx 1500) (rec 800) ActionVote airdrop = Ok (c, 200 - c) ∧
    GetClaimableAmountForAction (D := Z) (claims_ctx 3000) (rec 800) ActionVote airdrop = Ok (c', 200 - c') ∧
    0 ≤ c' ≤ c ∧ c ≤ 200 ∧ (BlockTime (claims_ctx 1500) ≤ DecayStartTime airdrop → c = 200).
Proof.
  apply (claimable_amount (D := Z) (claims_ctx 1500) (claims_ctx 3000) (rec 800) ActionVote airdrop);
    vm_compute; try split; done.
Defined.

Lemma claim_once_witness :
  let run := ClaimCoinsForAction (D := Z) (C := coins) (claims_ctx 3000) "bob" (rec 800) ActionVote airdrop
               (mkClaims airdrop {[ "bob" := rec 800 ]} (ledger 800)) in
  run.1 = Ok 100 ∧
  ∃ cr', GetClaimsRecord run.2 "bob" = Some cr' ∧ HasClaimedAction cr' ActionVote = true ∧
    ClaimCoinsForAction (D := Z) (C := coins) (claims_ctx 3001) "bob" cr' ActionVote airdrop run.2 =
    (Ok 0, run.2).
Proof.
  cbv zeta. split; [vm_compute; reflexivity|].
  destruct (claim_once (D := Z) (C := coins) (claims_ctx 3000) (claims_ctx 3001) "bob" (rec 800) ActionVote
    airdrop airdrop (mkClaims airdrop {[ "bob" := rec 800 ]} (ledger 800)) 100
    (ClaimCoinsForAction (D := Z) (C := coins) (claims_ctx 3000) "bob" (rec 800) ActionVote airdrop
       (mkClaims airdrop {[ "bob" := rec 800 ]} (ledger 800))).2)
    as [[E _]|(_ & _ & _ & _ & Hcr)];
    [vm_compute; done|vm_compute; done|split; vm_compute; done|vm_compute; reflexivity|discriminate E|].
  exact Hcr.
Defined.

Lemma claim_hooks_keep_escrow_witness :
  claims_inv (C := coins)
    (AfterProposalVote (D := Z) (C := coins) (claims_ctx 3000) "alice" claims_sample).2.
Proof.
  apply (claim_hooks_keep_escrow (D := Z) (C := coins) (claims_ctx 3000) "alice"
    (AfterProposalVote (D := Z) (C := coins) (claims_ctx 3000) "alice") claims_sample).
  - apply elem_of_cons. by left.
  - apply claims_sample_inv.
  - vm_compute. discriminate.
  - vm_compute. discriminate.
  - vm_compute. reflexivity.
Defined.

(** Alice on the Cosmos Hub sends the trigger amount to Bob. *)
Definition trigger_packet : Packet :=
  mkPacket "transfer" "channel-9" "transfer" "channel-0" "uatom|63743|cosmos1alice|evmos1bob".

Definition merged : claims_state world :=
  (claims_OnRecvPacket (D := Z) (C := coins) (claims_ctx 1500) trigger_packet (AckResult "") claims_sample).2.

Lemma recv_packet_conserves_witness :
  allocations (c_records merged) = allocations (c_records claims_sample).
Proof.
  destruct (recv_packet_conserves (D := Z) (C := coins) (claims_ctx 1500) trigger_packet (AckResult "")
    claims_sample (AckResult "") merged) as (_ & _ & Ha & _).
  - intros k cr Hk. apply claims_sample_records in Hk as ->. vm_compute. reflexivity.
  - vm_compute. reflexivity.
  - reflexivity.
  - exact Ha.
Defined.

(** Merging two records can promise more than the escrow holds: the quarter
    of the merged amount is rounded down once instead of twice.  From a state
    with a balanced escrow, an accepted packet leads to one in which the open
    quarters exceed the escrow. *)
Lemma merge_overdraws_escrow :
  claims_inv (C := coins) claims_sample ∧
  claims_OnRecvPacket (D := Z) (C := coins) (claims_ctx 1500) trigger_packet (AckResult "") claims_sample
    = (Ok (AckResult ""), merged) ∧
  GetBalance (C := coins) (c_ext merged) "module/claims" "aevmos" = 6 ∧ escrowed merged = 9.
Proof.
  split; [apply claims_sample_inv|]. split; [|split]; vm_compute; reflexivity.
Qed.

Lemma end_blocker_ends_airdrop_witness :
  c_records (EndBlocker (C := coins) chan_ok (claims_ctx 4001) claims_sample).2 = ∅.
Proof.
  pose proof (end_blocker_ends_airdrop (C := coins) chan_ok (claims_ctx 4001) claims_sample
    (EndBlocker (C := coins) chan_ok (claims_ctx 4001) claims_sample).2) as He.
  assert (Hb : EnableClaims (c_params claims_sample) &&
    (AirdropEndTime (c_params claims_sample) <? BlockTime (claims_ctx 4001)) = true)
    by (vm_compute; reflexivity).
  rewrite Hb in He. refine (proj1 (He _ _ _ _ _)); [vm_compute; discriminate|vm_compute; done..].
Defined.

(** The registered invariant does not match genesis: genesis accepts an
    escrow of truncated quarters, for which the invariant, computed with exact
    decimals, is broken at once. *)
Lemma genesis_breaks_registered_invariant :
  let records := [mkCRA "evmos1alice" 6 [false; false; false; false]] in
  let start := mkClaims airdrop ∅ (ledger 4) in
  let r := claims_InitGenesis (C := coins) chan_ok (claims_ctx 1500) airdrop records start in
  claims_GenesisState_Validate (C := coins) chan_ok airdrop records = Ok tt ∧
  r.1 = Ok tt ∧ ClaimsInvariant (D := Z) (C := coins) (claims_ctx 1500) r.2 = Ok true.
Proof. split; [|split]; vm_compute; reflexivity. Qed.

Lemma genesis_establishes_escrow_witness :
  claims_inv (C := coins)
    (claims_InitGenesis (C := coins) chan_ok (claims_ctx 1500) airdrop
      [mkCRA "evmos1alice" 8 [false; true; false; false]] (mkClaims airdrop ∅ (ledger 6))).2.
Proof.
  apply (genesis_establishes_escrow (C := coins) chan_ok (claims_ctx 1500) airdrop
    [mkCRA "evmos1alice" 8 [false; true; false; false]] (mkClaims airdrop ∅ (ledger 6))).
  - vm_compute. reflexivity.
  - apply NoDup_singleton.
  - reflexivity.
  - vm_compute. reflexivity.
  - vm_compute. reflexivity.
Defined.
End samples.
