(* ===== verification/Erc20.v ===== *)
(** * The erc20 module: [x/erc20]

    Token pairs between coins of the bank module and ERC20 contracts, and the
    four conversions between the two sides.  The EVM, the ABI encoder and the
    bank's metadata store are parameters: a contract may do anything. *)

From S2P Require Import Prelude Sdk Keepers Erc20Types Evm.

(** ** The ABI *)

Inductive AbiArg : Type := ArgAddress (a : string) | ArgInt (i : Z) | ArgString (s : string).

(** [contracts.ERC20MinterBurnerDecimalsContract] *)
Class Erc20Abi := {
  abi_pack : string → list AbiArg → option string;
  unpack_uint : string → string → option Z;
  unpack_bool : string → string → option bool;
  unpack_string : string → string → option string;
  contract_bin : string;
  (** the name of the event with the given identifier *)
  event_by_id : string → option string;
  (** the first value of an event, when it is an integer *)
  unpack_transfer : string → option Z;
  (** [common.BytesToAddress(topic.Bytes())] *)
  topic_address : string → string;
  (** the hash of ["Approval(address,address,uint256)"], in hex *)
  approval_id : string;
}.

(** The bank's metadata store. *)
Class BankMeta (X : Type) := {
  GetDenomMetaData : X → string → option Metadata;
  SetDenomMetaData : Metadata → X → X;
  HasSupply : X → string → bool;
  (** [metadata.Validate()] *)
  metadata_validate : Metadata → option error;
}.

Record Erc20Params := mkErc20Params { EnableErc20 : bool; EnableEVMHook : bool }.

Record erc20_state (X : Type) := mkErc20 {
  e_params : Erc20Params;
  e_pairs : gmap string TokenPair;
  e_byERC20 : gmap string string;
  e_byDenom : gmap string string;
  e_ext : X;
}.
Arguments mkErc20 {X} _ _ _ _ _.
Arguments e_params {X} _.
Arguments e_pairs {X} _.
Arguments e_byERC20 {X} _.
Arguments e_byDenom {X} _.
Arguments e_ext {X} _.

Section keeper.
Context {C X : Type} `{SdkCoins C, !AccountKeeper C X, !BankKeeper C X, !EvmKeeper X, !BankMeta X}.
Context `{SdkAddress, EthAddress, Erc20Abi}.
Implicit Types s : erc20_state X.
Local Abbreviation EM := (M (erc20_state X)).

(** [types.ModuleAddress] *)
Definition ModuleAddress : string := module_addr erc20_ModuleName.

(** ** The store: [keeper/params.go], [keeper/token_pairs.go] *)

Definition erc20_GetParams s : Erc20Params := e_params s.
Definition erc20_SetParams (params : Erc20Params) s : erc20_state X :=
  mkErc20 params (e_pairs s) (e_byERC20 s) (e_byDenom s) (e_ext s).

Definition GetTokenPairs s : list TokenPair := (kv_iter (e_pairs s)).*2.
Definition GetERC20Map s (erc20 : string) : option string := e_byERC20 s !! erc20.
Definition GetDenomMap s (denom : string) : option string := e_byDenom s !! denom.
Definition GetTokenPairID s (token : string) : option string :=
  if is_hex_address token then GetERC20Map s (hex_to_address token) else GetDenomMap s token.
Definition GetTokenPair s (id : option string) : option TokenPair :=
  match id with None => None | Some id => e_pairs s !! id end.

Definition SetTokenPair (tokenPair : TokenPair) s : erc20_state X :=
  mkErc20 (e_params s) (<[GetID tokenPair := tokenPair]> (e_pairs s)) (e_byERC20 s) (e_byDenom s) (e_ext s).
Definition SetERC20Map (erc20 id : string) s : erc20_state X :=
  mkErc20 (e_params s) (e_pairs s) (<[erc20 := id]> (e_byERC20 s)) (e_byDenom s) (e_ext s).
Definition SetDenomMap (denom id : string) s : erc20_state X :=
  mkErc20 (e_params s) (e_pairs s) (e_byERC20 s) (<[denom := id]> (e_byDenom s)) (e_ext s).

Definition deleteTokenPair (id : string) s : erc20_state X :=
  mkErc20 (e_params s) (delete id (e_pairs s)) (e_byERC20 s) (e_byDenom s) (e_ext s).
Definition deleteERC20Map (erc20 : string) s : erc20_state X :=
  mkErc20 (e_params s) (e_pairs s) (delete erc20 (e_byERC20 s)) (e_byDenom s) (e_ext s).
Definition deleteDenomMap (denom : string) s : erc20_state X :=
  mkErc20 (e_params s) (e_pairs s) (e_byERC20 s) (delete denom (e_byDenom s)) (e_ext s).
Definition DeleteTokenPair (tokenPair : TokenPair) s : erc20_state X :=
  deleteDenomMap (Denom tokenPair)
    (deleteERC20Map (GetERC20Contract tokenPair) (deleteTokenPair (GetID tokenPair) s)).

Definition IsTokenPairRegistered s (id : string) : bool := bool_decide (is_Some (e_pairs s !! id)).
Definition IsERC20Registered s (erc20 : string) : bool := bool_decide (is_Some (e_byERC20 s !! erc20)).
Definition IsDenomRegistered s (denom : string) : bool := bool_decide (is_Some (e_byDenom s !! denom)).

Definition eext {A} (m : M X A) : EM A :=
  zoom e_ext (λ x s, mkErc20 (e_params s) (e_pairs s) (e_byERC20 s) (e_byDenom s) x) m.

(** ** Calls of the EVM: [keeper/evm.go] *)

(** The marshalling of the arguments for the gas estimate cannot fail. *)
Definition CallEVMWithData (from : string) (contract : option string) (data : string) (commit : bool)
    : M X EvmResult :=
  λ x, match GetSequence (C := C) x from with
       | None => (Err (ErrExternal "account not found"), x)
       | Some nonce =>
           let gasCap := if commit then EstimateGas x from contract data else Ok DefaultGasCap in
           match gasCap with
           | Panic => (Panic, x)
           | Err e => (Err e, x)
           | Ok gas =>
               (let! res := ApplyMessage (mkEvmMsg from contract nonce gas data) commit in
                if Failed res then fail ErrVMExecution else ret res) x
           end
       end.

Definition CallEVM (from contract : string) (commit : bool) (method : string) (args : list AbiArg)
    : M X EvmResult :=
  match abi_pack method args with
  | None => fail ErrABIPack
  | Some data => CallEVMWithData from (Some contract) data commit
  end.

Definition BalanceOf (contract account : string) : M X (option Z) :=
  let! res := try (CallEVM ModuleAddress contract false "balanceOf" [ArgAddress account]) in
  match res with
  | inr _ => ret None
  | inl res => ret (unpack_uint "balanceOf" (Ret res))
  end.

Definition unpack {A} (o : option A) (e : error) : M X A :=
  match o with Some a => ret a | None => fail e end.

Definition QueryERC20 (contract : string) : M X ERC20Data :=
  let! res := CallEVM ModuleAddress contract false "name" [] in
  let! name := unpack (unpack_string "name" (Ret res)) ErrABIUnpack in
  let! res := CallEVM ModuleAddress contract false "symbol" [] in
  let! symbol := unpack (unpack_string "symbol" (Ret res)) ErrABIUnpack in
  let! res := CallEVM ModuleAddress contract false "decimals" [] in
  let! decimals := unpack (unpack_uint "decimals" (Ret res)) ErrABIUnpack in
  ret (mkERC20Data name symbol decimals).

(** A log without topics makes the access to its first topic panic. *)
Fixpoint monitor_logs (logs : list EvmLog) : outcome unit :=
  match logs with
  | [] => Ok tt
  | log :: rest =>
      match Topics log with
      | [] => Panic
      | topic :: _ => if String.eqb topic approval_id then Err ErrUnexpectedEvent else monitor_logs rest
      end
  end.
Definition monitorApprovalEvent (res : EvmResult) : M X unit := lift (monitor_logs (Logs res)).

Definition last_exponent (units : list DenomUnit) : Z :=
  match last units with Some u => Exponent u mod 2^8 | None => 0 end.

Definition DeployERC20Contract (coinMetadata : Metadata) : M X string :=
  let decimals := last_exponent (DenomUnits coinMetadata) in
  match abi_pack EmptyString [ArgString (Name coinMetadata); ArgString (Symbol coinMetadata); ArgInt decimals] with
  | None => fail ErrABIPack
  | Some ctorArgs =>
      let data := String.append contract_bin ctorArgs in
      let! nonce := (λ x, match GetSequence (C := C) x ModuleAddress with
                          | Some n => (Ok n, x)
                          | None => (Err (ErrExternal "account not found"), x) end) in
      let contractAddr := create_address ModuleAddress nonce in
      CallEVMWithData ModuleAddress None data true ;;;
      ret contractAddr
  end.

(** ** [keeper/mint.go] *)

Definition id_missing (id : option string) : bool :=
  match id with None => true | Some id => String.eqb id EmptyString end.

Definition MintingEnabled (sender receiver token : string) : EM TokenPair :=
  let! params := gets erc20_GetParams in
  check (negb (EnableErc20 params)) ErrERC20Disabled ;;;
  let! id := gets (λ s, GetTokenPairID s token) in
  check (id_missing id) ErrTokenPairNotFound ;;;
  let! tp := gets (λ s, GetTokenPair s id) in
  match tp with
  | None => fail ErrTokenPairNotFound
  | Some tp =>
      check (negb (Enabled tp)) ErrERC20TokenPairDisabled ;;;
      check (BlockedAddr (C := C) (X := X) receiver) ErrUnauthorized ;;;
      let! enabled := gets (λ s, IsSendEnabledCoin (C := C) (e_ext s) (Denom tp)) in
      check (negb (String.eqb sender receiver) && negb enabled) ErrSendDisabled ;;;
      ret tp
  end.

(** ** The conversions: [keeper/msg_server.go]

    [need]: a balance that could not be read is an error. *)

Definition need (m : M X (option Z)) : M X Z :=
  let! b := m in unpack b ErrEVMCall.

Definition convertCoinNativeCoin (tp : TokenPair) (msg : MsgConvertCoin) (receiver sender : string)
    : M X unit :=
  let coins := coins_lit (mcc_Denom msg) (mcc_Amount msg) in
  let contract := GetERC20Contract tp in
  let! balanceToken := need (BalanceOf contract receiver) in
  SendCoinsFromAccountToModule sender erc20_ModuleName coins ;;;
  CallEVM ModuleAddress contract true "mint" [ArgAddress receiver; ArgInt (mcc_Amount msg)] ;;;
  let! balanceTokenAfter := need (BalanceOf contract receiver) in
  check (negb (balanceTokenAfter =? balanceToken + mcc_Amount msg)) ErrBalanceInvariance.

Definition convertERC20NativeCoin (tp : TokenPair) (msg : MsgConvertERC20) (receiver sender : string)
    : M X unit :=
  let coins := coins_lit (Denom tp) (mce_Amount msg) in
  let contract := GetERC20Contract tp in
  let! balanceCoin := gets (λ x, GetBalance (C := C) x receiver (Denom tp)) in
  let! balanceToken := need (BalanceOf contract sender) in
  CallEVM ModuleAddress contract true "burnCoins" [ArgAddress sender; ArgInt (mce_Amount msg)] ;;;
  SendCoinsFromModuleToAccount erc20_ModuleName receiver coins ;;;
  let! balanceCoinAfter := gets (λ x, GetBalance (C := C) x receiver (Denom tp)) in
  check (negb (balanceCoinAfter =? balanceCoin + mce_Amount msg)) ErrBalanceInvariance ;;;
  let! balanceTokenAfter := need (BalanceOf contract sender) in
  check (negb (balanceTokenAfter =? balanceToken - mce_Amount msg)) ErrBalanceInvariance.

Definition convertERC20NativeToken (tp : TokenPair) (msg : MsgConvertERC20) (receiver sender : string)
    : M X unit :=
  let coins := coins_lit (Denom tp) (mce_Amount msg) in
  let contract := GetERC20Contract tp in
  let! balanceCoin := gets (λ x, GetBalance (C := C) x receiver (Denom tp)) in
  let! balanceToken := need (BalanceOf contract ModuleAddress) in
  let! transferData := unpack (abi_pack "transfer" [ArgAddress ModuleAddress; ArgInt (mce_Amount msg)])
                              (ErrExternal "abi") in
  let! res := CallEVMWithData sender (Some contract) transferData true in
  let! ok := unpack (unpack_bool "transfer" (Ret res)) (ErrExternal "abi") in
  check (negb ok) ErrLogic ;;;
  let! balanceTokenAfter := need (BalanceOf contract ModuleAddress) in
  check (negb (balanceTokenAfter =? balanceToken + mce_Amount msg)) ErrBalanceInvariance ;;;
  MintCoins erc20_ModuleName coins ;;;
  SendCoinsFromModuleToAccount erc20_ModuleName receiver coins ;;;
  let! balanceCoinAfter := gets (λ x, GetBalance (C := C) x receiver (Denom tp)) in
  check (negb (balanceCoinAfter =? balanceCoin + mce_Amount msg)) ErrBalanceInvariance ;;;
  monitorApprovalEvent res.

Definition convertCoinNativeERC20 (tp : TokenPair) (msg : MsgConvertCoin) (receiver sender : string)
    : M X unit :=
  let coins := coins_lit (mcc_Denom msg) (mcc_Amount msg) in
  let contract := GetERC20Contract tp in
  let! balanceToken := need (BalanceOf contract receiver) in
  SendCoinsFromAccountToModule sender erc20_ModuleName coins ;;;
  let! res := CallEVM ModuleAddress contract true "transfer" [ArgAddress receiver; ArgInt (mcc_Amount msg)] in
  let! ok := unpack (unpack_bool "transfer" (Ret res)) (ErrExternal "abi") in
  check (negb ok) ErrLogic ;;;
  let! balanceTokenAfter := need (BalanceOf contract receiver) in
  check (negb (balanceTokenAfter =? balanceToken + mcc_Amount msg)) ErrBalanceInvariance ;;;
  BurnCoins erc20_ModuleName coins ;;;
  monitorApprovalEvent res.

(** [None]: the contract is gone and the pair was removed. *)
Definition ConvertCoin (msg : MsgConvertCoin) : EM (option unit) :=
  let receiver := hex_to_address (mcc_Receiver msg) in
  let! sender := lift (must_acc_from_bech32 (mcc_Sender msg)) in
  let! tp := MintingEnabled sender receiver (mcc_Denom msg) in
  let erc20 := hex_to_address (Erc20Address tp) in
  let! isContract := gets (λ s, IsContract (e_ext s) erc20) in
  if negb isContract then modify (DeleteTokenPair tp) ;;; ret None else
  if IsNativeCoin tp then eext (convertCoinNativeCoin tp msg receiver sender) ;;; ret (Some tt)
  else if IsNativeERC20 tp then eext (convertCoinNativeERC20 tp msg receiver sender) ;;; ret (Some tt)
  else fail ErrUndefinedOwner.

Definition ConvertERC20 (msg : MsgConvertERC20) : EM (option unit) :=
  let! receiver := lift (must_acc_from_bech32 (mce_Receiver msg)) in
  let sender := hex_to_address (mce_Sender msg) in
  let! tp := MintingEnabled sender receiver (ContractAddress msg) in
  let erc20 := hex_to_address (Erc20Address tp) in
  let! isContract := gets (λ s, IsContract (e_ext s) erc20) in
  if negb isContract then modify (DeleteTokenPair tp) ;;; ret None else
  if IsNativeCoin tp then eext (convertERC20NativeCoin tp msg receiver sender) ;;; ret (Some tt)
  else if IsNativeERC20 tp then eext (convertERC20NativeToken tp msg receiver sender) ;;; ret (Some tt)
  else fail ErrUndefinedOwner.

(** ** The EVM hook: [keeper/evm_hooks.go] *)

(** One log of the receipt.  Every way to skip it is a [continue]. *)
Definition hook_log (log : EvmLog) : EM unit :=
  match Topics log with
  | [eventID; from_topic; to_topic] =>
      if negb (bool_decide (event_by_id eventID = Some "Transfer"%string)) then ret tt else
      match unpack_transfer (log_Data log) with
      | None => ret tt
      | Some tokens =>
          if negb (0 <? tokens) then ret tt else
          let contractAddr := log_Address log in
          let! id := gets (λ s, GetERC20Map s contractAddr) in
          if id_missing id then ret tt else
          let! tp := gets (λ s, GetTokenPair s id) in
          match tp with
          | None => ret tt
          | Some tp =>
              if negb (String.eqb (topic_address to_topic) ModuleAddress) then ret tt else
              if negb (Enabled tp) then ret tt else
              let coins := coins_lit (Denom tp) tokens in
              let! r := try (match ContractOwner tp with
                             | OWNER_MODULE =>
                                 eext (CallEVM ModuleAddress contractAddr true "burn" [ArgInt tokens]) ;;; ret tt
                             | OWNER_EXTERNAL => eext (MintCoins erc20_ModuleName coins)
                             | OWNER_UNSPECIFIED => fail ErrUndefinedOwner
                             end) in
              match r with
              | inr _ => ret tt
              | inl _ =>
                  let recipient := topic_address from_topic in
                  let! r := try (eext (SendCoinsFromModuleToAccount erc20_ModuleName recipient coins)) in
                  ret tt
              end
          end
      end
  | _ => ret tt
  end.

Definition erc20_PostTxProcessing (logs : list EvmLog) : EM unit :=
  let! params := gets erc20_GetParams in
  if negb (EnableErc20 params) || negb (EnableEVMHook params) then ret tt
  else foreach logs hook_log.

(** ** Registration: [keeper/proposals.go] *)

Definition verifyMetadata (coinMetadata : Metadata) : M X unit :=
  let! meta := gets (λ x, GetDenomMetaData x (Base coinMetadata)) in
  match meta with
  | None => modify (SetDenomMetaData coinMetadata)
  | Some meta => lift (EqualMetadata meta coinMetadata)
  end.

Definition contains_evm (s : string) : bool :=
  match String.index 0 "evm" s with Some _ => true | None => false end.

Definition store_pair (tp : TokenPair) : EM unit :=
  modify (SetTokenPair tp) ;;;
  modify (SetDenomMap (Denom tp) (GetID tp)) ;;;
  modify (SetERC20Map (hex_to_address (Erc20Address tp)) (GetID tp)).

Definition RegisterCoin (coinMetadata : Metadata) : EM TokenPair :=
  let! params := gets erc20_GetParams in
  check (negb (EnableErc20 params)) ErrERC20Disabled ;;;
  check (contains_evm (Base coinMetadata)) ErrEVMDenom ;;;
  let! registered := gets (λ s, IsDenomRegistered s (Name coinMetadata)) in
  check registered ErrTokenPairAlreadyExists ;;;
  let! supply := gets (λ s, HasSupply (e_ext s) (Base coinMetadata)) in
  check (negb supply) ErrInvalidCoins ;;;
  let! r := try (eext (verifyMetadata coinMetadata)) in
  match r with
  | inr _ => fail ErrInternalTokenPair
  | inl _ =>
      let! addr := eext (DeployERC20Contract coinMetadata) in
      let tp := NewTokenPair addr (Base coinMetadata) true OWNER_MODULE in
      store_pair tp ;;;
      ret tp
  end.

Definition CreateCoinMetadata (contract : string) : EM Metadata :=
  let strContract := address_hex contract in
  let! erc20Data := eext (QueryERC20 contract) in
  let! found := gets (λ s, GetDenomMetaData (e_ext s) (CreateDenom strContract)) in
  match found with
  | Some _ => fail ErrInternalTokenPair
  | None =>
      let! registered := gets (λ s, IsDenomRegistered s (CreateDenom strContract)) in
      check registered ErrInternalTokenPair ;;;
      let base := CreateDenom strContract in
      let metadata :=
        if 0 <? Decimals erc20Data then
          let nameSanitized := SanitizeERC20Name (ed_Name erc20Data) in
          mkMeta (CreateDenomDescription strContract)
            [mkUnit base 0 []; mkUnit nameSanitized (Decimals erc20Data) []] base nameSanitized
            (CreateDenom strContract) (ed_Symbol erc20Data)
        else
          mkMeta (CreateDenomDescription strContract) [mkUnit base 0 []] base base
            (CreateDenom strContract) (ed_Symbol erc20Data) in
      match metadata_validate metadata with
      | Some e => fail e
      | None => eext (modify (SetDenomMetaData metadata)) ;;; ret metadata
      end
  end.

Definition RegisterERC20 (contract : string) : EM TokenPair :=
  let! params := gets erc20_GetParams in
  check (negb (EnableErc20 params)) ErrERC20Disabled ;;;
  let! registered := gets (λ s, IsERC20Registered s contract) in
  check registered ErrTokenPairAlreadyExists ;;;
  let! metadata := CreateCoinMetadata contract in
  let tp := NewTokenPair contract (Name metadata) true OWNER_EXTERNAL in
  store_pair tp ;;;
  ret tp.

Definition ToggleConversion (token : string) : EM TokenPair :=
  let! id := gets (λ s, GetTokenPairID s token) in
  check (id_missing id) ErrTokenPairNotFound ;;;
  let! tp := gets (λ s, GetTokenPair s id) in
  match tp with
  | None => fail ErrTokenPairNotFound
  | Some tp =>
      let tp := mkPair (Erc20Address tp) (Denom tp) (negb (Enabled tp)) (ContractOwner tp) in
      modify (SetTokenPair tp) ;;;
      ret tp
  end.

(** [proposal_handler.go] *)
Definition Erc20ProposalHandler (content : Proposal) : EM unit :=
  match content with
  | RegisterCoinProposal metadata => RegisterCoin metadata ;;; ret tt
  | RegisterERC20Proposal erc20Address => RegisterERC20 (hex_to_address erc20Address) ;;; ret tt
  | ToggleTokenConversionProposal token => ToggleConversion token ;;; ret tt
  | OtherProposal => fail ErrUnknownRequest
  end.

(** ** Genesis and queries: [types/genesis.go], [genesis.go], [keeper/grpc_query.go] *)

Fixpoint validate_pairs (seenErc20 seenDenom : gset string) (l : list TokenPair) : outcome unit :=
  match l with
  | [] => Ok tt
  | b :: rest =>
      let? _ := ocheck (bool_decide (Erc20Address b ∈ seenErc20))
                       (ErrMsg "token ERC20 contract duplicated on genesis") in
      let? _ := ocheck (bool_decide (Denom b ∈ seenDenom)) (ErrMsg "coin denomination duplicated on genesis") in
      let? _ := TokenPair_Validate (C := C) b in
      validate_pairs ({[ Erc20Address b ]} ∪ seenErc20) ({[ Denom b ]} ∪ seenDenom) rest
  end.

Definition erc20_GenesisState_Validate (pairs : list TokenPair) : outcome unit := validate_pairs ∅ ∅ pairs.

Definition erc20_InitGenesis (params : Erc20Params) (pairs : list TokenPair) : EM unit :=
  modify (erc20_SetParams params) ;;;
  let! acc := eext (HasModuleAccount erc20_ModuleName) in
  if negb acc then panic else
  foreach pairs (λ tp,
    let id := GetID tp in
    modify (SetTokenPair tp) ;;;
    modify (SetDenomMap (Denom tp) id) ;;;
    modify (SetERC20Map (GetERC20Contract tp) id)).

Definition erc20_ExportGenesis s : Erc20Params * list TokenPair := (erc20_GetParams s, GetTokenPairs s).

Definition query_TokenPair (token : string) s : outcome TokenPair :=
  let? _ := ocheck (negb (validate_address token) && negb (denom_valid token)) ErrInvalidRequest in
  let id := GetTokenPairID s token in
  let? _ := ocheck (id_missing id) ErrNotFound in
  match GetTokenPair s id with None => Err ErrNotFound | Some tp => Ok tp end.
End keeper.
