(* ===== verification/Erc20Names.v ===== *)
(** * Names and metadata of ERC20 tokens: properties of [x/erc20/types/utils.go] *)

From S2P Require Import Prelude Erc20Types.

Lemma all_chars_substring p n m s : all_chars p s = true → all_chars p (String.substring n m s) = true.
Proof.
  revert n m. induction s as [|a s IH]; intros [|n] [|m]; simpl; try done; rewrite ?andb_true_iff;
    intros [Ha Hs]; auto.
Qed.

Lemma keep_chars_ok s : all_chars is_denom_char (keep_denom_chars s) = true.
Proof.
  induction s as [|a s IH]; simpl; [done|]. destruct (is_denom_char a) eqn:Ea; simpl; [|done]. by rewrite Ea.
Qed.

Lemma special_chars_ok s : all_chars is_denom_char (removeSpecialChars s) = true.
Proof.
  destruct s as [|a s]; simpl; [done|]. destruct (is_letter a) eqn:Ea; [|apply keep_chars_ok].
  simpl. unfold is_denom_char at 1. rewrite Ea. apply keep_chars_ok.
Qed.

Lemma prefix_length a s : String.prefix a s = true → (String.length a ≤ String.length s)%nat.
Proof.
  revert s. induction a as [|x a IH]; intros [|y s]; simpl; intros Hp; try done; try lia.
  destruct (Ascii.ascii_dec x y); [|done]. apply le_n_S. auto.
Qed.

(** With the length as fuel no invalid prefix is left. *)
Lemma remove_prefixes_ok fuel s :
  (String.length s ≤ fuel)%nat →
  String.prefix "ibc/" (remove_prefixes fuel s) = false ∧
  String.prefix "erc20/" (remove_prefixes fuel s) = false.
Proof.
  revert s. induction fuel as [|fuel IH]; intros s Hl.
  { destruct s; simpl in Hl; [done|lia]. }
  cbn [remove_prefixes]. destruct (String.prefix "ibc/" s) eqn:E1.
  { apply IH. apply prefix_length in E1. unfold drop_chars. rewrite length_substring. simpl in E1. lia. }
  destruct (String.prefix "erc20/" s) eqn:E2; [|done].
  apply IH. apply prefix_length in E2. unfold drop_chars. rewrite length_substring. simpl in E2. lia.
Qed.

Lemma remove_prefixes_keeps p fuel s :
  all_chars p s = true →
  all_chars p (remove_prefixes fuel s) = true ∧
  (String.length (remove_prefixes fuel s) ≤ String.length s)%nat.
Proof.
  revert s. induction fuel as [|fuel IH]; intros s Hs; [done|]. cbn [remove_prefixes].
  assert (Hdrop : ∀ n, all_chars p (remove_prefixes fuel (drop_chars n s)) = true ∧
    (String.length (remove_prefixes fuel (drop_chars n s)) ≤ String.length s)%nat).
  { intros n. destruct (IH (drop_chars n s)) as [Hc Hlen]; [by apply all_chars_substring|].
    split; [done|]. unfold drop_chars in Hlen at 2. rewrite length_substring in Hlen. lia. }
  destruct (String.prefix "ibc/" s); [apply Hdrop|]. destruct (String.prefix "erc20/" s); [apply Hdrop|done].
Qed.

(** A sanitised name consists of letters, digits, slashes and dashes, has at
    most 128 characters, and starts with neither of the reserved prefixes. *)
Lemma sanitize_name_valid name :
  all_chars is_denom_char (SanitizeERC20Name name) = true ∧
  (String.length (SanitizeERC20Name name) ≤ 128)%nat ∧
  String.prefix "ibc/" (SanitizeERC20Name name) = false ∧
  String.prefix "erc20/" (SanitizeERC20Name name) = false.
Proof.
  unfold SanitizeERC20Name, removeInvalidPrefixes. cbv zeta.
  pose proof (special_chars_ok (removeLeadingNumbers name)) as Hc.
  set (n := removeSpecialChars (removeLeadingNumbers name)) in *.
  set (t := if Nat.ltb 128 (String.length n) then String.substring 0 128 n else n).
  assert (Ht : all_chars is_denom_char t = true ∧ (String.length t ≤ 128)%nat).
  { subst t. destruct (Nat.ltb_spec 128 (String.length n)); [|done].
    split; [by apply all_chars_substring|]. rewrite length_substring. lia. }
  destruct Ht as [Ht Hl]. destruct (remove_prefixes_keeps is_denom_char (String.length t) t Ht) as [Hk Hkl].
  destruct (remove_prefixes_ok (String.length t) t) as [H1 H2]; [done|].
  split; [done|]. split; [lia|done].
Qed.

(** Leading numbers are removed before special characters, so a name such as
    ["_1inch"] keeps its leading digit. *)
Example sanitize_keeps_leading_digit : SanitizeERC20Name "_1inch" = "1inch"%string.
Proof. reflexivity. Qed.

(** ** Metadata *)

Lemma equal_slice_spec a b : EqualStringSlice a b = true ↔ a = b.
Proof.
  revert b. induction a as [|x a IH]; intros [|y b]; simpl; [done..|].
  rewrite andb_true_iff, String.eqb_eq, IH. split; [by intros [-> ->]|by intros [= -> ->]].
Qed.

Lemma equal_units_spec a b : length a = length b → equal_units a b = true ↔ a = b.
Proof.
  revert b. induction a as [|[d e l] a IH]; intros [|[d' e' l'] b]; simpl; try done.
  intros Hl. injection Hl as Hl. rewrite !andb_true_iff, Z.eqb_eq, String.eqb_eq, equal_slice_spec, IH by done.
  split; [by intros [[[-> ->] ->] ->]|by intros [= -> -> -> ->]].
Qed.

(** [EqualMetadata] accepts exactly equal metadata. *)
Lemma equal_metadata_correct a b : EqualMetadata a b = Ok tt ↔ a = b.
Proof.
  unfold EqualMetadata. split.
  - destruct (_ && _) eqn:E; [|done]. bool_hyps. intros Hv. inv_ok. bool_hyps.
    repeat match goal with Hs : String.eqb _ _ = true |- _ => apply String.eqb_eq in Hs end.
    match goal with Hl : Nat.eqb _ _ = true |- _ => apply Nat.eqb_eq in Hl as Hlen end.
    match goal with Hu : equal_units _ _ = true |- _ => apply equal_units_spec in Hu; [|done] end.
    destruct a, b. simpl in *. congruence.
  - intros ->. rewrite !String.eqb_refl, Nat.eqb_refl. simpl.
    by rewrite (proj2 (equal_units_spec (DenomUnits b) (DenomUnits b) eq_refl) eq_refl).
Qed.
