(* ===== verification/Erc20Instances.v ===== *)
(** * A concrete EVM for the witnesses of the erc20 module

    ERC20 contracts as entries of [evm_store], hex addresses, and a textual
    encoding of calls, with the laws of [EthAddress] and of the EVM proved. *)

From stdpp Require Import pretty.
From S2P Require Import Prelude Sdk Schedule SdkInstances Clawback EvmosUtils Keepers Erc20Types KeeperInstances Evm Erc20.

(** ** Hex addresses *)

Definition nibble (n : nat) : Ascii.ascii :=
  Ascii.ascii_of_nat (if Nat.ltb n 10 then 48 + n else 87 + n).
Definition unnibble (a : Ascii.ascii) : nat :=
  if Nat.ltb (code a) 58 then code a - 48 else code a - 87.
Definition is_hex_digit (a : Ascii.ascii) : bool := is_digit a || (Nat.leb 97 (code a) && Nat.leb (code a) 102).

Fixpoint to_hex (s : string) : string :=
  match s with
  | EmptyString => EmptyString
  | String a s' => String (nibble (code a / 16)) (String (nibble (code a mod 16)) (to_hex s'))
  end.
Fixpoint of_hex (s : string) : string :=
  match s with
  | String a (String b s') => String (Ascii.ascii_of_nat (16 * unnibble a + unnibble b)) (of_hex s')
  | _ => EmptyString
  end.
Definition hex_address (s : string) : bool :=
  String.prefix "0x" s && Nat.eqb (String.length s) 42 && all_chars is_hex_digit (drop_chars 2 s).

Definition pad20 : string := "00000000000000000000".

(** The last twenty bytes, with zeros in front of a shorter string. *)
Definition last20 (s : string) : string :=
  String.substring (String.length s) 20 (String.append pad20 s).

#[global] Instance w_eth : EthAddress := {
  hex_to_address s := last20 (of_hex (drop_chars 2 s));
  bytes_to_address := last20;
  address_hex a := String.append "0x" (to_hex a);
  is_hex_address := hex_address;
  validate_address := hex_address;
  validate_nonzero_address s := hex_address s && negb (String.eqb s "0x0000000000000000000000000000000000000000");
  tmhash_sum s := String.append "#" s;
  create_address a n :=
    String.substring 0 20 (String.append (pretty n) (String.append "@" (String.append a pad20)));
}.

Lemma of_to_hex s : of_hex (to_hex s) = s.
Proof.
  induction s as [|a s IH]; simpl; [done|]. rewrite IH. f_equal.
  destruct a as [[] [] [] [] [] [] [] []]; reflexivity.
Qed.

Lemma length_to_hex s : String.length (to_hex s) = (2 * String.length s)%nat.
Proof. induction s as [|a s IH]; simpl; [done|]. rewrite IH. lia. Qed.

Lemma hex_address_no_bar a : hex_address a = true → all_chars not_bar a = true.
Proof.
  unfold hex_address. rewrite !andb_true_iff. intros [[Hp _] Hx].
  apply String.prefix_correct in Hp. destruct a as [|x [|y a]]; [done..|]. injection Hp as -> -> _.
  unfold drop_chars in Hx. simpl in Hx. rewrite Nat.sub_0_r, substring_all in Hx. simpl.
  revert Hx. apply all_chars_impl. intros c. by destruct c as [[] [] [] [] [] [] [] []].
Qed.

Lemma hex_address_not_blank a : hex_address a = true → is_blank a = false.
Proof.
  unfold hex_address. rewrite !andb_true_iff. intros [[Hp Hl] _].
  apply String.prefix_correct in Hp. destruct a as [|x [|y [|z a]]]; [done..|]. by injection Hp as -> ->.
Qed.

Lemma length_last20 s : String.length (last20 s) = 20%nat.
Proof.
  unfold last20. rewrite length_substring, length_append. change (String.length pad20) with 20%nat. lia.
Qed.

Lemma substring_append a b n :
  String.substring (String.length a) n (String.append a b) = String.substring 0 n b.
Proof. induction a as [|x a IH]; simpl; [done|]. exact IH. Qed.

Lemma last20_id s : String.length s = 20%nat → last20 s = s.
Proof.
  intros Hl. unfold last20. rewrite Hl. change 20%nat with (String.length pad20) at 1.
  rewrite substring_append, <- Hl. apply substring_all.
Qed.

#[global] Instance w_eth_laws : EthAddressLaws.
Proof.
  constructor; simpl.
  - intros a Ha. unfold drop_chars. simpl. rewrite Nat.sub_0_r, substring_all.
    transitivity (last20 a); [apply f_equal, of_to_hex|by apply last20_id].
  - intros. apply length_last20.
  - intros. by apply last20_id.
  - intros a Ha. change (S (S (String.length (to_hex a))) = 42%nat). by rewrite length_to_hex, Ha.
  - intros a n. rewrite length_substring, !length_append. change (String.length pad20) with 20%nat. lia.
  - apply hex_address_no_bar.
  - intros a Ha. apply andb_true_iff in Ha as [Ha _]. by apply hex_address_not_blank.
  - intros a b E. by apply append_inj in E as [_ E].
  - done.
Qed.

(** ** The encoding of calls: fields separated by bars *)

Fixpoint split_bar (acc s : string) : list string :=
  match s with
  | EmptyString => [acc]
  | String a s' =>
      if Nat.eqb (code a) 124 then acc :: split_bar EmptyString s'
      else split_bar (String.append acc (String a EmptyString)) s'
  end.
Fixpoint parse_num (acc : Z) (s : string) : option Z :=
  match s with
  | EmptyString => Some acc
  | String a s' => if is_digit a then parse_num (10 * acc + Z.of_nat (code a - 48)) s' else None
  end.
Definition read_num (s : string) : option Z :=
  match s with EmptyString => None | _ => parse_num 0 s end.

Definition pack_arg (a : AbiArg) : string :=
  match a with ArgAddress s | ArgString s => s | ArgInt i => pretty i end.
Definition pack (method : string) (args : list AbiArg) : option string :=
  Some (foldl (λ s a, String.append s (String.append "|" (pack_arg a))) method args).

#[global] Instance w_abi : Erc20Abi := {
  abi_pack := pack;
  unpack_uint _ := read_num;
  unpack_bool _ s := if String.eqb s "true" then Some true else if String.eqb s "false" then Some false else None;
  unpack_string _ s := Some s;
  contract_bin := "new";
  event_by_id s := if String.eqb s "Transfer" || String.eqb s "Approval" then Some s else None;
  unpack_transfer := read_num;
  topic_address s := s;
  approval_id := "Approval";
}.

(** ** Contracts *)

Definition bal (t : token) (a : string) : Z := default 0 (tk_bal t !! a).
Definition set_bal (t : token) (a : string) (n : Z) : token :=
  mkToken (tk_name t) (tk_symbol t) (tk_decimals t) (<[a:=n]> (tk_bal t)).
Definition add_bal (t : token) (a : string) (n : Z) : token := set_bal t a (bal t a + n).

Definition reverted : EvmResult := mkRes EmptyString "execution reverted" [].
Definition returned (s : string) (logs : list EvmLog) : EvmResult := mkRes s EmptyString logs.

Definition burn_from (t : token) (a : string) (n : Z) : EvmResult * token :=
  if n <=? bal t a then (returned EmptyString [], add_bal t a (- n)) else (reverted, t).

(** The methods of [ERC20MinterBurnerDecimals] the module calls. *)
Definition run_token (from self : string) (data : list string) (t : token) : EvmResult * token :=
  match data with
  | ["name"%string] => (returned (tk_name t) [], t)
  | ["symbol"%string] => (returned (tk_symbol t) [], t)
  | ["decimals"%string] => (returned (pretty (tk_decimals t)) [], t)
  | ["balanceOf"%string; a] => (returned (pretty (bal t a)) [], t)
  | ["mint"%string; a; n] =>
      match read_num n with Some n => (returned EmptyString [], add_bal t a n) | None => (reverted, t) end
  | ["burnCoins"%string; a; n] =>
      match read_num n with Some n => burn_from t a n | None => (reverted, t) end
  | ["burn"%string; n] =>
      match read_num n with Some n => burn_from t from n | None => (reverted, t) end
  | ["transfer"%string; a; n] =>
      match read_num n with
      | Some v => if v <=? bal t from
                  then (returned "true" [mkLog self ["Transfer"%string; from; a] n],
                        add_bal (add_bal t from (- v)) a v)
                  else (reverted, t)
      | None => (reverted, t)
      end
  | _ => (reverted, t)
  end.

Definition w_put_token (x : world) (a : string) (t : token) : world :=
  mkWorld (w_bal x) (w_supply x) (w_acc x) (w_seq x) (w_bonded x)
    (mkEvm (<[a:=t]> (ev_tokens (w_evm x))) (ev_meta (w_evm x))).
Definition w_put_meta (m : Metadata) (x : world) : world :=
  mkWorld (w_bal x) (w_supply x) (w_acc x) (w_seq x) (w_bonded x)
    (mkEvm (ev_tokens (w_evm x)) (<[Base m := m]> (ev_meta (w_evm x)))).
Definition w_next_seq (x : world) (a : string) : world :=
  mkWorld (w_bal x) (w_supply x) (w_acc x) (<[a := 1 + default 0 (w_seq x !! a)]> (w_seq x)) (w_bonded x) (w_evm x).

Definition w_run (msg : EvmMsg) (x : world) : EvmResult * world :=
  let data := split_bar EmptyString (em_data msg) in
  match em_to msg with
  | None =>
      match data with
      | ["new"%string; name; symbol; dec] =>
          let t := mkToken name symbol (default 0 (read_num dec)) ∅ in
          (returned EmptyString [],
           w_next_seq (w_put_token x (create_address (em_from msg) (em_nonce msg)) t) (em_from msg))
      | _ => (reverted, x)
      end
  | Some c =>
      match ev_tokens (w_evm x) !! c with
      | None => (returned EmptyString [], x)
      | Some t => let '(res, t') := run_token (em_from msg) c data t in (res, w_put_token x c t')
      end
  end.

#[global] Instance w_evm_keeper : EvmKeeper world := {
  IsContract x a := bool_decide (is_Some (ev_tokens (w_evm x) !! a));
  HasEvmAccount x a := bool_decide (is_Some (ev_tokens (w_evm x) !! a)) || bool_decide (is_Some (w_seq x !! a));
  EstimateGas _ _ _ _ := Ok 21000;
  ApplyMessage msg commit x := let '(res, x') := w_run msg x in (Ok res, if commit then x' else x);
  DefaultGasCap := 25000000;
  evm_denom := "aevmos"%string;
}.

(** Contracts are accounts with a token; an address that starts with [k] has a
    key of another kind and one that starts with [n] has none. *)
#[global] Instance w_account_types : AccountTypes world := {
  is_contract_account x a := bool_decide (is_Some (ev_tokens (w_evm x) !! a));
  is_module_account _ a := String.prefix "module/" a;
  pubkey_of _ a := if String.prefix "k" a then Some OtherKey
                   else if String.prefix "n" a then None else Some EthSecp256k1;
}.

Lemma w_run_ledger msg x res x' :
  w_run msg x = (res, x') → w_bal x' = w_bal x ∧ w_supply x' = w_supply x.
Proof.
  unfold w_run. destruct (em_to msg) as [c|].
  - destruct (ev_tokens (w_evm x) !! c) as [t|]; [|by intros [= <- <-]].
    destruct (run_token _ _ _ t) as [r t']. by intros [= <- <-].
  - destruct (split_bar EmptyString (em_data msg)) as [|k [|n [|s [|d [|? ?]]]]];
      try (by intros [= <- <-]); repeat case_match; by intros [= <- <-].
Qed.

Lemma w_moves_keep (c : coins) x x' : bank_moves c x x' → w_evm x' = w_evm x ∧ w_seq x' = w_seq x.
Proof.
  intros [m Hm|m Hm|m t Hm]; simpl in Hm; unfold w_mint, w_burn, w_send in Hm; case_match; by simplify_eq.
Qed.

(** What a call returns depends on the contracts only. *)
Lemma w_run_result msg x x' : w_evm x' = w_evm x → (w_run msg x').1 = (w_run msg x).1.
Proof.
  intros E. unfold w_run. destruct (em_to msg) as [c|].
  - rewrite E. destruct (ev_tokens (w_evm x) !! c) as [t|]; [|done]. by destruct (run_token _ _ _ t).
  - repeat case_match; by simplify_eq.
Qed.

#[global] Instance w_evm_laws : EvmLaws coins world.
Proof.
  constructor; simpl.
  - intros msg x o x'. destruct (w_run msg x). by intros [= <- <-].
  - intros msg x o x' a d. destruct (w_run msg x) as [r x1] eqn:E. intros [= <- <-] _.
    apply w_run_ledger in E as [E _]. unfold w_all. by rewrite E.
  - intros msg x o x' d. destruct (w_run msg x) as [r x1] eqn:E. intros [= <- <-] _.
    by apply w_run_ledger in E as [_ ->].
  - intros msg c x x' Hm _. apply w_moves_keep in Hm as [Hm _]. pose proof (w_run_result msg x x' Hm) as E.
    destruct (w_run msg x), (w_run msg x'). simpl in *. by rewrite E.
  - intros a n c x x' Hm. by apply w_moves_keep in Hm as [_ ->].
Qed.

#[global] Instance w_bank_meta : BankMeta world := {
  GetDenomMetaData x d := ev_meta (w_evm x) !! d;
  SetDenomMetaData := w_put_meta;
  HasSupply x d := 0 <? default 0 (w_supply x !! d);
  metadata_validate m := if String.eqb (Base m) EmptyString then Some (ErrExternal "invalid metadata") else None;
}.
