(* ===== verification/Erc20Props.v ===== *)
(** * Properties of the erc20 module

    What a successful conversion did to the coins and to the observed token
    balances, whatever the contract; the consistency of the pair registry; the
    hook; and the string functions on names. *)

From S2P Require Import Prelude Sdk SdkInstances Keepers Erc20Types KeeperInstances Evm Erc20 Erc20Instances.

Section conversions.
Context {C X : Type} `{SdkCoinsLaws C, !AccountKeeper C X, !BankKeeper C X, !EvmKeeper X, !BankMeta X}.
Context `{!BankLaws C X, !EvmLaws C X, SdkAddress, EthAddress, Erc20Abi}.
Implicit Types x : X.

Local Abbreviation modaddr := (ModuleAddress (C := C) (X := X)).

(** The balance of [a] that the contract [c] reports in [x]. *)
Definition reports x (c a : string) (b : Z) : Prop :=
  BalanceOf (C := C) c a x = (Ok (Some b), x).

(** The coins outside the EVM move by [delta] and the supply by [minted]. *)
Definition coins_move x x' (delta : string → string → Z) (minted : string → Z) : Prop :=
  ∀ d, d ≠ evm_denom →
  (∀ a, GetBalance (C := C) x' a d = GetBalance (C := C) x a d + delta a d) ∧
  GetSupply (C := C) x' d = GetSupply (C := C) x d + minted d.

Definition no_delta (a d : string) : Z := 0.
Definition no_mint (d : string) : Z := 0.

Lemma coins_move_trans x x1 x2 d1 m1 d2 m2 :
  coins_move x x1 d1 m1 → coins_move x1 x2 d2 m2 →
  coins_move x x2 (λ a d, d1 a d + d2 a d) (λ d, m1 d + m2 d).
Proof.
  intros T1 T2 d Hd. destruct (T1 d Hd) as [B1 S1], (T2 d Hd) as [B2 S2]. split.
  - intros a. rewrite B2, B1. lia.
  - rewrite S2, S1. lia.
Qed.

Lemma coins_move_ext x x' d1 m1 d2 m2 :
  coins_move x x' d1 m1 → (∀ a d, d1 a d = d2 a d) → (∀ d, m1 d = m2 d) → coins_move x x' d2 m2.
Proof.
  intros T Hd Hm d Hne. destruct (T d Hne) as [B S]. split; [|by rewrite S, Hm].
  intros a. by rewrite B, Hd.
Qed.

Lemma call_data_ok f c data commit x res x' :
  CallEVMWithData (C := C) f c data commit x = (Ok res, x') →
  if commit then coins_move x x' no_delta no_mint else x' = x.
Proof.
  unfold CallEVMWithData. destruct (GetSequence x f) as [n|]; [|done].
  destruct (if commit then EstimateGas x f c data else Ok DefaultGasCap) as [g| |]; [|done|done].
  intros Hrun. apply bind_ok in Hrun as (r & x1 & Ha & Hrun). destruct (Failed r); [done|]. inv_ok.
  destruct commit.
  - intros d Hd. unfold no_delta, no_mint. split; [intros a|]; rewrite Z.add_0_r.
    + by eapply apply_balances.
    + by eapply apply_supply.
  - by eapply apply_no_commit.
Qed.

Lemma call_ok f c method args x res x' :
  CallEVM (C := C) f c true method args x = (Ok res, x') → coins_move x x' no_delta no_mint.
Proof.
  unfold CallEVM. destruct (abi_pack method args); [|done]. apply (call_data_ok _ _ _ true).
Qed.

(** A balance query does not change the state. *)
Lemma need_balance_ok c a x b x' :
  need (BalanceOf (C := C) c a) x = (Ok b, x') → x' = x ∧ reports x c a b.
Proof.
  intros Hn. unfold need in Hn. apply bind_ok in Hn as (o & x1 & Hb & Hu).
  assert (Hx1 : x1 = x).
  { unfold BalanceOf in Hb. apply bind_ok in Hb as (r & x2 & Ht & Hr). unfold try in Ht.
    destruct (CallEVM modaddr c false "balanceOf" [ArgAddress a] x) as [oc x3] eqn:Ec.
    assert (x3 = x) as ->.
    { unfold CallEVM, CallEVMWithData in Ec. destruct (abi_pack _ _); [|by injection Ec].
      destruct (GetSequence x modaddr); [|by injection Ec]. simpl in Ec. unfold bind in Ec.
      destruct (ApplyMessage _ false x) as [om x4] eqn:Ea. apply apply_no_commit in Ea as ->.
      destruct om as [r0| |]; [destruct (Failed r0)|..]; unfold fail, ret in Ec; congruence. }
    destruct oc; [injection Ht as <- <-|injection Ht as <- <-|done]; by inv_ok. }
  subst x1. unfold unpack in Hu. destruct o; [|done]. inv_ok. done.
Qed.

(** The bank moves coins that the EVM does not manage: the contracts report the same. *)
Lemma moved_reports c x x' ct a b :
  bank_moves c x x' → amount_of c evm_denom = 0 → reports x ct a b → reports x' ct a b.
Proof.
  intros Hm Hd. unfold reports, BalanceOf, CallEVM, CallEVMWithData, bind, try.
  destruct (abi_pack _ _) as [data|]; [|done].
  destruct (GetSequence x modaddr) as [n|] eqn:En; [|done]. rewrite (bank_keeps_nonces _ _ _ _ _ Hm En).
  set (msg := mkEvmMsg _ _ _ _ _). pose proof (query_ignores_bank msg c x x' Hm Hd) as Hq.
  destruct (ApplyMessage msg false x) as [o x1] eqn:E1, (ApplyMessage msg false x') as [o' x2] eqn:E2.
  apply apply_no_commit in E1 as ->, E2 as ->. simpl in Hq. subst o'.
  destruct o as [r|e|]; [destruct (Failed r)|..]; unfold fail, ret; intros Hr; try done.
  injection Hr as ->. done.
Qed.

Lemma lit_no_evm d0 amt : d0 ≠ evm_denom → amount_of (coins_lit (C := C) d0 amt) evm_denom = 0.
Proof. intros Hne. rewrite amount_lit. by rewrite decide_False by congruence. Qed.

Lemma transfer_move f t c d0 amt x x' :
  transferred f t c x x' → (∀ d, GetSupply (C := C) x' d = GetSupply (C := C) x d) →
  (∀ d, amount_of c d = of_denom d0 d amt) →
  coins_move x x' (λ a d, at_addr a t (of_denom d0 d amt) - at_addr a f (of_denom d0 d amt)) no_mint.
Proof.
  intros T S Ha d _. split.
  - intros a. rewrite T, !Ha. unfold at_addr. repeat case_decide; lia.
  - rewrite S. unfold no_mint. lia.
Qed.

Lemma lit_of_denom d0 amt d : amount_of (coins_lit (C := C) d0 amt) d = of_denom d0 d amt.
Proof. apply amount_lit. Qed.

Lemma escrow_move sender d0 amt x x' :
  SendCoinsFromAccountToModule sender erc20_ModuleName (coins_lit (C := C) d0 amt) x = (Ok tt, x') →
  coins_move x x' (λ a d, at_addr a modaddr (of_denom d0 d amt) - at_addr a sender (of_denom d0 d amt)) no_mint.
Proof.
  intros Hs. eapply transfer_move; [by apply send_acc_mod_ok| |apply lit_of_denom].
  intros d. by eapply send_acc_mod_supply.
Qed.

Lemma release_move receiver d0 amt x x' :
  SendCoinsFromModuleToAccount erc20_ModuleName receiver (coins_lit (C := C) d0 amt) x = (Ok tt, x') →
  coins_move x x' (λ a d, at_addr a receiver (of_denom d0 d amt) - at_addr a modaddr (of_denom d0 d amt)) no_mint.
Proof.
  intros Hs. eapply transfer_move; [by apply send_mod_acc_ok| |apply lit_of_denom].
  intros d. by eapply send_mod_acc_supply.
Qed.

Lemma mint_move d0 amt x x' :
  MintCoins erc20_ModuleName (coins_lit (C := C) d0 amt) x = (Ok tt, x') →
  coins_move x x' (λ a d, at_addr a modaddr (of_denom d0 d amt)) (λ d, of_denom d0 d amt).
Proof.
  intros Hm d _. apply mint_ok in Hm as [B S]. split.
  - intros a. by rewrite B, lit_of_denom.
  - by rewrite S, lit_of_denom.
Qed.

Lemma burn_move d0 amt x x' :
  BurnCoins erc20_ModuleName (coins_lit (C := C) d0 amt) x = (Ok tt, x') →
  coins_move x x' (λ a d, - at_addr a modaddr (of_denom d0 d amt)) (λ d, - of_denom d0 d amt).
Proof.
  intros Hm d _. apply burn_ok in Hm as [B S]. split.
  - intros a. rewrite B, lit_of_denom. unfold ModuleAddress. lia.
  - rewrite S, lit_of_denom. lia.
Qed.

(** ** The four conversions *)

(** Coins of [d0] leave [sender] for the escrow; the receiver's tokens grow. *)
Lemma coin_native_coin_ok tp msg receiver sender x x' :
  convertCoinNativeCoin (C := C) tp msg receiver sender x = (Ok tt, x') →
  let amt := mcc_Amount msg in
  (∃ b, reports x (GetERC20Contract tp) receiver b ∧ reports x' (GetERC20Contract tp) receiver (b + amt)) ∧
  coins_move x x' (λ a d, at_addr a modaddr (of_denom (mcc_Denom msg) d amt)
                          - at_addr a sender (of_denom (mcc_Denom msg) d amt)) no_mint.
Proof.
  unfold convertCoinNativeCoin. intros Hrun. cbv zeta.
  apply bind_ok in Hrun as (b & x0 & Hb & Hrun). apply need_balance_ok in Hb as [-> Hb].
  apply bind_ok in Hrun as ([] & x1 & Hs & Hrun). apply escrow_move in Hs.
  apply bind_ok in Hrun as (res & x2 & Hc & Hrun). apply call_ok in Hc.
  apply bind_ok in Hrun as (b' & x3 & Hb' & Hrun). apply need_balance_ok in Hb' as [-> Hb'].
  apply check_ok in Hrun as [Hcmp ->]. bool_hyps. subst b'. split; [by exists b|].
  eapply coins_move_ext; [exact (coins_move_trans _ _ _ _ _ _ _ Hs Hc)|..];
    intros; unfold no_delta, no_mint; lia.
Qed.

(** The sender's tokens shrink; coins leave the escrow for the receiver. *)
Lemma erc20_native_coin_ok tp msg receiver sender x x' :
  convertERC20NativeCoin (C := C) tp msg receiver sender x = (Ok tt, x') →
  let amt := mce_Amount msg in
  (∃ b, reports x (GetERC20Contract tp) sender b ∧ reports x' (GetERC20Contract tp) sender (b - amt)) ∧
  GetBalance (C := C) x' receiver (Denom tp) = GetBalance (C := C) x receiver (Denom tp) + amt ∧
  coins_move x x' (λ a d, at_addr a receiver (of_denom (Denom tp) d amt)
                          - at_addr a modaddr (of_denom (Denom tp) d amt)) no_mint.
Proof.
  unfold convertERC20NativeCoin. intros Hrun. cbv zeta.
  apply bind_ok in Hrun as (bc & x0 & Hg & Hrun). unfold gets in Hg. injection Hg as <- <-.
  apply bind_ok in Hrun as (b & x0 & Hb & Hrun). apply need_balance_ok in Hb as [-> Hb].
  apply bind_ok in Hrun as (res & x1 & Hc & Hrun). apply call_ok in Hc.
  apply bind_ok in Hrun as ([] & x2 & Hs & Hrun). apply release_move in Hs.
  apply bind_ok in Hrun as (bc' & x0 & Hg & Hrun). unfold gets in Hg. injection Hg as <- <-.
  apply bind_ok in Hrun as ([] & x3 & Hk & Hrun). apply check_ok in Hk as [Hcoin ->].
  apply bind_ok in Hrun as (b' & x3 & Hb' & Hrun). apply need_balance_ok in Hb' as [-> Hb'].
  apply check_ok in Hrun as [Hcmp ->]. bool_hyps. subst b'. split; [by exists b|]. split; [done|].
  eapply coins_move_ext; [exact (coins_move_trans _ _ _ _ _ _ _ Hc Hs)|..];
    intros; unfold no_delta, no_mint; lia.
Qed.

Definition no_approval (res : EvmResult) : Prop :=
  Forall (λ l, head (Topics l) ≠ Some approval_id) (Logs res).

Lemma monitor_ok (res : EvmResult) x x' :
  monitorApprovalEvent res x = (Ok tt, x') → x' = x ∧ no_approval res.
Proof.
  unfold monitorApprovalEvent, no_approval. intros Hm. apply lift_ok in Hm as [Hm ->]. split; [done|].
  induction (Logs res) as [|l ls IH]; simpl in Hm; [constructor|].
  destruct (Topics l) as [|t ts] eqn:Et; [done|].
  destruct (String.eqb_spec t approval_id); [done|]. constructor; [|auto].
  rewrite Et. simpl. congruence.
Qed.

(** Tokens come into the escrow; as many coins are minted for the receiver. *)
Lemma erc20_native_token_ok tp msg receiver sender x x' :
  convertERC20NativeToken (C := C) tp msg receiver sender x = (Ok tt, x') →
  let amt := mce_Amount msg in
  (∃ b, reports x (GetERC20Contract tp) modaddr b ∧
        (Denom tp ≠ evm_denom → reports x' (GetERC20Contract tp) modaddr (b + amt))) ∧
  GetBalance (C := C) x' receiver (Denom tp) = GetBalance (C := C) x receiver (Denom tp) + amt ∧
  coins_move x x' (λ a d, at_addr a receiver (of_denom (Denom tp) d amt))
                  (λ d, of_denom (Denom tp) d amt).
Proof.
  unfold convertERC20NativeToken. intros Hrun. cbv zeta.
  apply bind_ok in Hrun as (bc & x0 & Hg & Hrun). unfold gets in Hg. injection Hg as <- <-.
  apply bind_ok in Hrun as (b & x0 & Hb & Hrun). apply need_balance_ok in Hb as [-> Hb].
  apply bind_ok in Hrun as (data & x0 & Hd & Hrun). unfold unpack in Hd.
  destruct (abi_pack _ _); [|done]. injection Hd as -> <-.
  apply bind_ok in Hrun as (res & x1 & Hc & Hrun). apply (call_data_ok _ _ _ true) in Hc.
  apply bind_ok in Hrun as (ok & x2 & Hd & Hrun). unfold unpack in Hd.
  destruct (unpack_bool _ _); [|done]. injection Hd as -> <-.
  apply bind_ok in Hrun as ([] & x2 & Hk & Hrun). apply check_ok in Hk as [Hok ->].
  apply bind_ok in Hrun as (b' & x2 & Hb' & Hrun). apply need_balance_ok in Hb' as [-> Hb'].
  apply bind_ok in Hrun as ([] & x2 & Hk & Hrun). apply check_ok in Hk as [Hcmp ->].
  apply bind_ok in Hrun as ([] & x2 & Hm & Hrun).
  apply bind_ok in Hrun as ([] & x3 & Hs & Hrun).
  apply bind_ok in Hrun as (bc' & x4 & Hg & Hrun). unfold gets in Hg. injection Hg as <- <-.
  apply bind_ok in Hrun as ([] & x4 & Hk & Hrun). apply check_ok in Hk as [Hcoin ->].
  apply monitor_ok in Hrun as [-> _]. bool_hyps. subst b'. split.
  { exists b. split; [done|]. intros Hd. eapply moved_reports; [eapply bank_pays, Hs|by apply lit_no_evm|].
    eapply moved_reports; [eapply bank_mints, Hm|by apply lit_no_evm|done]. }
  split; [done|]. apply mint_move in Hm. apply release_move in Hs.
  eapply coins_move_ext;
    [exact (coins_move_trans _ _ _ _ _ _ _ (coins_move_trans _ _ _ _ _ _ _ Hc Hm) Hs)|..];
    intros; unfold no_delta, no_mint; lia.
Qed.

(** Coins of the sender are burnt; the receiver's tokens grow. *)
Lemma coin_native_erc20_ok tp msg receiver sender x x' :
  convertCoinNativeERC20 (C := C) tp msg receiver sender x = (Ok tt, x') →
  let amt := mcc_Amount msg in
  (∃ b, reports x (GetERC20Contract tp) receiver b ∧
        (mcc_Denom msg ≠ evm_denom → reports x' (GetERC20Contract tp) receiver (b + amt))) ∧
  coins_move x x' (λ a d, - at_addr a sender (of_denom (mcc_Denom msg) d amt))
                  (λ d, - of_denom (mcc_Denom msg) d amt).
Proof.
  unfold convertCoinNativeERC20. intros Hrun. cbv zeta.
  apply bind_ok in Hrun as (b & x0 & Hb & Hrun). apply need_balance_ok in Hb as [-> Hb].
  apply bind_ok in Hrun as ([] & x1 & Hs & Hrun). apply escrow_move in Hs.
  apply bind_ok in Hrun as (res & x2 & Hc & Hrun). apply call_ok in Hc.
  apply bind_ok in Hrun as (ok & x3 & Hd & Hrun). unfold unpack in Hd.
  destruct (unpack_bool _ _); [|done]. injection Hd as -> <-.
  apply bind_ok in Hrun as ([] & x3 & Hk & Hrun). apply check_ok in Hk as [Hok ->].
  apply bind_ok in Hrun as (b' & x3 & Hb' & Hrun). apply need_balance_ok in Hb' as [-> Hb'].
  apply bind_ok in Hrun as ([] & x3 & Hk & Hrun). apply check_ok in Hk as [Hcmp ->].
  apply bind_ok in Hrun as ([] & x4 & Hm & Hrun).
  apply monitor_ok in Hrun as [-> _]. bool_hyps. subst b'. split.
  { exists b. split; [done|]. intros Hd. eapply moved_reports; [eapply bank_burns, Hm|by apply lit_no_evm|done]. }
  apply burn_move in Hm.
  eapply coins_move_ext;
    [exact (coins_move_trans _ _ _ _ _ _ _ (coins_move_trans _ _ _ _ _ _ _ Hs Hc) Hm)|..];
    intros; unfold no_delta, no_mint; lia.
Qed.

(** ** The message handlers *)

Implicit Types s : erc20_state X.

Definition same_registry s s' : Prop :=
  e_params s' = e_params s ∧ e_pairs s' = e_pairs s ∧ e_byERC20 s' = e_byERC20 s ∧
  e_byDenom s' = e_byDenom s.

Lemma same_registry_trans s s1 s2 : same_registry s s1 → same_registry s1 s2 → same_registry s s2.
Proof.
  unfold same_registry. intros (?&?&?&?) (?&?&?&?). repeat split; congruence.
Qed.

Lemma eext_ok {A} (m : M X A) s a s' :
  eext m s = (Ok a, s') → m (e_ext s) = (Ok a, e_ext s') ∧ same_registry s s'.
Proof. unfold eext. intros Hz. apply zoom_ok in Hz as (x & Hm & ->). done. Qed.

(** The checks that let a conversion through. *)
Definition conversion_allowed s (sender receiver token : string) (tp : TokenPair) : Prop :=
  EnableErc20 (e_params s) = true ∧ GetTokenPair s (GetTokenPairID s token) = Some tp ∧
  Enabled tp = true ∧ BlockedAddr (C := C) (X := X) receiver = false ∧
  (sender = receiver ∨ IsSendEnabledCoin (C := C) (e_ext s) (Denom tp) = true).

Lemma minting_enabled_ok sender receiver token s tp s' :
  MintingEnabled (C := C) sender receiver token s = (Ok tp, s') →
  s' = s ∧ conversion_allowed s sender receiver token tp.
Proof.
  unfold MintingEnabled, erc20_GetParams. intros Hrun. inv_ok.
  match goal with Hm : match ?o with Some _ => _ | None => _ end _ = _ |- _ =>
    destruct o as [tp0|] eqn:Etp; [rename Hm into Hrun|done] end.
  inv_ok. bool_hyps. split; [done|]. unfold conversion_allowed. do 4 (split; [done|]).
  destruct (String.eqb_spec sender receiver); [by left|right].
  by destruct (IsSendEnabledCoin _ _).
Qed.

(** What a successful message ran: the pair was removed with its contract, or one of the
    two conversions of the owner of the contract. *)
Lemma convert_coin_inv msg s r s' :
  ConvertCoin (C := C) msg s = (Ok r, s') →
  let receiver := hex_to_address (mcc_Receiver msg) in
  ∃ sender tp, acc_from_bech32 (mcc_Sender msg) = Some sender ∧
    conversion_allowed s sender receiver (mcc_Denom msg) tp ∧
    match r with
    | None => IsContract (e_ext s) (GetERC20Contract tp) = false ∧ s' = DeleteTokenPair tp s
    | Some _ => same_registry s s' ∧ IsContract (e_ext s) (GetERC20Contract tp) = true ∧
        match ContractOwner tp with
        | OWNER_MODULE => convertCoinNativeCoin (C := C) tp msg receiver sender (e_ext s) = (Ok tt, e_ext s')
        | OWNER_EXTERNAL => convertCoinNativeERC20 (C := C) tp msg receiver sender (e_ext s) = (Ok tt, e_ext s')
        | OWNER_UNSPECIFIED => False
        end
    end.
Proof.
  intros Hrun. cbv zeta. unfold ConvertCoin, must_acc_from_bech32 in Hrun.
  apply bind_ok in Hrun as (sender & s0 & Ha & Hrun). apply lift_ok in Ha as [Ha ->].
  destruct (acc_from_bech32 (mcc_Sender msg)) as [sd|]; [|done]. injection Ha as ->.
  apply bind_ok in Hrun as (tp & s0 & Hm & Hrun). apply minting_enabled_ok in Hm as [-> Hal].
  apply bind_ok in Hrun as (ic & s0 & Hg & Hrun). unfold gets in Hg. injection Hg as <- <-.
  exists sender, tp. do 2 (split; [done|]). fold (GetERC20Contract tp) in Hrun.
  destruct (IsContract (e_ext s) (GetERC20Contract tp)) eqn:Eic; simpl in Hrun; [|by inv_ok].
  unfold IsNativeCoin, IsNativeERC20 in Hrun. destruct (ContractOwner tp); simpl in Hrun; [done|..];
    (apply bind_ok in Hrun as ([] & s1 & He & Hrun); inv_ok; by apply eext_ok in He as [He Hreg]).
Qed.

Lemma convert_erc20_inv msg s r s' :
  ConvertERC20 (C := C) msg s = (Ok r, s') →
  let sender := hex_to_address (mce_Sender msg) in
  ∃ receiver tp, acc_from_bech32 (mce_Receiver msg) = Some receiver ∧
    conversion_allowed s sender receiver (ContractAddress msg) tp ∧
    match r with
    | None => IsContract (e_ext s) (GetERC20Contract tp) = false ∧ s' = DeleteTokenPair tp s
    | Some _ => same_registry s s' ∧ IsContract (e_ext s) (GetERC20Contract tp) = true ∧
        match ContractOwner tp with
        | OWNER_MODULE => convertERC20NativeCoin (C := C) tp msg receiver sender (e_ext s) = (Ok tt, e_ext s')
        | OWNER_EXTERNAL => convertERC20NativeToken (C := C) tp msg receiver sender (e_ext s) = (Ok tt, e_ext s')
        | OWNER_UNSPECIFIED => False
        end
    end.
Proof.
  intros Hrun. cbv zeta. unfold ConvertERC20, must_acc_from_bech32 in Hrun.
  apply bind_ok in Hrun as (receiver & s0 & Ha & Hrun). apply lift_ok in Ha as [Ha ->].
  destruct (acc_from_bech32 (mce_Receiver msg)) as [sd|]; [|done]. injection Ha as ->.
  apply bind_ok in Hrun as (tp & s0 & Hm & Hrun). apply minting_enabled_ok in Hm as [-> Hal].
  apply bind_ok in Hrun as (ic & s0 & Hg & Hrun). unfold gets in Hg. injection Hg as <- <-.
  exists receiver, tp. do 2 (split; [done|]). fold (GetERC20Contract tp) in Hrun.
  destruct (IsContract (e_ext s) (GetERC20Contract tp)) eqn:Eic; simpl in Hrun; [|by inv_ok].
  unfold IsNativeCoin, IsNativeERC20 in Hrun. destruct (ContractOwner tp); simpl in Hrun; [done|..];
    (apply bind_ok in Hrun as ([] & s1 & He & Hrun); inv_ok; by apply eext_ok in He as [He Hreg]).
Qed.

(** C5: a successful [ConvertCoin] was allowed by the module, the pair, the deny
    list and the bank.  If the contract is gone it only removes the pair.
    Otherwise, whatever the contract does, the balance that the contract reports for
    the receiver in the final state is the one it reported at the start plus the amount
    (for coins the EVM does not manage itself), and the coins of the sender went into the
    escrow of the module (coin pairs) or were burnt (token pairs). *)
Theorem convert_coin_effect msg s r s' :
  ConvertCoin (C := C) msg s = (Ok r, s') →
  let receiver := hex_to_address (mcc_Receiver msg) in
  let amt := mcc_Amount msg in
  let x := e_ext s in
  ∃ sender tp, acc_from_bech32 (mcc_Sender msg) = Some sender ∧
    conversion_allowed s sender receiver (mcc_Denom msg) tp ∧
    match r with
    | None => IsContract x (GetERC20Contract tp) = false ∧ s' = DeleteTokenPair tp s
    | Some _ => same_registry s s' ∧ IsContract x (GetERC20Contract tp) = true ∧
        (∃ b, reports x (GetERC20Contract tp) receiver b ∧
              (mcc_Denom msg ≠ evm_denom → reports (e_ext s') (GetERC20Contract tp) receiver (b + amt))) ∧
        match ContractOwner tp with
        | OWNER_MODULE =>
            coins_move x (e_ext s') (λ a d, at_addr a modaddr (of_denom (mcc_Denom msg) d amt)
              - at_addr a sender (of_denom (mcc_Denom msg) d amt)) no_mint
        | OWNER_EXTERNAL =>
            coins_move x (e_ext s') (λ a d, - at_addr a sender (of_denom (mcc_Denom msg) d amt))
              (λ d, - of_denom (mcc_Denom msg) d amt)
        | OWNER_UNSPECIFIED => False
        end
    end.
Proof.
  intros Hrun. apply convert_coin_inv in Hrun as (sender & tp & Ha & Hal & Hr). exists sender, tp.
  do 2 (split; [done|]). destruct r as [u|]; [|done]. destruct Hr as (Hreg & Hic & He). do 2 (split; [done|]).
  destruct (ContractOwner tp); [done|..].
  - apply coin_native_coin_ok in He as [(b & Hb & Hb') Hmv]. split; [by exists b|done].
  - by apply coin_native_erc20_ok in He.
Qed.

(** C6: a successful [ConvertERC20] was allowed in the same way.  If the contract
    is gone it only removes the pair.  Otherwise the receiver's coins grew by the
    amount: released from the escrow against tokens of the sender that the
    contract no longer reports in the final state (coin pairs), or minted against tokens
    that the contract reports for the module in the final state (token pairs, for coins
    the EVM does not manage itself). *)
Theorem convert_erc20_effect msg s r s' :
  ConvertERC20 (C := C) msg s = (Ok r, s') →
  let sender := hex_to_address (mce_Sender msg) in
  let amt := mce_Amount msg in
  let x := e_ext s in
  ∃ receiver tp, acc_from_bech32 (mce_Receiver msg) = Some receiver ∧
    conversion_allowed s sender receiver (ContractAddress msg) tp ∧
    match r with
    | None => IsContract x (GetERC20Contract tp) = false ∧ s' = DeleteTokenPair tp s
    | Some _ => same_registry s s' ∧ IsContract x (GetERC20Contract tp) = true ∧
        GetBalance (C := C) (e_ext s') receiver (Denom tp) =
          GetBalance (C := C) x receiver (Denom tp) + amt ∧
        match ContractOwner tp with
        | OWNER_MODULE =>
            (∃ b, reports x (GetERC20Contract tp) sender b ∧
                  reports (e_ext s') (GetERC20Contract tp) sender (b - amt)) ∧
            coins_move x (e_ext s') (λ a d, at_addr a receiver (of_denom (Denom tp) d amt)
              - at_addr a modaddr (of_denom (Denom tp) d amt)) no_mint
        | OWNER_EXTERNAL =>
            (∃ b, reports x (GetERC20Contract tp) modaddr b ∧
                  (Denom tp ≠ evm_denom → reports (e_ext s') (GetERC20Contract tp) modaddr (b + amt))) ∧
            coins_move x (e_ext s') (λ a d, at_addr a receiver (of_denom (Denom tp) d amt))
              (λ d, of_denom (Denom tp) d amt)
        | OWNER_UNSPECIFIED => False
        end
    end.
Proof.
  intros Hrun. apply convert_erc20_inv in Hrun as (receiver & tp & Ha & Hal & Hr). exists receiver, tp.
  do 2 (split; [done|]). destruct r as [u|]; [|done]. destruct Hr as (Hreg & Hic & He). do 2 (split; [done|]).
  destruct (ContractOwner tp); [done|..].
  - apply erc20_native_coin_ok in He as (Hb & Hc & Hmv). done.
  - apply erc20_native_token_ok in He as (Hb & Hc & Hmv). done.
Qed.

(** ** The registry *)

(** Every pair is stored under its identifier, and both indexes lead to stored pairs of
    the denomination or of the contract they are asked for. *)
Record registry_inv s : Prop := {
  ri_pair id tp : e_pairs s !! id = Some tp → id = GetID tp ∧ String.length (Erc20Address tp) = 42%nat;
  ri_denom d id : e_byDenom s !! d = Some id → ∃ tp, e_pairs s !! id = Some tp ∧ Denom tp = d;
  ri_erc20 a id : e_byERC20 s !! a = Some id → ∃ tp, e_pairs s !! id = Some tp ∧ GetERC20Contract tp = a;
}.

(** Every pair is moreover found through both of its indexes. *)
Record registry_full s : Prop := {
  rf_inv : registry_inv s;
  rf_pair id tp : e_pairs s !! id = Some tp →
    e_byDenom s !! Denom tp = Some id ∧ e_byERC20 s !! GetERC20Contract tp = Some id;
}.

Lemma registry_inv_ext s s' : same_registry s s' → registry_inv s → registry_inv s'.
Proof.
  intros (_ & Ep & Ee & Ed) [H1' H2' H3'].
  constructor; rewrite ?Ep, ?Ee, ?Ed; eauto.
Qed.

Lemma registry_full_ext s s' : same_registry s s' → registry_full s → registry_full s'.
Proof.
  intros Hs [Hi Hf]. constructor; [by eapply registry_inv_ext|]. destruct Hs as (_ & -> & -> & ->). exact Hf.
Qed.

Lemma registry_delete tp s :
  registry_inv s → e_pairs s !! GetID tp = Some tp → registry_inv (DeleteTokenPair tp s).
Proof.
  intros [R1 R2 R3] Htp. constructor; simpl.
  - intros id tp' Hid. apply lookup_delete_Some in Hid as [Hne Hid]. by apply R1.
  - intros d id Hid. apply lookup_delete_Some in Hid as [Hne Hid]. destruct (R2 _ _ Hid) as (tp' & Ht & <-).
    exists tp'. split; [|done]. rewrite lookup_delete_ne; [done|]. intros E. congruence.
  - intros a id Hid. apply lookup_delete_Some in Hid as [Hne Hid]. destruct (R3 _ _ Hid) as (tp' & Ht & <-).
    exists tp'. split; [|done]. rewrite lookup_delete_ne; [done|]. intros E. congruence.
Qed.

Lemma registry_full_delete tp s :
  registry_full s → e_pairs s !! GetID tp = Some tp → registry_full (DeleteTokenPair tp s).
Proof.
  intros [Hi Hf] Htp. constructor; [by apply registry_delete|]. destruct (Hf _ _ Htp) as [Hd He]. simpl.
  intros id tp' Hid. apply lookup_delete_Some in Hid as [Hne Hid]. destruct (Hf _ _ Hid) as [Hd' He'].
  split; (rewrite lookup_delete_ne; [done|]); intros E; [rewrite E in Hd|rewrite E in He]; congruence.
Qed.

Context `{!EthAddressLaws}.

Lemma get_id_inj tp tp' :
  String.length (Erc20Address tp) = 42%nat → String.length (Erc20Address tp') = 42%nat →
  GetID tp = GetID tp' → Erc20Address tp = Erc20Address tp' ∧ Denom tp = Denom tp'.
Proof.
  intros Hl Hl' E. apply hash_inj, append_inj in E as [-> E]; [|congruence].
  split; [done|]. by injection E.
Qed.

Lemma store_pair_ok tp s u s' :
  store_pair tp s = (Ok u, s') →
  s' = SetERC20Map (GetERC20Contract tp) (GetID tp) (SetDenomMap (Denom tp) (GetID tp) (SetTokenPair tp s)).
Proof. unfold store_pair. intros Hrun. inv_ok. done. Qed.

(** Storing a pair overwrites the index entries of its denomination and of its contract. *)
Lemma registry_store tp s s' :
  registry_inv s → String.length (Erc20Address tp) = 42%nat →
  store_pair tp s = (Ok tt, s') → registry_inv s'.
Proof.
  intros [R1 R2 R3] Hl Hrun. apply store_pair_ok in Hrun as ->.
  assert (Hsame : ∀ tp', e_pairs s !! GetID tp = Some tp' →
    Denom tp' = Denom tp ∧ GetERC20Contract tp' = GetERC20Contract tp).
  { intros tp' E. destruct (R1 _ _ E) as [Hid Hl']. apply get_id_inj in Hid as [Ea Ed]; [|done..].
    unfold GetERC20Contract. by rewrite Ea, Ed. }
  constructor; simpl.
  - intros id tp' Hid. apply lookup_insert_Some in Hid as [[<- <-]|[Hne Hid]]; [done|by apply R1].
  - intros d id Hid. apply lookup_insert_Some in Hid as [[<- <-]|[Hne Hid]].
    + exists tp. by rewrite lookup_insert_eq.
    + destruct (R2 _ _ Hid) as (tp' & Ht & Hdd). exists tp'. split; [|done].
      rewrite lookup_insert_ne; [done|]. intros <-. destruct (Hsame _ Ht). congruence.
  - intros a id Hid. apply lookup_insert_Some in Hid as [[<- <-]|[Hne Hid]].
    + exists tp. by rewrite lookup_insert_eq.
    + destruct (R3 _ _ Hid) as (tp' & Ht & Hdd). exists tp'. split; [|done].
      rewrite lookup_insert_ne; [done|]. intros <-. destruct (Hsame _ Ht). congruence.
Qed.

(** A pair of a new denomination and of a new contract leaves the others found. *)
Lemma registry_full_store tp s s' :
  registry_full s → String.length (Erc20Address tp) = 42%nat →
  e_byDenom s !! Denom tp = None → e_byERC20 s !! GetERC20Contract tp = None →
  store_pair tp s = (Ok tt, s') → registry_full s'.
Proof.
  intros [Hi Hf] Hl Hd He Hrun. constructor; [by eapply registry_store|]. apply store_pair_ok in Hrun as ->. simpl.
  intros id tp' Hid. apply lookup_insert_Some in Hid as [[<- <-]|[Hne Hid]]; [by rewrite !lookup_insert_eq|].
  destruct (Hf _ _ Hid) as [Hd' He']. split; rewrite lookup_insert_ne; congruence.
Qed.

Lemma registry_lookup s token tp :
  registry_inv s → GetTokenPair s (GetTokenPairID s token) = Some tp → e_pairs s !! GetID tp = Some tp.
Proof.
  intros [R1 _ _] Ht. unfold GetTokenPair in Ht. destruct (GetTokenPairID s token) as [id|]; [|done].
  destruct (R1 _ _ Ht) as (-> & _). done.
Qed.

Lemma toggle_ok token s tp s' :
  ToggleConversion token s = (Ok tp, s') →
  ∃ tp0, GetTokenPair s (GetTokenPairID s token) = Some tp0 ∧
    tp = mkPair (Erc20Address tp0) (Denom tp0) (negb (Enabled tp0)) (ContractOwner tp0) ∧ s' = SetTokenPair tp s.
Proof.
  intros Hrun. unfold ToggleConversion in Hrun. inv_ok.
  match goal with Hm : match ?o with Some _ => _ | None => _ end _ = _ |- _ =>
    destruct o as [tp0|] eqn:Etp; [rename Hm into Hrun|done] end.
  inv_ok. by exists tp0.
Qed.

Lemma registry_toggle token s tp s' :
  registry_inv s → ToggleConversion token s = (Ok tp, s') → registry_inv s'.
Proof.
  intros Hinv Hrun. apply toggle_ok in Hrun as (tp0 & Etp & -> & ->).
  pose proof (registry_lookup _ _ _ Hinv Etp) as Hst. destruct Hinv as [R1 R2 R3].
  destruct (R1 _ _ Hst) as (_ & Hl). constructor; simpl.
  - intros id tp' Hid. apply lookup_insert_Some in Hid as [[<- <-]|[Hne Hid]]; [done|by apply R1].
  - intros d id Hid. destruct (R2 _ _ Hid) as (tp' & Ht & Hdd).
    destruct (decide (id = GetID tp0)) as [->|Hne].
    + eexists. split; [by apply lookup_insert_eq|]. simpl. congruence.
    + exists tp'. split; [|done]. by rewrite lookup_insert_ne.
  - intros a id Hid. destruct (R3 _ _ Hid) as (tp' & Ht & Hdd).
    destruct (decide (id = GetID tp0)) as [->|Hne].
    + eexists. split; [by apply lookup_insert_eq|]. unfold GetERC20Contract in *. simpl. congruence.
    + exists tp'. split; [|done]. by rewrite lookup_insert_ne.
Qed.

Lemma registry_full_toggle token s tp s' :
  registry_full s → ToggleConversion token s = (Ok tp, s') → registry_full s'.
Proof.
  intros [Hi Hf] Hrun. constructor; [by eapply registry_toggle|].
  apply toggle_ok in Hrun as (tp0 & Etp & -> & ->). pose proof (registry_lookup _ _ _ Hi Etp) as Hst. simpl.
  intros id tp' Hid. apply lookup_insert_Some in Hid as [[<- <-]|[Hne Hid]]; [exact (Hf _ _ Hst)|by apply Hf].
Qed.

Lemma create_metadata_ok contract s m s' :
  CreateCoinMetadata (C := C) contract s = (Ok m, s') →
  same_registry s s' ∧ Name m = CreateDenom (address_hex contract) ∧
  e_byDenom s !! CreateDenom (address_hex contract) = None.
Proof.
  unfold CreateCoinMetadata. intros Hrun.
  apply bind_ok in Hrun as (d & s1 & Hq & Hrun). apply eext_ok in Hq as [_ (E1&E2&E3&E4)].
  apply bind_ok in Hrun as (o & s0 & Hg & Hrun). unfold gets in Hg. injection Hg as <- <-.
  destruct (GetDenomMetaData _ _); [done|].
  apply bind_ok in Hrun as (b & s0 & Hg & Hrun). unfold gets, IsDenomRegistered in Hg. injection Hg as <- <-.
  apply bind_ok in Hrun as ([] & s0 & Hk & Hrun). apply check_ok in Hk as [Hk ->]. bool_hyps.
  destruct (metadata_validate _); [done|].
  apply bind_ok in Hrun as ([] & s2 & He & Hrun). apply eext_ok in He as [_ (F1&F2&F3&F4)]. inv_ok.
  split; [unfold same_registry; repeat split; congruence|]. split; [by destruct (0 <? Decimals d)|].
  rewrite <- E4. by apply eq_None_not_Some.
Qed.

Lemma register_erc20_ok contract s tp s' :
  String.length contract = 20%nat → RegisterERC20 (C := C) contract s = (Ok tp, s') →
  ∃ s1, same_registry s s1 ∧ String.length (Erc20Address tp) = 42%nat ∧
    e_byDenom s1 !! Denom tp = None ∧ e_byERC20 s1 !! GetERC20Contract tp = None ∧
    store_pair tp s1 = (Ok tt, s').
Proof.
  intros Hlen Hrun. unfold RegisterERC20, erc20_GetParams in Hrun.
  apply bind_ok in Hrun as (p & s0 & Hg & Hrun). unfold gets in Hg. injection Hg as <- <-.
  apply bind_ok in Hrun as ([] & s0 & Hk & Hrun). apply check_ok in Hk as [_ ->].
  apply bind_ok in Hrun as (b & s0 & Hg & Hrun). unfold gets, IsERC20Registered in Hg. injection Hg as <- <-.
  apply bind_ok in Hrun as ([] & s0 & Hk & Hrun). apply check_ok in Hk as [Hk ->]. bool_hyps.
  apply bind_ok in Hrun as (m & s1 & Hm & Hrun). apply create_metadata_ok in Hm as (Hreg & Hname & Hfresh).
  apply bind_ok in Hrun as ([] & s2 & Hst & Hrun). inv_ok. pose proof Hreg as (E1&E2&E3&E4).
  exists s1. split; [done|]. simpl. split; [by apply hex_length|]. split; [by rewrite E4, Hname|]. split; [|done].
  unfold GetERC20Contract. simpl. rewrite hex_roundtrip by done. rewrite E3. by apply eq_None_not_Some.
Qed.

Lemma deploy_addr md x a x' :
  DeployERC20Contract (C := C) md x = (Ok a, x') → ∃ n, a = create_address modaddr n.
Proof.
  unfold DeployERC20Contract. destruct (abi_pack _ _); [|done]. intros Hrun.
  apply bind_ok in Hrun as (n & x1 & _ & Hrun). apply bind_ok in Hrun as (r & x2 & _ & Hrun). inv_ok.
  by exists n.
Qed.

Lemma register_coin_ok md s tp s' :
  RegisterCoin (C := C) md s = (Ok tp, s') →
  ∃ n s1, EnableErc20 (e_params s) = true ∧ contains_evm (Base md) = false ∧
    IsDenomRegistered s (Name md) = false ∧ HasSupply (e_ext s) (Base md) = true ∧
    tp = NewTokenPair (create_address modaddr n) (Base md) true OWNER_MODULE ∧
    same_registry s s1 ∧ store_pair tp s1 = (Ok tt, s').
Proof.
  intros Hrun. unfold RegisterCoin, erc20_GetParams in Hrun.
  apply bind_ok in Hrun as (p & s0 & Hg & Hrun). unfold gets in Hg. injection Hg as <- <-.
  apply bind_ok in Hrun as ([] & s0 & Hk1 & Hrun). apply check_ok in Hk1 as [Hk1 ->].
  apply bind_ok in Hrun as ([] & s0 & Hk2 & Hrun). apply check_ok in Hk2 as [Hk2 ->].
  apply bind_ok in Hrun as (b & s0 & Hg & Hrun). unfold gets in Hg. injection Hg as <- <-.
  apply bind_ok in Hrun as ([] & s0 & Hk3 & Hrun). apply check_ok in Hk3 as [Hk3 ->].
  apply bind_ok in Hrun as (b & s0 & Hg & Hrun). unfold gets in Hg. injection Hg as <- <-.
  apply bind_ok in Hrun as ([] & s0 & Hk4 & Hrun). apply check_ok in Hk4 as [Hk4 ->].
  apply bind_ok in Hrun as (r & s1 & Ht & Hrun).
  apply try_ok in Ht as [([] & -> & Ht)|(e & -> & _)]; [|done]. apply eext_ok in Ht as [_ Hr1].
  apply bind_ok in Hrun as (a & s2 & Hd & Hrun). apply eext_ok in Hd as [Hd Hr2].
  apply deploy_addr in Hd as [n ->].
  apply bind_ok in Hrun as ([] & s3 & Hst & Hrun). inv_ok. exists n, s2. apply negb_false_iff in Hk1, Hk4.
  do 5 (split; [done|]). split; [by eapply same_registry_trans|done].
Qed.

(** The first registration of a denomination, with a new contract. *)
Lemma registry_register_coin md s tp s' :
  RegisterCoin (C := C) md s = (Ok tp, s') →
  (registry_inv s → registry_inv s') ∧
  (registry_full s → IsDenomRegistered s (Base md) = false → IsERC20Registered s (GetERC20Contract tp) = false →
   registry_full s').
Proof.
  intros Hrun. apply register_coin_ok in Hrun as (n & s1 & _ & _ & _ & _ & Htp & Hr & Hst).
  assert (Hl : String.length (Erc20Address tp) = 42%nat) by (rewrite Htp; apply hex_length, create_length). split.
  - intros Hinv. eapply registry_store; [by eapply registry_inv_ext|done|exact Hst].
  - unfold IsDenomRegistered, IsERC20Registered. intros Hf Hd He. bool_hyps. pose proof Hr as (E1 & E2 & E3 & E4).
    eapply registry_full_store; [by eapply registry_full_ext|done|..|exact Hst];
      rewrite ?E3, ?E4; apply eq_None_not_Some; [by rewrite Htp|done].
Qed.

(** A successful [RegisterCoin] stores an enabled pair owned by the module for
    the base denomination and a freshly computed contract address, under both
    indexes, and keeps every other pair.  The test for an existing registration
    looks at the metadata's name and not at the base: a base denomination that is
    registered already gets a second pair, and its index entry is overwritten. *)
Lemma register_coin_effect md s tp s' :
  RegisterCoin (C := C) md s = (Ok tp, s') →
  EnableErc20 (e_params s) = true ∧ contains_evm (Base md) = false ∧
  IsDenomRegistered s (Name md) = false ∧ HasSupply (e_ext s) (Base md) = true ∧
  (∃ n, tp = mkPair (address_hex (create_address modaddr n)) (Base md) true OWNER_MODULE ∧
        GetERC20Contract tp = create_address modaddr n) ∧
  GetTokenPair s' (GetDenomMap s' (Base md)) = Some tp ∧
  GetTokenPair s' (GetERC20Map s' (GetERC20Contract tp)) = Some tp ∧
  ∀ id, id ≠ GetID tp → e_pairs s' !! id = e_pairs s !! id.
Proof.
  intros Hrun. apply register_coin_ok in Hrun as (n & s1 & ? & ? & ? & ? & Htp & (_ & E & _) & Hst).
  do 4 (split; [done|]). split.
  { exists n. subst tp. split; [done|]. unfold GetERC20Contract. simpl. apply hex_roundtrip, create_length. }
  apply store_pair_ok in Hst as ->. unfold GetTokenPair, GetDenomMap, GetERC20Map. simpl.
  assert (Denom tp = Base md) as <- by (by subst tp).
  rewrite !lookup_insert_eq, <- E. do 2 (split; [done|]). intros id Hid. by rewrite lookup_insert_ne.
Qed.

(** ** The hook *)

Lemma coins_move_refl x : coins_move x x no_delta no_mint.
Proof. intros d _. unfold no_delta, no_mint. split; [intros a|]; lia. Qed.

Lemma call_any f c method args x o x' :
  CallEVM (C := C) f c true method args x = (o, x') → coins_move x x' no_delta no_mint.
Proof.
  unfold CallEVM, CallEVMWithData. intros Hc.
  assert (x' = x ∨ ∃ msg om, ApplyMessage msg true x = (om, x')) as [->|(msg & om & Ha)].
  { destruct (abi_pack method args); [|injection Hc as _ <-; by left].
    destruct (GetSequence x f); [|injection Hc as _ <-; by left].
    destruct (EstimateGas x f (Some c) s); [|injection Hc as _ <-; by left..].
    unfold bind in Hc. destruct (ApplyMessage _ true x) as [om x1] eqn:Ea. right. do 2 eexists.
    rewrite Ea. destruct om as [r| |]; [destruct (Failed r)|..]; unfold fail, ret in Hc; by simplify_eq. }
  - apply coins_move_refl.
  - intros d Hd. unfold no_delta, no_mint. split; [intros a|]; rewrite Z.add_0_r.
    + by eapply apply_balances.
    + by eapply apply_supply.
Qed.

(** What the hook does with [amt] tokens of the pair [tp] that [from] sent to the module:
    it burns them (coin pairs) or mints as many coins (token pairs), and then pays
    [from].  Each half is tried; the coins stay where they are when it fails. *)
Inductive hook_outcome (tp : TokenPair) (contract from : string) (amt : Z) x x' : Prop :=
  | hook_refused :
      (* the contract does not burn, the bank does not mint, or the pair has no owner *)
      match ContractOwner tp with
      | OWNER_MODULE => ∃ e, CallEVM (C := C) modaddr contract true "burn" [ArgInt amt] x = (Err e, x')
      | OWNER_EXTERNAL => ∃ e, MintCoins erc20_ModuleName (coins_lit (C := C) (Denom tp) amt) x = (Err e, x')
      | OWNER_UNSPECIFIED => x' = x
      end →
      coins_move x x' no_delta no_mint → hook_outcome tp contract from amt x x'
  | hook_released res x1 :
      ContractOwner tp = OWNER_MODULE →
      CallEVM (C := C) modaddr contract true "burn" [ArgInt amt] x = (Ok res, x1) →
      SendCoinsFromModuleToAccount erc20_ModuleName from (coins_lit (C := C) (Denom tp) amt) x1 = (Ok tt, x') →
      coins_move x x' (λ a d, at_addr a from (of_denom (Denom tp) d amt)
                              - at_addr a modaddr (of_denom (Denom tp) d amt)) no_mint →
      hook_outcome tp contract from amt x x'
  | hook_unpaid res :
      (* the tokens were burnt, but the escrow cannot pay *)
      ContractOwner tp = OWNER_MODULE →
      CallEVM (C := C) modaddr contract true "burn" [ArgInt amt] x = (Ok res, x') →
      BlockedAddr (C := C) (X := X) from = true ∨ denom_valid (C := C) (Denom tp) = false ∨
        GetBalance (C := C) x' modaddr (Denom tp) < amt →
      coins_move x x' no_delta no_mint → hook_outcome tp contract from amt x x'
  | hook_minted x1 :
      ContractOwner tp = OWNER_EXTERNAL →
      MintCoins erc20_ModuleName (coins_lit (C := C) (Denom tp) amt) x = (Ok tt, x1) →
      SendCoinsFromModuleToAccount erc20_ModuleName from (coins_lit (C := C) (Denom tp) amt) x1 = (Ok tt, x') →
      coins_move x x' (λ a d, at_addr a from (of_denom (Denom tp) d amt))
                      (λ d, of_denom (Denom tp) d amt) →
      hook_outcome tp contract from amt x x'
  | hook_stuck :
      (* the coins were minted but [from] may not receive them: they stay with the module *)
      ContractOwner tp = OWNER_EXTERNAL →
      MintCoins erc20_ModuleName (coins_lit (C := C) (Denom tp) amt) x = (Ok tt, x') →
      BlockedAddr (C := C) (X := X) from = true ∨ denom_valid (C := C) (Denom tp) = false →
      coins_move x x' (λ a d, at_addr a modaddr (of_denom (Denom tp) d amt))
                      (λ d, of_denom (Denom tp) d amt) →
      hook_outcome tp contract from amt x x'.

(** A log that asks for a conversion: a positive transfer to the module from an
    enabled registered pair. *)
Definition asks_conversion s (log : EvmLog) (tp : TokenPair) (from : string) (amt : Z) : Prop :=
  ∃ t0 t1 t2, Topics log = [t0; t1; t2] ∧ event_by_id t0 = Some "Transfer"%string ∧
    unpack_transfer (log_Data log) = Some amt ∧ 0 < amt ∧ from = topic_address t1 ∧
    topic_address t2 = modaddr ∧ Enabled tp = true ∧ id_missing (GetERC20Map s (log_Address log)) = false ∧
    GetTokenPair s (GetERC20Map s (log_Address log)) = Some tp.

Definition asks_nothing s (log : EvmLog) : Prop := ∀ tp from amt, ¬ asks_conversion s log tp from amt.

(** A transfer out of the module that the bank refuses. *)
Lemma release_refused receiver d0 amt x e x' :
  SendCoinsFromModuleToAccount erc20_ModuleName receiver (coins_lit (C := C) d0 amt) x = (Err e, x') → 0 < amt →
  x' = x ∧ (BlockedAddr (C := C) (X := X) receiver = true ∨ denom_valid (C := C) d0 = false ∨
            GetBalance (C := C) x modaddr d0 < amt).
Proof.
  intros Hs Hpos. split; [by eapply send_mod_acc_lit_err|].
  destruct (BlockedAddr receiver) eqn:Eb; [by left|right].
  destruct (denom_valid d0) eqn:Ed; [right|by left].
  destruct (Z.lt_ge_cases (GetBalance (C := C) x modaddr d0) amt) as [Hlt|Hge]; [done|exfalso].
  destruct (send_mod_acc_total erc20_ModuleName receiver (coins_lit (C := C) d0 amt) x) as [x2 Hok];
    [by apply valid_lit| |done|congruence].
  intros d. rewrite amount_lit. case_decide; [by subst d|apply balance_nonneg].
Qed.

Lemma eext_err {A} (m : M X A) s e s' :
  eext m s = (Err e, s') → m (e_ext s) = (Err e, e_ext s') ∧ same_registry s s'.
Proof. unfold eext, zoom. destruct (m (e_ext s)) as [o x]. intros E. by injection E as -> <-. Qed.

(** The hook's treatment of a log that asks for a conversion. *)
Definition hook_convert_log (tp : TokenPair) (contract from : string) (amt : Z) : M (erc20_state X) unit :=
  let! r := try (match ContractOwner tp with
                 | OWNER_MODULE => eext (CallEVM (C := C) modaddr contract true "burn" [ArgInt amt]) ;;; ret tt
                 | OWNER_EXTERNAL => eext (MintCoins erc20_ModuleName (coins_lit (C := C) (Denom tp) amt))
                 | OWNER_UNSPECIFIED => fail ErrUndefinedOwner
                 end) in
  match r with
  | inr _ => ret tt
  | inl _ =>
      let! r := try (eext (SendCoinsFromModuleToAccount erc20_ModuleName from (coins_lit (C := C) (Denom tp) amt))) in
      ret tt
  end.

(** A log that is skipped: its tests contradict a request. *)
Local Ltac no_request :=
  left; split; [|done]; intros ? ? ? (? & ? & ? & ? & ? & ? & ? & ? & ? & ? & ? & ?);
  simplify_eq; first [done|congruence|lia].

(** Which logs reach it. *)
Lemma hook_log_cases log s :
  (asks_nothing s log ∧ hook_log (C := C) log s = (Ok tt, s)) ∨
  ∃ tp from amt, asks_conversion s log tp from amt ∧
    hook_log (C := C) log s = hook_convert_log tp (log_Address log) from amt s.
Proof.
  unfold hook_log, asks_nothing, asks_conversion.
  destruct (Topics log) as [|t0 [|t1 [|t2 [|? ?]]]] eqn:Et; try no_request.
  case_bool_decide as Eev; simpl; [|no_request].
  destruct (unpack_transfer (log_Data log)) as [amt|] eqn:Ea; [|no_request].
  destruct (Z.ltb_spec 0 amt); simpl; [|no_request].
  unfold bind at 1 3, gets at 1 2.
  destruct (id_missing _) eqn:Eid; [no_request|]. unfold bind at 1 2, gets.
  destruct (GetTokenPair s _) as [tp|] eqn:Etp; [|no_request].
  destruct (String.eqb_spec (topic_address t2) modaddr) as [Hto|]; simpl; [|no_request].
  destruct (Enabled tp) eqn:Een; simpl; [|no_request].
  right. exists tp, (topic_address t1), amt. split; [exists t0, t1, t2; naive_solver|].
  unfold bind at 1. rewrite Eid. unfold bind at 1. by rewrite Etp, Een.
Qed.

Lemma hook_coin_pair tp contract from amt s s' :
  ContractOwner tp = OWNER_MODULE → 0 < amt → hook_convert_log tp contract from amt s = (Ok tt, s') →
  same_registry s s' ∧ hook_outcome tp contract from amt (e_ext s) (e_ext s').
Proof.
  unfold hook_convert_log. intros Eo Hpos Hrun. rewrite Eo in Hrun.
  apply bind_ok in Hrun as (r & s1 & Ht & Hrun). apply try_ok in Ht as [([] & -> & Hm)|(e & -> & Hm)].
  - apply bind_ok in Hm as (res & s2 & Hc & Hm). inv_ok. apply eext_ok in Hc as [Hc Hr].
    pose proof (call_ok _ _ _ _ _ _ _ Hc) as Hmv.
    match goal with Ht : try _ _ = _ |- _ => apply try_ok in Ht as [([] & -> & Hs)|(e & -> & Hs)] end.
    + apply eext_ok in Hs as [Hs Hr2]. split; [by eapply same_registry_trans|].
      eapply hook_released; [done|exact Hc|exact Hs|]. apply release_move in Hs.
      eapply coins_move_ext; [exact (coins_move_trans _ _ _ _ _ _ _ Hmv Hs)|..]; intros; unfold no_delta, no_mint; lia.
    + apply eext_err in Hs as [Hs Hr2]. split; [by eapply same_registry_trans|].
      apply release_refused in Hs as [-> Hwhy]; [|done]. by eapply hook_unpaid.
  - inv_ok. unfold bind in Hm. destruct (eext _ s) as [[r|e1|] s1] eqn:Hc; [done| |done].
    injection Hm as -> ->. apply eext_err in Hc as [Hc Hr]. split; [done|].
    apply hook_refused; [rewrite Eo; by eexists|by eapply call_any].
Qed.

Lemma hook_token_pair tp contract from amt s s' :
  ContractOwner tp = OWNER_EXTERNAL → 0 < amt → hook_convert_log tp contract from amt s = (Ok tt, s') →
  same_registry s s' ∧ hook_outcome tp contract from amt (e_ext s) (e_ext s').
Proof.
  unfold hook_convert_log. intros Eo Hpos Hrun. rewrite Eo in Hrun.
  apply bind_ok in Hrun as (r & s1 & Ht & Hrun). apply try_ok in Ht as [([] & -> & Hm)|(e & -> & Hm)].
  - apply eext_ok in Hm as [Hm Hr]. pose proof (mint_move _ _ _ _ Hm) as Hmv. inv_ok.
    match goal with Ht : try _ _ = _ |- _ => apply try_ok in Ht as [([] & -> & Hs)|(e & -> & Hs)] end.
    + apply eext_ok in Hs as [Hs Hr2]. split; [by eapply same_registry_trans|].
      eapply hook_minted; [done|exact Hm|exact Hs|]. apply release_move in Hs.
      eapply coins_move_ext; [exact (coins_move_trans _ _ _ _ _ _ _ Hmv Hs)|..]; intros; unfold no_delta, no_mint; lia.
    + apply eext_err in Hs as [Hs Hr2]. split; [by eapply same_registry_trans|].
      apply release_refused in Hs as [-> Hwhy]; [|done]. apply hook_stuck; [done|done| |done].
      destruct Hwhy as [?|[?|Hlt]]; [by left|by right|exfalso]. apply mint_ok in Hm as [B _].
      pose proof (balance_nonneg (C := C) (e_ext s) modaddr (Denom tp)). specialize (B modaddr (Denom tp)).
      rewrite amount_lit in B. unfold at_addr, ModuleAddress in *. rewrite !decide_True in B by done. lia.
  - inv_ok. apply eext_err in Hm as [Hm Hr]. split; [done|]. pose proof (mint_lit_err _ _ _ _ _ _ Hm) as E.
    apply hook_refused; [rewrite Eo; by eexists|rewrite E; apply coins_move_refl].
Qed.

Lemma hook_log_ok log s s' :
  hook_log (C := C) log s = (Ok tt, s') →
  same_registry s s' ∧
  ((asks_nothing s log ∧ s' = s) ∨
   ∃ tp from amt, asks_conversion s log tp from amt ∧
     hook_outcome tp (log_Address log) from amt (e_ext s) (e_ext s')).
Proof.
  destruct (hook_log_cases log s) as [[Hno ->]|(tp & from & amt & Hask & ->)]; intros Hrun.
  { injection Hrun as <-. split; [done|by left]. }
  assert (Hpos : 0 < amt) by (by destruct Hask as (? & ? & ? & _ & _ & _ & ? & _)).
  assert (Hout : same_registry s s' ∧ hook_outcome tp (log_Address log) from amt (e_ext s) (e_ext s')).
  { destruct (ContractOwner tp) eqn:Eo; [|by apply hook_coin_pair|by apply hook_token_pair].
    unfold hook_convert_log in Hrun. rewrite Eo in Hrun. injection Hrun as <-. split; [done|].
    apply hook_refused; [by rewrite Eo|apply coins_move_refl]. }
  destruct Hout as [Hr Ho]. split; [done|]. right. by exists tp, from, amt.
Qed.

Lemma hooks_same_registry logs s s' :
  erc20_PostTxProcessing (C := C) logs s = (Ok tt, s') → same_registry s s'.
Proof.
  unfold erc20_PostTxProcessing, erc20_GetParams. intros Hrun.
  apply bind_ok in Hrun as (p & s0 & Hg & Hrun). unfold gets in Hg. injection Hg as <- <-.
  destruct (_ || _); [by inv_ok|].
  revert s Hrun. induction logs as [|l logs IH]; intros s Hrun; simpl in Hrun; [by inv_ok|].
  apply bind_ok in Hrun as ([] & s1 & Hl & Hrun). apply hook_log_ok in Hl as [Hr _].
  apply IH in Hrun. by eapply same_registry_trans.
Qed.

Lemma hook_log_never_err log : never_err (hook_log (C := C) log).
Proof.
  unfold hook_log.
  repeat (case_match; try apply never_err_ret);
    repeat (apply never_err_bind; [first [apply never_err_gets|apply never_err_try]|intros];
            repeat (case_match; try apply never_err_ret); try apply never_err_ret).
Qed.

Lemma hooks_never_err logs : never_err (erc20_PostTxProcessing (C := C) logs).
Proof.
  unfold erc20_PostTxProcessing. apply never_err_bind; [apply never_err_gets|]. intros p.
  destruct (_ || _); [apply never_err_ret|]. induction logs as [|l logs IH]; [apply never_err_ret|].
  apply never_err_bind; [apply hook_log_never_err|]. intros _. apply IH.
Qed.

(** The logs in turn: one conversion for each that asks for it, nothing for the others. *)
Inductive hook_run : list EvmLog → erc20_state X → erc20_state X → Prop :=
  | hook_done s : hook_run [] s s
  | hook_skip log logs s s' : asks_nothing s log → hook_run logs s s' → hook_run (log :: logs) s s'
  | hook_convert log logs s s1 s' tp from amt :
      asks_conversion s log tp from amt → same_registry s s1 →
      hook_outcome tp (log_Address log) from amt (e_ext s) (e_ext s1) →
      hook_run logs s1 s' → hook_run (log :: logs) s s'.

Lemma hook_logs_run logs s s' : foreach logs (hook_log (C := C)) s = (Ok tt, s') → hook_run logs s s'.
Proof.
  revert s. induction logs as [|l logs IH]; intros s Hrun; simpl in Hrun; [inv_ok; constructor|].
  apply bind_ok in Hrun as ([] & s1 & Hl & Hrun). apply IH in Hrun.
  apply hook_log_ok in Hl as [Hr [[Hno ->]|(tp & from & amt & Ha & Ho)]]; [by apply hook_skip|].
  by eapply hook_convert.
Qed.

(** C33: the hook never fails a transaction with an error and keeps the registry, and it
    does nothing when the module or its hook is disabled.  Otherwise it goes through the
    logs in order, skips exactly those that are not a positive transfer of an enabled
    registered token to the module, and converts each of the others: it has the contract
    burn the tokens and releases as many escrowed coins to the sender (coin pairs), or
    mints as many coins for the sender (token pairs).  A conversion is left undone only
    when the contract refuses to burn or the bank refuses to mint (nothing moves then), or
    left half done when the sender is a blocked address, the denomination is invalid or the
    escrow is too small: then the burnt tokens are not paid, or the minted coins stay with
    the module.  No coin outside the pair is touched. *)
Theorem hook_converts_transfers logs s o s' :
  erc20_PostTxProcessing (C := C) logs s = (o, s') →
  (∀ e, o ≠ Err e) ∧
  (o = Ok tt → same_registry s s' ∧
     if EnableErc20 (e_params s) && EnableEVMHook (e_params s) then hook_run logs s s' else s' = s).
Proof.
  intros Hrun. split.
  { intros e ->. apply (hooks_never_err logs s e). by rewrite Hrun. }
  intros ->. split; [by eapply hooks_same_registry|]. unfold erc20_PostTxProcessing, erc20_GetParams in Hrun.
  apply bind_ok in Hrun as (p & s0 & Hg & Hrun). unfold gets in Hg. injection Hg as <- <-.
  destruct (EnableErc20 _), (EnableEVMHook _); simpl in *; [by apply hook_logs_run|by inv_ok..].
Qed.

(** ** Reachable registries *)

(** The steps of the module: its messages, proposals, hook and parameters, and any change
    outside of its store.  The address of a contract has twenty bytes. *)
Inductive erc20_step : erc20_state X → erc20_state X → Prop :=
  | st_convert_coin msg s r s' : ConvertCoin (C := C) msg s = (Ok r, s') → erc20_step s s'
  | st_convert_erc20 msg s r s' : ConvertERC20 (C := C) msg s = (Ok r, s') → erc20_step s s'
  | st_toggle token s tp s' : ToggleConversion token s = (Ok tp, s') → erc20_step s s'
  | st_register_erc20 contract s tp s' :
      String.length contract = 20%nat →
      RegisterERC20 (C := C) contract s = (Ok tp, s') → erc20_step s s'
  | st_register_coin md s tp s' : RegisterCoin (C := C) md s = (Ok tp, s') → erc20_step s s'
  | st_hook logs s s' : erc20_PostTxProcessing (C := C) logs s = (Ok tt, s') → erc20_step s s'
  | st_params p s : erc20_step s (erc20_SetParams p s)
  | st_other x s : erc20_step s (mkErc20 (e_params s) (e_pairs s) (e_byERC20 s) (e_byDenom s) x).

(** A coin is registered whose base denomination, or whose new contract, has a pair. *)
Definition registered_again s s' : Prop :=
  ∃ md tp, RegisterCoin (C := C) md s = (Ok tp, s') ∧
    (IsDenomRegistered s (Base md) = true ∨ IsERC20Registered s (GetERC20Contract tp) = true).

Lemma convert_registry s s' (r : option unit) sender receiver token tp :
  conversion_allowed s sender receiver token tp →
  match r with None => s' = DeleteTokenPair tp s | Some _ => same_registry s s' end →
  (registry_inv s → registry_inv s') ∧ (registry_full s → registry_full s').
Proof.
  intros (_ & Htp & _) Hr. destruct r.
  - split; intros; [by eapply registry_inv_ext|by eapply registry_full_ext].
  - subst s'. split; intros Hs; [apply registry_delete|apply registry_full_delete]; try done;
      eapply registry_lookup; try done. apply Hs.
Qed.

Lemma convert_coin_registry msg s r s' :
  ConvertCoin (C := C) msg s = (Ok r, s') →
  ∃ sender receiver token tp, conversion_allowed s sender receiver token tp ∧
    match r with None => s' = DeleteTokenPair tp s | Some _ => same_registry s s' end.
Proof.
  intros Hrun. apply convert_coin_inv in Hrun as (sender & tp & _ & Hal & Hr). do 4 eexists. split; [exact Hal|].
  by destruct r; destruct Hr.
Qed.

Lemma convert_erc20_registry msg s r s' :
  ConvertERC20 (C := C) msg s = (Ok r, s') →
  ∃ sender receiver token tp, conversion_allowed s sender receiver token tp ∧
    match r with None => s' = DeleteTokenPair tp s | Some _ => same_registry s s' end.
Proof.
  intros Hrun. apply convert_erc20_inv in Hrun as (receiver & tp & _ & Hal & Hr). do 4 eexists. split; [exact Hal|].
  by destruct r; destruct Hr.
Qed.

Lemma registry_step s s' :
  erc20_step s s' →
  (registry_inv s → registry_inv s') ∧ (registry_full s → registry_full s' ∨ registered_again s s').
Proof.
  intros [msg s1 r s2 Hrun|msg s1 r s2 Hrun|t s1 tp s2 Hrun|c s1 tp s2 Hl Hrun|md s1 tp s2 Hrun|logs s1 s2 Hrun|p s1|x s1].
  - apply convert_coin_registry in Hrun as (? & ? & ? & ? & Hal & Hr).
    destruct (convert_registry _ _ _ _ _ _ _ Hal Hr). auto.
  - apply convert_erc20_registry in Hrun as (? & ? & ? & ? & Hal & Hr).
    destruct (convert_registry _ _ _ _ _ _ _ Hal Hr). auto.
  - split; intros Hs; [by eapply registry_toggle|left; by eapply registry_full_toggle].
  - apply register_erc20_ok in Hrun as (s3 & Hreg & Hlen & Hd & He & Hst); [|done].
    split; intros Hs.
    + eapply registry_store; [by eapply registry_inv_ext|done|exact Hst].
    + left. eapply registry_full_store; [by eapply registry_full_ext|done..|exact Hst].
  - destruct (registry_register_coin _ _ _ _ Hrun) as [Hi Hf]. split; [done|]. intros Hs.
    destruct (IsDenomRegistered s1 (Base md)) eqn:Ed; [right; exists md, tp; auto|].
    destruct (IsERC20Registered s1 (GetERC20Contract tp)) eqn:Ee; [right; exists md, tp; auto|]. auto.
  - apply hooks_same_registry in Hrun. split; intros Hs; [|left]; eauto using registry_inv_ext, registry_full_ext.
  - split; [by intros []; constructor|]. intros [[] Hf]. left. by constructor.
  - split; [by intros []; constructor|]. intros [[] Hf]. left. by constructor.
Qed.

Lemma registry_reachable s s' : rtc erc20_step s s' → registry_inv s → registry_inv s'.
Proof. induction 1 as [|s s1 s' Hst _ IH]; [done|]. intros Hs. by apply IH, (proj1 (registry_step _ _ Hst)). Qed.

(** The pairs stay found, up to the first coin that is registered again. *)
Lemma registry_full_reachable s s' :
  rtc erc20_step s s' → registry_full s →
  registry_full s' ∨
  ∃ s1 s2, rtc erc20_step s s1 ∧ registry_full s1 ∧ registered_again s1 s2 ∧ rtc erc20_step s2 s'.
Proof.
  induction 1 as [s|s s1 s' Hst Hrest IH]; intros Hs; [by left|].
  destruct (proj2 (registry_step _ _ Hst) Hs) as [Hs1|Ha]; [|right; by exists s, s1].
  destruct (IH Hs1) as [?|(s2 & s3 & Hr & Hf & Ha & Hr')]; [by left|right]. exists s2, s3.
  split; [by eapply rtc_l|done].
Qed.

Lemma registry_full_unique s id tp :
  registry_full s → e_pairs s !! id = Some tp →
  GetTokenPair s (GetDenomMap s (Denom tp)) = Some tp ∧
  GetTokenPair s (GetERC20Map s (GetERC20Contract tp)) = Some tp ∧
  ∀ id' tp', e_pairs s !! id' = Some tp' →
    Denom tp' = Denom tp ∨ GetERC20Contract tp' = GetERC20Contract tp → id' = id ∧ tp' = tp.
Proof.
  intros [_ Hf] Hid. destruct (Hf _ _ Hid) as [Hd He].
  unfold GetTokenPair, GetDenomMap, GetERC20Map. rewrite Hd, He. do 2 (split; [done|]).
  intros id' tp' Hid' Hor. destruct (Hf _ _ Hid') as (Hd' & He').
  assert (id' = id) as -> by (destruct Hor as [E|E]; rewrite E in *; congruence). split; [done|congruence].
Qed.

(** C8: from an empty registry, after any sequence of conversions, registrations,
    toggles, hooks, parameter changes and changes outside the module, every pair is
    stored under its own identifier, and an entry of either index leads to a stored pair
    of that denomination or of that contract.  Moreover every pair is found through its
    denomination and through its contract, and two pairs that share either are the same
    pair, unless in the course of the sequence, after such a state, a coin was registered
    again: its base denomination (which the check of [RegisterCoin] does not look at) or
    its new contract had a pair already. *)
Theorem registry_consistent s0 s :
  e_pairs s0 = ∅ → e_byDenom s0 = ∅ → e_byERC20 s0 = ∅ → rtc erc20_step s0 s →
  (∀ id tp, e_pairs s !! id = Some tp → id = GetID tp) ∧
  (∀ d id, GetDenomMap s d = Some id → ∃ tp, GetTokenPair s (Some id) = Some tp ∧ Denom tp = d) ∧
  (∀ a id, GetERC20Map s a = Some id → ∃ tp, GetTokenPair s (Some id) = Some tp ∧ GetERC20Contract tp = a) ∧
  ((∀ id tp, e_pairs s !! id = Some tp →
      GetTokenPair s (GetDenomMap s (Denom tp)) = Some tp ∧
      GetTokenPair s (GetERC20Map s (GetERC20Contract tp)) = Some tp ∧
      ∀ id' tp', e_pairs s !! id' = Some tp' →
        Denom tp' = Denom tp ∨ GetERC20Contract tp' = GetERC20Contract tp → id' = id ∧ tp' = tp)
   ∨ ∃ s1 s2, rtc erc20_step s0 s1 ∧ registry_full s1 ∧ registered_again s1 s2 ∧ rtc erc20_step s2 s).
Proof.
  intros Ep Ed Ee Hrun.
  assert (Hinv0 : registry_full s0).
  { constructor; [constructor|]; rewrite ?Ep, ?Ed, ?Ee; intros ? ? Hl; by rewrite lookup_empty in Hl. }
  pose proof (registry_reachable s0 s Hrun (rf_inv _ Hinv0)) as [R1 R2 R3].
  split; [intros id tp Hid; by apply R1|]. do 2 (split; [done|]).
  destruct (registry_full_reachable s0 s Hrun Hinv0) as [Hf|Hf]; [left|by right].
  intros id tp. by apply registry_full_unique.
Qed.

(** ** Genesis *)

Definition init_pair (tp : TokenPair) : M (erc20_state X) unit :=
  modify (SetTokenPair tp) ;;;
  modify (SetDenomMap (Denom tp) (GetID tp)) ;;;
  modify (SetERC20Map (GetERC20Contract tp) (GetID tp)).

(** A loop that inserts one entry per pair: the entries of other keys stay, and
    each pair finds its own. *)
Lemma insert_loop {V} (get : erc20_state X → gmap string V) (key : TokenPair → string) (val : TokenPair → V)
    pairs s s' :
  (∀ tp s, get (init_pair tp s).2 = <[key tp := val tp]> (get s)) →
  NoDup (key <$> pairs) → foreach pairs init_pair s = (Ok tt, s') →
  (∀ k, k ∉ key <$> pairs → get s' !! k = get s !! k) ∧
  ∀ tp, tp ∈ pairs → get s' !! key tp = Some (val tp).
Proof.
  intros Hget. revert s. induction pairs as [|tp pairs IH]; intros s Hnd Hrun; simpl in Hrun.
  { inv_ok. split; [done|]. intros tp Hin. by apply not_elem_of_nil in Hin. }
  apply bind_ok in Hrun as ([] & s1 & Hi & Hrun). rewrite fmap_cons in Hnd.
  apply NoDup_cons in Hnd as [Hnew Hnd]. destruct (IH s1 Hnd Hrun) as [Hother Hown].
  assert (E : get s1 = <[key tp := val tp]> (get s)) by (rewrite <- Hget, Hi; done). split.
  - intros k Hk. rewrite fmap_cons in Hk. apply not_elem_of_cons in Hk as [Hne Hk].
    by rewrite Hother, E, lookup_insert_ne by done.
  - intros tp' Hin. apply elem_of_cons in Hin as [->|Hin]; [|by apply Hown].
    by rewrite Hother, E, lookup_insert_eq by done.
Qed.

Lemma init_loop_pairs pairs s s' :
  NoDup (GetID <$> pairs) → (∀ tp, tp ∈ pairs → e_pairs s !! GetID tp = None) →
  foreach pairs init_pair s = (Ok tt, s') → (map_to_list (e_pairs s')).*2 ≡ₚ pairs ++ (map_to_list (e_pairs s)).*2.
Proof.
  revert s. induction pairs as [|tp pairs IH]; intros s Hnd Hfree Hrun; simpl in Hrun; [by inv_ok|].
  apply bind_ok in Hrun as ([] & s1 & Hi & Hrun). rewrite fmap_cons in Hnd.
  apply NoDup_cons in Hnd as [Hnew Hnd].
  assert (E : e_pairs s1 = <[GetID tp := tp]> (e_pairs s)) by (unfold init_pair in Hi; by inv_ok).
  rewrite (IH s1); [|done| |done].
  - rewrite E, map_to_list_insert by (apply Hfree; left). rewrite fmap_cons. symmetry. apply Permutation_middle.
  - intros tp' Hin. rewrite E, lookup_insert_ne; [apply Hfree; by right|].
    intros Heq. apply Hnew. rewrite Heq. by apply list_elem_of_fmap_2.
Qed.

Lemma validate_pairs_ok se sd pairs :
  validate_pairs (C := C) se sd pairs = Ok tt →
  NoDup (Denom <$> pairs) ∧ (∀ d, d ∈ Denom <$> pairs → d ∉ sd) ∧
  ∀ tp, tp ∈ pairs → validate_address (Erc20Address tp) = true.
Proof.
  revert se sd. induction pairs as [|b pairs IH]; intros se sd Hv.
  { split; [constructor|]. split; intros ? Hin; by apply not_elem_of_nil in Hin. }
  cbn [validate_pairs] in Hv. unfold TokenPair_Validate in Hv. inv_ok. bool_hyps.
  match goal with Hr : validate_pairs _ _ _ = _ |- _ => destruct (IH _ _ Hr) as (Hnd & Hfresh & Hval) end.
  rewrite fmap_cons. split; [|split].
  - constructor; [|done]. intros Hin. specialize (Hfresh _ Hin). set_solver.
  - intros d Hin. apply elem_of_cons in Hin as [->|Hin]; [done|]. specialize (Hfresh _ Hin). set_solver.
  - intros tp Hin. apply elem_of_cons in Hin as [->|Hin]; [done|]. by apply Hval.
Qed.

Lemma ids_nodup pairs :
  NoDup (Denom <$> pairs) → (∀ tp, tp ∈ pairs → validate_address (Erc20Address tp) = true) →
  NoDup (GetID <$> pairs).
Proof.
  induction pairs as [|tp pairs IH]; intros Hnd Hval; [constructor|]. rewrite fmap_cons in *.
  apply NoDup_cons in Hnd as [Hnew Hnd]. constructor.
  - intros Hin. apply list_elem_of_fmap in Hin as (tp' & Hid & Hin). apply hash_inj, append_bar_inj in Hid as [_ E].
    + apply Hnew. rewrite E. by apply list_elem_of_fmap_2.
    + apply valid_no_bar, Hval. left.
    + apply valid_no_bar, Hval. by right.
  - apply IH; [done|]. intros tp' Hin. apply Hval. by right.
Qed.

(** A validated genesis state, imported into an empty store, is exported again
    with the same parameters and pairs; every pair is found through its
    denomination, and, when no two of them denote the same contract, through its
    contract.  (Validation compares the contracts as strings only.) *)
Lemma erc20_genesis_roundtrip params pairs s s' :
  erc20_GenesisState_Validate (C := C) pairs = Ok tt → e_pairs s = ∅ →
  erc20_InitGenesis (C := C) params pairs s = (Ok tt, s') →
  (erc20_ExportGenesis s').1 = params ∧ (erc20_ExportGenesis s').2 ≡ₚ pairs ∧
  ∀ tp, tp ∈ pairs →
    GetTokenPair s' (GetDenomMap s' (Denom tp)) = Some tp ∧
    (NoDup (GetERC20Contract <$> pairs) → GetTokenPair s' (GetERC20Map s' (GetERC20Contract tp)) = Some tp).
Proof.
  intros Hv Hempty Hrun. apply validate_pairs_ok in Hv as (Hnd & _ & Hval).
  pose proof (ids_nodup pairs Hnd Hval) as Hids. unfold erc20_InitGenesis in Hrun.
  apply bind_ok in Hrun as ([] & s1 & Hm & Hrun). unfold modify in Hm. injection Hm as <-.
  apply bind_ok in Hrun as (acc & s2 & Hacc & Hrun). apply eext_ok in Hacc as [_ (E1 & E2 & E3 & E4)].
  destruct acc; [|done]. change (foreach pairs init_pair s2 = (Ok tt, s')) in Hrun. simpl in E1, E2.
  assert (Hparams : ∀ l t t', foreach l init_pair t = (Ok tt, t') → e_params t' = e_params t).
  { induction l as [|tp l IH]; intros t t' Hl; simpl in Hl; [by inv_ok|].
    apply bind_ok in Hl as ([] & t1 & Hi & Hl). rewrite (IH _ _ Hl). unfold init_pair in Hi. by inv_ok. }
  split; [|split].
  - simpl. unfold erc20_GetParams. by rewrite (Hparams _ _ _ Hrun).
  - simpl. unfold GetTokenPairs. rewrite kv_iter_perm, (init_loop_pairs pairs s2 s'); [|done| |done].
    + rewrite E2, Hempty, map_to_list_empty. simpl. by rewrite app_nil_r.
    + intros tp _. by rewrite E2, Hempty.
  - intros tp Hin. unfold GetTokenPair, GetDenomMap, GetERC20Map.
    destruct (insert_loop e_pairs GetID id pairs s2 s') as [_ Hp]; [done..|].
    destruct (insert_loop e_byDenom Denom GetID pairs s2 s') as [_ Hd]; [done..|].
    rewrite Hd, Hp by done. split; [done|]. intros Hc.
    destruct (insert_loop e_byERC20 GetERC20Contract GetID pairs s2 s') as [_ He]; [done..|].
    by rewrite He, Hp by done.
Qed.
End conversions.

(** ** Witnesses

    A chain with one IBC coin and one ERC20 token: both are registered, alice
    converts coins to tokens and tokens to coins, and sends tokens to the
    module. *)

Definition osmo : Metadata :=
  mkMeta "The token of Osmosis" [mkUnit "ibc/osmo" 0 []; mkUnit "osmo" 6 []] "ibc/osmo" "osmo" "Osmo" "OSMO".
Definition gold : string := "GGGGGGGGGGGGGGGGGGGG".
Definition alice : string := "AAAAAAAAAAAAAAAAAAAA".
Definition erc20_world : world :=
  mkWorld {[ alice := {[ "ibc/osmo"%string := 100 ]} ]} {[ "ibc/osmo"%string := 100 ]} ∅
    {[ "module/erc20"%string := 0; alice := 7 ]} ∅
    (mkEvm {[ gold := mkToken "Gold" "GLD" 18 {[ alice := 50 ]} ]} ∅).
Definition erc20_start : erc20_state world := mkErc20 (mkErc20Params true true) ∅ ∅ ∅ erc20_world.

Definition osmo_pair : TokenPair :=
  mkPair "0x30406d6f64756c652f6572633230303030303030" "ibc/osmo" true OWNER_MODULE.
Definition gold_pair : TokenPair :=
  mkPair "0x4747474747474747474747474747474747474747"
         "erc20/0x4747474747474747474747474747474747474747" true OWNER_EXTERNAL.

Definition with_osmo : erc20_state world := (RegisterCoin (C := coins) osmo erc20_start).2.
Definition with_gold : erc20_state world := (RegisterERC20 (C := coins) gold with_osmo).2.
Definition osmo_to_tokens : MsgConvertCoin :=
  mkConvertCoin "ibc/osmo" 40 (address_hex alice) (acc_string alice).
Definition gold_to_coins : MsgConvertERC20 :=
  mkConvertERC20 (address_hex gold) 20 (acc_string alice) (address_hex alice).
Definition converted_osmo : erc20_state world := (ConvertCoin (C := coins) osmo_to_tokens with_gold).2.
Definition converted_gold : erc20_state world := (ConvertERC20 (C := coins) gold_to_coins converted_osmo).2.
Definition gold_transfer : EvmLog :=
  mkLog gold ["Transfer"%string; alice; "module/erc20"%string] "5".

Definition osmo_pair2 : TokenPair :=
  mkPair "0x31406d6f64756c652f6572633230303030303030" "ibc/osmo" true OWNER_MODULE.
Definition osmo_twice : erc20_state world := (RegisterCoin (C := coins) osmo with_osmo).2.

(** The same coin is registered twice: the first pair is still stored, but its
    denomination now leads to the second. *)
Lemma register_coin_effect_witness :
  (RegisterCoin (C := coins) osmo with_osmo).1 = Ok osmo_pair2 ∧
  e_pairs with_osmo !! GetID osmo_pair = Some osmo_pair ∧
  GetTokenPair osmo_twice (GetDenomMap osmo_twice "ibc/osmo") = Some osmo_pair2 ∧
  e_pairs osmo_twice !! GetID osmo_pair = Some osmo_pair.
Proof.
  split; [vm_compute; reflexivity|]. split; [vm_compute; reflexivity|].
  destruct (register_coin_effect (C := coins) osmo with_osmo osmo_pair2 osmo_twice)
    as (_ & _ & _ & _ & _ & Hd & _ & Hk); [vm_compute; reflexivity|]. split; [exact Hd|].
  rewrite Hk by (vm_compute; discriminate). vm_compute. reflexivity.
Defined.

Lemma convert_coin_effect_witness :
  ∃ r, (ConvertCoin (C := coins) osmo_to_tokens with_gold).1 = Ok (Some r) ∧
    same_registry with_gold converted_osmo ∧
    GetBalance (C := coins) (e_ext converted_osmo) alice "ibc/osmo" = 60 ∧
    reports (C := coins) (e_ext converted_osmo) (GetERC20Contract osmo_pair) alice 40.
Proof.
  exists tt. split; [vm_compute; reflexivity|].
  destruct (convert_coin_effect (C := coins) osmo_to_tokens with_gold (Some tt) converted_osmo)
    as (sender & tp & _ & _ & Hs & _); [vm_compute; reflexivity|].
  split; [exact Hs|]. split; vm_compute; reflexivity.
Defined.

Lemma convert_erc20_effect_witness :
  ∃ r, (ConvertERC20 (C := coins) gold_to_coins converted_osmo).1 = Ok (Some r) ∧
    same_registry converted_osmo converted_gold ∧
    GetBalance (C := coins) (e_ext converted_gold) alice (Denom gold_pair) = 20 ∧
    GetSupply (C := coins) (e_ext converted_gold) (Denom gold_pair) = 20.
Proof.
  exists tt. split; [vm_compute; reflexivity|].
  destruct (convert_erc20_effect (C := coins) gold_to_coins converted_osmo (Some tt) converted_gold)
    as (sender & tp & _ & _ & Hs & _); [vm_compute; reflexivity|].
  split; [exact Hs|]. split; vm_compute; reflexivity.
Defined.

Lemma hook_converts_transfers_witness :
  let r := erc20_PostTxProcessing (C := coins) [gold_transfer] converted_gold in
  hook_run (C := coins) [gold_transfer] converted_gold r.2 ∧
  GetBalance (C := coins) (e_ext r.2) alice (Denom gold_pair) = 25.
Proof.
  cbv zeta. split; [|vm_compute; reflexivity].
  destruct (hook_converts_transfers (C := coins) [gold_transfer] converted_gold (Ok tt)
    (erc20_PostTxProcessing (C := coins) [gold_transfer] converted_gold).2) as [_ Hok];
    [vm_compute; reflexivity|]. destruct (Hok eq_refl) as [_ Hrun]. exact Hrun.
Defined.

Lemma osmo_twice_run : rtc (erc20_step (C := coins)) erc20_start osmo_twice.
Proof.
  eapply rtc_l; [apply (st_register_coin osmo erc20_start osmo_pair with_osmo); vm_compute; reflexivity|].
  eapply rtc_l; [apply (st_register_coin osmo with_osmo osmo_pair2 osmo_twice); vm_compute; reflexivity|].
  apply rtc_refl.
Qed.

(** After two registrations of the same coin the denomination leads to a stored pair of
    it, but the first pair is no longer found: a coin was registered again on the way. *)
Lemma registry_consistent_witness :
  e_pairs osmo_twice !! GetID osmo_pair = Some osmo_pair ∧
  (∃ tp, GetTokenPair osmo_twice (Some (GetID osmo_pair2)) = Some tp ∧ Denom tp = "ibc/osmo"%string) ∧
  ∃ s1 s2, rtc (erc20_step (C := coins)) erc20_start s1 ∧ registry_full s1 ∧ registered_again (C := coins) s1 s2 ∧
    rtc (erc20_step (C := coins)) s2 osmo_twice.
Proof.
  split; [vm_compute; reflexivity|].
  destruct (registry_consistent (C := coins) erc20_start osmo_twice eq_refl eq_refl eq_refl osmo_twice_run)
    as (_ & Hden & _ & Hor). split; [apply Hden; vm_compute; reflexivity|].
  destruct Hor as [Hall|Hagain]; [exfalso|exact Hagain].
  destruct (Hall (GetID osmo_pair) osmo_pair) as [Hf _]; [vm_compute; reflexivity|].
  vm_compute in Hf. discriminate Hf.
Defined.

Lemma erc20_genesis_roundtrip_witness :
  let s' := (erc20_InitGenesis (C := coins) (mkErc20Params true false) [osmo_pair; gold_pair] erc20_start).2 in
  (erc20_ExportGenesis s').2 ≡ₚ [osmo_pair; gold_pair].
Proof.
  cbv zeta.
  exact (proj1 (proj2 (erc20_genesis_roundtrip (C := coins) (mkErc20Params true false) [osmo_pair; gold_pair]
    erc20_start (erc20_InitGenesis (C := coins) (mkErc20Params true false) [osmo_pair; gold_pair] erc20_start).2
    eq_refl eq_refl eq_refl))).
Defined.
