(* ===== verification/Redeem.v ===== *)
(** * Coins come back: the round trip of a conversion

    The tokens that stand for escrowed coins can be turned into the coins again, and
    doing so undoes the conversion. *)

From S2P Require Import Prelude Sdk SdkInstances Keepers KeeperInstances Evm Erc20Types Erc20 Erc20Instances Erc20Props.

Section redeem.
Context {C X : Type} `{SdkCoinsLaws C, !AccountKeeper C X, !BankKeeper C X, !EvmKeeper X, !BankMeta X}.
Context `{!BankLaws C X, !EvmLaws C X, SdkAddress, EthAddressLaws, Erc20Abi}.
Implicit Types (s : erc20_state X) (x : X).
Local Abbreviation modaddr := (ModuleAddress (C := C) (X := X)).

(** The checks of [MintingEnabled] are complete. *)
Lemma minting_enabled_run sender receiver token tp s :
  registry_inv s → conversion_allowed (C := C) s sender receiver token tp →
  MintingEnabled (C := C) sender receiver token s = (Ok tp, s).
Proof.
  intros Hinv (He & Htp & Hen & Hb & Hs). unfold MintingEnabled, erc20_GetParams, bind, gets, check. rewrite He. simpl.
  destruct (GetTokenPairID s token) as [id|]; [|done]. simpl in Htp.
  assert (id_missing (Some id) = false) as ->.
  { simpl. destruct (ri_pair s Hinv id tp Htp) as [-> _]. by apply String.eqb_neq, hash_nonempty. }
  simpl. rewrite Htp, Hen, Hb. simpl.
  destruct Hs as [->|Hs]; [by rewrite String.eqb_refl|]. rewrite Hs. by rewrite andb_false_r.
Qed.

Lemma need_reports x c a b : reports (C := C) x c a b → need (BalanceOf (C := C) c a) x = (Ok b, x).
Proof. unfold reports, need, bind. by intros ->. Qed.

(** The contract of a coin pair burns [n] tokens of [a] on the order of the module, and does
    not look at the bank's transfer of coins that follows. *)
Definition burns x (c a : string) (n : Z) (receiver : string) (coins : C) : Prop :=
  ∃ res x1, CallEVM (C := C) modaddr c true "burnCoins" [ArgAddress a; ArgInt n] x = (Ok res, x1) ∧
    ∀ x2 b, SendCoinsFromModuleToAccount erc20_ModuleName receiver coins x1 = (Ok tt, x2) →
      reports (C := C) x c a b → reports (C := C) x2 c a (b - n).

(** Where the contract burns and the escrow holds the coins, they are released. *)
Lemma native_coin_release tp msg receiver sender x b :
  burns x (GetERC20Contract tp) sender (mce_Amount msg) receiver (coins_lit (Denom tp) (mce_Amount msg)) →
  reports (C := C) x (GetERC20Contract tp) sender b →
  0 < mce_Amount msg → denom_valid (C := C) (Denom tp) = true → Denom tp ≠ evm_denom →
  BlockedAddr (C := C) (X := X) receiver = false → receiver ≠ modaddr →
  mce_Amount msg ≤ GetBalance (C := C) x modaddr (Denom tp) →
  ∃ x', convertERC20NativeCoin (C := C) tp msg receiver sender x = (Ok tt, x').
Proof.
  intros (res & x1 & Hc & Hburn) Hb Hpos Hd Hevm Hblk Hne Hle. pose proof (call_ok _ _ _ _ _ _ _ Hc) as Hmv.
  destruct (Hmv _ Hevm) as [Hbal _]. unfold no_delta in Hbal.
  destruct (send_mod_acc_total erc20_ModuleName receiver (coins_lit (Denom tp) (mce_Amount msg)) x1) as [x2 Hs];
    [by apply valid_lit| |done|].
  { intros d. rewrite amount_lit. case_decide as Ed; [subst d|apply balance_nonneg].
    pose proof (Hbal modaddr). unfold ModuleAddress in *. lia. }
  pose proof (Hburn _ _ Hs Hb) as Hb2. pose proof (send_mod_acc_ok _ _ _ _ _ Hs receiver (Denom tp)) as Hr.
  exists x2. unfold convertERC20NativeCoin, bind, gets. rewrite (need_reports _ _ _ _ Hb), Hc, Hs.
  rewrite Hr, amount_lit, Hbal. unfold at_addr. rewrite !decide_True by done.
  rewrite decide_False by done. unfold check. rewrite Z.sub_0_r, Z.add_0_r, Z.eqb_refl. simpl. unfold ret.
  rewrite (need_reports _ _ _ _ Hb2). by rewrite Z.eqb_refl.
Qed.

(** C7: coins that were converted come back.  After a conversion of coins of a pair of the
    module, the receiver of the tokens turns them into coins of the sender: the message
    succeeds, as long as conversions are allowed and the contract burns what the module
    tells it to; coins, supply, the tokens of the receiver and the registry are then what
    they were before. *)
Theorem converted_coins_come_back msg s s1 tp sender :
  registry_inv s → ConvertCoin (C := C) msg s = (Ok (Some tt), s1) → 0 < mcc_Amount msg →
  GetTokenPair s (GetDenomMap s (mcc_Denom msg)) = Some tp → is_hex_address (mcc_Denom msg) = false →
  ContractOwner tp = OWNER_MODULE → denom_valid (C := C) (Denom tp) = true → Denom tp ≠ evm_denom →
  acc_from_bech32 (mcc_Sender msg) = Some sender → sender ≠ modaddr →
  hex_to_address (mcc_Receiver msg) ≠ modaddr → IsContract (e_ext s1) (GetERC20Contract tp) = true →
  conversion_allowed (C := C) s1 (hex_to_address (mcc_Receiver msg)) sender (Erc20Address tp) tp →
  burns (e_ext s1) (GetERC20Contract tp) (hex_to_address (mcc_Receiver msg)) (mcc_Amount msg) sender
    (coins_lit (Denom tp) (mcc_Amount msg)) →
  let back := mkConvertERC20 (Erc20Address tp) (mcc_Amount msg) (mcc_Sender msg) (mcc_Receiver msg) in
  ∃ s2, ConvertERC20 (C := C) back s1 = (Ok (Some tt), s2) ∧ same_registry s s2 ∧
    coins_move (C := C) (e_ext s) (e_ext s2) no_delta no_mint ∧
    ∃ b, reports (C := C) (e_ext s) (GetERC20Contract tp) (hex_to_address (mcc_Receiver msg)) b ∧
         reports (C := C) (e_ext s2) (GetERC20Contract tp) (hex_to_address (mcc_Receiver msg)) b.
Proof.
  intros Hinv Hrun Hpos Htp Hhex Hown Hd Hevm Hsd Hne Hne' Hic Hal Hburn back.
  apply convert_coin_inv in Hrun as (sender' & tp' & Ha & (_ & Htp' & _) & Hreg & _ & He).
  rewrite Hsd in Ha. injection Ha as <-. unfold GetTokenPairID in Htp'. rewrite Hhex, Htp in Htp'. injection Htp' as <-.
  rewrite Hown in He. apply coin_native_coin_ok in He as [(b & Hb & Hb1) Hmv].
  assert (Hden : mcc_Denom msg = Denom tp).
  { unfold GetTokenPair, GetDenomMap in Htp. destruct (e_byDenom s !! mcc_Denom msg) as [id|] eqn:Eid; [|done].
    destruct (ri_denom s Hinv _ _ Eid) as (tp' & Hid & <-). congruence. }
  rewrite Hden in Hmv. destruct (Hmv _ Hevm) as [Hbal _].
  destruct (native_coin_release tp back sender _ (e_ext s1) _ Hburn Hb1 Hpos Hd Hevm) as [x2 Hx2]; [apply Hal|done| |].
  { rewrite Hbal. pose proof (balance_nonneg (C := C) (e_ext s) modaddr (Denom tp)) as Hnn. unfold at_addr, of_denom.
    rewrite !decide_True by done. rewrite decide_False by done. simpl. lia. }
  pose proof (erc20_native_coin_ok _ _ _ _ _ _ Hx2) as ((b' & Hb' & Hb2) & _ & Hmv2).
  assert (b' = b + mcc_Amount msg) as -> by (unfold reports in *; congruence).
  eexists (mkErc20 _ _ _ _ x2). split; [|split; [exact Hreg|split]].
  - subst back. unfold ConvertERC20, must_acc_from_bech32, bind, lift, gets. cbn [mce_Receiver mce_Sender ContractAddress]. rewrite Hsd.
    rewrite (minting_enabled_run _ _ _ tp s1 (registry_inv_ext _ _ Hreg Hinv) Hal). fold (GetERC20Contract tp).
    rewrite Hic. cbn [negb]. unfold IsNativeCoin. rewrite Hown, bool_decide_true by done. unfold eext, zoom. by rewrite Hx2.
  - eapply coins_move_ext; [exact (coins_move_trans _ _ _ _ _ _ _ Hmv Hmv2)|..]; intros;
      unfold no_delta, no_mint; simpl; lia.
  - exists b. split; [done|]. simpl in *. by replace (b + mcc_Amount msg - mcc_Amount msg) with b in Hb2 by lia.
Qed.
End redeem.

(** ** Sample *)

(** Alice converts forty coins, and back. *)
Lemma converted_coins_come_back_witness :
  let back := mkConvertERC20 (Erc20Address osmo_pair) 40 (acc_string alice) (address_hex alice) in
  ∃ s2, ConvertERC20 (C := coins) back converted_osmo = (Ok (Some tt), s2) ∧ same_registry with_gold s2 ∧
    GetBalance (C := coins) (e_ext s2) alice "ibc/osmo" = 100.
Proof.
  assert (Hinv : registry_inv with_gold).
  { apply (registry_reachable (C := coins) erc20_start with_gold).
    - eapply rtc_l; [apply (st_register_coin osmo erc20_start osmo_pair with_osmo); vm_compute; reflexivity|].
      eapply rtc_l; [apply (st_register_erc20 gold with_osmo gold_pair with_gold); vm_compute; reflexivity|].
      apply rtc_refl.
    - by constructor. }
  destruct (converted_coins_come_back (C := coins) osmo_to_tokens with_gold converted_osmo osmo_pair alice Hinv)
    as (s2 & Hback & Hreg & Hmv & _); [vm_compute; (reflexivity || discriminate)..| | |].
  - split; [vm_compute; reflexivity|]. split; [vm_compute; reflexivity|]. split; [vm_compute; reflexivity|].
    split; [vm_compute; reflexivity|by left].
  - eexists _, _. split; [vm_compute; reflexivity|]. intros x2 b Hs Hb. vm_compute in Hs. injection Hs as <-.
    vm_compute in Hb. injection Hb as <-. vm_compute. reflexivity.
  - cbv zeta. exists s2. split; [exact Hback|]. split; [exact Hreg|].
    destruct (Hmv "ibc/osmo"%string) as [Hbal _]; [vm_compute; discriminate|]. rewrite (Hbal alice). vm_compute. reflexivity.
Defined.
