(* ===== verification/Incentives.v ===== *)
(** * The incentives module: [x/incentives]

    Governance registers contracts; the gas spent on a registered contract is
    counted per participant, and at the end of an epoch a share of the module's
    balance is paid out in proportion to the gas. *)

From S2P Require Import Prelude Sdk Dec Keepers Erc20Types Evm Epochs Inflation.

(** ** Types: [types/incentives.pb.go], [types/incentive.go], [types/gas_meter.go] *)

(** [sdk.DecCoin] *)
Record DecCoin (D : Type) := mkDecCoin { dc_Denom : string; dc_Amount : D }.
Arguments mkDecCoin {D} _ _.
Arguments dc_Denom {D} _.
Arguments dc_Amount {D} _.

Record Incentive (D : Type) := mkIncentive {
  in_Contract : string;
  Allocations : list (DecCoin D);
  in_Epochs : Z;        (* uint32 *)
  in_StartTime : Z;
  TotalGas : Z;         (* uint64 *)
}.
Arguments mkIncentive {D} _ _ _ _ _.
Arguments in_Contract {D} _.
Arguments Allocations {D} _.
Arguments in_Epochs {D} _.
Arguments in_StartTime {D} _.
Arguments TotalGas {D} _.

Record GasMeter := mkGasMeter { gm_Contract : string; gm_Participant : string; CumulativeGas : Z }.

Record IncentivesParams (D : Type) := mkIncParams {
  EnableIncentives : bool;
  AllocationLimit : D;
  IncentivesEpochIdentifier : string;
  RewardScaler : D;
}.
Arguments mkIncParams {D} _ _ _ _.
Arguments EnableIncentives {D} _.
Arguments AllocationLimit {D} _.
Arguments IncentivesEpochIdentifier {D} _.
Arguments RewardScaler {D} _.

(** [sdk.DecCoins]: [IsZero], [Empty] is [len == 0], and [Validate]. *)
Class DecCoins (D : Type) := {
  deccoins_is_zero : list (DecCoin D) → bool;
  deccoins_validate : list (DecCoin D) → option error;
}.

(** [Validate]: sorted by denomination without duplicates, positive amounts. *)
Class DecCoinsLaws (D : Type) `{SdkDec D, DecCoins D} := {
  deccoins_is_zero_nil : deccoins_is_zero [] = true;
  deccoins_validate_ok l :
    deccoins_validate l = None → NoDup (dc_Denom <$> l) ∧ Forall (λ al, 0 < dec_raw (dc_Amount al)) l;
}.

Inductive IncentiveProposal (D : Type) : Type :=
  | RegisterIncentiveProposal (contract : string) (allocations : list (DecCoin D)) (epochs : Z)
  | CancelIncentiveProposal (contract : string)
  | OtherIncentiveProposal.
Arguments RegisterIncentiveProposal {D} _ _ _.
Arguments CancelIncentiveProposal {D} _.
Arguments OtherIncentiveProposal {D}.

Section types.
Context {C D : Type} `{SdkCoins C, SdkDec D, DecCoins D, EthAddress}.

Definition NewIncentive (contract : string) (allocations : list (DecCoin D)) (epochs : Z) : Incentive D :=
  mkIncentive (address_hex contract) allocations epochs zero_time 0.

Definition validateAmount (amount : D) : outcome unit :=
  ocheck (dec_gt amount (dec_new 1) || dec_lte amount (dec_new 0)) (ErrMsg "invalid amount for allocation").

Fixpoint validate_incentive_allocations (l : list (DecCoin D)) : outcome unit :=
  match l with
  | [] => Ok tt
  | al :: rest =>
      let? _ := ocheck (negb (denom_valid (C := C) (dc_Denom al))) (ErrExternal "invalid denom") in
      let? _ := validateAmount (dc_Amount al) in
      validate_incentive_allocations rest
  end.

Definition Incentive_Validate (i : Incentive D) : outcome unit :=
  let? _ := ocheck (negb (validate_address (in_Contract i))) (ErrExternal "invalid address") in
  let? _ := ocheck (deccoins_is_zero (Allocations i)) (ErrMsg "allocations cannot be empty") in
  let? _ := validate_incentive_allocations (Allocations i) in
  ocheck (in_Epochs i =? 0) (ErrMsg "epoch cannot be 0").

Definition IsActive (i : Incentive D) : bool := 0 <? in_Epochs i.

Definition NewGasMeter (contract participant : string) (cumulativeGas : Z) : GasMeter :=
  mkGasMeter (address_hex contract) (address_hex participant) cumulativeGas.

Definition GasMeter_Validate (gm : GasMeter) : outcome unit :=
  let? _ := ocheck (negb (validate_address (gm_Contract gm))) (ErrExternal "invalid address") in
  ocheck (negb (validate_address (gm_Participant gm))) (ErrExternal "invalid address").

(** *** [types/params.go] *)

Definition incentives_DefaultParams : IncentivesParams D :=
  mkIncParams true (dec_with_prec 5 2) WeekEpochID (dec_with_prec 12 1).

Definition validatePercentage (dec : D) : outcome unit :=
  let? _ := ocheck (dec_is_negative dec) (ErrMsg "allocation limit must be positive") in
  ocheck (dec_gt dec (dec_new 1)) (ErrMsg "allocation limit must <= 100").

Definition validateUncappedPercentage (dec : D) : outcome unit :=
  ocheck (dec_is_negative dec) (ErrMsg "allocation limit must be positive").

Definition incentives_Params_Validate (p : IncentivesParams D) : outcome unit :=
  let? _ := validatePercentage (AllocationLimit p) in
  let? _ := validateUncappedPercentage (RewardScaler p) in
  ValidateEpochIdentifierString (IncentivesEpochIdentifier p).

(** *** [types/proposal.go] *)

Fixpoint validate_amounts (l : list (DecCoin D)) : outcome unit :=
  match l with
  | [] => Ok tt
  | al :: rest => let? _ := validateAmount (dc_Amount al) in validate_amounts rest
  end.

Definition validateAllocations (allocations : list (DecCoin D)) : outcome unit :=
  let? _ := ocheck (bool_decide (length allocations = 0%nat)) (ErrMsg "incentive allocations cannot be empty") in
  let? _ := validate_amounts allocations in
  from_opt (deccoins_validate allocations).

Definition validateEpochs (epochs : Z) : outcome unit := ocheck (epochs =? 0) (ErrMsg "epochs value cannot be 0").

(** [govtypes.ValidateAbstract] *)
Variable validate_abstract : IncentiveProposal D → option error.

Definition IncentiveProposal_ValidateBasic (p : IncentiveProposal D) : outcome unit :=
  match p with
  | RegisterIncentiveProposal contract allocations epochs =>
      let? _ := ocheck (negb (validate_address contract)) (ErrExternal "invalid address") in
      let? _ := validateAllocations allocations in
      let? _ := validateEpochs epochs in
      from_opt (validate_abstract p)
  | CancelIncentiveProposal contract =>
      let? _ := ocheck (negb (validate_address contract)) (ErrExternal "invalid address") in
      from_opt (validate_abstract p)
  | OtherIncentiveProposal => from_opt (validate_abstract p)
  end.

(** *** [types/keys.go], [types/genesis.go] *)

(** A key is 40 bytes, or 41 with the prefix of the store. *)
Definition SplitGasMeterKey (key : string) : string * string :=
  let key := if Nat.eqb (String.length key) 41 then drop_chars 1 key else key in
  (bytes_to_address (String.substring 0 20 key), bytes_to_address (drop_chars 20 key)).

Fixpoint validate_incentives (seen : gset string) (l : list (Incentive D)) : outcome unit :=
  match l with
  | [] => Ok tt
  | i :: rest =>
      let? _ := ocheck (bool_decide (in_Contract i ∈ seen)) (ErrMsg "contract duplicated on genesis") in
      let? _ := Incentive_Validate i in
      validate_incentives ({[ in_Contract i ]} ∪ seen) rest
  end.

Fixpoint validate_gas_meters (seen : gset string) (l : list GasMeter) : outcome unit :=
  match l with
  | [] => Ok tt
  | gm :: rest =>
      let k := String.append (gm_Contract gm) (gm_Participant gm) in
      let? _ := ocheck (bool_decide (k ∈ seen)) (ErrMsg "gas meter duplicated on genesis contract") in
      let? _ := GasMeter_Validate gm in
      validate_gas_meters ({[ k ]} ∪ seen) rest
  end.

Definition incentives_GenesisState_Validate (params : IncentivesParams D) (incentives : list (Incentive D))
    (gasMeters : list GasMeter) : outcome unit :=
  let? _ := validate_incentives ∅ incentives in
  let? _ := validate_gas_meters ∅ gasMeters in
  incentives_Params_Validate params.
End types.

(** ** The keeper *)

Record incentives_state (D X : Type) := mkInc {
  n_params : IncentivesParams D;
  n_incentives : gmap string (Incentive D);  (* by contract address *)
  n_gas : gmap string Z;                     (* by contract and participant *)
  n_meters : gmap string D;                  (* by denomination *)
  n_ext : X;
}.
Arguments mkInc {D X} _ _ _ _ _.
Arguments n_params {D X} _.
Arguments n_incentives {D X} _.
Arguments n_gas {D X} _.
Arguments n_meters {D X} _.
Arguments n_ext {D X} _.

Section keeper.
Context {C D X : Type} `{SdkCoins C, SdkDec D, DecCoins D, EthAddress}.
Context `{!AccountKeeper C X, !BankKeeper C X, !EvmKeeper X, !AccountTypes X}.
Implicit Types s : incentives_state D X.
Local Abbreviation NM := (M (incentives_state D X)).

Definition next {A} (m : M X A) : NM A :=
  zoom n_ext (λ x s, mkInc (n_params s) (n_incentives s) (n_gas s) (n_meters s) x) m.

Definition incentives_GetParams s : IncentivesParams D := n_params s.
Definition incentives_SetParams (params : IncentivesParams D) s : incentives_state D X :=
  mkInc params (n_incentives s) (n_gas s) (n_meters s) (n_ext s).

(** *** [keeper/allocation_meters.go] *)

Definition GetAllocationMeter s (denom : string) : DecCoin D * bool :=
  match n_meters s !! denom with
  | None => (mkDecCoin denom (dec_new 0), false)
  | Some amount => (mkDecCoin denom amount, true)
  end.

Definition GetAllAllocationMeters s : list (DecCoin D) :=
  omap (λ kv, let '(am, found) := GetAllocationMeter s kv.1 in if found : bool then Some am else None)
       (kv_iter (n_meters s)).

Definition SetAllocationMeter (am : DecCoin D) s : incentives_state D X :=
  mkInc (n_params s) (n_incentives s) (n_gas s)
    (if dec_is_zero (dc_Amount am) then delete (dc_Denom am) (n_meters s)
     else <[dc_Denom am := dc_Amount am]> (n_meters s)) (n_ext s).

(** *** [keeper/incentives.go] *)

Definition GetAllIncentives s : list (Incentive D) := (kv_iter (n_incentives s)).*2.

Definition IterateIncentives (handlerFn : Incentive D → NM bool) : NM unit :=
  λ s, iterate (kv_iter (n_incentives s)).*2 handlerFn s.

Definition GetIncentive s (contract : string) : option (Incentive D) := n_incentives s !! contract.

Definition SetIncentive (incentive : Incentive D) s : incentives_state D X :=
  mkInc (n_params s) (<[hex_to_address (in_Contract incentive) := incentive]> (n_incentives s))
    (n_gas s) (n_meters s) (n_ext s).

Definition delete_incentive (incentive : Incentive D) s : incentives_state D X :=
  mkInc (n_params s) (delete (hex_to_address (in_Contract incentive)) (n_incentives s))
    (n_gas s) (n_meters s) (n_ext s).

(** One allocation of a deleted incentive: its share is given back. *)
Definition release_allocation s (al : DecCoin D) : incentives_state D X :=
  let am := (GetAllocationMeter s (dc_Denom al)).1 in
  SetAllocationMeter (mkDecCoin (dc_Denom al) (dec_sub (dc_Amount am) (dc_Amount al))) s.

Definition DeleteIncentiveAndUpdateAllocationMeters (incentive : Incentive D) s : incentives_state D X :=
  foldl release_allocation (delete_incentive incentive s) (Allocations incentive).

Definition IsIncentiveRegistered s (contract : string) : bool :=
  bool_decide (is_Some (n_incentives s !! contract)).

Definition SetIncentiveTotalGas (incentive : Incentive D) (gas : Z) s : incentives_state D X :=
  SetIncentive (mkIncentive (in_Contract incentive) (Allocations incentive) (in_Epochs incentive)
                            (in_StartTime incentive) gas) s.

(** *** [keeper/gas_meters.go] *)

Definition gas_key (contract participant : string) : string := String.append contract participant.

Definition to_gas_meter (key : string) (gas : Z) : GasMeter :=
  let '(contract, userAddress) := SplitGasMeterKey key in
  mkGasMeter (address_hex contract) (address_hex userAddress) gas.

(** The iterator over the whole store yields keys with the store's prefix byte. *)
Definition gas_prefix : Ascii.ascii := Ascii.ascii_of_nat 2.
Definition GetIncentivesGasMeters s : list GasMeter :=
  (λ kv, to_gas_meter (String gas_prefix kv.1) kv.2) <$> kv_iter (n_gas s).

(** The entries whose key starts with the contract. *)
Definition contract_gas s (contract : string) : list (string * Z) :=
  filter (λ kv, String.prefix contract kv.1 = true) (kv_iter (n_gas s)).

Definition GetIncentiveGasMeters s (contract : string) : list GasMeter :=
  (λ kv, to_gas_meter kv.1 kv.2) <$> contract_gas s contract.

Definition IterateIncentiveGasMeters (contract : string) (handlerFn : GasMeter → NM bool) : NM unit :=
  λ s, iterate (GetIncentiveGasMeters s contract) handlerFn s.

Definition GetGasMeter s (contract participant : string) : option Z :=
  n_gas s !! gas_key contract participant.

Definition SetGasMeter (gm : GasMeter) s : incentives_state D X :=
  mkInc (n_params s) (n_incentives s)
    (<[gas_key (hex_to_address (gm_Contract gm)) (hex_to_address (gm_Participant gm)) := CumulativeGas gm]> (n_gas s))
    (n_meters s) (n_ext s).

Definition DeleteGasMeter (gm : GasMeter) s : incentives_state D X :=
  mkInc (n_params s) (n_incentives s)
    (delete (gas_key (hex_to_address (gm_Contract gm)) (hex_to_address (gm_Participant gm))) (n_gas s))
    (n_meters s) (n_ext s).

(** *** [keeper/proposals.go] *)

(** The first loop: balances and the limit of a single allocation. *)
Fixpoint check_allocations (x : X) (limit : D) (l : list (DecCoin D)) : outcome unit :=
  match l with
  | [] => Ok tt
  | al :: rest =>
      let? _ := ocheck (negb (String.eqb (dc_Denom al) evm_denom)
                        && (GetBalance (C := C) x (module_addr (C := C) (X := X) incentives_ModuleName) (dc_Denom al) =? 0))
                       ErrInvalidCoins in
      let? _ := ocheck (dec_gt (dc_Amount al) limit) ErrInternalIncentive in
      check_allocations x limit rest
  end.

(** The second loop: the new meters, none above one. *)
Fixpoint new_meters s (l : list (DecCoin D)) : outcome (list (DecCoin D)) :=
  match l with
  | [] => Ok []
  | al :: rest =>
      let allocationSum := dec_add (dc_Amount (GetAllocationMeter s (dc_Denom al)).1) (dc_Amount al) in
      let? _ := ocheck (dec_gt allocationSum (dec_new 1)) ErrInternalIncentive in
      let? ams := new_meters s rest in
      Ok (mkDecCoin (dc_Denom al) allocationSum :: ams)
  end.

Definition RegisterIncentive (ctx : Ctx) (contract : string) (allocations : list (DecCoin D)) (epochs : Z)
    : NM (Incentive D) :=
  let! params := gets incentives_GetParams in
  check (negb (EnableIncentives params)) ErrInternalIncentive ;;;
  let! isContract := gets (λ s, IsContract (n_ext s) contract) in
  check (negb isContract) ErrInternalIncentive ;;;
  let! registered := gets (λ s, IsIncentiveRegistered s contract) in
  check registered ErrInternalIncentive ;;;
  let! x := gets n_ext in
  lift (check_allocations x (AllocationLimit params) allocations) ;;;
  let! s := gets id in
  let! allocationMeters := lift (new_meters s allocations) in
  let incentive := NewIncentive contract allocations epochs in
  let incentive := mkIncentive (in_Contract incentive) (Allocations incentive) (in_Epochs incentive)
                               (BlockTime ctx) (TotalGas incentive) in
  modify (SetIncentive incentive) ;;;
  foreach allocationMeters (λ am, modify (SetAllocationMeter am)) ;;;
  ret incentive.

Definition CancelIncentive (contract : string) : NM unit :=
  let! params := gets incentives_GetParams in
  check (negb (EnableIncentives params)) ErrInternalIncentive ;;;
  let! incentive := gets (λ s, GetIncentive s contract) in
  match incentive with
  | None => fail ErrInvalidAddress
  | Some incentive =>
      modify (DeleteIncentiveAndUpdateAllocationMeters incentive) ;;;
      let! gms := gets (λ s, GetIncentiveGasMeters s contract) in
      foreach gms (λ gm, modify (DeleteGasMeter gm))
  end.

(** [proposal_handler.go] *)
Definition IncentivesProposalHandler (ctx : Ctx) (content : IncentiveProposal D) : NM unit :=
  match content with
  | RegisterIncentiveProposal contract allocations epochs =>
      RegisterIncentive ctx (hex_to_address contract) allocations epochs ;;; ret tt
  | CancelIncentiveProposal contract => CancelIncentive (hex_to_address contract)
  | OtherIncentiveProposal => fail ErrUnknownRequest
  end.

(** *** [keeper/distribution.go] *)

(** The allocation of one incentive out of the balances. *)
Definition allocate (denomBalances : gmap string Z) (coins : C) (al : DecCoin D) : C :=
  match denomBalances !! dc_Denom al with
  | None => coins
  | Some balance =>
      let coinAllocated := dec_mul (dec_new balance) (dc_Amount al) in
      let amount := dec_truncate_int coinAllocated in
      if negb (0 <? amount) then coins else coins_add coins (coins_lit (dc_Denom al) amount)
  end.

Definition allocate_incentive (denomBalances : gmap string Z) (acc : gmap string C * C)
    (incentive : Incentive D) : gmap string C * C :=
  let '(allocations, rewards) := acc in
  let coins := foldl (allocate denomBalances) coins_empty (Allocations incentive) in
  (<[hex_to_address (in_Contract incentive) := coins]> allocations, coins_add rewards coins).

Definition rewardAllocations s : outcome (gmap string C * C) :=
  let balances := AccountBalances (C := C) (n_ext s) (module_addr (C := C) (X := X) incentives_ModuleName) in
  let denomBalances := foldl (λ m c, <[c.1 := c.2]> m) ∅ balances in
  let escrow := coins_collect balances in
  let '(rewardAllocations, rewards) :=
    foldl (allocate_incentive denomBalances) (∅, coins_empty) (kv_iter (n_incentives s)).*2 in
  if coins_is_any_gt rewards escrow then Err ErrInsufficientFunds else Ok (rewardAllocations, rewards).

(** The reward of a participant in one denomination, added to [coins]. *)
Definition reward_coin (contractAllocation : C) (cumulativeGas gasRatio rewardScaler : D)
    (coins : C) (allocation : DecCoin D) : C :=
  let coinAllocated := amount_of contractAllocation (dc_Denom allocation) in
  let reward := dec_mul_int gasRatio coinAllocated in
  if negb (dec_is_positive reward) then coins else
  let reward := if String.eqb evm_denom (dc_Denom allocation)
                then dec_min reward (dec_mul cumulativeGas rewardScaler) else reward in
  coins_add coins (coins_lit (dc_Denom allocation) (dec_truncate_int reward)).

Definition participant_reward (incentive : Incentive D) (contractAllocation : C) (rewardScaler : D) (gas : Z)
    : outcome C :=
  let cumulativeGas := dec_new gas in
  let? gasRatio := dec_quo cumulativeGas (dec_new (TotalGas incentive)) in
  Ok (foldl (reward_coin contractAllocation cumulativeGas gasRatio rewardScaler) coins_empty
            (Allocations incentive)).

(** The loop over the gas meters; it stops at the first failed transfer. *)
Fixpoint reward_loop (incentive : Incentive D) (contractAllocation : C) (rewardScaler : D)
    (gms : list GasMeter) (rewards : C) (count : Z) : NM (C * Z) :=
  match gms with
  | [] => ret (rewards, count)
  | gm :: rest =>
      let! coins := lift (participant_reward incentive contractAllocation rewardScaler (CumulativeGas gm)) in
      let rewards := coins_add rewards coins in
      let participant := hex_to_address (gm_Participant gm) in
      let! r := try (next (SendCoinsFromModuleToAccount incentives_ModuleName participant coins)) in
      match r with
      | inr _ => ret (rewards, count)
      | inl _ =>
          modify (DeleteGasMeter gm) ;;;
          reward_loop incentive contractAllocation rewardScaler rest rewards (wrapu64 (count + 1))
      end
  end.

Definition rewardParticipants (incentive : Incentive D) (coinsAllocated : gmap string C) : NM (C * Z) :=
  let contract := hex_to_address (in_Contract incentive) in
  match coinsAllocated !! contract with
  | None => ret (coins_empty, 0)
  | Some contractAllocation =>
      if TotalGas incentive =? 0 then ret (coins_empty, 0) else
      let! rewardScaler := gets (λ s, RewardScaler (incentives_GetParams s)) in
      let! gms := gets (λ s, GetIncentiveGasMeters s contract) in
      reward_loop incentive contractAllocation rewardScaler gms coins_empty 0
  end.

(** One incentive at the end of an epoch. *)
Definition distribute_incentive (coinsAllocated : gmap string C) (incentive : Incentive D) : NM bool :=
  rewardParticipants incentive coinsAllocated ;;;
  let incentive := mkIncentive (in_Contract incentive) (Allocations incentive) ((in_Epochs incentive - 1) mod 2^32)
                               (in_StartTime incentive) (TotalGas incentive) in
  (if IsActive incentive
   then modify (SetIncentive incentive) ;;; modify (SetIncentiveTotalGas incentive 0)
   else modify (DeleteIncentiveAndUpdateAllocationMeters incentive)) ;;;
  ret false.

Definition DistributeRewards : NM unit :=
  let! s := gets id in
  let! (coinsAllocated, _) := lift (rewardAllocations s) in
  IterateIncentives (distribute_incentive coinsAllocated).

(** *** [keeper/epoch_hooks.go] *)

Definition incentives_AfterEpochEnd (epochIdentifier : string) : NM unit :=
  let! params := gets incentives_GetParams in
  if negb (String.eqb epochIdentifier (IncentivesEpochIdentifier params)) then ret tt else
  if negb (EnableIncentives params) then ret tt else
  must DistributeRewards.

(** [Hooks], the receiver registered with the epochs module. *)
Definition incentives_Hooks : EpochHooks (incentives_state D X) :=
  mkHooks (λ _ epochIdentifier _, incentives_AfterEpochEnd epochIdentifier) (λ _ _ _, ret tt).

(** *** [keeper/evm_hooks.go] *)

Definition addGasToIncentive (contract : string) (gasUsed : Z) : NM unit :=
  let! incentive := gets (λ s, GetIncentive s contract) in
  let incentive := default (mkIncentive EmptyString [] 0 zero_time 0) incentive in
  modify (SetIncentive (mkIncentive (in_Contract incentive) (Allocations incentive) (in_Epochs incentive)
                                    (in_StartTime incentive) (wrapu64 (TotalGas incentive + gasUsed)))).

Definition addGasToParticipant (contract participant : string) (gasUsed : Z) : NM unit :=
  let! previousGas := gets (λ s, GetGasMeter s contract participant) in
  let gasUsed := match previousGas with Some previousGas => wrapu64 (gasUsed + previousGas) | None => gasUsed end in
  modify (SetGasMeter (NewGasMeter contract participant gasUsed)).

Definition incentives_PostTxProcessing (tx : EvmTx) : NM unit :=
  let! params := gets incentives_GetParams in
  if negb (EnableIncentives params) then ret tt else
  match tx_To tx with
  | None => ret tt
  | Some contract =>
      let! registered := gets (λ s, IsIncentiveRegistered s contract) in
      if negb registered then ret tt else
      let! acc := gets (λ s, GetAccount (C := C) (n_ext s) (tx_From tx)) in
      match acc with
      | None => ret tt
      | Some _ =>
          let! isContract := gets (λ s, is_contract_account (n_ext s) (tx_From tx)) in
          if isContract : bool then ret tt else
          addGasToIncentive contract (GasUsed tx) ;;;
          addGasToParticipant contract (tx_From tx) (GasUsed tx)
      end
  end.

(** *** [genesis.go] *)

(** The map of allocation meters: a missing entry is the zero value [sdk.Dec{}]. *)
Definition genesis_meter (acc : outcome (gmap string D)) (al : DecCoin D) : outcome (gmap string D) :=
  let? allocationMeters := acc in
  let? amount := match allocationMeters !! dc_Denom al with
                 | None => dec_nil_add (dc_Amount al)
                 | Some a => Ok (dec_add a (dc_Amount al)) end in
  Ok (<[dc_Denom al := amount]> allocationMeters).

Fixpoint init_incentives (l : list (Incentive D)) (allocationMeters : gmap string D) : NM (gmap string D) :=
  match l with
  | [] => ret allocationMeters
  | incentive :: rest =>
      modify (SetIncentive incentive) ;;;
      let! allocationMeters := lift (foldl genesis_meter (Ok allocationMeters) (Allocations incentive)) in
      init_incentives rest allocationMeters
  end.

Definition incentives_InitGenesis (params : IncentivesParams D) (incentives : list (Incentive D))
    (gasMeters : list GasMeter) : NM unit :=
  modify (incentives_SetParams params) ;;;
  let! acc := next (HasModuleAccount (C := C) incentives_ModuleName) in
  if negb acc then panic else
  let! allocationMeters := init_incentives incentives ∅ in
  foreach (map_to_list allocationMeters) (λ kv, modify (SetAllocationMeter (mkDecCoin kv.1 kv.2))) ;;;
  foreach gasMeters (λ gasMeter, modify (SetGasMeter gasMeter)).

Definition incentives_ExportGenesis s : IncentivesParams D * list (Incentive D) * list GasMeter :=
  (incentives_GetParams s, GetAllIncentives s, GetIncentivesGasMeters s).

(** *** [keeper/grpc_query.go] *)

Definition query_Incentive (contract : string) s : outcome (Incentive D) :=
  let? _ := ocheck (is_blank contract) ErrInvalidRequest in
  let? _ := ocheck (negb (validate_address contract)) ErrInvalidRequest in
  match GetIncentive s (hex_to_address contract) with
  | None => Err ErrNotFound
  | Some incentive => Ok incentive
  end.

Definition query_GasMeter (contract participant : string) s : outcome Z :=
  let? _ := ocheck (is_blank contract) ErrInvalidRequest in
  let? _ := ocheck (negb (validate_address contract)) ErrInvalidRequest in
  let? _ := ocheck (is_blank participant) ErrInvalidRequest in
  let? _ := ocheck (negb (validate_address participant)) ErrInvalidRequest in
  match GetGasMeter s (hex_to_address contract) (hex_to_address participant) with
  | None => Err ErrNotFound
  | Some gm => Ok gm
  end.

Definition query_AllocationMeter (denom : string) s : outcome (DecCoin D) :=
  let '(am, found) := GetAllocationMeter s denom in
  if negb found then Err ErrNotFound else Ok am.
End keeper.
