(* ===== verification/IncentivesProps.v ===== *)
(** * Properties of the incentives module

    The allocation meters are the sums of the registered allocations and never
    exceed one, so that the distribution at the end of an epoch cannot fail; the
    rewards of a participant are bounded; gas is counted on both sides. *)

From S2P Require Import Prelude Sdk Dec SdkInstances Keepers Erc20Types KeeperInstances Evm Erc20 Erc20Instances.
From S2P Require Import Epochs Inflation Incentives.

Section meters.
Context {C D X : Type} `{SdkCoinsLaws C, SdkDecLaws D, !DecCoins D, !DecCoinsLaws D, EthAddressLaws}.
Context `{!AccountKeeper C X, !BankKeeper C X, !EvmKeeper X, !AccountTypes X, !BankLaws C X}.
Implicit Types s : incentives_state D X.
Implicit Types i : Incentive D.

(** The share of denomination [d] that a list of allocations takes. *)
Definition share (d : string) (l : list (DecCoin D)) : Z :=
  sumZ (λ al, of_denom (dc_Denom al) d (dec_raw (dc_Amount al))) l.
Definition alloc_of (d : string) i : Z := share d (Allocations i).

(** The meter of a denomination, zero when there is none. *)
Definition meter s (d : string) : Z := dec_raw (dc_Amount (GetAllocationMeter s d).1).

Lemma meter_lookup s d : meter s d = match n_meters s !! d with None => 0 | Some a => dec_raw a end.
Proof.
  unfold meter, GetAllocationMeter. destruct (n_meters s !! d); simpl; [done|]. by rewrite raw_new.
Qed.

Lemma meter_set am s d :
  meter (SetAllocationMeter am s) d = if decide (d = dc_Denom am) then dec_raw (dc_Amount am) else meter s d.
Proof.
  rewrite !meter_lookup. unfold SetAllocationMeter. simpl. rewrite dec_is_zero_spec.
  case_decide as Hd; [subst d|]; destruct (Z.eqb_spec (dec_raw (dc_Amount am)) 0) as [E|E].
  - rewrite lookup_delete_eq. lia.
  - by rewrite lookup_insert_eq.
  - by rewrite lookup_delete_ne.
  - by rewrite lookup_insert_ne.
Qed.

(** What an incentive must look like: stored under its contract, with positive
    allocations and at least one epoch left. *)
Definition incentive_ok (k : string) i : Prop :=
  hex_to_address (in_Contract i) = k ∧ Forall (λ al, 0 < dec_raw (dc_Amount al)) (Allocations i) ∧
  0 < in_Epochs i < 2^32.

Record meter_inv s : Prop := {
  mi_ok k i : n_incentives s !! k = Some i → incentive_ok k i;
  mi_sum d : meter s d = map_sum (alloc_of d) (n_incentives s);
  mi_cap d : meter s d ≤ dec_unit;
}.

(** Two states with the same incentives and meters. *)
Definition same_meters s s' : Prop :=
  n_params s' = n_params s ∧ n_incentives s' = n_incentives s ∧ n_meters s' = n_meters s.

Lemma same_meters_refl s : same_meters s s.
Proof. done. Qed.
Lemma same_meters_trans s s1 s2 : same_meters s s1 → same_meters s1 s2 → same_meters s s2.
Proof. intros (?&?&?) (?&?&?). repeat split; congruence. Qed.
Hint Resolve same_meters_refl same_meters_trans : core.

Lemma meter_same s s' d : same_meters s s' → meter s' d = meter s d.
Proof. intros (_ & _ & E). by rewrite !meter_lookup, E. Qed.

Lemma meter_inv_same s s' : same_meters s s' → meter_inv s → meter_inv s'.
Proof.
  intros Hs [R1 R2 R3]. pose proof (meter_same s s') as Hm. destruct Hs as (E1 & E2 & E3).
  constructor; [rewrite E2; eauto|..]; intros d; rewrite Hm by done; rewrite ?E2; auto.
Qed.

Lemma share_nonneg d l : Forall (λ al, 0 < dec_raw (dc_Amount al)) l → 0 ≤ share d l.
Proof.
  intros Hp. apply sumZ_nonneg. eapply Forall_impl; [exact Hp|]. intros al Ha. simpl in Ha. unfold of_denom.
  case_decide; lia.
Qed.

Lemma alloc_nonneg s k i d : meter_inv s → n_incentives s !! k = Some i → 0 ≤ alloc_of d i.
Proof. intros Hinv Hk. by apply share_nonneg, (mi_ok s Hinv k i Hk). Qed.

(** *** Removing an incentive *)

Lemma release_allocations l s :
  let s' := foldl release_allocation s l in
  n_params s' = n_params s ∧ n_incentives s' = n_incentives s ∧ n_gas s' = n_gas s ∧ n_ext s' = n_ext s ∧
  ∀ d, meter s' d = meter s d - share d l.
Proof.
  revert s. induction l as [|al l IH]; intros s; simpl.
  { repeat split; try done. intros d. unfold share. simpl. lia. }
  destruct (IH (release_allocation s al)) as (E1 & E2 & E3 & E4 & Hm).
  rewrite E1, E2, E3, E4. repeat split; try done. intros d. rewrite Hm. unfold release_allocation.
  rewrite meter_set. simpl. rewrite raw_sub. fold (meter s (dc_Denom al)). unfold share. simpl.
  unfold of_denom at 2. case_decide; subst; simpl; lia.
Qed.

Lemma delete_incentive_spec i s :
  let s' := DeleteIncentiveAndUpdateAllocationMeters i s in
  n_params s' = n_params s ∧ n_incentives s' = delete (hex_to_address (in_Contract i)) (n_incentives s) ∧
  n_gas s' = n_gas s ∧ n_ext s' = n_ext s ∧ ∀ d, meter s' d = meter s d - alloc_of d i.
Proof. apply (release_allocations (Allocations i) (delete_incentive i s)). Qed.

Lemma delete_incentive_inv i j s :
  meter_inv s → n_incentives s !! hex_to_address (in_Contract i) = Some j → Allocations i = Allocations j →
  meter_inv (DeleteIncentiveAndUpdateAllocationMeters i s).
Proof.
  intros Hinv Hj Ha. destruct (delete_incentive_spec i s) as (_ & E & _ & _ & Hm).
  pose proof Hinv as [R1 R2 R3]. constructor.
  - rewrite E. intros k i'. rewrite lookup_delete_Some. intros [_ Hk]. auto.
  - intros d. rewrite Hm, E, R2, (map_sum_delete _ _ _ _ Hj). unfold alloc_of. rewrite Ha. lia.
  - intros d. rewrite Hm. pose proof (alloc_nonneg s _ _ d Hinv Hj). unfold alloc_of in *. rewrite Ha.
    specialize (R3 d). lia.
Qed.

(** *** Storing an incentive *)

(** A new version of a stored incentive with the same allocations. *)
Lemma set_incentive_inv i j k s :
  meter_inv s → n_incentives s !! k = Some j → incentive_ok k i → Allocations i = Allocations j →
  meter_inv (SetIncentive i s).
Proof.
  intros [R1 R2 R3] Hk Hi Ha. pose proof Hi as (Hkey & _). constructor; simpl.
  - intros k' i'. rewrite Hkey, lookup_insert_Some. intros [[<- <-]|[_ Hk']]; eauto.
  - intros d. change (meter s d = map_sum (alloc_of d) (<[hex_to_address (in_Contract i) := i]> (n_incentives s))).
    rewrite Hkey, (map_sum_insert _ _ _ _ _ Hk), R2. unfold alloc_of. rewrite Ha. lia.
  - exact R3.
Qed.

Lemma set_meters_spec ams s s' :
  NoDup (dc_Denom <$> ams) → foreach ams (λ am, modify (SetAllocationMeter am)) s = (Ok tt, s') →
  n_params s' = n_params s ∧ n_incentives s' = n_incentives s ∧ n_gas s' = n_gas s ∧ n_ext s' = n_ext s ∧
  (∀ am, am ∈ ams → meter s' (dc_Denom am) = dec_raw (dc_Amount am)) ∧
  ∀ d, d ∉ dc_Denom <$> ams → meter s' d = meter s d.
Proof.
  revert s. induction ams as [|am ams IH]; intros s Hnd Hrun; simpl in Hrun.
  { inv_ok. repeat split; try done. intros am Hin. by apply not_elem_of_nil in Hin. }
  rewrite fmap_cons in Hnd. apply NoDup_cons in Hnd as [Hnew Hnd]. inv_ok.
  match goal with Hf : foreach _ _ _ = _ |- _ => destruct (IH _ Hnd Hf) as (E1 & E2 & E3 & E4 & Hin & Hout) end.
  repeat split; try done.
  - intros am' Hm. apply elem_of_cons in Hm as [->|Hm]; [|auto].
    rewrite Hout by done. rewrite meter_set. by case_decide.
  - intros d Hd. rewrite fmap_cons in Hd. apply not_elem_of_cons in Hd as [Hne Hd].
    rewrite Hout by done. rewrite meter_set. by case_decide.
Qed.

Lemma new_meters_spec s l ams :
  new_meters s l = Ok ams →
  dc_Denom <$> ams = dc_Denom <$> l ∧
  ∀ al, al ∈ l → ∃ am, am ∈ ams ∧ dc_Denom am = dc_Denom al ∧
    dec_raw (dc_Amount am) = meter s (dc_Denom al) + dec_raw (dc_Amount al) ∧
    dec_raw (dc_Amount am) ≤ dec_unit.
Proof.
  revert ams. induction l as [|al l IH]; intros ams Hm; cbn [new_meters] in Hm.
  { inv_ok. split; [done|]. intros al Hin. by apply not_elem_of_nil in Hin. }
  inv_ok. match goal with Hr : new_meters _ _ = Ok ?a |- _ => destruct (IH _ Hr) as [E Hin] end.
  rewrite gt_spec, raw_new, raw_add in *. bool_hyps. rewrite !fmap_cons, E. split; [done|].
  intros al' Hal. apply elem_of_cons in Hal as [->|Hal].
  - eexists. split; [left|]. simpl. rewrite raw_add. fold (meter s (dc_Denom al)) in *.
    split; [done|]. split; [done|]. unfold meter in *. lia.
  - destruct (Hin al' Hal) as (am & Ham & ?). exists am. split; [by right|done].
Qed.

Lemma share_out d (l : list (DecCoin D)) : d ∉ dc_Denom <$> l → share d l = 0.
Proof.
  induction l as [|al l IH]; [done|]. rewrite fmap_cons, not_elem_of_cons. intros [Hne Hl].
  unfold share in *. simpl. rewrite IH by done. unfold of_denom. rewrite decide_False by done. lia.
Qed.

Lemma share_in al (l : list (DecCoin D)) :
  NoDup (dc_Denom <$> l) → al ∈ l → share (dc_Denom al) l = dec_raw (dc_Amount al).
Proof.
  induction l as [|b l IH]; intros Hnd Hin; [by apply not_elem_of_nil in Hin|].
  rewrite fmap_cons, NoDup_cons in Hnd. destruct Hnd as [Hnew Hnd].
  change (share (dc_Denom al) (b :: l)) with (of_denom (dc_Denom b) (dc_Denom al) (dec_raw (dc_Amount b)) + share (dc_Denom al) l).
  unfold of_denom. apply elem_of_cons in Hin as [->|Hin].
  - rewrite decide_True, share_out by done. lia.
  - rewrite IH by done. case_decide as E; [|lia]. exfalso. apply Hnew. rewrite <- E. by apply list_elem_of_fmap_2.
Qed.

Lemma register_ok ctx contract allocations epochs s i s' :
  RegisterIncentive (C := C) ctx contract allocations epochs s = (Ok i, s') →
  ∃ ams s1, EnableIncentives (n_params s) = true ∧ IsContract (n_ext s) contract = true ∧
    n_incentives s !! contract = None ∧
    check_allocations (C := C) (n_ext s) (AllocationLimit (n_params s)) allocations = Ok tt ∧
    new_meters s allocations = Ok ams ∧
    i = mkIncentive (address_hex contract) allocations epochs (BlockTime ctx) 0 ∧
    s1 = SetIncentive i s ∧ foreach ams (λ am, modify (SetAllocationMeter am)) s1 = (Ok tt, s').
Proof.
  unfold RegisterIncentive, incentives_GetParams. intros Hrun.
  apply bind_ok in Hrun as (p & s0 & Hg & Hrun). unfold gets in Hg. injection Hg as <- <-.
  apply bind_ok in Hrun as ([] & s0 & Hk1 & Hrun). apply check_ok in Hk1 as [Hk1 ->].
  apply bind_ok in Hrun as (b & s0 & Hg & Hrun). unfold gets in Hg. injection Hg as <- <-.
  apply bind_ok in Hrun as ([] & s0 & Hk2 & Hrun). apply check_ok in Hk2 as [Hk2 ->].
  apply bind_ok in Hrun as (b & s0 & Hg & Hrun). unfold gets in Hg. injection Hg as <- <-.
  apply bind_ok in Hrun as ([] & s0 & Hk3 & Hrun). apply check_ok in Hk3 as [Hk3 ->].
  apply bind_ok in Hrun as (x & s0 & Hg & Hrun). unfold gets in Hg. injection Hg as <- <-.
  apply bind_ok in Hrun as ([] & s0 & Hc & Hrun). apply lift_ok in Hc as [Hc ->].
  apply bind_ok in Hrun as (x & s0 & Hg & Hrun). unfold gets in Hg. injection Hg as <- <-.
  apply bind_ok in Hrun as (ams & s0 & Hm & Hrun). apply lift_ok in Hm as [Hm ->].
  apply bind_ok in Hrun as ([] & s0 & Hs & Hrun). unfold modify in Hs. injection Hs as <-.
  apply bind_ok in Hrun as ([] & s0 & Hf & Hrun). unfold ret in Hrun. injection Hrun as <- <-.
  unfold IsIncentiveRegistered in Hk3. bool_hyps. apply eq_None_not_Some in Hk3. eauto 12.
Qed.

Lemma register_inv ctx contract allocations epochs s i s' :
  meter_inv s → String.length contract = 20%nat → 0 < epochs < 2^32 →
  NoDup (dc_Denom <$> allocations) → Forall (λ al, 0 < dec_raw (dc_Amount al)) allocations →
  RegisterIncentive (C := C) ctx contract allocations epochs s = (Ok i, s') → meter_inv s'.
Proof.
  intros [R1 R2 R3] Hlen He Hnd Hpos Hrun.
  apply register_ok in Hrun as (ams & s1 & _ & _ & Hfree & _ & Hm & Hi & Hs1 & Hf).
  apply new_meters_spec in Hm as [Hd Hin].
  apply set_meters_spec in Hf as (_ & E2 & _ & _ & Hset & Hout); [|by rewrite Hd].
  assert (Hkey : hex_to_address (in_Contract i) = contract) by (subst i; by apply hex_roundtrip).
  assert (Hins : n_incentives s' = <[contract := i]> (n_incentives s)) by (rewrite E2, Hs1; simpl; by rewrite Hkey).
  assert (Hmeter : ∀ d, meter s' d = meter s d + alloc_of d i ∧ meter s' d ≤ dec_unit).
  { intros d. assert (Hal : alloc_of d i = share d allocations) by (by subst i).
    destruct (decide (d ∈ dc_Denom <$> allocations)) as [Hdin|Hdout].
    - apply list_elem_of_fmap in Hdin as (al & -> & Hal'). destruct (Hin al Hal') as (am & Ham & Eam & Hraw & Hle).
      rewrite <- Eam at 1 4. rewrite (Hset am Ham), Hal, share_in by done. split; lia.
    - rewrite Hout, Hal, share_out by (by rewrite ?Hd).
      assert (meter s1 d = meter s d) as -> by (by subst s1). specialize (R3 d). lia. }
  constructor.
  - rewrite Hins. intros k i'. rewrite lookup_insert_Some. intros [[<- <-]|[_ Hk]]; [|auto].
    split; [done|]. subst i. done.
  - intros d. rewrite Hins, map_sum_insert_new by done. rewrite (proj1 (Hmeter d)), R2. lia.
  - intros d. apply Hmeter.
Qed.

(** *** The loop over the participants *)

Lemma next_same {A} (m : M X A) s o s' : next m s = (o, s') → same_meters s s' ∧ n_gas s' = n_gas s ∧ m (n_ext s) = (o, n_ext s').
Proof. unfold next, zoom. destruct (m (n_ext s)) as [o1 x]. by intros [= <- <-]. Qed.

Hypothesis send_no_panic : ∀ t (c : C) (x : X),
  (SendCoinsFromModuleToAccount incentives_ModuleName t c x).1 ≠ Panic.

Lemma participant_reward_total i ca scaler gas :
  TotalGas i ≠ 0 → ∃ coins, participant_reward (C := C) (X := X) i ca scaler gas = Ok coins.
Proof.
  intros Hg. unfold participant_reward.
  destruct (raw_quo (dec_new (D := D) gas) (dec_new (TotalGas i))) as (c & -> & _); [|by eexists].
  rewrite raw_new. pose proof dec_unit_pos. nia.
Qed.

Lemma reward_loop_total i ca scaler gms rewards count s :
  TotalGas i ≠ 0 →
  ∃ r s', reward_loop (C := C) i ca scaler gms rewards count s = (Ok r, s') ∧ same_meters s s'.
Proof.
  intros Hg. revert rewards count s. induction gms as [|gm gms IH]; intros rewards count s.
  { by do 2 eexists. }
  cbn [reward_loop]. destruct (participant_reward_total i ca scaler (CumulativeGas gm) Hg) as [coins Hc].
  unfold bind at 1, lift at 1. rewrite Hc. unfold bind at 1, try.
  destruct (next _ s) as [o s1] eqn:En. pose proof En as (Hs1 & _ & Hx)%next_same.
  destruct o as [[]|e|].
  - unfold bind, modify. destruct (IH (coins_add rewards coins) (wrapu64 (count + 1)) (DeleteGasMeter gm s1))
      as (r & s' & -> & Hs'). do 2 eexists. split; [done|]. eapply same_meters_trans; [exact Hs1|exact Hs'].
  - by do 2 eexists.
  - exfalso. eapply send_no_panic. by rewrite Hx.
Qed.

Lemma reward_participants_total i allocs s :
  ∃ r s', rewardParticipants (C := C) i allocs s = (Ok r, s') ∧ same_meters s s'.
Proof.
  unfold rewardParticipants. destruct (allocs !! _) as [ca|]; [|by do 2 eexists].
  destruct (Z.eqb_spec (TotalGas i) 0); [by do 2 eexists|]. by apply reward_loop_total.
Qed.

(** *** The end of an epoch *)

(** An incentive after an epoch: one epoch less, no gas; gone after its last. *)
Definition after_epoch i : option (Incentive D) :=
  if in_Epochs i =? 1 then None
  else Some (mkIncentive (in_Contract i) (Allocations i) (in_Epochs i - 1) (in_StartTime i) 0).

Lemma distribute_incentive_total allocs k i s :
  meter_inv s → n_incentives s !! k = Some i →
  ∃ s', distribute_incentive (C := C) allocs i s = (Ok false, s') ∧ meter_inv s' ∧ n_params s' = n_params s ∧
    n_incentives s' !! k = after_epoch i ∧ ∀ k', k' ≠ k → n_incentives s' !! k' = n_incentives s !! k'.
Proof.
  intros Hinv Hk. pose proof (mi_ok s Hinv k i Hk) as (Hkey & Hpos & He).
  destruct (reward_participants_total i allocs s) as (r & s1 & Hr & Hs1). unfold distribute_incentive.
  unfold bind at 1. rewrite Hr. cbv zeta. pose proof (meter_inv_same _ _ Hs1 Hinv) as Hinv1.
  destruct Hs1 as (E1 & E2 & E3). rewrite <- E2 in Hk. unfold IsActive. simpl. rewrite Z.mod_small by lia.
  unfold after_epoch. destruct (Z.ltb_spec 0 (in_Epochs i - 1)) as [Ha|Ha], (Z.eqb_spec (in_Epochs i) 1) as [E|E];
    try lia; (eexists; split; [reflexivity|]).
  - set (j := mkIncentive (in_Contract i) (Allocations i) (in_Epochs i - 1) (in_StartTime i) (TotalGas i)).
    assert (Hinv2 : meter_inv (SetIncentive j s1)) by (eapply set_incentive_inv; [done..|split; [done|]; split; [done|]; simpl; lia|done]).
    split; [|split; [done|split]].
    + unfold SetIncentiveTotalGas. eapply (set_incentive_inv _ j k); [done| | |done].
      * simpl. by rewrite Hkey, lookup_insert_eq.
      * split; [done|]. split; [done|]. simpl. lia.
    + simpl. by rewrite Hkey, lookup_insert_eq.
    + intros k' Hk'. simpl. rewrite Hkey, !lookup_insert_ne by done. by rewrite E2.
  - match goal with |- context [DeleteIncentiveAndUpdateAllocationMeters ?j s1] =>
      destruct (delete_incentive_spec j s1) as (F1 & F2 & _); set (j0 := j) in * end.
    split; [|split; [|split]].
    + eapply delete_incentive_inv; [done| |]; [simpl; by rewrite Hkey|done].
    + congruence.
    + rewrite F2. simpl. by rewrite Hkey, lookup_delete_eq.
    + intros k' Hk'. rewrite F2. simpl. by rewrite Hkey, lookup_delete_ne, E2 by done.
Qed.

Lemma distribute_loop_total allocs l s :
  meter_inv s → NoDup l.*1 → (∀ k i, (k, i) ∈ l → n_incentives s !! k = Some i) →
  ∃ s', iterate l.*2 (distribute_incentive (C := C) allocs) s = (Ok tt, s') ∧ meter_inv s' ∧ n_params s' = n_params s ∧
    (∀ k i, (k, i) ∈ l → n_incentives s' !! k = after_epoch i) ∧
    ∀ k, k ∉ l.*1 → n_incentives s' !! k = n_incentives s !! k.
Proof.
  revert s. induction l as [|[k i] l IH]; intros s Hinv Hnd Hl.
  { eexists. split; [done|]. split; [done|]. split; [done|]. split; [|done].
    intros k i Hin. by apply not_elem_of_nil in Hin. }
  rewrite fmap_cons, NoDup_cons in Hnd. destruct Hnd as [Hnew Hnd]. simpl in Hnew.
  destruct (distribute_incentive_total allocs k i s Hinv) as (s1 & H1' & Hinv1 & Hp1 & Hown & Hother); [apply Hl; left|].
  destruct (IH s1 Hinv1 Hnd) as (s2 & Hit & Hinv2 & Hp2 & Hin2 & Hout2).
  { intros k' i' Hin. rewrite Hother; [apply Hl; by right|]. intros ->. apply Hnew.
    by apply list_elem_of_fmap_2 with (f := fst) in Hin. }
  exists s2. split; [|split; [done|split; [congruence|split]]].
  - rewrite fmap_cons. cbn [iterate snd]. unfold bind. rewrite H1'. exact Hit.
  - intros k' i' Hin. apply elem_of_cons in Hin as [[= -> ->]|Hin]; [|auto]. rewrite Hout2 by done. exact Hown.
  - intros k' Hk'. rewrite fmap_cons, not_elem_of_cons in Hk'. destruct Hk' as [Hne Hk'].
    rewrite Hout2 by done. by apply Hother.
Qed.

(** *** The allocations never exceed the balance *)

Lemma insert_loop_lookup (l : list (string * Z)) (m : gmap string Z) d :
  NoDup l.*1 →
  foldl (λ m c, <[c.1 := c.2]> m) m l !! d =
  match list_to_map (M := gmap string Z) l !! d with Some v => Some v | None => m !! d end.
Proof.
  revert m. induction l as [|[k v] l IH]; intros m Hnd; simpl; [by rewrite lookup_empty|].
  rewrite fmap_cons, NoDup_cons in Hnd. destruct Hnd as [Hnew Hnd]. simpl in Hnew. rewrite IH by done.
  destruct (decide (k = d)) as [->|Hne].
  - rewrite !lookup_insert_eq, not_elem_of_list_to_map_1 by done. done.
  - by rewrite !lookup_insert_ne by done.
Qed.

Definition bal (m : gmap string Z) (d : string) : Z := default 0 (m !! d).

Section allocation.
Variable balances : gmap string Z.
Hypothesis balances_nonneg : ∀ d, 0 ≤ bal balances d.
Hypothesis balances_denoms : ∀ d, 0 < bal balances d → denom_valid (C := C) d = true.

Lemma allocate_bound (l : list (DecCoin D)) (c : C) :
  Forall (λ al, 0 < dec_raw (dc_Amount al)) l → coins_valid c = true →
  let c' := foldl (allocate (D := D) balances) c l in
  coins_valid c' = true ∧
  ∀ d, dec_unit * amount_of c' d ≤ dec_unit * amount_of c d + bal balances d * share d l.
Proof.
  intros Hpos. revert c. induction Hpos as [|al l Ha Hl IH]; intros c Hc; simpl.
  { split; [done|]. intros d. unfold share. simpl. lia. }
  pose proof dec_unit_pos as Hu.
  assert (Hstep : let c1 := allocate balances c al in coins_valid c1 = true ∧
    ∀ d, dec_unit * amount_of c1 d ≤ dec_unit * amount_of c d + bal balances d * of_denom (dc_Denom al) d (dec_raw (dc_Amount al))).
  { cbv zeta. unfold allocate. pose proof (balances_nonneg (dc_Denom al)) as Hb. unfold bal in Hb.
    destruct (balances !! dc_Denom al) as [b|] eqn:Eb; simpl in Hb.
    - destruct (Z.ltb_spec 0 (dec_truncate_int (dec_mul (dec_new b) (dc_Amount al)))) as [Ht|Ht]; simpl.
      + split.
        { apply valid_add_lit; [done| |lia]. apply balances_denoms. unfold bal. rewrite Eb. simpl.
          rewrite truncate_new_mul in Ht by lia. destruct (Z.eq_dec b 0) as [->|]; [|lia]. rewrite Z.mul_0_l, Z.div_0_l in Ht; lia. }
        intros d. rewrite amount_add_lit by (done || lia).
        unfold of_denom. case_decide as Ed; [subst d|lia]. unfold bal. rewrite Eb. simpl.
        rewrite truncate_new_mul by lia. pose proof (Z.mul_div_le (b * dec_raw (dc_Amount al)) dec_unit Hu). lia.
      + split; [done|]. intros d. unfold of_denom, bal. case_decide as Ed; [subst d; rewrite Eb; simpl; nia|lia].
    - split; [done|]. intros d. unfold of_denom, bal. case_decide as Ed; [subst d; rewrite Eb; simpl; lia|lia]. }
  destruct Hstep as [Hv1 Hb1]. destruct (IH _ Hv1) as [Hv2 Hb2]. split; [done|]. intros d.
  change (share d (al :: l)) with (of_denom (dc_Denom al) d (dec_raw (dc_Amount al)) + share d l).
  specialize (Hb1 d). specialize (Hb2 d). lia.
Qed.

Lemma allocate_incentives_bound l allocs rewards :
  (∀ i, i ∈ l → Forall (λ al, 0 < dec_raw (dc_Amount al)) (Allocations i)) → coins_valid rewards = true →
  let r := (foldl (allocate_incentive (C := C) (D := D) balances) (allocs, rewards) l).2 in
  coins_valid r = true ∧
  ∀ d, dec_unit * amount_of r d ≤ dec_unit * amount_of rewards d + bal balances d * sumZ (alloc_of d) l.
Proof.
  revert allocs rewards. induction l as [|i l IH]; intros allocs rewards Hpos Hr; simpl.
  { split; [done|]. intros d. lia. }
  destruct (allocate_bound (Allocations i) coins_empty) as [Hv Hb]; [apply Hpos; left|apply valid_empty|].
  set (coins := foldl (allocate balances) coins_empty (Allocations i)) in *.
  destruct (IH (<[hex_to_address (in_Contract i) := coins]> allocs) (coins_add rewards coins)) as [Hv2 Hb2].
  { intros j Hj. apply Hpos. by right. }
  { by apply valid_add. }
  split; [done|]. intros d. specialize (Hb d). specialize (Hb2 d). rewrite amount_add in Hb2 by done.
  rewrite amount_empty in Hb. unfold alloc_of at 1. lia.
Qed.
End allocation.

Lemma reward_allocations_ok s : meter_inv s → ∃ r, rewardAllocations (C := C) s = Ok r.
Proof.
  intros Hinv. unfold rewardAllocations.
  set (bals := AccountBalances (C := C) (n_ext s) (module_addr (C := C) (X := X) incentives_ModuleName)).
  destruct (account_balances_sorted (C := C) (n_ext s) (module_addr (C := C) (X := X) incentives_ModuleName)) as [Hso Hnd].
  fold bals in Hso, Hnd. set (dbs := foldl (λ m c, <[c.1 := c.2]> m) ∅ bals).
  assert (Hdbs : ∀ d, bal dbs d = default 0 (list_to_map (M := gmap string Z) bals !! d)).
  { intros d. unfold bal, dbs. rewrite insert_loop_lookup by done. rewrite lookup_empty. by destruct (list_to_map _ !! d). }
  assert (Hpos : Forall (λ c, 0 < c.2) bals).
  { apply Forall_forall. intros [d v] Hin. by apply account_balances_spec in Hin as [_ Hv]. }
  assert (Hbal : ∀ d, 0 ≤ bal dbs d).
  { intros d. rewrite Hdbs. destruct (list_to_map bals !! d) as [v|] eqn:E; simpl; [|lia].
    apply elem_of_list_to_map_2 in E. rewrite Forall_forall in Hpos. specialize (Hpos _ E). simpl in Hpos. lia. }
  assert (Hden : ∀ d, 0 < GetBalance (C := C) (n_ext s) (module_addr (C := C) (X := X) incentives_ModuleName) d → denom_valid (C := C) d = true).
  { intros d Hd. eapply valid_denom; [apply (all_balances_valid (C := C) (n_ext s) (module_addr (C := C) (X := X) incentives_ModuleName))|].
    rewrite all_balances_spec. lia. }
  assert (Hdens : Forall (λ c, denom_valid (C := C) c.1 = true) bals).
  { apply Forall_forall. intros [d v] Hin. apply account_balances_spec in Hin as [Hg Hv]. apply Hden. simpl. lia. }
  assert (Hdbd : ∀ d, 0 < bal dbs d → denom_valid (C := C) d = true).
  { intros d. rewrite Hdbs. destruct (list_to_map bals !! d) as [v|] eqn:E; simpl; [|lia]. intros _.
    apply elem_of_list_to_map_2 in E. rewrite Forall_forall in Hdens. exact (Hdens _ E). }
  destruct (allocate_incentives_bound dbs Hbal Hdbd (kv_iter (n_incentives s)).*2 ∅ coins_empty) as [Hv Hb].
  { intros i Hin. apply list_elem_of_fmap in Hin as ([k j] & -> & Hin). apply elem_of_kv_iter in Hin. by apply (mi_ok s Hinv k j). }
  { apply valid_empty. }
  destruct (foldl (allocate_incentive dbs) (∅, coins_empty) (kv_iter (n_incentives s)).*2) as [al rw]. simpl in *.
  destruct (coins_is_any_gt rw (coins_collect bals)) eqn:E; [|by eexists]. exfalso.
  apply is_any_gt_spec in E as (d & _ & Hlt); [|done|by apply valid_collect].
  rewrite amount_collect, <- Hdbs in Hlt by done. specialize (Hb d). rewrite amount_empty in Hb.
  assert (Hsum : sumZ (alloc_of d) (kv_iter (n_incentives s)).*2 ≤ dec_unit).
  { pose proof (mi_sum s Hinv d) as Hs. pose proof (mi_cap s Hinv d).
    rewrite <- map_sum_kv_iter in Hs. unfold sumZ in *. rewrite foldr_fmap. lia. }
  pose proof dec_unit_pos. specialize (Hbal d). nia.
Qed.

Lemma distribute_rewards_total s :
  meter_inv s →
  ∃ s', DistributeRewards (C := C) s = (Ok tt, s') ∧ meter_inv s' ∧ n_params s' = n_params s ∧
    ∀ k, n_incentives s' !! k = n_incentives s !! k ≫= after_epoch.
Proof.
  intros Hinv. destruct (reward_allocations_ok s Hinv) as [[allocs rw] Hr].
  destruct (distribute_loop_total allocs (kv_iter (n_incentives s)) s Hinv) as (s' & Hit & Hinv' & Hp & Hin & Hout).
  { apply NoDup_kv_iter. }
  { intros k i. apply elem_of_kv_iter. }
  exists s'. split; [|split; [done|split; [done|]]].
  - unfold DistributeRewards, bind, gets, lift. cbv beta iota delta [id]. rewrite Hr. exact Hit.
  - intros k. destruct (n_incentives s !! k) as [i|] eqn:Ek; simpl.
    + apply Hin. by apply elem_of_kv_iter.
    + rewrite Hout; [done|]. intros Hk. apply list_elem_of_fmap in Hk as ([k' i] & -> & Hk).
      apply elem_of_kv_iter in Hk. simpl in Ek. congruence.
Qed.

Lemma epoch_end_total id s :
  meter_inv s →
  ∃ s', incentives_AfterEpochEnd (C := C) id s = (Ok tt, s') ∧ meter_inv s' ∧
    if String.eqb id (IncentivesEpochIdentifier (n_params s)) && EnableIncentives (n_params s)
    then n_params s' = n_params s ∧ ∀ k, n_incentives s' !! k = n_incentives s !! k ≫= after_epoch
    else s' = s.
Proof.
  intros Hinv. unfold incentives_AfterEpochEnd, incentives_GetParams, bind, gets.
  destruct (String.eqb id _); simpl; [|by eexists]. destruct (EnableIncentives _); simpl; [|by eexists].
  destruct (distribute_rewards_total s Hinv) as (s' & Hd & Hinv' & Hp & Hk). exists s'.
  unfold must. by rewrite Hd.
Qed.

(** *** Transactions *)

Lemma set_gas_same gm s : same_meters s (SetGasMeter gm s).
Proof. done. Qed.

(** A transaction counts when it calls a registered contract from an account
    that is not a contract. *)
Definition counted (tx : EvmTx) s : option (string * Incentive D) :=
  if EnableIncentives (n_params s) && bool_decide (is_Some (GetAccount (C := C) (n_ext s) (tx_From tx)))
     && negb (is_contract_account (n_ext s) (tx_From tx))
  then contract ← tx_To tx; i ← n_incentives s !! contract; Some (contract, i)
  else None.

Definition add_gas (gas : Z) i : Incentive D :=
  mkIncentive (in_Contract i) (Allocations i) (in_Epochs i) (in_StartTime i) (wrapu64 (TotalGas i + gas)).

Definition counted_state (tx : EvmTx) (contract : string) i s : incentives_state D X :=
  let s1 := SetIncentive (add_gas (GasUsed tx) i) s in
  SetGasMeter (NewGasMeter contract (tx_From tx)
    match GetGasMeter s contract (tx_From tx) with
    | Some g => wrapu64 (GasUsed tx + g) | None => GasUsed tx end) s1.

Lemma post_tx_spec tx s :
  incentives_PostTxProcessing (C := C) tx s =
  (Ok tt, match counted tx s with None => s | Some (contract, i) => counted_state tx contract i s end).
Proof.
  unfold incentives_PostTxProcessing, counted, incentives_GetParams, bind, gets.
  destruct (EnableIncentives (n_params s)); simpl; [|done].
  destruct (tx_To tx) as [contract|]; simpl; [|by destruct (_ && _)].
  unfold IsIncentiveRegistered. destruct (n_incentives s !! contract) as [i|] eqn:Ei; simpl.
  2: { by destruct (_ && _). }
  destruct (GetAccount (n_ext s) (tx_From tx)); simpl; [|done].
  destruct (is_contract_account (n_ext s) (tx_From tx)); simpl; [done|].
  unfold addGasToIncentive, addGasToParticipant, GetIncentive, bind, gets, modify. rewrite Ei. simpl.
  unfold counted_state, add_gas. unfold GetGasMeter. simpl. done.
Qed.

Lemma counted_inv tx contract i s :
  meter_inv s → n_incentives s !! contract = Some i → meter_inv (counted_state tx contract i s).
Proof.
  intros Hinv Hi. eapply meter_inv_same; [apply set_gas_same|].
  eapply (set_incentive_inv _ i contract); [done..| |done]. apply (mi_ok s Hinv contract i Hi).
Qed.

(** *** Reachable states *)

Variable validate_abstract : IncentiveProposal D → option error.

(** [epochs] is a [uint32]. *)
Definition proposal_typed (p : IncentiveProposal D) : Prop :=
  match p with RegisterIncentiveProposal _ _ epochs => 0 ≤ epochs < 2^32 | _ => True end.

Inductive incentives_step : incentives_state D X → incentives_state D X → Prop :=
  | in_proposal ctx p s s' :
      proposal_typed p → IncentiveProposal_ValidateBasic validate_abstract p = Ok tt →
      IncentivesProposalHandler (C := C) ctx p s = (Ok tt, s') → incentives_step s s'
  | in_epoch id s s' : incentives_AfterEpochEnd (C := C) id s = (Ok tt, s') → incentives_step s s'
  | in_tx tx s s' : incentives_PostTxProcessing (C := C) tx s = (Ok tt, s') → incentives_step s s'
  | in_params p s : incentives_step s (incentives_SetParams p s)
  | in_other x s : incentives_step s (mkInc (n_params s) (n_incentives s) (n_gas s) (n_meters s) x).

Lemma delete_gas_same gms s s' :
  foreach gms (λ gm, modify (DeleteGasMeter gm)) s = (Ok tt, s') → same_meters s s'.
Proof.
  revert s. induction gms as [|gm gms IH]; intros s Hrun; simpl in Hrun; [by inv_ok|]. inv_ok.
  match goal with Hf : foreach _ _ _ = _ |- _ => apply IH in Hf as Hs end.
  eapply same_meters_trans; [|exact Hs]. done.
Qed.

Lemma proposal_inv ctx p s s' :
  meter_inv s → proposal_typed p → IncentiveProposal_ValidateBasic validate_abstract p = Ok tt →
  IncentivesProposalHandler (C := C) ctx p s = (Ok tt, s') → meter_inv s'.
Proof.
  intros Hinv Ht Hv Hrun. destruct p as [contract allocations epochs|contract|]; simpl in Hrun; [| |done].
  - apply bind_ok in Hrun as (i & s1 & Hrun & Hr). inv_ok. simpl in Hv, Ht. inv_ok.
    unfold validateAllocations, validateEpochs in *. inv_ok. bool_hyps.
    match goal with Hd : from_opt (deccoins_validate _) = _ |- _ =>
      destruct (deccoins_validate allocations) eqn:Ed; [done|] end.
    apply deccoins_validate_ok in Ed as [Hnd Hpos].
    eapply register_inv; [done|apply hex_to_address_length| |done..|done]. lia.
  - unfold CancelIncentive in Hrun. inv_ok.
    match goal with Hm : match ?o with Some _ => _ | None => _ end _ = _ |- _ =>
      destruct o as [i|] eqn:Ei; [rename Hm into Hrun|done] end. inv_ok.
    match goal with Hf : foreach _ _ _ = _ |- _ => apply delete_gas_same in Hf as Hs end.
    eapply meter_inv_same; [exact Hs|]. unfold GetIncentive in Ei. eapply delete_incentive_inv; [done| |done].
    destruct (mi_ok _ Hinv _ _ Ei) as [-> _]. exact Ei.
Qed.

Lemma step_inv s s' : incentives_step s s' → meter_inv s → meter_inv s'.
Proof.
  intros [ctx p s1 s2 Ht Hv Hrun|id s1 s2 Hrun|tx s1 s2 Hrun|p s1|x s1] Hinv.
  - by eapply proposal_inv.
  - destruct (epoch_end_total id s1 Hinv) as (s3 & Hr & Hinv3 & _). congruence.
  - rewrite post_tx_spec in Hrun. injection Hrun as <-. unfold counted.
    destruct (_ && _); simpl; [|done]. destruct (tx_To tx) as [c|]; simpl; [|done].
    destruct (n_incentives s1 !! c) as [i|] eqn:Ei; simpl; [|done]. by apply counted_inv.
  - destruct Hinv as [R1 R2 R3]. constructor; auto.
  - destruct Hinv as [R1 R2 R3]. by constructor.
Qed.

Lemma steps_inv s s' : rtc incentives_step s s' → meter_inv s → meter_inv s'.
Proof. induction 1; eauto using step_inv. Qed.

Lemma reachable_inv s0 s :
  n_incentives s0 = ∅ → n_meters s0 = ∅ → rtc incentives_step s0 s → meter_inv s.
Proof.
  intros Ei Em Hrun. assert (Hinv : meter_inv s0).
  { constructor.
    - rewrite Ei. intros k i Hk. by rewrite lookup_empty in Hk.
    - intros d. by rewrite meter_lookup, Em, Ei, lookup_empty, map_sum_empty.
    - intros d. rewrite meter_lookup, Em, lookup_empty. pose proof dec_unit_pos. lia. }
  by eapply steps_inv.
Qed.

(** C10: over any sequence of validated proposals, epoch ends, transactions,
    parameter changes and changes outside the module, the allocation meter of every denomination is the sum of
    the allocations of the registered incentives, and never exceeds one. *)
Theorem meters_sum_allocations s0 s d :
  n_incentives s0 = ∅ → n_meters s0 = ∅ → rtc incentives_step s0 s →
  dec_raw (dc_Amount (GetAllocationMeter s d).1) = sumZ (alloc_of d) (GetAllIncentives s) ∧
  dec_raw (dc_Amount (GetAllocationMeter s d).1) ≤ dec_unit.
Proof.
  intros Ei Em Hrun. pose proof (reachable_inv s0 s Ei Em Hrun) as [R1 R2 R3]. split; [|apply R3].
  etransitivity; [apply R2|]. rewrite <- map_sum_kv_iter. unfold GetAllIncentives, sumZ. by rewrite foldr_fmap.
Qed.

(** C11: in every reachable state the end of an epoch succeeds: the allocations
    fit into the module's balance, so the hook never panics and never halts the
    chain.  In the epoch of the module every incentive loses one epoch and its
    gas, and those in their last epoch are removed. *)
Theorem epoch_end_never_fails s0 s id :
  n_incentives s0 = ∅ → n_meters s0 = ∅ → rtc incentives_step s0 s →
  ∃ s', incentives_AfterEpochEnd (C := C) id s = (Ok tt, s') ∧
    if String.eqb id (IncentivesEpochIdentifier (n_params s)) && EnableIncentives (n_params s)
    then n_params s' = n_params s ∧ ∀ k, n_incentives s' !! k = n_incentives s !! k ≫= after_epoch
    else s' = s.
Proof.
  intros Ei Em Hrun. pose proof (reachable_inv s0 s Ei Em Hrun) as Hinv.
  destruct (epoch_end_total id s Hinv) as (s' & Hr & _ & Hs'). eauto.
Qed.
End meters.

(** ** Rewards *)

Section rewards.
Context {C D X : Type} `{SdkCoinsLaws C, SdkDecLaws D, !DecCoins D, EthAddress}.
Context `{!AccountKeeper C X, !BankKeeper C X, !EvmKeeper X, !BankLaws C X}.
Implicit Types s : incentives_state D X.
Implicit Types i : Incentive D.

(** What is paid of one denomination: a part of the allocation, and in the EVM's
    denomination at most the scaled gas. *)
Definition within (ca : C) (gas : Z) (scaler : D) (d : string) (amt : Z) : Prop :=
  0 ≤ amt ≤ amount_of ca d ∧ (d = evm_denom (X := X) → dec_unit * amt ≤ gas * dec_raw scaler).

Lemma reward_coin_bound ca gas ratio scaler al (coins : C) :
  coins_valid ca = true → coins_valid coins = true → 0 ≤ gas → 0 ≤ dec_raw scaler → 0 ≤ dec_raw ratio ≤ dec_unit →
  let coins' := reward_coin (X := X) ca (dec_new gas) ratio scaler coins al in
  coins_valid coins' = true ∧
  (∀ d, d ≠ dc_Denom al → amount_of coins' d = amount_of coins d) ∧
  (amount_of coins (dc_Denom al) = 0 → within ca gas scaler (dc_Denom al) (amount_of coins' (dc_Denom al))).
Proof.
  intros Hca Hc Hg Hsc Hr. cbv zeta. unfold reward_coin. pose proof dec_unit_pos as Hu.
  set (d0 := dc_Denom al). pose proof (valid_nonneg ca d0 Hca) as Hamt. rewrite is_positive_spec, raw_mul_int.
  destruct (Z.ltb_spec 0 (dec_raw ratio * amount_of ca d0)) as [Hp|Hp]; simpl.
  2: { split; [done|]. split; [done|]. unfold within. intros ->. split; [lia|]. nia. }
  set (rew := if String.eqb evm_denom d0 then _ else _).
  assert (Hrew : 0 ≤ dec_raw rew ≤ dec_raw ratio * amount_of ca d0 ∧
                 (d0 = evm_denom (X := X) → dec_raw rew ≤ gas * dec_raw scaler)).
  { unfold rew. destruct (String.eqb_spec evm_denom d0) as [E|E]; rewrite ?raw_min, ?raw_mul_int, ?raw_mul_new.
    - split; [nia|]. intros _. lia.
    - split; [lia|]. congruence. }
  destruct Hrew as [[Hr1 Hr2] Hr3].
  assert (Ht : 0 ≤ dec_truncate_int rew ∧ dec_unit * dec_truncate_int rew ≤ dec_raw rew).
  { split; [by apply truncate_nonneg|]. rewrite raw_truncate, Z.quot_div_nonneg by lia. by apply Z.mul_div_le. }
  split.
  { apply valid_add_lit; [done| |lia]. apply (valid_denom ca); [done|]. nia. }
  split.
  - intros d Hd. rewrite amount_add_lit, decide_False by (done || lia). lia.
  - intros Hz. rewrite amount_add_lit, decide_True, Hz by (done || lia). split; [nia|]. intros E. specialize (Hr3 E). nia.
Qed.

Lemma reward_coins_bound ca gas ratio scaler l (coins : C) :
  coins_valid ca = true → coins_valid coins = true → 0 ≤ gas → 0 ≤ dec_raw scaler → 0 ≤ dec_raw ratio ≤ dec_unit →
  NoDup (dc_Denom <$> l) → (∀ d, d ∈ dc_Denom <$> l → amount_of coins d = 0) →
  let coins' := foldl (reward_coin (X := X) ca (dec_new gas) ratio scaler) coins l in
  coins_valid coins' = true ∧
  (∀ d, d ∉ dc_Denom <$> l → amount_of coins' d = amount_of coins d) ∧
  ∀ d, d ∈ dc_Denom <$> l → within ca gas scaler d (amount_of coins' d).
Proof.
  intros Hca. revert coins. induction l as [|al l IH]; intros coins Hc Hg Hsc Hr Hnd Hz; simpl.
  { split; [done|]. split; [done|]. intros d Hin. by apply not_elem_of_nil in Hin. }
  rewrite fmap_cons in *. apply NoDup_cons in Hnd as [Hnew Hnd].
  destruct (reward_coin_bound ca gas ratio scaler al coins) as (Hv1 & Ho1 & Hw1); [done..|].
  set (c1 := reward_coin ca (dec_new gas) ratio scaler coins al) in *.
  destruct (IH c1) as (Hv2 & Ho2 & Hw2); [done..| |].
  { intros d Hin. rewrite Ho1; [apply Hz; by right|]. by intros ->. }
  split; [done|]. split.
  - intros d Hd. apply not_elem_of_cons in Hd as [Hne Hd]. by rewrite Ho2, Ho1.
  - intros d Hd. destruct (decide (d ∈ dc_Denom <$> l)) as [Hin|Hout]; [by apply Hw2|].
    apply elem_of_cons in Hd as [->|Hd]; [|done]. rewrite Ho2 by done. apply Hw1, Hz. left.
Qed.

Lemma participant_reward_bound i ca scaler gas coins :
  coins_valid ca = true → 0 ≤ gas ≤ TotalGas i → 0 < TotalGas i → 0 ≤ dec_raw scaler →
  NoDup (dc_Denom <$> Allocations i) →
  participant_reward (X := X) i ca scaler gas = Ok coins →
  coins_valid coins = true ∧ ∀ d, within ca gas scaler d (amount_of coins d).
Proof.
  intros Hca Hg Ht Hsc Hnd Hp. unfold participant_reward in Hp. inv_ok. pose proof dec_unit_pos as Hu.
  match goal with Hq : dec_quo _ _ = Ok ?r |- _ =>
    assert (Hr : 0 ≤ dec_raw r ≤ dec_unit) by
      (split; [eapply (raw_quo_nonneg _ _ _ _ _ Hq)|eapply (raw_quo_le_unit _ _ _ _ _ Hq)]) end.
  destruct (reward_coins_bound ca gas x scaler (Allocations i) coins_empty) as (Hv & Ho & Hw);
    [done|apply valid_empty|lia|done|done|done|intros; apply amount_empty|].
  split; [done|]. intros d. destruct (decide (d ∈ dc_Denom <$> Allocations i)) as [Hin|Hout]; [by apply Hw|].
  rewrite Ho, amount_empty by done. pose proof (valid_nonneg ca d Hca). split; [lia|]. nia.
  Unshelve. all: rewrite ?raw_new; nia.
Qed.

(** The reward of a gas meter in denomination [d]. *)
Definition rewarded i (ca : C) (scaler : D) (gm : GasMeter) (d : string) : Z :=
  match participant_reward (X := X) i ca scaler (CumulativeGas gm) with Ok c => amount_of c d | _ => 0 end.

Local Abbreviation modaddr := (module_addr (C := C) (X := X) incentives_ModuleName).

(** What the payments to the participants [paid] do to the balance of [a]. *)
Definition paid_out i ca scaler (paid : list GasMeter) (a d : string) : Z :=
  sumZ (λ gm, at_addr a (hex_to_address (gm_Participant gm)) (rewarded i ca scaler gm d)
              - at_addr a modaddr (rewarded i ca scaler gm d)) paid.

Definition drop_gas (gms : list GasMeter) (g : gmap string Z) : gmap string Z :=
  foldl (λ g gm, delete (gas_key (hex_to_address (gm_Contract gm)) (hex_to_address (gm_Participant gm))) g) g gms.

Lemma reward_loop_spec i ca scaler gms rewards count s r s' :
  reward_loop (C := C) i ca scaler gms rewards count s = (Ok r, s') →
  ∃ paid rest s1, gms = paid ++ rest ∧ n_incentives s1 = n_incentives s ∧ n_gas s1 = drop_gas paid (n_gas s) ∧
    (∀ a d, GetBalance (C := C) (n_ext s1) a d = GetBalance (C := C) (n_ext s) a d + paid_out i ca scaler paid a d) ∧
    match rest with
    | [] => s' = s1
    | gm :: _ => n_gas s' = n_gas s1 ∧ ∃ coins e, participant_reward (X := X) i ca scaler (CumulativeGas gm) = Ok coins ∧
        SendCoinsFromModuleToAccount incentives_ModuleName (hex_to_address (gm_Participant gm)) coins (n_ext s1)
          = (Err e, n_ext s')
    end.
Proof.
  revert rewards count s. induction gms as [|gm gms IH]; intros rewards count s Hrun; cbn [reward_loop] in Hrun.
  { inv_ok. exists [], [], s'. repeat split; try done. intros. unfold paid_out. simpl. lia. }
  apply bind_ok in Hrun as (coins & s0 & Hc & Hrun). apply lift_ok in Hc as [Hc ->].
  apply bind_ok in Hrun as (o & s1 & Ht & Hrun). apply try_ok in Ht as [([] & -> & Ht)|(e & -> & Ht)].
  - apply next_same in Ht as ((_ & Ei & _) & Eg & Hsend). apply bind_ok in Hrun as ([] & s2 & Hd & Hrun).
    unfold modify in Hd. injection Hd as <-. apply IH in Hrun as (paid & rest & s3 & Hgms & Ei3 & Eg3 & Hb & Hrest).
    exists (gm :: paid), rest, s3. rewrite Hgms. split; [done|]. split; [by rewrite Ei3|]. split; [by rewrite Eg3, <- Eg|].
    split; [|done]. intros a d. rewrite Hb. simpl. apply send_mod_acc_ok in Hsend. rewrite Hsend.
    unfold paid_out. simpl. unfold rewarded at 3 4. rewrite Hc. lia.
  - inv_ok. apply next_same in Ht as ((_ & Ei & _) & Eg & Hsend). exists [], (gm :: gms), s.
    repeat split; try done; [intros; unfold paid_out; simpl; lia|]. eauto.
Qed.

(** C31: when the participants of an incentive are rewarded, their gas meters are
    paid in order until a transfer fails; what leaves the module goes to the
    participants, and the meters of those who were paid are deleted.  Every
    single reward is at most the allocation of the contract, and in the EVM's
    denomination at most the scaled gas of the participant. *)
Theorem participants_paid i allocs ca s r s' :
  allocs !! hex_to_address (in_Contract i) = Some ca → coins_valid ca = true → 0 < TotalGas i →
  0 ≤ dec_raw (RewardScaler (n_params s)) → NoDup (dc_Denom <$> Allocations i) →
  rewardParticipants (C := C) i allocs s = (Ok r, s') →
  ∃ paid rest s1,
    GetIncentiveGasMeters s (hex_to_address (in_Contract i)) = paid ++ rest ∧
    n_gas s1 = drop_gas paid (n_gas s) ∧ n_gas s' = n_gas s1 ∧
    (∀ a d, GetBalance (C := C) (n_ext s1) a d =
            GetBalance (C := C) (n_ext s) a d + paid_out i ca (RewardScaler (n_params s)) paid a d) ∧
    match rest with
    | [] => s' = s1
    | gm :: _ => ∃ coins e, SendCoinsFromModuleToAccount incentives_ModuleName
                              (hex_to_address (gm_Participant gm)) coins (n_ext s1) = (Err e, n_ext s')
    end ∧
    ∀ gm d, gm ∈ paid → 0 ≤ CumulativeGas gm ≤ TotalGas i →
      within ca (CumulativeGas gm) (RewardScaler (n_params s)) d (rewarded i ca (RewardScaler (n_params s)) gm d).
Proof.
  intros Hca Hv Hg Hsc Hnd Hrun. unfold rewardParticipants in Hrun. rewrite Hca in Hrun.
  destruct (Z.eqb_spec (TotalGas i) 0); [lia|]. unfold incentives_GetParams in Hrun.
  apply bind_ok in Hrun as (sc & s0 & Hgs & Hrun). unfold gets in Hgs. injection Hgs as <- <-.
  apply bind_ok in Hrun as (gms & s0 & Hgs & Hrun). unfold gets in Hgs. injection Hgs as <- <-.
  apply reward_loop_spec in Hrun as (paid & rest & s1 & Hgms & _ & Hgas & Hb & Hrest).
  exists paid, rest, s1. split; [done|]. split; [done|]. split; [|split; [done|split]].
  - destruct rest; [by subst|]. apply Hrest.
  - destruct rest; [done|]. destruct Hrest as (_ & coins & e & _ & Hs). eauto.
  - intros gm d _ Hgm. unfold rewarded. destruct (participant_reward i ca _ (CumulativeGas gm)) as [c| |] eqn:Ec.
    + by apply (participant_reward_bound i ca _ _ c Hv Hgm Hg Hsc Hnd Ec).
    + pose proof (valid_nonneg ca d Hv). split; [lia|]. nia.
    + pose proof (valid_nonneg ca d Hv). split; [lia|]. nia.
Qed.
End rewards.

(** ** Gas *)

Section gas.
Context {C D X : Type} `{SdkCoins C, SdkDecLaws D, !DecCoins D, !DecCoinsLaws D, EthAddressLaws}.
Context `{!AccountKeeper C X, !BankKeeper C X, !EvmKeeper X, !AccountTypes X}.
Implicit Types s : incentives_state D X.
Implicit Types i : Incentive D.

(** The gas on the meters of a contract. *)
Definition gas_sum s (contract : string) : Z := sumZ CumulativeGas (GetIncentiveGasMeters s contract).

Lemma gas_sum_kv s contract :
  gas_sum s contract = map_sum_kv (λ k v, if decide (String.prefix contract k = true) then v else 0) (n_gas s).
Proof.
  unfold gas_sum, GetIncentiveGasMeters, contract_gas, map_sum_kv.
  assert (E : ∀ l, sumZ CumulativeGas ((λ kv : string * Z, to_gas_meter kv.1 kv.2) <$> l) = sumZ snd l).
  { induction l as [|kv l IH]; [done|]. rewrite fmap_cons. simpl. by rewrite IH. }
  rewrite E, sumZ_filter. apply sumZ_perm, kv_iter_perm.
Qed.

Lemma gas_sum_set s c p g contract :
  String.length c = 20%nat → String.length p = 20%nat → String.length contract = 20%nat →
  gas_sum (SetGasMeter (NewGasMeter c p g) s) contract =
  gas_sum s contract + if decide (contract = c) then g - default 0 (GetGasMeter s c p) else 0.
Proof.
  intros Hc Hp Hk. rewrite !gas_sum_kv. unfold SetGasMeter, NewGasMeter, GetGasMeter. simpl.
  rewrite !hex_roundtrip by done. rewrite map_sum_kv_insert. unfold gas_key.
  destruct (decide (contract = c)) as [->|Hne].
  - rewrite prefix_append. rewrite decide_True by done. destruct (n_gas s !! _); simpl; lia.
  - destruct (n_gas s !! _);
      rewrite !decide_False by (intros Hpre; apply Hne; eapply prefix_append_eq; [congruence|exact Hpre]); lia.
Qed.

(** The EVM hook never fails.  A transaction that an account other than a
    contract sends to a registered contract adds its gas, modulo 2^64, to the
    total of the incentive and to the meters of that contract; any other
    transaction changes nothing. *)
Lemma hook_counts_gas tx s :
  (∀ k i, n_incentives s !! k = Some i → hex_to_address (in_Contract i) = k) →
  String.length (tx_From tx) = 20%nat → (∀ c, tx_To tx = Some c → String.length c = 20%nat) →
  ∃ s', incentives_PostTxProcessing (C := C) tx s = (Ok tt, s') ∧
    match counted (C := C) tx s with
    | None => s' = s
    | Some (contract, i) =>
        n_incentives s' = <[contract := add_gas (GasUsed tx) i]> (n_incentives s) ∧
        wrapu64 (gas_sum s' contract) = wrapu64 (gas_sum s contract + GasUsed tx) ∧
        ∀ k, k ≠ contract → String.length k = 20%nat → gas_sum s' k = gas_sum s k
    end.
Proof.
  intros Hkeys Hp Hc. eexists. split; [apply post_tx_spec|].
  destruct (counted tx s) as [[contract i]|] eqn:Ec; [|done].
  assert (Hto : tx_To tx = Some contract ∧ n_incentives s !! contract = Some i).
  { unfold counted in Ec. destruct (_ && _); [|done]. destruct (tx_To tx) as [c|]; [|done]. simpl in Ec.
    destruct (n_incentives s !! c) as [j|] eqn:Ej; [|done]. by simplify_eq/=. }
  destruct Hto as [Hto Hi]. specialize (Hc _ Hto). unfold counted_state. split; [|split].
  - simpl. by rewrite (Hkeys _ _ Hi).
  - rewrite gas_sum_set, decide_True by done.
    change (gas_sum (SetIncentive (add_gas (GasUsed tx) i) s) contract) with (gas_sum s contract).
    change (GetGasMeter (SetIncentive (add_gas (GasUsed tx) i) s) contract (tx_From tx)) with (GetGasMeter s contract (tx_From tx)).
    destruct (GetGasMeter s contract (tx_From tx)) as [g|]; simpl; [|by rewrite Z.sub_0_r].
    unfold wrapu64. rewrite <- Zplus_mod_idemp_r, <- Zminus_mod_idemp_l, Zmod_mod, Zminus_mod_idemp_l, Zplus_mod_idemp_r.
    f_equal. lia.
  - intros k Hne Hk. rewrite gas_sum_set, decide_False by done.
    change (gas_sum (SetIncentive (add_gas (GasUsed tx) i) s) k) with (gas_sum s k). lia.
Qed.

(** A genesis state with an incentive cannot be imported, although it passes
    [Validate]: the first allocation is added to the zero value of [sdk.Dec],
    whose number is nil, and [InitGenesis] panics.  An exported state with a
    registered incentive is of this kind. *)
Lemma incentives_genesis_panics params i incentives gasMeters s b x :
  incentives_GenesisState_Validate (C := C) params (i :: incentives) gasMeters = Ok tt →
  HasModuleAccount (C := C) incentives_ModuleName (n_ext s) = (Ok b, x) →
  (incentives_InitGenesis (C := C) params (i :: incentives) gasMeters s).1 = Panic.
Proof.
  intros Hv Ha. unfold incentives_GenesisState_Validate in Hv.
  apply obind_ok in Hv as ([] & Hi & _). cbn [validate_incentives] in Hi.
  apply obind_ok in Hi as ([] & _ & Hi). apply obind_ok in Hi as ([] & Hi & _). unfold Incentive_Validate in Hi. inv_ok.
  unfold incentives_InitGenesis, bind at 1, modify at 1. unfold bind at 1, next, zoom. simpl. rewrite Ha.
  destruct b; [|done]. simpl. destruct (Allocations i) as [|al l] eqn:El.
  { match goal with Hz : deccoins_is_zero _ = false |- _ => rewrite deccoins_is_zero_nil in Hz; done end. }
  unfold bind, modify, lift. simpl. rewrite lookup_empty, nil_add_panics. simpl.
  assert (E : foldl genesis_meter Panic l = Panic) by (clear; induction l; [done|exact IHl]).
  by rewrite E.
Qed.
End gas.

(** ** Witnesses *)

#[global] Instance z_deccoins : DecCoins Z := {
  deccoins_is_zero l := forallb (λ al, dc_Amount al =? 0) l;
  deccoins_validate l :=
    if bool_decide (NoDup (dc_Denom <$> l)) && forallb (λ al, 0 <? dc_Amount al) l
    then None else Some ErrInvalidCoins;
}.

#[global] Instance z_deccoins_laws : DecCoinsLaws Z.
Proof.
  constructor; [done|]. intros l. simpl. destruct (bool_decide _) eqn:En; simpl; [|done].
  destruct (forallb _ l) eqn:Ep; [|done]. intros _. apply bool_decide_eq_true in En. split; [done|].
  apply Forall_forall. intros al Hin. rewrite forallb_forall in Ep.
  specialize (Ep al (proj1 (list_elem_of_In _ _) Hin)). by apply Z.ltb_lt in Ep.
Qed.

(** A contract, two users, and a pool of 1000 coins. *)
Definition game : string := "game-contract-000001".
Definition user1 : string := "user-address-0000001".
Definition user2 : string := "user-address-0000002".

Definition inc_world : world :=
  mkWorld {[ w_mod incentives_ModuleName := {[ "aevmos"%string := 1000; "osmo"%string := 500 ]} ]}
    {[ "aevmos"%string := 1000; "osmo"%string := 500 ]}
    {[ user1 := PlainAcc user1; user2 := PlainAcc user2 ]} {[ user1 := 1; user2 := 1 ]} ∅
    (mkEvm {[ game := mkToken "G" "G" 18 ∅ ]} ∅).

Definition inc_start : incentives_state Z world := mkInc (incentives_DefaultParams (D := Z)) ∅ ∅ ∅ inc_world.

(** Five per cent of the pool, for two epochs. *)
Definition game_proposal : IncentiveProposal Z :=
  RegisterIncentiveProposal (address_hex game)
    [mkDecCoin "aevmos"%string (dec_with_prec 5 2); mkDecCoin "osmo"%string (dec_with_prec 4 2)] 2.
Definition inc_ctx : Ctx := mkCtx (from_unix 1000) 7 "evmos_9001-2".
Definition play (user : string) (gas : Z) : EvmTx := mkTx user (Some game) 1 gas [].

Definition inc_registered : incentives_state Z world :=
  (IncentivesProposalHandler (C := coins) inc_ctx game_proposal inc_start).2.
Definition inc_played1 : incentives_state Z world :=
  (incentives_PostTxProcessing (C := coins) (play user1 30) inc_registered).2.
Definition inc_played : incentives_state Z world :=
  (incentives_PostTxProcessing (C := coins) (play user2 10) inc_played1).2.
Definition inc_paid : incentives_state Z world :=
  (incentives_AfterEpochEnd (C := coins) WeekEpochID inc_played).2.

Definition no_abstract (_ : IncentiveProposal Z) : option error := None.

Lemma inc_run : rtc (incentives_step (C := coins) no_abstract) inc_start inc_played.
Proof.
  eapply rtc_l; [apply (in_proposal no_abstract inc_ctx game_proposal inc_start inc_registered);
    [split; done|vm_compute; reflexivity..]|].
  eapply rtc_l; [apply (in_tx no_abstract (play user1 30) inc_registered inc_played1); vm_compute; reflexivity|].
  eapply rtc_l; [apply (in_tx no_abstract (play user2 10) inc_played1 inc_played); vm_compute; reflexivity|].
  apply rtc_refl.
Qed.

Lemma w_send_no_panic t (c : coins) (x : world) :
  (SendCoinsFromModuleToAccount incentives_ModuleName t c x).1 ≠ Panic.
Proof. simpl. unfold w_send. by destruct (_ && _). Qed.

Lemma meters_sum_allocations_witness :
  rtc (incentives_step (C := coins) no_abstract) inc_start inc_played ∧
  dec_raw (dc_Amount (GetAllocationMeter inc_played "osmo").1) = 4 * 10^16 ∧
  sumZ (alloc_of "osmo") (GetAllIncentives inc_played) = 4 * 10^16.
Proof.
  split; [exact inc_run|].
  destruct (meters_sum_allocations w_send_no_panic no_abstract inc_start inc_played "osmo" eq_refl eq_refl inc_run) as [E _].
  rewrite <- E. split; vm_compute; reflexivity.
Defined.

Lemma epoch_end_never_fails_witness :
  rtc (incentives_step (C := coins) no_abstract) inc_start inc_played ∧
  incentives_AfterEpochEnd (C := coins) WeekEpochID inc_played = (Ok tt, inc_paid) ∧
  n_incentives inc_paid !! game = n_incentives inc_played !! game ≫= after_epoch ∧
  GetBalance (C := coins) (n_ext inc_paid) user1 "osmo" = 15.
Proof.
  split; [exact inc_run|].
  destruct (epoch_end_never_fails w_send_no_panic no_abstract inc_start inc_played WeekEpochID eq_refl eq_refl inc_run)
    as (s' & Hs & Hk).
  assert (E : incentives_AfterEpochEnd (C := coins) WeekEpochID inc_played = (Ok tt, inc_paid)) by (vm_compute; reflexivity).
  split; [exact E|]. pose proof (run_det _ _ _ _ _ _ Hs E) as ->. split; [|vm_compute; reflexivity].
  assert (Ec : String.eqb WeekEpochID (IncentivesEpochIdentifier (n_params inc_played)) && EnableIncentives (n_params inc_played) = true)
    by (vm_compute; reflexivity).
  rewrite Ec in Hk. exact (proj2 Hk game).
Defined.

Definition game_incentive : Incentive Z := default (mkIncentive "" [] 0 0 0) (n_incentives inc_played !! game).
Definition game_allocation : coins := {[ "aevmos"%string := 50; "osmo"%string := 20 ]}.
Definition inc_rewarded := rewardParticipants (C := coins) game_incentive {[ game := game_allocation ]} inc_played.

Lemma participants_paid_witness :
  ∃ r, inc_rewarded = (Ok r, inc_rewarded.2) ∧
  GetBalance (C := coins) (n_ext inc_rewarded.2) user2 "osmo" = 5 ∧
  n_gas inc_rewarded.2 = ∅ ∧
  ∃ paid rest, GetIncentiveGasMeters inc_played game = paid ++ rest.
Proof.
  exists ({[ "aevmos"%string := 48; "osmo"%string := 20 ]}, 2). split; [vm_compute; reflexivity|].
  split; [vm_compute; reflexivity|]. split; [vm_compute; reflexivity|].
  destruct (participants_paid (C := coins) game_incentive {[ game := game_allocation ]} game_allocation inc_played
    ({[ "aevmos"%string := 48; "osmo"%string := 20 ]}, 2) inc_rewarded.2) as (paid & rest & s1 & Hg & _).
  - vm_compute. reflexivity.
  - vm_compute. reflexivity.
  - vm_compute. reflexivity.
  - vm_compute. discriminate.
  - vm_compute. repeat constructor; set_solver.
  - vm_compute. reflexivity.
  - exists paid, rest. assert (hex_to_address (in_Contract game_incentive) = game) as <- by (vm_compute; reflexivity). exact Hg.
Defined.

Definition new_incentive : Incentive Z := default (mkIncentive "" [] 0 0 0) (n_incentives inc_registered !! game).

Lemma hook_counts_gas_witness :
  incentives_PostTxProcessing (C := coins) (play user1 30) inc_registered = (Ok tt, inc_played1) ∧
  TotalGas <$> n_incentives inc_played1 !! game = Some 30 ∧
  wrapu64 (gas_sum inc_played1 game) = wrapu64 (gas_sum inc_registered game + 30).
Proof.
  assert (E : incentives_PostTxProcessing (C := coins) (play user1 30) inc_registered = (Ok tt, inc_played1))
    by (vm_compute; reflexivity).
  split; [exact E|]. split; [vm_compute; reflexivity|].
  destruct (hook_counts_gas (C := coins) (play user1 30) inc_registered) as (s' & Hs & Hc).
  - intros k i Hk. assert (Hki : (k, i) ∈ map_to_list (n_incentives inc_registered)) by (by apply elem_of_map_to_list).
    vm_compute in Hki. apply list_elem_of_singleton in Hki. injection Hki as -> ->. vm_compute. reflexivity.
  - reflexivity.
  - intros c [= <-]. reflexivity.
  - pose proof (run_det _ _ _ _ _ _ Hs E) as ->.
    assert (Ec : counted (C := coins) (play user1 30) inc_registered = Some (game, new_incentive)) by (vm_compute; reflexivity).
    rewrite Ec in Hc. exact (proj1 (proj2 Hc)).
Defined.

(** The exported state of a chain with one incentive. *)
Lemma incentives_genesis_panics_witness :
  incentives_GenesisState_Validate (C := coins) incentives_DefaultParams [game_incentive] [] = Ok tt ∧
  (incentives_InitGenesis (C := coins) incentives_DefaultParams [game_incentive] [] inc_start).1 = Panic.
Proof.
  assert (E : incentives_GenesisState_Validate (C := coins) incentives_DefaultParams [game_incentive] [] = Ok tt)
    by (vm_compute; reflexivity).
  split; [exact E|].
  apply (incentives_genesis_panics (C := coins) incentives_DefaultParams game_incentive [] [] inc_start true inc_world E).
  vm_compute. reflexivity.
Defined.

(** Six participants with a sixth of the gas each: every ratio is rounded up, and
    together they are owed twenty units more than the allocation. *)
Example rewards_exceed_allocation :
  let i := mkIncentive (address_hex game) [mkDecCoin "osmo"%string (dec_with_prec 5 2)] 2 0 6 in
  let allocation : coins := {[ "osmo"%string := 10^19 ]} in
  let reward := participant_reward (C := coins) (X := world) i allocation (dec_with_prec 12 1) 1 in
  reward = Ok {[ "osmo"%string := 1666666666666666670 ]} ∧ 6 * 1666666666666666670 = 10^19 + 20.
Proof. split; vm_compute; reflexivity. Qed.
