(* ===== verification/Feesplit.v ===== *)
(** * The feesplit module: [x/feesplit]

    The deployer of a contract registers it; from then on a share of the fees of
    every transaction sent to the contract is paid to the deployer, or to the
    withdraw address he chose. *)

From S2P Require Import Prelude Sdk Dec Keepers Erc20Types Evm.

Definition feesplit_ModuleName : string := "feesplit".

(** ** Types: [types/feesplit.pb.go], [types/fee_split.go] *)

(** The withdraw address is empty when the fees go to the deployer. *)
Record FeeSplit := mkFeeSplit {
  fs_Contract : string;     (* hex *)
  fs_Deployer : string;     (* bech32 *)
  fs_Withdrawer : string;   (* bech32 or empty *)
}.

#[global] Instance FeeSplit_eq_dec : EqDecision FeeSplit.
Proof. solve_decision. Defined.

Record FeesplitParams (D : Type) := mkFeeParams {
  EnableFeeSplit : bool;
  DeveloperShares : D;
  AddrDerivationCostCreate : Z;   (* uint64 *)
}.
Arguments mkFeeParams {D} _ _ _.
Arguments EnableFeeSplit {D} _.
Arguments DeveloperShares {D} _.
Arguments AddrDerivationCostCreate {D} _.

(** [types/tx.pb.go] *)
Record MsgRegisterFeeSplit := mkMsgRegister {
  mr_Contract : string; mr_Deployer : string; mr_Withdrawer : string; Nonces : list Z;
}.
Record MsgUpdateFeeSplit := mkMsgUpdate { mu_Contract : string; mu_Deployer : string; mu_Withdrawer : string }.
Record MsgCancelFeeSplit := mkMsgCancel { mx_Contract : string; mx_Deployer : string }.

Inductive FeesplitMsg : Type :=
  | FsRegister (msg : MsgRegisterFeeSplit)
  | FsUpdate (msg : MsgUpdateFeeSplit)
  | FsCancel (msg : MsgCancelFeeSplit)
  | FsOther.

Section types.
Context `{SdkAddress, EthAddress}.

Definition NewFeeSplit (contract deployer withdrawer : string) : FeeSplit :=
  let withdrawerAddr := if Nat.ltb 0 (String.length withdrawer) then acc_string withdrawer else EmptyString in
  mkFeeSplit (address_hex contract) (acc_string deployer) withdrawerAddr.

Definition GetContractAddr (fs : FeeSplit) : string := hex_to_address (fs_Contract fs).

Definition GetDeployerAddr (fs : FeeSplit) : outcome string := must_acc_from_bech32 (fs_Deployer fs).

(** A nil address is the empty string. *)
Definition GetWithdrawerAddr (fs : FeeSplit) : outcome string :=
  if String.eqb (fs_Withdrawer fs) EmptyString then Ok EmptyString else must_acc_from_bech32 (fs_Withdrawer fs).

Definition check_nonzero (address : string) : outcome unit :=
  ocheck (negb (validate_nonzero_address address)) (ErrExternal "invalid address").

Definition FeeSplit_Validate (fs : FeeSplit) : outcome unit :=
  let? _ := check_nonzero (fs_Contract fs) in
  let? _ := check_bech32 (fs_Deployer fs) in
  if negb (String.eqb (fs_Withdrawer fs) EmptyString) then check_bech32 (fs_Withdrawer fs) else Ok tt.

(** *** [types/msg.go] *)

Definition NewMsgRegisterFeeSplit (contract deployer : string) (withdrawer : option string) (nonces : list Z)
    : MsgRegisterFeeSplit :=
  mkMsgRegister (address_hex contract) (acc_string deployer)
    match withdrawer with Some w => acc_string w | None => EmptyString end nonces.

Definition MsgRegisterFeeSplit_ValidateBasic (msg : MsgRegisterFeeSplit) : outcome unit :=
  let? _ := check_bech32 (mr_Deployer msg) in
  let? _ := check_nonzero (mr_Contract msg) in
  let? _ := if negb (String.eqb (mr_Withdrawer msg) EmptyString) then check_bech32 (mr_Withdrawer msg) else Ok tt in
  let? _ := ocheck (Nat.ltb (length (Nonces msg)) 1) ErrInvalidRequest in
  ocheck (Nat.ltb 20 (length (Nonces msg))) ErrInvalidRequest.

Definition NewMsgCancelFeeSplit (contract deployer : string) : MsgCancelFeeSplit :=
  mkMsgCancel (address_hex contract) (acc_string deployer).

Definition MsgCancelFeeSplit_ValidateBasic (msg : MsgCancelFeeSplit) : outcome unit :=
  let? _ := check_bech32 (mx_Deployer msg) in
  check_nonzero (mx_Contract msg).

Definition NewMsgUpdateFeeSplit (contract deployer withdraw : string) : MsgUpdateFeeSplit :=
  mkMsgUpdate (address_hex contract) (acc_string deployer) (acc_string withdraw).

Definition MsgUpdateFeeSplit_ValidateBasic (msg : MsgUpdateFeeSplit) : outcome unit :=
  let? _ := check_bech32 (mu_Deployer msg) in
  let? _ := check_nonzero (mu_Contract msg) in
  check_bech32 (mu_Withdrawer msg).

Definition feesplit_ValidateBasic (msg : FeesplitMsg) : outcome unit :=
  match msg with
  | FsRegister msg => MsgRegisterFeeSplit_ValidateBasic msg
  | FsUpdate msg => MsgUpdateFeeSplit_ValidateBasic msg
  | FsCancel msg => MsgCancelFeeSplit_ValidateBasic msg
  | FsOther => Ok tt
  end.

(** [GetSigners] of the three messages: the deployer. *)
Definition feesplit_signer (msg : FeesplitMsg) : outcome string :=
  match msg with
  | FsRegister msg => must_acc_from_bech32 (mr_Deployer msg)
  | FsUpdate msg => must_acc_from_bech32 (mu_Deployer msg)
  | FsCancel msg => must_acc_from_bech32 (mx_Deployer msg)
  | FsOther => Ok EmptyString
  end.
End types.

(** *** [types/params.go], [types/genesis.go] *)

Section params.
Context {D : Type} `{SdkDec D, SdkAddress, EthAddress}.

Definition feesplit_DefaultParams : FeesplitParams D := mkFeeParams true (dec_with_prec 50 2) 50.

Definition validateShares (v : D) : outcome unit :=
  let? _ := ocheck (dec_is_negative v) (ErrMsg "value cannot be negative") in
  ocheck (dec_gt v (dec_new 1)) (ErrMsg "value cannot be greater than 1").

Definition feesplit_Params_Validate (p : FeesplitParams D) : outcome unit := validateShares (DeveloperShares p).

Fixpoint validate_fee_splits (seenContract : gset string) (l : list FeeSplit) : outcome unit :=
  match l with
  | [] => Ok tt
  | fs :: rest =>
      let? _ := ocheck (bool_decide (fs_Contract fs ∈ seenContract)) (ErrMsg "contract duplicated on genesis") in
      let? _ := FeeSplit_Validate fs in
      validate_fee_splits ({[ fs_Contract fs ]} ∪ seenContract) rest
  end.

Definition feesplit_GenesisState_Validate (params : FeesplitParams D) (feeSplits : list FeeSplit) : outcome unit :=
  let? _ := validate_fee_splits ∅ feeSplits in
  feesplit_Params_Validate params.
End params.

(** ** The keeper *)

Record feesplit_state (D X : Type) := mkFee {
  f_params : FeesplitParams D;
  f_splits : gmap string FeeSplit;    (* by contract address *)
  f_deployer : gmap string unit;      (* deployer address, then contract address *)
  f_withdrawer : gmap string unit;    (* withdraw address, then contract address *)
  f_ext : X;
}.
Arguments mkFee {D X} _ _ _ _ _.
Arguments f_params {D X} _.
Arguments f_splits {D X} _.
Arguments f_deployer {D X} _.
Arguments f_withdrawer {D X} _.
Arguments f_ext {D X} _.

Section keeper.
Context {C D X : Type} `{SdkCoins C, SdkDec D, SdkAddress, EthAddress}.
Context `{!AccountKeeper C X, !BankKeeper C X, !EvmKeeper X}.
Implicit Types s : feesplit_state D X.
Local Abbreviation FM := (M (feesplit_state D X)).

(** [k.feeCollectorName] *)
Variable feeCollectorName : string.

Definition fext {A} (m : M X A) : FM A :=
  zoom f_ext (λ x s, mkFee (f_params s) (f_splits s) (f_deployer s) (f_withdrawer s) x) m.

Definition feesplit_GetParams s : FeesplitParams D := f_params s.
Definition feesplit_SetParams (params : FeesplitParams D) s : feesplit_state D X :=
  mkFee params (f_splits s) (f_deployer s) (f_withdrawer s) (f_ext s).

(** *** [keeper/fee_splits.go] *)

Definition GetFeeSplits s : list FeeSplit := (kv_iter (f_splits s)).*2.

Definition IterateFeeSplits (handlerFn : FeeSplit → FM bool) : FM unit :=
  λ s, iterate (kv_iter (f_splits s)).*2 handlerFn s.

Definition GetFeeSplit s (contract : string) : option FeeSplit := f_splits s !! contract.

Definition SetFeeSplit (feeSplit : FeeSplit) s : feesplit_state D X :=
  mkFee (f_params s) (<[GetContractAddr feeSplit := feeSplit]> (f_splits s)) (f_deployer s) (f_withdrawer s) (f_ext s).

Definition DeleteFeeSplit (fee : FeeSplit) s : feesplit_state D X :=
  mkFee (f_params s) (delete (GetContractAddr fee) (f_splits s)) (f_deployer s) (f_withdrawer s) (f_ext s).

Definition SetDeployerMap (deployer contract : string) s : feesplit_state D X :=
  mkFee (f_params s) (f_splits s) (<[String.append deployer contract := tt]> (f_deployer s)) (f_withdrawer s) (f_ext s).

Definition DeleteDeployerMap (deployer contract : string) s : feesplit_state D X :=
  mkFee (f_params s) (f_splits s) (delete (String.append deployer contract) (f_deployer s)) (f_withdrawer s) (f_ext s).

Definition SetWithdrawerMap (withdrawer contract : string) s : feesplit_state D X :=
  mkFee (f_params s) (f_splits s) (f_deployer s) (<[String.append withdrawer contract := tt]> (f_withdrawer s)) (f_ext s).

Definition DeleteWithdrawerMap (withdrawer contract : string) s : feesplit_state D X :=
  mkFee (f_params s) (f_splits s) (f_deployer s) (delete (String.append withdrawer contract) (f_withdrawer s)) (f_ext s).

Definition IsFeeSplitRegistered s (contract : string) : bool := bool_decide (is_Some (f_splits s !! contract)).

Definition IsDeployerMapSet s (deployer contract : string) : bool :=
  bool_decide (is_Some (f_deployer s !! String.append deployer contract)).

Definition IsWithdrawerMapSet s (withdrawer contract : string) : bool :=
  bool_decide (is_Some (f_withdrawer s !! String.append withdrawer contract)).

(** *** [keeper/msg_server.go] *)

(** The contract created by an account through a chain of factories. *)
Definition derive_contract (deployer : string) (nonces : list Z) : string :=
  foldl create_address (bytes_to_address deployer) nonces.

Definition RegisterFeeSplit (msg : MsgRegisterFeeSplit) : FM unit :=
  let! params := gets feesplit_GetParams in
  check (negb (EnableFeeSplit params)) ErrFeeSplitDisabled ;;;
  let contract := hex_to_address (mr_Contract msg) in
  let! registered := gets (λ s, IsFeeSplitRegistered s contract) in
  check registered ErrFeeSplitAlreadyRegistered ;;;
  let! deployer := lift (must_acc_from_bech32 (mr_Deployer msg)) in
  let! found := gets (λ s, HasEvmAccount (f_ext s) (bytes_to_address deployer)) in
  check (negb found) ErrNotFound ;;;
  let! deployerIsContract := gets (λ s, IsContract (f_ext s) (bytes_to_address deployer)) in
  check deployerIsContract ErrFeeSplitDeployerIsNotEOA ;;;
  let! isContract := gets (λ s, IsContract (f_ext s) contract) in
  check (negb isContract) ErrFeeSplitNoContractDeployed ;;;
  let! withdrawer :=
    if negb (String.eqb (mr_Withdrawer msg) EmptyString) && negb (String.eqb (mr_Withdrawer msg) (mr_Deployer msg))
    then lift (must_acc_from_bech32 (mr_Withdrawer msg)) else ret EmptyString in
  check (negb (String.eqb contract (derive_contract deployer (Nonces msg)))) ErrorInvalidSigner ;;;
  modify (SetFeeSplit (NewFeeSplit contract deployer withdrawer)) ;;;
  modify (SetDeployerMap deployer contract) ;;;
  if negb (Nat.eqb (String.length withdrawer) 0) then modify (SetWithdrawerMap withdrawer contract) else ret tt.

Definition UpdateFeeSplit (msg : MsgUpdateFeeSplit) : FM unit :=
  let! params := gets feesplit_GetParams in
  check (negb (EnableFeeSplit params)) ErrFeeSplitDisabled ;;;
  let contract := hex_to_address (mu_Contract msg) in
  let! found := gets (λ s, GetFeeSplit s contract) in
  match found with
  | None => fail ErrFeeSplitContractNotRegistered
  | Some feeSplit =>
      check (negb (String.eqb (mu_Deployer msg) (fs_Deployer feeSplit))) ErrUnauthorized ;;;
      let withdrawerAddress :=
        if String.eqb (mu_Withdrawer msg) (fs_Deployer feeSplit) then EmptyString else mu_Withdrawer msg in
      check (String.eqb withdrawerAddress (fs_Withdrawer feeSplit)) ErrFeeSplitAlreadyRegistered ;;;
      (if negb (String.eqb (fs_Withdrawer feeSplit) EmptyString)
       then let! w := lift (must_acc_from_bech32 (fs_Withdrawer feeSplit)) in modify (DeleteWithdrawerMap w contract)
       else ret tt) ;;;
      (if negb (String.eqb withdrawerAddress EmptyString)
       then let! w := lift (must_acc_from_bech32 withdrawerAddress) in modify (SetWithdrawerMap w contract)
       else ret tt) ;;;
      modify (SetFeeSplit (mkFeeSplit (fs_Contract feeSplit) (fs_Deployer feeSplit) withdrawerAddress))
  end.

Definition CancelFeeSplit (msg : MsgCancelFeeSplit) : FM unit :=
  let! params := gets feesplit_GetParams in
  check (negb (EnableFeeSplit params)) ErrFeeSplitDisabled ;;;
  let contract := hex_to_address (mx_Contract msg) in
  let! found := gets (λ s, GetFeeSplit s contract) in
  match found with
  | None => fail ErrFeeSplitContractNotRegistered
  | Some fee =>
      check (negb (String.eqb (mx_Deployer msg) (fs_Deployer fee))) ErrUnauthorized ;;;
      modify (DeleteFeeSplit fee) ;;;
      let! deployer := lift (GetDeployerAddr fee) in
      modify (DeleteDeployerMap deployer contract) ;;;
      if negb (String.eqb (fs_Withdrawer fee) EmptyString)
      then let! w := lift (GetWithdrawerAddr fee) in modify (DeleteWithdrawerMap w contract)
      else ret tt
  end.

(** [handler.go] *)
Definition feesplit_Handler (msg : FeesplitMsg) : FM unit :=
  match msg with
  | FsRegister msg => RegisterFeeSplit msg
  | FsUpdate msg => UpdateFeeSplit msg
  | FsCancel msg => CancelFeeSplit msg
  | FsOther => fail ErrUnknownRequest
  end.

(** *** [keeper/evm_hooks.go] *)

Definition developer_fee (params : FeesplitParams D) (tx : EvmTx) : Z :=
  let txFee := GasUsed tx * GasPrice tx in
  dec_truncate_int (dec_mul (dec_new txFee) (DeveloperShares params)).

Definition feesplit_PostTxProcessing (tx : EvmTx) : FM unit :=
  let! params := gets feesplit_GetParams in
  if negb (EnableFeeSplit params) then ret tt else
  match tx_To tx with
  | None => ret tt
  | Some contract =>
      let! found := gets (λ s, GetFeeSplit s contract) in
      match found with
      | None => ret tt
      | Some feeSplit =>
          let! withdrawer := lift (GetWithdrawerAddr feeSplit) in
          let! withdrawer := if Nat.eqb (String.length withdrawer) 0
                             then lift (GetDeployerAddr feeSplit) else ret withdrawer in
          let fees := coins_lit evm_denom (developer_fee params tx) in
          fext (SendCoinsFromModuleToAccount feeCollectorName withdrawer fees)
      end
  end.

(** *** [genesis.go] *)

Definition init_fee_split (feeSplit : FeeSplit) : FM unit :=
  let contract := GetContractAddr feeSplit in
  let! deployer := lift (GetDeployerAddr feeSplit) in
  let! withdrawer := lift (GetWithdrawerAddr feeSplit) in
  modify (SetFeeSplit feeSplit) ;;;
  modify (SetDeployerMap deployer contract) ;;;
  if negb (Nat.eqb (String.length withdrawer) 0) then modify (SetWithdrawerMap withdrawer contract) else ret tt.

Definition feesplit_InitGenesis (params : FeesplitParams D) (feeSplits : list FeeSplit) : FM unit :=
  modify (feesplit_SetParams params) ;;;
  foreach feeSplits init_fee_split.

Definition feesplit_ExportGenesis s : FeesplitParams D * list FeeSplit := (feesplit_GetParams s, GetFeeSplits s).

(** *** [keeper/grpc_query.go] *)

(** [query.Paginate(store, req.Pagination, ...)]: the entries of the requested page. *)
Variable paginate : ∀ {V}, list (string * V) → outcome (list (string * V)).

(** The entries of a prefix store: the prefix is removed from the keys. *)
Definition prefix_store {V} (prefix : string) (m : gmap string V) : list (string * V) :=
  (λ kv, (drop_chars (String.length prefix) kv.1, kv.2)) <$> filter (λ kv, String.prefix prefix kv.1 = true) (kv_iter m).

Definition query_FeeSplits s : outcome (list FeeSplit) :=
  let? page := paginate (kv_iter (f_splits s)) in
  Ok page.*2.

Definition query_DeployerFeeSplits (deployerAddress : string) s : outcome (list string) :=
  let? _ := ocheck (is_blank deployerAddress) ErrInvalidRequest in
  match acc_from_bech32 deployerAddress with
  | None => Err ErrInvalidRequest
  | Some deployer =>
      let? page := paginate (prefix_store deployer (f_deployer s)) in
      Ok ((λ kv, address_hex (bytes_to_address kv.1)) <$> page)
  end.

Definition query_WithdrawerFeeSplits (withdrawerAddress : string) s : outcome (list string) :=
  let? _ := ocheck (is_blank withdrawerAddress) ErrInvalidRequest in
  match acc_from_bech32 withdrawerAddress with
  | None => Err ErrInvalidRequest
  | Some withdrawer =>
      let? page := paginate (prefix_store withdrawer (f_withdrawer s)) in
      Ok ((λ kv, address_hex (bytes_to_address kv.1)) <$> page)
  end.

Definition query_FeeSplit (contract : string) s : outcome FeeSplit :=
  let? _ := ocheck (is_blank contract) ErrInvalidRequest in
  let? _ := ocheck (negb (validate_nonzero_address contract)) ErrInvalidRequest in
  match GetFeeSplit s (hex_to_address contract) with
  | None => Err ErrNotFound
  | Some feeSplit => Ok feeSplit
  end.
End keeper.
