(* ===== verification/FeesplitProps.v ===== *)
(** * Properties of the feesplit module

    The registry and its two indexes agree, only the deployer of a contract
    changes its entry, messages are atomic, and a transaction pays the registered
    share to the registered payee and to nobody else. *)

From S2P Require Import Prelude Sdk Dec SdkInstances Keepers Erc20Types KeeperInstances Evm Erc20 Erc20Instances.
From S2P Require Import Feesplit.

(** ** Secondary indexes

    [idx] holds, for every entry of [m] with an address [f fs], the key made of
    that address and the contract, and nothing else. *)

Section index.
Context (f : FeeSplit → option string).
Implicit Types (m : gmap string FeeSplit) (idx : gmap string unit).

Definition indexed idx m : Prop :=
  ∀ key, is_Some (idx !! key) ↔ ∃ k fs a, m !! k = Some fs ∧ f fs = Some a ∧ key = String.append a k.

(** The keys of the registry are contract addresses. *)
Definition addr_keys m : Prop := ∀ k fs, m !! k = Some fs → String.length k = 20%nat.

Lemma indexed_empty : indexed ∅ ∅.
Proof.
  intros key. rewrite lookup_empty. split; [by intros [? ?]|]. intros (k & fs & a & Hk & _). by rewrite lookup_empty in Hk.
Qed.

Lemma indexed_skip idx m k fs : m !! k = None → f fs = None → indexed idx m → indexed idx (<[k:=fs]> m).
Proof.
  intros Hk Hf Hi key. rewrite (Hi key). split; intros (k' & fs' & a & Hk' & Hf' & E); exists k', fs', a.
  - by rewrite lookup_insert_ne by (intros ->; congruence).
  - apply lookup_insert_Some in Hk' as [[<- <-]|[_ ?]]; [congruence|done].
Qed.

Lemma indexed_insert idx m k fs a :
  m !! k = None → f fs = Some a → indexed idx m → indexed (<[String.append a k := tt]> idx) (<[k:=fs]> m).
Proof.
  intros Hk Hf Hi key. rewrite lookup_insert_is_Some', (Hi key). split.
  - intros [<-|(k' & fs' & a' & Hk' & Hf' & ->)].
    + exists k, fs, a. by rewrite lookup_insert_eq.
    + exists k', fs', a'. by rewrite lookup_insert_ne by (intros ->; congruence).
  - intros (k' & fs' & a' & Hk' & Hf' & ->). apply lookup_insert_Some in Hk' as [[<- <-]|[_ ?]]; [left; congruence|right; eauto 6].
Qed.

Lemma indexed_unskip idx m k fs : m !! k = Some fs → f fs = None → indexed idx m → indexed idx (delete k m).
Proof.
  intros Hk Hf Hi key. rewrite (Hi key). split; intros (k' & fs' & a & Hk' & Hf' & E); exists k', fs', a.
  - by rewrite lookup_delete_ne by (intros ->; congruence).
  - by apply lookup_delete_Some in Hk' as [_ ?].
Qed.

Lemma indexed_delete idx m k fs a :
  addr_keys m → m !! k = Some fs → f fs = Some a → indexed idx m →
  indexed (delete (String.append a k) idx) (delete k m).
Proof.
  intros Hl Hk Hf Hi key. rewrite lookup_delete_is_Some, (Hi key). split.
  - intros [Hne (k' & fs' & a' & Hk' & Hf' & ->)]. exists k', fs', a'. rewrite lookup_delete_ne; [done|].
    intros ->. congruence.
  - intros (k' & fs' & a' & Hk' & Hf' & ->). apply lookup_delete_Some in Hk' as [Hne Hk'].
    split; [|eauto 6]. intros E. apply append_inj_r in E as [_ E]; [congruence|].
    by rewrite (Hl _ _ Hk), (Hl _ _ Hk').
Qed.

Lemma indexed_lookup idx m a k :
  addr_keys m → indexed idx m → String.length k = 20%nat →
  is_Some (idx !! String.append a k) ↔ ∃ fs, m !! k = Some fs ∧ f fs = Some a.
Proof.
  intros Hl Hi Hk. rewrite (Hi _). split.
  - intros (k' & fs & a' & Hk' & Hf & E). apply append_inj_r in E as [-> ->]; [eauto|]. by rewrite Hk, (Hl _ _ Hk').
  - intros (fs & ? & ?). eauto 6.
Qed.

(** An index is determined by the registry. *)
Lemma indexed_unique idx idx' m : indexed idx m → indexed idx' m → idx = idx'.
Proof.
  intros H1 H2. apply map_eq. intros key. specialize (H1 key). specialize (H2 key).
  destruct (idx !! key) as [[]|], (idx' !! key) as [[]|]; try done.
  - destruct (proj2 H2 (proj1 H1 (ex_intro _ tt eq_refl))) as [? ?]. done.
  - destruct (proj2 H1 (proj1 H2 (ex_intro _ tt eq_refl))) as [? ?]. done.
Qed.
End index.

Lemma addr_keys_insert m k fs : addr_keys m → String.length k = 20%nat → addr_keys (<[k:=fs]> m).
Proof. intros Hl Hk k' fs' Hk'. apply lookup_insert_Some in Hk' as [[<- _]|[_ ?]]; eauto. Qed.
Lemma addr_keys_delete m k : addr_keys m → addr_keys (delete k m).
Proof. intros Hl k' fs' Hk'. apply lookup_delete_Some in Hk' as [_ ?]. eauto. Qed.
#[export] Hint Resolve addr_keys_insert addr_keys_delete : evmos.

(** ** The registry *)

Section registry.
Context {C D X : Type} `{SdkCoinsLaws C, SdkDecLaws D, SdkAddressLaws, EthAddressLaws}.
Context `{!AccountKeeper C X, !BankKeeper C X, !EvmKeeper X, !BankLaws C X}.
Context (feeCollectorName : string).
Implicit Types s : feesplit_state D X.

(** The addresses of an entry. *)
Definition deployer_of (fs : FeeSplit) : option string := acc_from_bech32 (fs_Deployer fs).
Definition withdrawer_of (fs : FeeSplit) : option string :=
  if String.eqb (fs_Withdrawer fs) EmptyString then None else acc_from_bech32 (fs_Withdrawer fs).

(** Who receives the fees. *)
Definition payee (fs : FeeSplit) : option string :=
  match withdrawer_of fs with Some w => Some w | None => deployer_of fs end.

Definition split_ok (k : string) (fs : FeeSplit) : Prop :=
  GetContractAddr fs = k ∧ is_Some (deployer_of fs) ∧
  (fs_Withdrawer fs = EmptyString ∨ is_Some (acc_from_bech32 (fs_Withdrawer fs))).

Record fee_inv s : Prop := {
  fi_ok k fs : f_splits s !! k = Some fs → split_ok k fs;
  fi_deployer : indexed deployer_of (f_deployer s) (f_splits s);
  fi_withdrawer : indexed withdrawer_of (f_withdrawer s) (f_splits s);
  fi_params : feesplit_Params_Validate (f_params s) = Ok tt;
}.

Lemma fee_inv_keys s : fee_inv s → addr_keys (f_splits s).
Proof. intros Hinv k fs Hk. destruct (fi_ok s Hinv k fs Hk) as [<- _]. apply hex_to_address_length. Qed.

(** *** Adding and removing an entry with its index keys *)

Definition put_key (a : option string) (k : string) (idx : gmap string unit) : gmap string unit :=
  match a with Some a => <[String.append a k := tt]> idx | None => idx end.
Definition drop_key (a : option string) (k : string) (idx : gmap string unit) : gmap string unit :=
  match a with Some a => delete (String.append a k) idx | None => idx end.

Definition put_split (k : string) (fs : FeeSplit) s : feesplit_state D X :=
  mkFee (f_params s) (<[k:=fs]> (f_splits s)) (put_key (deployer_of fs) k (f_deployer s))
        (put_key (withdrawer_of fs) k (f_withdrawer s)) (f_ext s).
Definition drop_split (k : string) (fs : FeeSplit) s : feesplit_state D X :=
  mkFee (f_params s) (delete k (f_splits s)) (drop_key (deployer_of fs) k (f_deployer s))
        (drop_key (withdrawer_of fs) k (f_withdrawer s)) (f_ext s).

Lemma indexed_put f idx m k fs :
  m !! k = None → indexed f idx m → indexed f (put_key (f fs) k idx) (<[k:=fs]> m).
Proof. intros Hk Hi. destruct (f fs) eqn:Ef; simpl; [by apply indexed_insert|by apply indexed_skip]. Qed.

Lemma indexed_drop f idx m k fs :
  addr_keys m → m !! k = Some fs → indexed f idx m → indexed f (drop_key (f fs) k idx) (delete k m).
Proof. intros Hl Hk Hi. destruct (f fs) eqn:Ef; simpl; [by eapply indexed_delete|by eapply indexed_unskip]. Qed.

Lemma put_split_inv k fs s : fee_inv s → f_splits s !! k = None → split_ok k fs → fee_inv (put_split k fs s).
Proof.
  intros [R1 R2 R3 R4] Hk Hok. constructor; simpl; [|by apply indexed_put..|done].
  intros k' fs' Hk'. apply lookup_insert_Some in Hk' as [[<- <-]|[_ ?]]; auto.
Qed.

Lemma drop_split_inv k fs s : fee_inv s → f_splits s !! k = Some fs → fee_inv (drop_split k fs s).
Proof.
  intros Hinv Hk. pose proof (fee_inv_keys s Hinv) as Hl. destruct Hinv as [R1 R2 R3 R4].
  constructor; simpl; [|by apply indexed_drop..|done].
  intros k' fs' Hk'. apply lookup_delete_Some in Hk' as [_ ?]. auto.
Qed.

(** *** Messages *)

Lemma check_bech32_ok a : check_bech32 a = Ok tt → ∃ b, acc_from_bech32 a = Some b.
Proof. unfold check_bech32. destruct (acc_from_bech32 a); [eauto|done]. Qed.

(** The withdraw address of a registration, empty for the deployer's own. *)
Definition chosen_withdrawer (msg : MsgRegisterFeeSplit) : option string :=
  if String.eqb (mr_Withdrawer msg) EmptyString || String.eqb (mr_Withdrawer msg) (mr_Deployer msg)
  then None else acc_from_bech32 (mr_Withdrawer msg).

Definition registration (msg : MsgRegisterFeeSplit) (deployer : string) : FeeSplit :=
  NewFeeSplit (hex_to_address (mr_Contract msg)) deployer (default EmptyString (chosen_withdrawer msg)).

Lemma registration_ok msg deployer :
  acc_from_bech32 (mr_Deployer msg) = Some deployer →
  split_ok (hex_to_address (mr_Contract msg)) (registration msg deployer) ∧
  deployer_of (registration msg deployer) = Some deployer ∧
  withdrawer_of (registration msg deployer) = chosen_withdrawer msg.
Proof.
  intros Hd. pose proof (bech32_roundtrip _ _ Hd) as Hdd.
  assert (Hw : ∀ w, chosen_withdrawer msg = Some w → w ≠ EmptyString ∧ acc_from_bech32 (acc_string w) = Some w).
  { unfold chosen_withdrawer. intros w. destruct (_ || _); [done|]. intros Hw.
    split; [by eapply bech32_nonempty|by eapply bech32_roundtrip]. }
  unfold split_ok, withdrawer_of, deployer_of, GetContractAddr, registration, NewFeeSplit. simpl.
  rewrite hex_roundtrip by apply hex_to_address_length. rewrite Hdd.
  destruct (chosen_withdrawer msg) as [w|]; simpl; [|by repeat split; eauto].
  destruct (Hw w eq_refl) as [Hne Hww]. destruct w as [|c w]; [done|]. simpl. rewrite Hww.
  destruct (String.eqb_spec (acc_string (String c w)) EmptyString) as [E|]; [|by repeat split; eauto].
  rewrite E, bech32_empty in Hww. done.
Qed.

(** Why a registration is refused. *)
Definition register_error (msg : MsgRegisterFeeSplit) (deployer : string) s : option error :=
  let contract := hex_to_address (mr_Contract msg) in
  if negb (EnableFeeSplit (f_params s)) then Some ErrFeeSplitDisabled
  else if IsFeeSplitRegistered s contract then Some ErrFeeSplitAlreadyRegistered
  else if negb (HasEvmAccount (f_ext s) (bytes_to_address deployer)) then Some ErrNotFound
  else if IsContract (f_ext s) (bytes_to_address deployer) then Some ErrFeeSplitDeployerIsNotEOA
  else if negb (IsContract (f_ext s) contract) then Some ErrFeeSplitNoContractDeployed
  else if negb (String.eqb contract (derive_contract deployer (Nonces msg))) then Some ErrorInvalidSigner
  else None.

Lemma register_run msg deployer s :
  acc_from_bech32 (mr_Deployer msg) = Some deployer →
  (mr_Withdrawer msg = EmptyString ∨ is_Some (acc_from_bech32 (mr_Withdrawer msg))) →
  RegisterFeeSplit msg s =
  match register_error msg deployer s with
  | Some e => (Err e, s)
  | None => (Ok tt, put_split (hex_to_address (mr_Contract msg)) (registration msg deployer) s)
  end.
Proof.
  intros Hd Hw. destruct (registration_ok msg deployer Hd) as ((Hk & _) & Ed & Ew).
  unfold RegisterFeeSplit, register_error, must_acc_from_bech32, feesplit_GetParams, bind, gets, check, lift.
  rewrite Hd. destruct (EnableFeeSplit (f_params s)); [|done]. simpl.
  destruct (IsFeeSplitRegistered s _); [done|]. simpl. destruct (HasEvmAccount _ _); [|done]. simpl.
  destruct (IsContract _ (bytes_to_address deployer)); [done|]. simpl.
  destruct (IsContract _ (hex_to_address _)); [|done]. simpl.
  assert (Ewd : (if negb (String.eqb (mr_Withdrawer msg) EmptyString) && negb (String.eqb (mr_Withdrawer msg) (mr_Deployer msg))
     then λ s : feesplit_state D X, (match acc_from_bech32 (mr_Withdrawer msg) with Some a => Ok a | None => Panic end, s)
     else ret EmptyString) s = (Ok (default EmptyString (chosen_withdrawer msg)), s)).
  { unfold chosen_withdrawer. destruct (String.eqb_spec (mr_Withdrawer msg) EmptyString) as [->|Hne]; [done|].
    destruct Hw as [?|[w Hw]]; [done|]. rewrite Hw. by destruct (String.eqb _ _). }
  match goal with |- (let (_, _) := ?e in _) = _ => replace e with (Ok (default EmptyString (chosen_withdrawer msg)), s) by (symmetry; exact Ewd) end.
  destruct (String.eqb (hex_to_address _) _); simpl; [|done]. unfold ret, modify. simpl.
  change (NewFeeSplit _ deployer _) with (registration msg deployer).
  unfold put_split, put_key. rewrite Ed, Ew. unfold SetDeployerMap, SetFeeSplit. simpl. rewrite Hk.
  destruct (chosen_withdrawer msg) as [w|] eqn:Ec; simpl; [|done].
  assert (w ≠ EmptyString). { unfold chosen_withdrawer in Ec. destruct (_ || _); [done|]. by eapply bech32_nonempty. }
  by destruct w.
Qed.

(** The new withdraw address of an update, empty for the deployer's own. *)
Definition new_withdrawer (msg : MsgUpdateFeeSplit) (fs : FeeSplit) : string :=
  if String.eqb (mu_Withdrawer msg) (fs_Deployer fs) then EmptyString else mu_Withdrawer msg.

Definition updated (msg : MsgUpdateFeeSplit) (fs : FeeSplit) : FeeSplit :=
  mkFeeSplit (fs_Contract fs) (fs_Deployer fs) (new_withdrawer msg fs).

Definition update_error (msg : MsgUpdateFeeSplit) s : option error :=
  if negb (EnableFeeSplit (f_params s)) then Some ErrFeeSplitDisabled
  else match f_splits s !! hex_to_address (mu_Contract msg) with
       | None => Some ErrFeeSplitContractNotRegistered
       | Some fs =>
           if negb (String.eqb (mu_Deployer msg) (fs_Deployer fs)) then Some ErrUnauthorized
           else if String.eqb (new_withdrawer msg fs) (fs_Withdrawer fs) then Some ErrFeeSplitAlreadyRegistered
           else None
       end.

Definition update_state (msg : MsgUpdateFeeSplit) s : feesplit_state D X :=
  let k := hex_to_address (mu_Contract msg) in
  match f_splits s !! k with
  | Some fs => put_split k (updated msg fs) (drop_split k fs s)
  | None => s
  end.

(** The run of the optional index operation on a stored address. *)
Lemma stored_withdrawer_run (w : string) (g : string → feesplit_state D X → feesplit_state D X) s :
  (w = EmptyString ∨ is_Some (acc_from_bech32 w)) →
  (if negb (String.eqb w EmptyString) then bind (lift (must_acc_from_bech32 w)) (λ a, modify (g a)) else ret tt) s =
  (Ok tt, match (if String.eqb w EmptyString then None else acc_from_bech32 w) with Some a => g a s | None => s end).
Proof.
  intros Hw. destruct (String.eqb_spec w EmptyString) as [->|Hne]; [done|]. simpl.
  destruct Hw as [?|[a Ha]]; [done|]. unfold bind, lift, must_acc_from_bech32. by rewrite Ha.
Qed.

Lemma update_run msg s :
  fee_inv s → is_Some (acc_from_bech32 (mu_Withdrawer msg)) →
  UpdateFeeSplit msg s =
  match update_error msg s with Some e => (Err e, s) | None => (Ok tt, update_state msg s) end.
Proof.
  intros Hinv Hw. unfold UpdateFeeSplit, update_error, update_state, feesplit_GetParams.
  unfold bind at 1, gets at 1. destruct (EnableFeeSplit (f_params s)); [|done]. cbn [negb].
  unfold bind at 1, check at 1, ret at 1. unfold bind at 1, gets at 1, GetFeeSplit.
  set (k := hex_to_address (mu_Contract msg)). destruct (f_splits s !! k) as [fs|] eqn:Ek; [|done].
  destruct (fi_ok s Hinv k fs Ek) as (Hk & [d Hd] & Hwd).
  destruct (String.eqb (mu_Deployer msg) (fs_Deployer fs)); [|done]. cbn [negb].
  unfold bind at 1, check at 1, ret at 1. fold (new_withdrawer msg fs).
  destruct (String.eqb (new_withdrawer msg fs) (fs_Withdrawer fs)); [done|].
  unfold bind at 1, check at 1, ret at 1. unfold bind at 1.
  rewrite (stored_withdrawer_run (fs_Withdrawer fs) (λ w, DeleteWithdrawerMap w k) s Hwd). fold (withdrawer_of fs).
  set (s1 := match withdrawer_of fs with Some a => DeleteWithdrawerMap a k s | None => s end).
  assert (Hnw : new_withdrawer msg fs = EmptyString ∨ is_Some (acc_from_bech32 (new_withdrawer msg fs))).
  { unfold new_withdrawer. destruct (String.eqb _ _); auto. }
  unfold bind at 1. rewrite (stored_withdrawer_run (new_withdrawer msg fs) (λ w, SetWithdrawerMap w k) s1 Hnw).
  change (if String.eqb (new_withdrawer msg fs) EmptyString then None else acc_from_bech32 (new_withdrawer msg fs))
    with (withdrawer_of (updated msg fs)). unfold modify. f_equal.
  assert (Hdk : f_deployer s !! String.append d k = Some tt).
  { destruct (proj2 (fi_deployer s Hinv (String.append d k))) as [[] ?]; [eauto 6|done]. }
  unfold put_split, drop_split, put_key, drop_key, SetFeeSplit. change (deployer_of (updated msg fs)) with (deployer_of fs).
  change (GetContractAddr (mkFeeSplit (fs_Contract fs) (fs_Deployer fs) (new_withdrawer msg fs))) with (GetContractAddr fs).
  rewrite Hk, Hd. simpl. rewrite insert_delete_eq, insert_delete_id by done.
  unfold s1. by destruct (withdrawer_of fs), (withdrawer_of (updated msg fs)).
Qed.

Definition cancel_error (msg : MsgCancelFeeSplit) s : option error :=
  if negb (EnableFeeSplit (f_params s)) then Some ErrFeeSplitDisabled
  else match f_splits s !! hex_to_address (mx_Contract msg) with
       | None => Some ErrFeeSplitContractNotRegistered
       | Some fs => if negb (String.eqb (mx_Deployer msg) (fs_Deployer fs)) then Some ErrUnauthorized else None
       end.

Definition cancel_state (msg : MsgCancelFeeSplit) s : feesplit_state D X :=
  let k := hex_to_address (mx_Contract msg) in
  match f_splits s !! k with Some fs => drop_split k fs s | None => s end.

Lemma cancel_run msg s :
  fee_inv s →
  CancelFeeSplit msg s =
  match cancel_error msg s with Some e => (Err e, s) | None => (Ok tt, cancel_state msg s) end.
Proof.
  intros Hinv. unfold CancelFeeSplit, cancel_error, cancel_state, feesplit_GetParams.
  unfold bind at 1, gets at 1. destruct (EnableFeeSplit (f_params s)); [|done]. cbn [negb].
  unfold bind at 1, check at 1, ret at 1. unfold bind at 1, gets at 1, GetFeeSplit.
  set (k := hex_to_address (mx_Contract msg)). destruct (f_splits s !! k) as [fs|] eqn:Ek; [|done].
  destruct (fi_ok s Hinv k fs Ek) as (Hk & [d Hd] & Hwd).
  destruct (String.eqb (mx_Deployer msg) (fs_Deployer fs)); [|done]. cbn [negb].
  unfold bind at 1, check at 1, ret at 1. unfold bind at 1, modify at 1.
  unfold GetDeployerAddr, must_acc_from_bech32. unfold deployer_of in Hd. rewrite Hd.
  unfold bind at 1, lift at 1. unfold bind at 1, modify at 1. unfold DeleteFeeSplit. rewrite Hk.
  unfold drop_split, drop_key, withdrawer_of, deployer_of. rewrite Hd.
  unfold GetWithdrawerAddr. destruct (String.eqb_spec (fs_Withdrawer fs) EmptyString) as [E|E]; [done|]. simpl.
  destruct Hwd as [?|[w Hw]]; [done|]. unfold bind, lift, must_acc_from_bech32. by rewrite Hw.
Qed.

(** *** The hook *)

(** The payee and the amount of a transaction, when it pays a share. *)
Definition split_of (tx : EvmTx) s : option FeeSplit :=
  if EnableFeeSplit (f_params s) then k ← tx_To tx; f_splits s !! k else None.

Lemma withdrawer_addr_run fs k :
  split_ok k fs →
  ∃ w, payee fs = Some w ∧
  ∀ s, (let! a := lift (GetWithdrawerAddr fs) in
        if Nat.eqb (String.length a) 0 then lift (GetDeployerAddr fs) else ret a) s = (Ok w, s).
Proof.
  intros (_ & [d Hd] & Hw). unfold payee, withdrawer_of, GetWithdrawerAddr, GetDeployerAddr, must_acc_from_bech32.
  unfold deployer_of in *. destruct (String.eqb_spec (fs_Withdrawer fs) EmptyString) as [E|E].
  { exists d. rewrite Hd. done. }
  destruct Hw as [?|[w Hw]]; [done|]. rewrite Hw. exists w. split; [done|]. intros s.
  pose proof (bech32_nonempty _ _ Hw). by destruct w.
Qed.

Lemma post_tx_run tx s :
  fee_inv s →
  match split_of tx s with
  | None => feesplit_PostTxProcessing (C := C) feeCollectorName tx s = (Ok tt, s)
  | Some fs => ∃ w, payee fs = Some w ∧ feesplit_PostTxProcessing (C := C) feeCollectorName tx s =
      fext (SendCoinsFromModuleToAccount feeCollectorName w
              (coins_lit (C := C) (evm_denom (X := X)) (developer_fee (f_params s) tx))) s
  end.
Proof.
  intros Hinv. unfold split_of.
  assert (Hunf : feesplit_PostTxProcessing (C := C) feeCollectorName tx s =
    if EnableFeeSplit (f_params s) then
      match tx_To tx with
      | None => (Ok tt, s)
      | Some k =>
          match f_splits s !! k with
          | None => (Ok tt, s)
          | Some fs =>
              bind (let! a := lift (GetWithdrawerAddr fs) in
                    if Nat.eqb (String.length a) 0 then lift (GetDeployerAddr fs) else ret a)
                (λ w, fext (SendCoinsFromModuleToAccount feeCollectorName w
                        (coins_lit (C := C) (evm_denom (X := X)) (developer_fee (f_params s) tx)))) s
          end
      end
    else (Ok tt, s)).
  { unfold feesplit_PostTxProcessing, feesplit_GetParams, bind, gets, GetFeeSplit, lift.
    destruct (EnableFeeSplit (f_params s)); [|done]. simpl. destruct (tx_To tx) as [k|]; [|done].
    destruct (f_splits s !! k) as [fs|]; [|done]. by destruct (GetWithdrawerAddr fs). }
  rewrite Hunf. destruct (EnableFeeSplit (f_params s)); [|done]. destruct (tx_To tx) as [k|]; [|done]. simpl.
  destruct (f_splits s !! k) as [fs|] eqn:Ek; [|done].
  destruct (withdrawer_addr_run fs k (fi_ok s Hinv k fs Ek)) as (w & Hp & Hrun). exists w. split; [done|].
  unfold bind at 1. by rewrite (Hrun s).
Qed.

(** *** Reachable states *)

Inductive feesplit_step : feesplit_state D X → feesplit_state D X → Prop :=
  | fs_msg msg s s' :
      feesplit_ValidateBasic msg = Ok tt → feesplit_Handler msg s = (Ok tt, s') → feesplit_step s s'
  | fs_tx tx s o s' : feesplit_PostTxProcessing (C := C) feeCollectorName tx s = (o, s') → feesplit_step s s'
  | fs_params p s : feesplit_Params_Validate p = Ok tt → feesplit_step s (feesplit_SetParams p s)
  | fs_other x s : feesplit_step s (mkFee (f_params s) (f_splits s) (f_deployer s) (f_withdrawer s) x).

Lemma fext_inv {A} (m : M X A) s o s' : fext m s = (o, s') → fee_inv s → fee_inv s'.
Proof.
  unfold fext, zoom. destruct (m (f_ext s)). intros [= <- <-] [R1 R2 R3 R4]. by constructor.
Qed.

(** What a message does to a consistent registry. *)
Definition msg_error (msg : FeesplitMsg) s : option error :=
  match msg with
  | FsRegister m => match acc_from_bech32 (mr_Deployer m) with Some d => register_error m d s | None => None end
  | FsUpdate m => update_error m s
  | FsCancel m => cancel_error m s
  | FsOther => Some ErrUnknownRequest
  end.
Definition msg_state (msg : FeesplitMsg) s : feesplit_state D X :=
  match msg with
  | FsRegister m => match acc_from_bech32 (mr_Deployer m) with
                    | Some d => put_split (hex_to_address (mr_Contract m)) (registration m d) s | None => s end
  | FsUpdate m => update_state m s
  | FsCancel m => cancel_state m s
  | FsOther => s
  end.

Lemma handler_run msg s :
  fee_inv s → feesplit_ValidateBasic msg = Ok tt →
  feesplit_Handler msg s = match msg_error msg s with Some e => (Err e, s) | None => (Ok tt, msg_state msg s) end.
Proof.
  intros Hinv Hv. destruct msg as [m|m|m|]; simpl in *; [| |by apply cancel_run|done].
  - unfold MsgRegisterFeeSplit_ValidateBasic in Hv. apply obind_ok in Hv as ([] & Hd & Hv).
    apply obind_ok in Hv as ([] & _ & Hv). apply obind_ok in Hv as ([] & Hw & _).
    apply check_bech32_ok in Hd as [d Hd]. rewrite Hd. apply register_run; [done|].
    destruct (String.eqb_spec (mr_Withdrawer m) EmptyString); [auto|]. right. by apply check_bech32_ok in Hw.
  - unfold MsgUpdateFeeSplit_ValidateBasic in Hv. apply obind_ok in Hv as ([] & _ & Hv).
    apply obind_ok in Hv as ([] & _ & Hv). apply update_run; [done|]. by apply check_bech32_ok in Hv.
Qed.

Lemma msg_state_inv msg s :
  fee_inv s → feesplit_ValidateBasic msg = Ok tt → msg_error msg s = None → fee_inv (msg_state msg s).
Proof.
  intros Hinv Hv Hne. destruct msg as [m|m|m|]; simpl in *; [..|done].
  - destruct (acc_from_bech32 (mr_Deployer m)) as [d|] eqn:Ed; [|done].
    apply put_split_inv; [done| |by apply registration_ok]. unfold register_error in Hne.
    destruct (negb (EnableFeeSplit _)); [done|]. unfold IsFeeSplitRegistered in Hne.
    destruct (f_splits s !! _); [|done]. by rewrite bool_decide_eq_true_2 in Hne by eauto.
  - unfold update_state. unfold update_error in Hne. destruct (negb (EnableFeeSplit _)); [done|].
    destruct (f_splits s !! _) as [fs|] eqn:Ek; [|done]. destruct (fi_ok s Hinv _ _ Ek) as (Hk & Hd & _).
    apply put_split_inv; [by apply drop_split_inv|apply lookup_delete_eq|]. split; [done|]. split; [done|]. simpl.
    unfold new_withdrawer. destruct (String.eqb (mu_Withdrawer m) (fs_Deployer fs)); [auto|]. right.
    unfold MsgUpdateFeeSplit_ValidateBasic in Hv. apply obind_ok in Hv as ([] & _ & Hv).
    apply obind_ok in Hv as ([] & _ & Hv). by apply check_bech32_ok in Hv.
  - unfold cancel_state. destruct (f_splits s !! _) eqn:Ek; [|done]. by apply drop_split_inv.
Qed.

Lemma feesplit_step_inv s s' : feesplit_step s s' → fee_inv s → fee_inv s'.
Proof.
  intros [msg s1 s2 Hv Hrun|tx s1 o s2 Hrun|p s1 Hp|x s1] Hinv.
  - rewrite handler_run in Hrun by done. destruct (msg_error msg s1) eqn:E; [done|]. injection Hrun as <-.
    by apply msg_state_inv.
  - pose proof (post_tx_run tx s1 Hinv) as Hr. destruct (split_of tx s1).
    + destruct Hr as (w & _ & Hr). rewrite Hr in Hrun. by eapply fext_inv.
    + rewrite Hr in Hrun. by injection Hrun as <- <-.
  - destruct Hinv. by constructor.
  - destruct Hinv. by constructor.
Qed.

(** The state of a chain that starts without fee splits. *)
Definition feesplit_reachable s : Prop :=
  ∃ s0, f_splits s0 = ∅ ∧ f_deployer s0 = ∅ ∧ f_withdrawer s0 = ∅ ∧
        feesplit_Params_Validate (f_params s0) = Ok tt ∧ rtc feesplit_step s0 s.

Lemma feesplit_reachable_inv s : feesplit_reachable s → fee_inv s.
Proof.
  intros (s0 & E1 & E2 & E3 & Hp & Hrun). assert (Hinv : fee_inv s0).
  { constructor; rewrite ?E1, ?E2, ?E3; [|apply indexed_empty..|done]. intros k fs Hk. by rewrite lookup_empty in Hk. }
  clear E1 E2 E3 Hp. induction Hrun; eauto using feesplit_step_inv.
Qed.

(** *** The theorems *)

(** C30: over any sequence of valid messages, transactions, parameter changes and
    activity of other modules, the registry and its two indexes agree: a contract
    is listed under an address exactly when that address is its deployer, or its
    withdraw address; entries are stored under their contract and always have a
    payee. *)
Theorem fee_registry_consistent s k a :
  feesplit_reachable s → String.length k = 20%nat →
  (IsDeployerMapSet s a k = true ↔ ∃ fs, GetFeeSplit s k = Some fs ∧ deployer_of fs = Some a) ∧
  (IsWithdrawerMapSet s a k = true ↔ ∃ fs, GetFeeSplit s k = Some fs ∧ withdrawer_of fs = Some a) ∧
  ∀ fs, GetFeeSplit s k = Some fs → GetContractAddr fs = k ∧ is_Some (payee fs).
Proof.
  intros Hr Hk. pose proof (feesplit_reachable_inv s Hr) as Hinv. pose proof (fee_inv_keys s Hinv) as Hl.
  unfold IsDeployerMapSet, IsWithdrawerMapSet, GetFeeSplit. rewrite !bool_decide_eq_true. split; [|split].
  - by apply (indexed_lookup _ _ _ _ _ Hl (fi_deployer s Hinv)).
  - by apply (indexed_lookup _ _ _ _ _ Hl (fi_withdrawer s Hinv)).
  - intros fs Hfs. pose proof (fi_ok s Hinv k fs Hfs) as Hok. split; [apply Hok|].
    destruct (withdrawer_addr_run fs k Hok) as (w & Hw & _). by eexists.
Qed.

(** A message that passed its stateless checks never panics, and one that
    returns an error leaves the whole state as it was. *)
Lemma feesplit_msgs_atomic s msg :
  feesplit_reachable s → feesplit_ValidateBasic msg = Ok tt →
  (feesplit_Handler msg s).1 ≠ Panic ∧ ∀ e, (feesplit_Handler msg s).1 = Err e → (feesplit_Handler msg s).2 = s.
Proof.
  intros Hr Hv. rewrite handler_run by (done || by apply feesplit_reachable_inv).
  destruct (msg_error msg s); simpl; split; done.
Qed.

(** C13: only the signer who deployed a contract changes its entry.  A message that
    changes the entry of contract [k] is either a registration, and then [k] is a
    deployed contract whose address derives from the signer, who is not a contract,
    through the nonces, or it is signed by the registered deployer.  The deployer of
    an entry never changes. *)
Theorem only_deployer_changes s msg s' k :
  feesplit_reachable s → feesplit_ValidateBasic msg = Ok tt → feesplit_Handler msg s = (Ok tt, s') →
  GetFeeSplit s' k ≠ GetFeeSplit s k →
  EnableFeeSplit (f_params s) = true ∧
  ∃ signer, feesplit_signer msg = Ok signer ∧
    match GetFeeSplit s k with
    | None => ∃ nonces fs, (1 ≤ length nonces ≤ 20)%nat ∧ k = derive_contract signer nonces ∧
        IsContract (f_ext s) k = true ∧ IsContract (f_ext s) (bytes_to_address signer) = false ∧
        GetFeeSplit s' k = Some fs ∧ deployer_of fs = Some signer
    | Some fs => deployer_of fs = Some signer ∧
        ∀ fs', GetFeeSplit s' k = Some fs' → fs_Deployer fs' = fs_Deployer fs
    end.
Proof.
  intros Hr Hv Hrun Hch. pose proof (feesplit_reachable_inv s Hr) as Hinv. rewrite handler_run in Hrun by done.
  destruct (msg_error msg s) eqn:Ee; [done|]. injection Hrun as <-. unfold GetFeeSplit in *.
  destruct msg as [m|m|m|]; simpl in *; [..|done].
  - unfold MsgRegisterFeeSplit_ValidateBasic in Hv. inv_ok. bool_hyps.
    destruct (acc_from_bech32 (mr_Deployer m)) as [d|] eqn:Ed; [|done]. simpl in Hch. unfold register_error in Ee.
    repeat match type of Ee with (if ?b then _ else _) = _ => destruct b eqn:?; [done|] end. bool_hyps.
    apply String.eqb_eq in Heqb4. destruct (decide (hex_to_address (mr_Contract m) = k)) as [<-|Hne].
    2: { by rewrite lookup_insert_ne in Hch. }
    split; [done|]. exists d. unfold must_acc_from_bech32. rewrite Ed. split; [done|].
    unfold IsFeeSplitRegistered in *. bool_hyps. rewrite (proj2 (eq_None_not_Some _)) by done.
    exists (Nonces m), (registration m d). simpl. rewrite lookup_insert_eq.
    match goal with Hl1 : Nat.ltb _ 1 = false, Hl2 : Nat.ltb 20 _ = false |- _ =>
      apply Nat.ltb_ge in Hl1, Hl2 end. destruct (registration_ok m d Ed) as (_ & Hdd & _). done.
  - unfold update_state, update_error in *. destruct (EnableFeeSplit _); [|done]. split; [done|]. simpl in Ee.
    set (c := hex_to_address (mu_Contract m)) in *. destruct (f_splits s !! c) as [fs|] eqn:Ec; [|done].
    destruct (String.eqb_spec (mu_Deployer m) (fs_Deployer fs)) as [Edep|]; [|done]. simpl in Hch.
    destruct (decide (c = k)) as [<-|Hne]; [|by rewrite lookup_insert_ne, lookup_delete_ne in Hch].
    destruct (fi_ok s Hinv c fs Ec) as (_ & [d Hd] & _). exists d. unfold must_acc_from_bech32.
    unfold deployer_of in Hd. rewrite Edep, Hd, Ec. simpl. rewrite lookup_insert_eq. split; [done|]. split; [done|].
    intros fs' Hfs'. by injection Hfs' as <-.
  - unfold cancel_state, cancel_error in *. destruct (EnableFeeSplit _); [|done]. split; [done|]. simpl in Ee.
    set (c := hex_to_address (mx_Contract m)) in *. destruct (f_splits s !! c) as [fs|] eqn:Ec; [|done].
    destruct (String.eqb_spec (mx_Deployer m) (fs_Deployer fs)) as [Edep|]; [|done]. simpl in Hch.
    destruct (decide (c = k)) as [<-|Hne]; [|by rewrite lookup_delete_ne in Hch].
    destruct (fi_ok s Hinv c fs Ec) as (_ & [d Hd] & _). exists d. unfold must_acc_from_bech32.
    unfold deployer_of in Hd. rewrite Edep, Hd, Ec. simpl. rewrite lookup_delete_eq. done.
Qed.

Lemma developer_fee_bounds (p : FeesplitParams D) tx :
  feesplit_Params_Validate p = Ok tt → 0 ≤ GasUsed tx → 0 ≤ GasPrice tx →
  developer_fee p tx = GasUsed tx * GasPrice tx * dec_raw (DeveloperShares p) / dec_unit ∧
  0 ≤ developer_fee p tx ≤ GasUsed tx * GasPrice tx.
Proof.
  unfold feesplit_Params_Validate, validateShares, developer_fee. intros Hv Hg Hp. inv_ok.
  rewrite is_negative_spec, gt_spec, raw_new in *. bool_hyps. pose proof dec_unit_pos.
  rewrite truncate_new_mul by nia. split; [done|]. split; [apply Z.div_pos; nia|]. apply Z.div_le_upper_bound; nia.
Qed.

(** C12: the hook leaves the registry alone.  A transaction to a registered contract
    moves the developer's share of its fee, rounded down and never more than the fee,
    from the fee collector to the withdraw address or else the deployer, and its
    outcome is that of the transfer; any other transaction changes nothing. *)
Theorem hook_pays_share s tx o s' :
  feesplit_reachable s → 0 ≤ GasUsed tx → 0 ≤ GasPrice tx →
  feesplit_PostTxProcessing (C := C) feeCollectorName tx s = (o, s') →
  f_params s' = f_params s ∧ f_splits s' = f_splits s ∧ f_deployer s' = f_deployer s ∧ f_withdrawer s' = f_withdrawer s ∧
  match split_of tx s with
  | None => o = Ok tt ∧ s' = s
  | Some fs => ∃ w fee, payee fs = Some w ∧
      fee = GasUsed tx * GasPrice tx * dec_raw (DeveloperShares (f_params s)) / dec_unit ∧
      0 ≤ fee ≤ GasUsed tx * GasPrice tx ∧
      SendCoinsFromModuleToAccount feeCollectorName w (coins_lit (C := C) (evm_denom (X := X)) fee) (f_ext s) = (o, f_ext s') ∧
      (o = Ok tt → ∀ a d, GetBalance (C := C) (f_ext s') a d = GetBalance (C := C) (f_ext s) a d
         + at_addr a w (of_denom evm_denom d fee) - at_addr a (module_addr (C := C) (X := X) feeCollectorName) (of_denom evm_denom d fee))
  end.
Proof.
  intros Hr Hg Hp Hrun. pose proof (feesplit_reachable_inv s Hr) as Hinv.
  pose proof (post_tx_run tx s Hinv) as Hpost. destruct (split_of tx s) as [fs|].
  2: { rewrite Hpost in Hrun. by injection Hrun as <- <-. }
  destruct Hpost as (w & Hw & Hpost). rewrite Hpost in Hrun. unfold fext, zoom in Hrun.
  destruct (SendCoinsFromModuleToAccount _ _ _ (f_ext s)) as [o' x] eqn:Es. injection Hrun as <- <-.
  destruct (developer_fee_bounds (f_params s) tx (fi_params s Hinv) Hg Hp) as [Hf Hb].
  repeat (split; [done|]). exists w, (developer_fee (f_params s) tx). split; [done|]. split; [done|]. split; [done|].
  split; [exact Es|]. intros ->. intros a d. apply send_mod_acc_ok in Es. simpl. rewrite (Es a d). unfold of_denom.
  by rewrite !amount_lit.
Qed.

(** When the developer's share of the fee rounds down to zero, as it does for
    every transaction when [DeveloperShares] is zero or the gas price is, the hook
    cannot succeed: a zero coin is not valid, so the transfer is refused and the
    transaction is reverted instead of leaving the fees to the validators. *)
Lemma zero_share_fails s tx fs :
  feesplit_reachable s → 0 ≤ GasUsed tx → 0 ≤ GasPrice tx → split_of tx s = Some fs →
  GasUsed tx * GasPrice tx * dec_raw (DeveloperShares (f_params s)) < dec_unit →
  (feesplit_PostTxProcessing (C := C) feeCollectorName tx s).1 ≠ Ok tt.
Proof.
  intros Hr Hg Hp Hfs Hz Hok. pose proof (feesplit_reachable_inv s Hr) as Hinv.
  pose proof (post_tx_run tx s Hinv) as Hpost. rewrite Hfs in Hpost. destruct Hpost as (w & _ & Hpost).
  rewrite Hpost in Hok. unfold fext, zoom in Hok.
  destruct (SendCoinsFromModuleToAccount _ _ _ (f_ext s)) as [o' x] eqn:Es. simpl in Hok. subst o'.
  apply send_mod_acc_valid in Es. destruct (developer_fee_bounds (f_params s) tx (fi_params s Hinv) Hg Hp) as [Hf Hb].
  rewrite invalid_lit in Es; [done|]. rewrite Hf in *. pose proof dec_unit_pos.
  enough (GasUsed tx * GasPrice tx * dec_raw (DeveloperShares (f_params s)) / dec_unit < 1) by lia.
  apply Z.div_lt_upper_bound; lia.
Qed.

(** *** Genesis *)

Lemma init_split_run k fs s : split_ok k fs → init_fee_split fs s = (Ok tt, put_split k fs s).
Proof.
  intros (Hk & [d Hd] & Hw). unfold init_fee_split, GetDeployerAddr, GetWithdrawerAddr, must_acc_from_bech32.
  rewrite Hk. unfold put_split, put_key, withdrawer_of. rewrite Hd. unfold deployer_of in Hd. rewrite Hd.
  unfold bind, lift, modify, SetFeeSplit, SetDeployerMap. rewrite Hk.
  destruct (String.eqb_spec (fs_Withdrawer fs) EmptyString) as [E|E]; [done|]. destruct Hw as [?|[w Hw]]; [done|].
  rewrite Hw. pose proof (bech32_nonempty _ _ Hw). by destruct w.
Qed.

Lemma init_splits_run l s :
  fee_inv s → NoDup l.*1 → (∀ k fs, (k, fs) ∈ l → split_ok k fs ∧ f_splits s !! k = None) →
  ∃ s', foreach l.*2 init_fee_split s = (Ok tt, s') ∧ fee_inv s' ∧ f_params s' = f_params s ∧ f_ext s' = f_ext s ∧
    f_splits s' = list_to_map l ∪ f_splits s.
Proof.
  revert s. induction l as [|[k fs] l IH]; intros s Hinv Hnd Hl.
  { exists s. simpl. by rewrite map_empty_union. }
  rewrite fmap_cons, NoDup_cons in Hnd. destruct Hnd as [Hnew Hnd]. simpl in Hnew.
  destruct (Hl k fs (list_elem_of_here _ _)) as [Hok Hfree].
  destruct (IH (put_split k fs s)) as (s' & Hrun & Hinv' & Hp & Hx & Hs); [by apply put_split_inv|done| |].
  { intros k' fs' Hin. destruct (Hl k' fs') as [Hok' Hf']; [by right|]. split; [done|]. simpl.
    rewrite lookup_insert_ne; [done|]. intros ->. apply Hnew. by apply list_elem_of_fmap_2 with (f := fst) in Hin. }
  exists s'. rewrite fmap_cons. cbn [foreach snd]. unfold bind. rewrite (init_split_run k fs s Hok), Hrun.
  repeat (split; [done|]). rewrite Hs. simpl. rewrite <- insert_union_r, <- insert_union_l; [done|].
  by apply not_elem_of_list_to_map_1.
Qed.

(** Importing an exported state restores the registry and rebuilds both
    indexes. *)
Lemma feesplit_genesis_roundtrip s s0 :
  fee_inv s → f_splits s0 = ∅ → f_deployer s0 = ∅ → f_withdrawer s0 = ∅ →
  let '(params, feeSplits) := feesplit_ExportGenesis s in
  feesplit_InitGenesis params feeSplits s0 =
  (Ok tt, mkFee (f_params s) (f_splits s) (f_deployer s) (f_withdrawer s) (f_ext s0)).
Proof.
  intros Hinv E1 E2 E3. simpl.
  unfold feesplit_InitGenesis, bind at 1, modify at 1, feesplit_GetParams, GetFeeSplits.
  set (s1 := feesplit_SetParams (f_params s) s0).
  destruct (init_splits_run (kv_iter (f_splits s)) s1) as (s' & Hrun & [R1 R2 R3 R4] & Hp & Hx & Hs).
  - constructor; unfold s1; simpl; rewrite ?E1, ?E2, ?E3; [|apply indexed_empty..|apply Hinv].
    intros k fs Hk. by rewrite lookup_empty in Hk.
  - apply NoDup_kv_iter.
  - intros k fs Hin. apply elem_of_kv_iter in Hin. split; [by apply (fi_ok s Hinv)|]. simpl. by rewrite E1.
  - rewrite Hrun. assert (Hm : f_splits s' = f_splits s).
    { rewrite Hs. simpl. rewrite E1, map_union_empty, (list_to_map_proper _ (map_to_list (f_splits s))).
      - apply list_to_map_to_list.
      - apply NoDup_kv_iter.
      - apply kv_iter_perm. }
    rewrite Hm in R2, R3. pose proof (indexed_unique _ _ _ _ R2 (fi_deployer s Hinv)) as Ed.
    pose proof (indexed_unique _ _ _ _ R3 (fi_withdrawer s Hinv)) as Ew. f_equal.
    destruct s' as [p1 sp1 d1 w1 x1]. simpl in Hp, Hx, Hm, Ed, Ew. by rewrite Hp, Hm, Hx, Ed, Ew.
Qed.
End registry.

(** ** Witnesses *)

(** A developer with one contract, created by his third transaction, and a user. *)
Definition dev : string := "developer-address-01".
Definition heir : string := "withdraw-address-001".
Definition dapp : string := create_address dev 2.
Definition collector : string := "fee_collector".

Definition fee_world : world :=
  mkWorld {[ w_mod collector := {[ "aevmos"%string := 1000 ]} ]} {[ "aevmos"%string := 1000 ]}
    {[ dev := PlainAcc dev ]} {[ dev := 3 ]} ∅ (mkEvm {[ dapp := mkToken "D" "D" 18 ∅ ]} ∅).

Definition fee_start : feesplit_state Z world := mkFee (feesplit_DefaultParams (D := Z)) ∅ ∅ ∅ fee_world.

Definition dapp_register : FeesplitMsg := FsRegister (NewMsgRegisterFeeSplit dapp dev None [2]).
Definition dapp_update : FeesplitMsg := FsUpdate (NewMsgUpdateFeeSplit dapp dev heir).
Definition dapp_call : EvmTx := mkTx "some-user-address-01" (Some dapp) 3 101 [].

Definition fee_registered : feesplit_state Z world := (feesplit_Handler dapp_register fee_start).2.
Definition fee_updated : feesplit_state Z world := (feesplit_Handler dapp_update fee_registered).2.

Local Abbreviation reachable := (feesplit_reachable (C := coins) (D := Z) (X := world) collector).

Lemma fee_registered_reachable : reachable fee_registered.
Proof.
  exists fee_start. do 3 (split; [done|]). split; [vm_compute; reflexivity|]. apply rtc_once.
  apply (fs_msg collector dapp_register fee_start fee_registered); vm_compute; reflexivity.
Qed.

Lemma fee_updated_reachable : reachable fee_updated.
Proof.
  destruct fee_registered_reachable as (s0 & E1 & E2 & E3 & Hp & Hrun). exists s0. do 4 (split; [done|]).
  eapply rtc_r; [exact Hrun|].
  apply (fs_msg collector dapp_update fee_registered fee_updated); vm_compute; reflexivity.
Qed.

Definition dapp_split : FeeSplit := mkFeeSplit (address_hex dapp) (acc_string dev) (acc_string heir).

Lemma fee_registry_consistent_witness :
  reachable fee_updated ∧ GetFeeSplit fee_updated dapp = Some dapp_split ∧
  IsDeployerMapSet fee_updated dev dapp = true ∧ IsWithdrawerMapSet fee_updated heir dapp = true.
Proof.
  split; [exact fee_updated_reachable|].
  assert (E : GetFeeSplit fee_updated dapp = Some dapp_split) by (vm_compute; reflexivity). split; [exact E|].
  destruct (fee_registry_consistent collector fee_updated dapp dev fee_updated_reachable eq_refl) as [Hd _].
  destruct (fee_registry_consistent collector fee_updated dapp heir fee_updated_reachable eq_refl) as (_ & Hw & _).
  split; [apply Hd|apply Hw]; exists dapp_split; (split; [exact E|vm_compute; reflexivity]).
Defined.

(** A second registration of the contract. *)
Lemma feesplit_msgs_atomic_witness :
  feesplit_ValidateBasic dapp_register = Ok tt ∧
  (feesplit_Handler dapp_register fee_updated).1 = Err ErrFeeSplitAlreadyRegistered ∧
  (feesplit_Handler dapp_register fee_updated).2 = fee_updated.
Proof.
  assert (Ev : feesplit_ValidateBasic dapp_register = Ok tt) by (vm_compute; reflexivity). split; [exact Ev|].
  assert (Ee : (feesplit_Handler dapp_register fee_updated).1 = Err ErrFeeSplitAlreadyRegistered) by (vm_compute; reflexivity).
  split; [exact Ee|].
  exact (proj2 (feesplit_msgs_atomic collector fee_updated dapp_register fee_updated_reachable Ev) _ Ee).
Defined.

Lemma only_deployer_changes_witness :
  feesplit_Handler dapp_update fee_registered = (Ok tt, fee_updated) ∧
  ∃ signer, feesplit_signer dapp_update = Ok signer ∧ signer = dev.
Proof.
  assert (E : feesplit_Handler dapp_update fee_registered = (Ok tt, fee_updated)) by (vm_compute; reflexivity).
  split; [exact E|].
  destruct (only_deployer_changes collector fee_registered dapp_update fee_updated dapp fee_registered_reachable) as (_ & signer & Hs & _).
  - vm_compute. reflexivity.
  - exact E.
  - vm_compute. discriminate.
  - exists signer. split; [exact Hs|].
    assert (Hd : feesplit_signer dapp_update = Ok dev) by (vm_compute; reflexivity). congruence.
Defined.

Definition fee_paid := feesplit_PostTxProcessing (C := coins) collector dapp_call fee_updated.

(** Half of 303 goes to the withdraw address. *)
Lemma hook_pays_share_witness :
  fee_paid.1 = Ok tt ∧ GetBalance (C := coins) (f_ext fee_paid.2) heir "aevmos" = 151 ∧
  f_splits fee_paid.2 = f_splits fee_updated.
Proof.
  assert (E : fee_paid.1 = Ok tt) by (vm_compute; reflexivity). split; [exact E|]. split; [vm_compute; reflexivity|].
  destruct (hook_pays_share collector fee_updated dapp_call (Ok tt) fee_paid.2 fee_updated_reachable) as (_ & Hs & _).
  - vm_compute. discriminate.
  - vm_compute. discriminate.
  - vm_compute. reflexivity.
  - exact Hs.
Defined.

Definition no_share : feesplit_state Z world := feesplit_SetParams (mkFeeParams true 0 50) fee_updated.

Lemma zero_share_fails_witness :
  feesplit_Params_Validate (f_params no_share) = Ok tt ∧ split_of dapp_call no_share = Some dapp_split ∧
  (feesplit_PostTxProcessing (C := coins) collector dapp_call no_share).1 ≠ Ok tt.
Proof.
  assert (Ev : feesplit_Params_Validate (f_params no_share) = Ok tt) by (vm_compute; reflexivity). split; [exact Ev|].
  assert (Es : split_of dapp_call no_share = Some dapp_split) by (vm_compute; reflexivity). split; [exact Es|].
  apply (zero_share_fails collector no_share dapp_call dapp_split).
  - destruct fee_updated_reachable as (s0 & E1 & E2 & E3 & Hp & Hrun). exists s0. do 4 (split; [done|]).
    eapply rtc_r; [exact Hrun|]. apply fs_params. exact Ev.
  - vm_compute. discriminate.
  - vm_compute. discriminate.
  - exact Es.
  - vm_compute. reflexivity.
Defined.
