(* ===== verification/Stores.v ===== *)
(** * The stores of the modules as the keepers write them: [x/*/types/keys.go], [x/*/keeper]

    The previous files keep the store of a module as one map for each prefix.  Here are the
    same operations on the key-value store of the SDK: prefix bytes, keys made of addresses,
    encoded values, and iterators over a prefix. *)

From S2P Require Import Prelude Sdk Dec Keepers EvmosUtils Erc20Types Epochs Inflation Ibc Claims Erc20 Evm Incentives Feesplit.

Notation "a +:+ b" := (String.append a b) (at level 60, right associativity) : go_scope.

(** ** The key-value store and the codecs *)

(** [sdk.KVStore] *)
Class KVStore (St : Type) := {
  st_Get : string → St → option string;
  st_Set : string → string → St → St;
  st_Delete : string → St → St;
  (** [sdk.KVStorePrefixIterator]: the entries it visits *)
  st_Iterator : string → St → list (string * string);
}.
Class KVStoreLaws (St : Type) `{KVStore St} := {
  get_set k v k' st : st_Get k' (st_Set k v st) = if decide (k' = k) then Some v else st_Get k' st;
  get_delete k k' st : st_Get k' (st_Delete k st) = if decide (k' = k) then None else st_Get k' st;
  iterator_entries p st k v : (k, v) ∈ st_Iterator p st ↔ String.prefix p k = true ∧ st_Get k st = Some v;
  iterator_keys p st : NoDup (st_Iterator p st).*1;
  iterator_sorted p st : Sorted key_le (st_Iterator p st);
}.

(** [cdc.MustMarshal], [cdc.MustUnmarshal].  A message has bytes when one of its fields is
    written: [written v] is the condition for it.  The fields of proto3 with the zero value of
    their type are left out, so that the message with no other fields has none; fields that
    cannot be nil, such as times and amounts, are written whatever their value. *)
Class Codec (V : Type) := { Marshal : V → string; Unmarshal : string → option V }.
Class CodecLaws (V : Type) (written : V → Prop) `{Codec V} := {
  unmarshal_marshal v : Unmarshal (Marshal v) = Some v;
  marshal_nonempty v : written v → Marshal v ≠ EmptyString;
}.
Definition pair_written (tp : TokenPair) : Prop :=
  Erc20Address tp ≠ EmptyString ∨ Denom tp ≠ EmptyString ∨ Enabled tp = true ∨ ContractOwner tp ≠ OWNER_UNSPECIFIED.
Definition split_written (fs : FeeSplit) : Prop :=
  fs_Contract fs ≠ EmptyString ∨ fs_Deployer fs ≠ EmptyString ∨ fs_Withdrawer fs ≠ EmptyString.
(** [StartTime], [InitialClaimableAmount] and decimals cannot be nil. *)
Definition always_written {V} (_ : V) : Prop := True.

(** [encoding/binary]: big endian numbers *)
Fixpoint big_endian (n : nat) (z : Z) : string :=
  match n with
  | O => EmptyString
  | S n => String (Ascii.ascii_of_N (Z.to_N (z / 256 ^ Z.of_nat n mod 256))) (big_endian n z)
  end.
Fixpoint from_big_endian (acc : Z) (bz : string) : Z :=
  match bz with
  | EmptyString => acc
  | String a bz => from_big_endian (acc * 256 + Z.of_N (Ascii.N_of_ascii a)) bz
  end.
Definition Uint64ToBigEndian (z : Z) : string := big_endian 8 z.
Definition BigEndianToUint64 (bz : string) : Z := from_big_endian 0 bz.

(** ** Prefixes *)

Definition prefix_byte (n : nat) : string := String (Ascii.ascii_of_nat n) EmptyString.

Definition KeyPrefixEpoch : string := prefix_byte 1.
Definition KeyPrefixClaimsRecords : string := prefix_byte 1.
Definition KeyPrefixTokenPair : string := prefix_byte 1.
Definition KeyPrefixTokenPairByERC20 : string := prefix_byte 2.
Definition KeyPrefixTokenPairByDenom : string := prefix_byte 3.
Definition KeyPrefixIncentive : string := prefix_byte 1.
Definition KeyPrefixGasMeter : string := prefix_byte 2.
Definition KeyPrefixAllocationMeter : string := prefix_byte 3.
Definition KeyPrefixFeeSplit : string := prefix_byte 1.
Definition KeyPrefixDeployer : string := prefix_byte 2.
Definition KeyPrefixWithdrawer : string := prefix_byte 3.
Definition KeyPrefixPeriod : string := prefix_byte 1.
Definition KeyPrefixEpochMintProvision : string := prefix_byte 2.
Definition KeyPrefixEpochIdentifier : string := prefix_byte 3.
Definition KeyPrefixEpochsPerPeriod : string := prefix_byte 4.
Definition KeyPrefixSkippedEpochs : string := prefix_byte 5.

Definition GetKeyPrefixDeployer (deployerAddress : string) : string := KeyPrefixDeployer +:+ deployerAddress.
Definition GetKeyPrefixWithdrawer (withdrawerAddress : string) : string := KeyPrefixWithdrawer +:+ withdrawerAddress.

(** ** The operations of the keepers

    [prefix.NewStore(store, p)] puts [p] before every key.  [len(bz) == 0]: nothing found. *)

Section operations.
Context {St D : Type} `{KVStore St, SdkDec D, EthAddress}.
Context `{!Codec TokenPair, !Codec EpochInfo, !Codec ClaimsRecord, !Codec (Incentive D), !Codec FeeSplit, !Codec D}.
Implicit Types st : St.

Definition get_value {V} `{Codec V} (key : string) st : option V :=
  match st_Get key st with None | Some EmptyString => None | Some bz => Unmarshal bz end.
Definition get_uint64 (key : string) st : option Z :=
  match st_Get key st with None | Some EmptyString => None | Some bz => Some (BigEndianToUint64 bz) end.
(** [prefix.NewStore(store, p)]: its entries have their keys without the prefix. *)
Definition kv_prefix_store (p : string) st : list (string * string) :=
  (λ kv, (drop_chars (String.length p) kv.1, kv.2)) <$> st_Iterator p st.
Definition st_Has (key : string) st : bool := bool_decide (is_Some (st_Get key st)).

(** *** [x/erc20/keeper/token_pairs.go] *)
Definition kv_SetTokenPair (tokenPair : TokenPair) st : St := st_Set (KeyPrefixTokenPair +:+ GetID tokenPair) (Marshal tokenPair) st.
Definition kv_GetTokenPair (id : option string) st : option TokenPair :=
  match id with None => None | Some id => get_value (KeyPrefixTokenPair +:+ id) st end.
Definition kv_GetERC20Map (erc20 : string) st : option string := st_Get (KeyPrefixTokenPairByERC20 +:+ erc20) st.
Definition kv_GetDenomMap (denom : string) st : option string := st_Get (KeyPrefixTokenPairByDenom +:+ denom) st.
Definition kv_SetERC20Map (erc20 id : string) st : St := st_Set (KeyPrefixTokenPairByERC20 +:+ erc20) id st.
Definition kv_SetDenomMap (denom id : string) st : St := st_Set (KeyPrefixTokenPairByDenom +:+ denom) id st.
Definition kv_DeleteTokenPair (tokenPair : TokenPair) st : St :=
  st_Delete (KeyPrefixTokenPairByDenom +:+ Denom tokenPair)
    (st_Delete (KeyPrefixTokenPairByERC20 +:+ GetERC20Contract tokenPair)
      (st_Delete (KeyPrefixTokenPair +:+ GetID tokenPair) st)).
Definition kv_IsTokenPairRegistered (id : string) st : bool := st_Has (KeyPrefixTokenPair +:+ id) st.
Definition kv_IsERC20Registered (erc20 : string) st : bool := st_Has (KeyPrefixTokenPairByERC20 +:+ erc20) st.
Definition kv_IsDenomRegistered (denom : string) st : bool := st_Has (KeyPrefixTokenPairByDenom +:+ denom) st.
(** the values an iterator decodes *)
Definition kv_values {V} `{Codec V} (p : string) st : list V := omap (λ kv, Unmarshal kv.2) (st_Iterator p st).
Definition kv_GetTokenPairs st : list TokenPair := kv_values KeyPrefixTokenPair st.

(** *** [x/claims/keeper/claims_records.go] *)
Definition kv_GetClaimsRecord (addr : string) st : option ClaimsRecord := get_value (KeyPrefixClaimsRecords +:+ addr) st.
Definition kv_HasClaimsRecord (addr : string) st : bool := st_Has (KeyPrefixClaimsRecords +:+ addr) st.
Definition kv_SetClaimsRecord (addr : string) (claimsRecord : ClaimsRecord) st : St :=
  st_Set (KeyPrefixClaimsRecords +:+ addr) (Marshal claimsRecord) st.
Definition kv_DeleteClaimsRecord (addr : string) st : St := st_Delete (KeyPrefixClaimsRecords +:+ addr) st.
(** the addresses and records that [IterateClaimsRecords] passes on: [iterator.Key()[1:]] *)
Definition kv_IterateClaimsRecords st : list (string * ClaimsRecord) :=
  omap (λ kv, (λ cr, (drop_chars 1 kv.1, cr)) <$> Unmarshal kv.2) (st_Iterator KeyPrefixClaimsRecords st).

(** *** [x/epochs/keeper/epoch_infos.go] *)
Definition kv_GetEpochInfo (identifier : string) st : option EpochInfo := get_value (KeyPrefixEpoch +:+ identifier) st.
Definition kv_SetEpochInfo (epoch : EpochInfo) st : St := st_Set (KeyPrefixEpoch +:+ Identifier epoch) (Marshal epoch) st.
Definition kv_DeleteEpochInfo (identifier : string) st : St := st_Delete (KeyPrefixEpoch +:+ identifier) st.
Definition kv_AllEpochInfos st : list EpochInfo := kv_values KeyPrefixEpoch st.

(** *** [x/incentives/keeper] *)
Definition kv_GetIncentive (contract : string) st : option (Incentive D) := get_value (KeyPrefixIncentive +:+ contract) st.
Definition kv_SetIncentive (incentive : Incentive D) st : St :=
  st_Set (KeyPrefixIncentive +:+ hex_to_address (in_Contract incentive)) (Marshal incentive) st.
Definition kv_delete_incentive (incentive : Incentive D) st : St :=
  st_Delete (KeyPrefixIncentive +:+ hex_to_address (in_Contract incentive)) st.
Definition kv_GetAllIncentives st : list (Incentive D) := kv_values KeyPrefixIncentive st.
Definition kv_IsIncentiveRegistered (contract : string) st : bool := st_Has (KeyPrefixIncentive +:+ contract) st.
Definition kv_GetGasMeter (contract participant : string) st : option Z := get_uint64 (KeyPrefixGasMeter +:+ contract +:+ participant) st.
Definition kv_SetGasMeter (gm : GasMeter) st : St :=
  st_Set (KeyPrefixGasMeter +:+ hex_to_address (gm_Contract gm) +:+ hex_to_address (gm_Participant gm)) (Uint64ToBigEndian (CumulativeGas gm)) st.
Definition kv_DeleteGasMeter (gm : GasMeter) st : St :=
  st_Delete (KeyPrefixGasMeter +:+ hex_to_address (gm_Contract gm) +:+ hex_to_address (gm_Participant gm)) st.
Definition kv_GetIncentivesGasMeters st : list GasMeter :=
  (λ kv, to_gas_meter kv.1 (BigEndianToUint64 kv.2)) <$> st_Iterator KeyPrefixGasMeter st.
(** the iterator of a prefix store: the keys it passes on are without the prefix of the store *)
Definition kv_GetIncentiveGasMeters (contract : string) st : list GasMeter :=
  (λ kv, to_gas_meter (drop_chars 1 kv.1) (BigEndianToUint64 kv.2)) <$> st_Iterator (KeyPrefixGasMeter +:+ contract) st.
Definition kv_GetAllocationMeter (denom : string) st : DecCoin D * bool :=
  match st_Get (KeyPrefixAllocationMeter +:+ denom) st with
  | None => (mkDecCoin denom (dec_new 0), false)
  | Some bz => match Unmarshal bz with Some amount => (mkDecCoin denom amount, true) | None => (mkDecCoin denom (dec_new 0), false) end
  end.
Definition kv_GetAllAllocationMeters st : list (DecCoin D) :=
  omap (λ kv, let '(am, found) := kv_GetAllocationMeter (drop_chars 1 kv.1) st in if found : bool then Some am else None)
       (st_Iterator KeyPrefixAllocationMeter st).
Definition kv_SetAllocationMeter (am : DecCoin D) st : St :=
  if dec_is_zero (dc_Amount am) then st_Delete (KeyPrefixAllocationMeter +:+ dc_Denom am) st
  else st_Set (KeyPrefixAllocationMeter +:+ dc_Denom am) (Marshal (dc_Amount am)) st.

(** *** [x/feesplit/keeper/fee_splits.go] *)
Definition kv_GetFeeSplit (contract : string) st : option FeeSplit := get_value (KeyPrefixFeeSplit +:+ contract) st.
Definition kv_SetFeeSplit (feeSplit : FeeSplit) st : St := st_Set (KeyPrefixFeeSplit +:+ GetContractAddr feeSplit) (Marshal feeSplit) st.
Definition kv_DeleteFeeSplit (fee : FeeSplit) st : St := st_Delete (KeyPrefixFeeSplit +:+ GetContractAddr fee) st.
Definition kv_GetFeeSplits st : list FeeSplit := kv_values KeyPrefixFeeSplit st.
Definition kv_SetDeployerMap (deployer contract : string) st : St := st_Set (KeyPrefixDeployer +:+ deployer +:+ contract) (prefix_byte 1) st.
Definition kv_DeleteDeployerMap (deployer contract : string) st : St := st_Delete (KeyPrefixDeployer +:+ deployer +:+ contract) st.
Definition kv_SetWithdrawerMap (withdrawer contract : string) st : St := st_Set (KeyPrefixWithdrawer +:+ withdrawer +:+ contract) (prefix_byte 1) st.
Definition kv_DeleteWithdrawerMap (withdrawer contract : string) st : St := st_Delete (KeyPrefixWithdrawer +:+ withdrawer +:+ contract) st.
Definition kv_IsFeeSplitRegistered (contract : string) st : bool := st_Has (KeyPrefixFeeSplit +:+ contract) st.
Definition kv_IsDeployerMapSet (deployer contract : string) st : bool := st_Has (KeyPrefixDeployer +:+ deployer +:+ contract) st.
Definition kv_IsWithdrawerMapSet (withdrawer contract : string) st : bool := st_Has (KeyPrefixWithdrawer +:+ withdrawer +:+ contract) st.

(** *** [x/inflation/keeper] *)
Definition kv_GetPeriod st : Z := default 0%Z (get_uint64 KeyPrefixPeriod st).
Definition kv_SetPeriod (period : Z) st : St := st_Set KeyPrefixPeriod (Uint64ToBigEndian period) st.
Definition kv_GetEpochIdentifier st : string := default EmptyString (st_Get KeyPrefixEpochIdentifier st).
Definition kv_SetEpochIdentifier (epochIdentifier : string) st : St := st_Set KeyPrefixEpochIdentifier epochIdentifier st.
(** [int64(sdk.BigEndianToUint64(bz))] and [uint64(epochsPerPeriod)] *)
Definition kv_GetEpochsPerPeriod st : Z := wrap64 (default 0%Z (get_uint64 KeyPrefixEpochsPerPeriod st)).
Definition kv_SetEpochsPerPeriod (epochsPerPeriod : Z) st : St := st_Set KeyPrefixEpochsPerPeriod (Uint64ToBigEndian (epochsPerPeriod mod 2^64)) st.
Definition kv_GetSkippedEpochs st : Z := default 0%Z (get_uint64 KeyPrefixSkippedEpochs st).
Definition kv_SetSkippedEpochs (skippedEpochs : Z) st : St := st_Set KeyPrefixSkippedEpochs (Uint64ToBigEndian skippedEpochs) st.
Definition kv_GetEpochMintProvision st : D * bool :=
  match get_value KeyPrefixEpochMintProvision st with Some p => (p, true) | None => (dec_new 0, false) end.
Definition kv_SetEpochMintProvision (epochMintProvision : D) st : St := st_Set KeyPrefixEpochMintProvision (Marshal epochMintProvision) st.
End operations.
