(* ===== verification/Recovery.v ===== *)
(** * The recovery module and the transfer stack: [x/recovery], [ibc/module.go]

    Tokens sent over IBC to an account whose key the chain does not support are
    sent back.  The middleware sits on top of the claims middleware, which sits
    on top of the transfer application. *)

From S2P Require Import Prelude Sdk Dec EvmosUtils Keepers Ibc Claims.

(** ** IBC applications: [porttypes.IBCModule], [ibc/module.go] *)

(** The arguments of the channel handshake that are only passed on. *)
Record Handshake := mkHandshake {
  hs_order : Z; connectionHops : list string; chanCap : string; counterparty : string * string;
}.

Record IBCModule (S : Type) := mkIBCModule {
  OnChanOpenInit : Handshake → string → string → string → M S unit;
  OnChanOpenTry : Handshake → string → string → string → M S string;
  OnChanOpenAck : string → string → string → string → M S unit;
  OnChanOpenConfirm : string → string → M S unit;
  OnChanCloseInit : string → string → M S unit;
  OnChanCloseConfirm : string → string → M S unit;
  OnRecvPacket : Ctx → Packet → string → M S Acknowledgement;
  OnAcknowledgementPacket : Ctx → Packet → string → string → M S unit;
  OnTimeoutPacket : Ctx → Packet → string → M S unit;
}.
Arguments mkIBCModule {S} _ _ _ _ _ _ _ _ _.
Arguments OnChanOpenInit {S} _ _ _ _ _.
Arguments OnChanOpenTry {S} _ _ _ _ _.
Arguments OnChanOpenAck {S} _ _ _ _ _.
Arguments OnChanOpenConfirm {S} _ _ _.
Arguments OnChanCloseInit {S} _ _ _.
Arguments OnChanCloseConfirm {S} _ _ _.
Arguments OnRecvPacket {S} _ _ _ _.
Arguments OnAcknowledgementPacket {S} _ _ _ _ _.
Arguments OnTimeoutPacket {S} _ _ _ _.

(** [ibc.NewModule(app)]: every callback calls that of the application. *)
Definition NewModule {S} (app : IBCModule S) : IBCModule S := mkIBCModule
  (λ hs portID channelID version, OnChanOpenInit app hs portID channelID version)
  (λ hs portID channelID counterpartyVersion, OnChanOpenTry app hs portID channelID counterpartyVersion)
  (λ portID channelID counterpartyChannelID counterpartyVersion,
     OnChanOpenAck app portID channelID counterpartyChannelID counterpartyVersion)
  (λ portID channelID, OnChanOpenConfirm app portID channelID)
  (λ portID channelID, OnChanCloseInit app portID channelID)
  (λ portID channelID, OnChanCloseConfirm app portID channelID)
  (λ ctx packet relayer, OnRecvPacket app ctx packet relayer)
  (λ ctx packet acknowledgement relayer, OnAcknowledgementPacket app ctx packet acknowledgement relayer)
  (λ ctx packet relayer, OnTimeoutPacket app ctx packet relayer).

(** An application on its part of the store. *)
Definition zoom_module {S T} (get : S → T) (set : T → S → S) (app : IBCModule T) : IBCModule S := mkIBCModule
  (λ hs p c v, zoom get set (OnChanOpenInit app hs p c v))
  (λ hs p c v, zoom get set (OnChanOpenTry app hs p c v))
  (λ p c cc v, zoom get set (OnChanOpenAck app p c cc v))
  (λ p c, zoom get set (OnChanOpenConfirm app p c))
  (λ p c, zoom get set (OnChanCloseInit app p c))
  (λ p c, zoom get set (OnChanCloseConfirm app p c))
  (λ ctx packet r, zoom get set (OnRecvPacket app ctx packet r))
  (λ ctx packet a r, zoom get set (OnAcknowledgementPacket app ctx packet a r))
  (λ ctx packet r, zoom get set (OnTimeoutPacket app ctx packet r)).

(** ** The transfer and channel keepers of ibc-go *)

Class IbcTransfer (X : Type) := {
  (** [transfertypes.ParseHexHash] *)
  ParseHexHash : string → option string;
  (** the path and the base denomination of a trace *)
  GetDenomTrace : X → string → option (string * string);
  (** [GetChannel(ctx, port, channel)], whether it is found *)
  GetChannel : X → string → string → bool;
  (** [SendTransfer(ctx, port, channel, coin, sender, receiver, ZeroHeight(), timeout)] *)
  SendTransfer : string → string → string * Z → string → string → Z → M X unit;
  (** [host.PortIdentifierValidator(id) == nil], [host.ChannelIdentifierValidator(id) == nil] *)
  port_id_valid : string → bool;
  host_channel_valid : string → bool;
  (** [transfertypes.GetEscrowAddress(port, channel)] *)
  escrow_address : string → string → string;
}.

(** A successful transfer takes the coin from its sender, by escrow or by burning,
    and nothing else from anyone but the escrow account. *)
Class IbcTransferLaws (C X : Type) `{BankKeeper C X, IbcTransfer X} := {
  send_transfer_ok port channel d amt f r timeout x x' :
    SendTransfer port channel (d, amt) f r timeout x = (Ok tt, x') → f ≠ escrow_address port channel →
    ∀ a d', a ≠ escrow_address port channel →
      GetBalance x' a d' = GetBalance x a d' - (if decide (a = f ∧ d' = d) then amt else 0);
  send_transfer_traces port channel coin f r timeout x o x' :
    SendTransfer port channel coin f r timeout x = (o, x') →
    (∀ h, GetDenomTrace x' h = GetDenomTrace x h) ∧ ∀ p c, GetChannel x' p c = GetChannel x p c;
}.

(** ** Parameters and state *)

Definition recovery_ModuleName : string := "recovery".

Record RecoveryParams := mkRecParams { EnableRecovery : bool; PacketTimeoutDuration : Z }.

Definition recovery_DefaultParams : RecoveryParams := mkRecParams true (4 * 3600 * ns_per_s).

Definition validate_timeout (duration : Z) : outcome unit :=
  ocheck (duration <? 0) (ErrMsg "packet timout duration cannot be negative").

Definition recovery_Params_Validate (p : RecoveryParams) : outcome unit := validate_timeout (PacketTimeoutDuration p).

Definition recovery_GenesisState_Validate (p : RecoveryParams) : outcome unit := recovery_Params_Validate p.

Record recovery_state (X : Type) := mkRec { r_params : RecoveryParams; r_claims : claims_state X }.
Arguments mkRec {X} _ _.
Arguments r_params {X} _.
Arguments r_claims {X} _.

(** [strings.Split(s, "/")] *)
Fixpoint split_slash (s : string) : list string :=
  match s with
  | EmptyString => [EmptyString]
  | String a s' =>
      if Nat.eqb (code a) 47 then EmptyString :: split_slash s'
      else match split_slash s' with
           | f :: r => String a f :: r
           | [] => [String a EmptyString]
           end
  end.

(** The second part of [strings.SplitN(s, "/", 2)], if there is one. *)
Fixpoint after_slash (s : string) : option string :=
  match s with
  | EmptyString => None
  | String a s' => if Nat.eqb (code a) 47 then Some s' else after_slash s'
  end.

Section keeper.
Context {C D X : Type} `{SdkCoins C, SdkDec D, Bech32, IbcCodec}.
Context `{!AccountKeeper C X, !BankKeeper C X, !DistrKeeper C X, !AccountTypes X, !IbcTransfer X}.
Implicit Types s : recovery_state X.
Local Abbreviation RM := (M (recovery_state X)).

Definition set_claims (cs : claims_state X) s : recovery_state X := mkRec (r_params s) cs.
Definition rext {A} (m : M X A) : RM A := zoom r_claims set_claims (cext m).

Definition recovery_GetParams s : RecoveryParams := r_params s.
Definition recovery_SetParams (params : RecoveryParams) s : recovery_state X := mkRec params (r_claims s).

Definition GetIBCDenomDestinationIdentifiers (x : X) (denom : string) : outcome (string * string) :=
  match after_slash denom with
  | None => Err ErrInvalidDenomForTransfer
  | Some hex =>
      match ParseHexHash hex with
      | None => Err (ErrExternal "invalid denom trace hash")
      | Some hash =>
          match GetDenomTrace x hash with
          | None => Err ErrTraceNotFound
          | Some (tracePath, _) =>
              let path := split_slash tracePath in
              let? _ := ocheck (negb (Nat.eqb (length path mod 2) 0)) ErrInvalidDenomForTransfer in
              match path with
              | destinationPort :: destinationChannel :: _ =>
                  let? _ := ocheck (negb (GetChannel x destinationPort destinationChannel)) ErrChannelNotFound in
                  let? _ := ocheck (negb (port_id_valid destinationPort)) ErrInvalidID in
                  let? _ := ocheck (negb (host_channel_valid destinationChannel)) ErrInvalidChannelIdentifier in
                  Ok (destinationPort, destinationChannel)
              | _ => Panic
              end
          end
      end
  end.

(** [uint64(ctx.BlockTime().Add(params.PacketTimeoutDuration).UnixNano())] *)
Definition packet_timeout (ctx : Ctx) (params : RecoveryParams) : Z :=
  wrapu64 (BlockTime ctx +i PacketTimeoutDuration params).

(** The callback on one coin: [None] to go on, with the recovered balances, and
    [Some err] to stop. *)
Definition recover_coin (ctx : Ctx) (params : RecoveryParams) (packet : Packet) (recipient senderBech32 : string)
    (balances : C) (coin : string * Z) : RM (C * option error) :=
  if coin.2 =? 0 then ret (balances, None) else
  let! ids := if String.prefix "ibc/" coin.1
              then try (let! s := gets id in lift (GetIBCDenomDestinationIdentifiers (c_ext (r_claims s)) coin.1))
              else ret (inl (DestinationPort packet, DestinationChannel packet)) in
  match ids with
  | inr err => ret (balances, Some err)
  | inl (destPort, destChannel) =>
      if negb (String.eqb (DestinationPort packet) destPort) || negb (String.eqb (DestinationChannel packet) destChannel)
      then ret (balances, None) else
      let! r := try (rext (SendTransfer (DestinationPort packet) (DestinationChannel packet) coin recipient senderBech32
                                        (packet_timeout ctx params))) in
      match r with
      | inr err => ret (balances, Some err)
      | inl _ => ret (coins_add balances (coins_lit coin.1 coin.2), None)
      end
  end.

Fixpoint recover_loop (ctx : Ctx) (params : RecoveryParams) (packet : Packet) (recipient senderBech32 : string)
    (coins : list (string * Z)) (balances : C) : RM (C * option error) :=
  match coins with
  | [] => ret (balances, None)
  | coin :: rest =>
      let! r := recover_coin ctx params packet recipient senderBech32 balances coin in
      match r with
      | (balances, Some err) => ret (balances, Some err)
      | (balances, None) => recover_loop ctx params packet recipient senderBech32 rest balances
      end
  end.

(** The tests after the addresses are known: the account cannot use its funds. *)
Definition needs_recovery (x : X) (sender recipient : string) : bool :=
  String.eqb sender recipient &&
  match GetAccount (C := C) x recipient with
  | None => true
  | Some account =>
      negb (acc_is_vesting account) && negb (is_module_account x recipient) &&
      negb match pubkey_of x recipient with Some pk => IsSupportedKey pk | None => false end
  end.

Definition recovery_OnRecvPacket (ctx : Ctx) (packet : Packet) (ack : Acknowledgement) : RM Acknowledgement :=
  let! params := gets recovery_GetParams in
  let! claimsParams := gets (λ s, claims_GetParams (r_claims s)) in
  if negb (EnableRecovery params) || negb (IsAuthorizedChannel claimsParams (DestinationChannel packet))
     || IsEVMChannel claimsParams (DestinationChannel packet)
  then ret ack else
  match GetTransferSenderRecipient packet with
  | Panic => panic
  | Err e => ret (AckError e)
  | Ok (sender, recipient, senderBech32, recipientBech32) =>
      if BlockedAddr (C := C) (X := X) sender || BlockedAddr (C := C) (X := X) recipient
      then ret (AckError ErrBlockedAddress) else
      let! x := gets (λ s, c_ext (r_claims s)) in
      if negb (needs_recovery x sender recipient) then ret ack else
      let! (balances, err) :=
        recover_loop ctx params packet recipient senderBech32 (AccountBalances (C := C) x recipient) coins_empty in
      match err with
      | Some err => ret (AckError err)
      | None => if coins_is_zero balances then ret ack else ret ack
      end
  end.

(** ** The middleware: [x/recovery/ibc_middleware.go], [x/claims/ibc_middleware.go] *)

Definition claims_IBCMiddleware (app : IBCModule (claims_state X)) : IBCModule (claims_state X) :=
  let im := NewModule app in
  mkIBCModule (OnChanOpenInit im) (OnChanOpenTry im) (OnChanOpenAck im) (OnChanOpenConfirm im)
    (OnChanCloseInit im) (OnChanCloseConfirm im)
    (λ ctx packet relayer,
       claims_mw_OnRecvPacket (D := D) (λ ctx packet, OnRecvPacket im ctx packet relayer) ctx packet)
    (λ ctx packet acknowledgement relayer,
       claims_mw_OnAcknowledgementPacket (D := D)
         (λ ctx packet acknowledgement, OnAcknowledgementPacket im ctx packet acknowledgement relayer)
         ctx packet acknowledgement)
    (OnTimeoutPacket im).

Definition recovery_IBCMiddleware (app : IBCModule (recovery_state X)) : IBCModule (recovery_state X) :=
  let im := NewModule app in
  mkIBCModule (OnChanOpenInit im) (OnChanOpenTry im) (OnChanOpenAck im) (OnChanOpenConfirm im)
    (OnChanCloseInit im) (OnChanCloseConfirm im)
    (λ ctx packet relayer,
       let! ack := OnRecvPacket im ctx packet relayer in
       if negb (ack_success ack) then ret ack else recovery_OnRecvPacket ctx packet ack)
    (OnAcknowledgementPacket im) (OnTimeoutPacket im).

(** [app/app.go]: the transfer application, claims above it, recovery on top. *)
Definition transferStack (transfer : IBCModule X) : IBCModule (recovery_state X) :=
  let transferStack := zoom_module c_ext (λ x cs, mkClaims (c_params cs) (c_records cs) x) transfer in
  let transferStack := claims_IBCMiddleware transferStack in
  recovery_IBCMiddleware (zoom_module r_claims set_claims transferStack).

(** ** Genesis: [genesis.go] *)

Definition recovery_InitGenesis (params : RecoveryParams) : RM unit := modify (recovery_SetParams params).
Definition recovery_ExportGenesis s : RecoveryParams := recovery_GetParams s.
End keeper.
