(* ===== verification/RecoveryProps.v ===== *)
(** * Properties of the recovery module and of the transfer stack

    Recovery returns every coin it may return and touches nothing else; it does
    nothing to accounts that can use their funds; and the stack as a whole answers
    with the acknowledgement of the transfer application or with an error. *)

From S2P Require Import Prelude Sdk Dec SdkInstances EvmosUtils Keepers Erc20Types KeeperInstances Evm Erc20 Erc20Instances.
From S2P Require Import Ibc IbcInstances Claims Recovery.

Lemma split_slash_cons s : ∃ f r, split_slash s = f :: r.
Proof.
  induction s as [|a s (f & r & IH)]; simpl; [eauto|]. destruct (Nat.eqb (code a) 47); [eauto|]. rewrite IH. eauto.
Qed.

Section recovery.
Context {C D X : Type} `{SdkCoinsLaws C, SdkDec D, Bech32, IbcCodec}.
Context `{!AccountKeeper C X, !BankKeeper C X, !DistrKeeper C X, !AccountTypes X, !IbcTransfer X}.
Context `{!BankLaws C X, !IbcTransferLaws C X}.
Implicit Types s : recovery_state X.

Local Abbreviation world_of s := (c_ext (r_claims s)).

(** A path has an even number of parts, so the first two exist. *)
Lemma identifiers_no_panic (x : X) denom : GetIBCDenomDestinationIdentifiers x denom ≠ Panic.
Proof.
  unfold GetIBCDenomDestinationIdentifiers. destruct (after_slash denom); [|done]. destruct (ParseHexHash _); [|done].
  destruct (GetDenomTrace x _) as [[path ?]|]; [|done]. destruct (split_slash_cons path) as (f & r & ->).
  destruct r as [|c r]; [done|]. destruct (Nat.eqb _ 0); [|done]. simpl.
  destruct (negb (GetChannel x f c)); [done|]. simpl. destruct (negb (port_id_valid f)); [done|]. simpl.
  by destruct (negb (host_channel_valid c)).
Qed.

(** What comes back over the channel of the packet: coins of this chain, and
    vouchers that arrived through it. *)
Definition recoverable (x : X) (packet : Packet) (d : string) : bool :=
  if String.prefix "ibc/" d then
    match GetIBCDenomDestinationIdentifiers x d with
    | Ok (port, channel) => String.eqb (DestinationPort packet) port && String.eqb (DestinationChannel packet) channel
    | _ => false
    end
  else true.

(** Two worlds with the same traces and channels. *)
Definition same_traces (x x' : X) : Prop :=
  (∀ h, GetDenomTrace x' h = GetDenomTrace x h) ∧ ∀ p c, GetChannel x' p c = GetChannel x p c.

Lemma identifiers_same x x' d :
  same_traces x x' → GetIBCDenomDestinationIdentifiers x' d = GetIBCDenomDestinationIdentifiers x d.
Proof.
  intros [Ht Hc]. unfold GetIBCDenomDestinationIdentifiers. destruct (after_slash d); [|done].
  destruct (ParseHexHash _); [|done]. rewrite Ht. destruct (GetDenomTrace x _) as [[path ?]|]; [|done].
  destruct (ocheck _ _); [|done..]. simpl. destruct (split_slash path) as [|f [|c r]]; [done..|]. by rewrite Hc.
Qed.

Lemma recoverable_same x x' packet d : same_traces x x' → recoverable x' packet d = recoverable x packet d.
Proof. intros Hs. unfold recoverable. by rewrite (identifiers_same x x' d Hs). Qed.

(** The parts of the state that recovery does not touch. *)
Definition same_modules s s' : Prop :=
  r_params s' = r_params s ∧ c_params (r_claims s') = c_params (r_claims s) ∧
  c_records (r_claims s') = c_records (r_claims s).

(** What a coin of the loop does to the balances. *)
Definition sent_back (packet : Packet) (recipient d : string) (amt : Z) s s' : Prop :=
  same_modules s s' ∧ same_traces (world_of s) (world_of s') ∧
  (recipient ≠ escrow_address (DestinationPort packet) (DestinationChannel packet) →
   ∀ a d', a ≠ escrow_address (DestinationPort packet) (DestinationChannel packet) →
     GetBalance (C := C) (world_of s') a d' = GetBalance (C := C) (world_of s) a d'
       - if decide (a = recipient ∧ d' = d) then amt else 0).

Lemma rext_run {A} (m : M X A) s o s' :
  rext m s = (o, s') → m (world_of s) = (o, world_of s') ∧ same_modules s s'.
Proof.
  unfold rext, cext, zoom, set_claims. destruct (m (c_ext (r_claims s))) as [o' x].
  intros [= <- <-]. done.
Qed.

Lemma recover_coin_ok ctx params packet recipient sb bal d amt s b e s' :
  amt ≠ 0 →
  recover_coin (C := C) ctx params packet recipient sb bal (d, amt) s = (Ok (b, e), s') →
  same_modules s s' ∧
  (e = None → sent_back packet recipient d (if recoverable (world_of s) packet d then amt else 0) s s').
Proof.
  intros Hne Hrun. unfold recover_coin in Hrun. destruct (Z.eqb_spec amt 0); [done|]. simpl in Hrun.
  destruct (Z.eqb_spec amt 0); [done|]. apply bind_ok in Hrun as (ids & s1 & Hids & Hrun).
  assert (Hrec : s1 = s ∧ match ids with
    | inl (p, c) => recoverable (world_of s) packet d =
        String.eqb (DestinationPort packet) p && String.eqb (DestinationChannel packet) c
    | inr _ => True end).
  { unfold recoverable. destruct (String.prefix "ibc/" d).
    - unfold try, bind, gets, lift, id in Hids. destruct (GetIBCDenomDestinationIdentifiers _ d) as [[p c]|e1|];
        simplify_eq/=; done.
    - injection Hids as <- <-. by rewrite !String.eqb_refl. }
  destruct Hrec as [-> Hrec]. destruct ids as [[p c]|e1].
  2: { injection Hrun as <- <- <-. done. }
  rewrite <- negb_andb, <- Hrec in Hrun. destruct (recoverable (world_of s) packet d); simpl in Hrun.
  2: { injection Hrun as <- <- <-. split; [done|]. intros _. split; [done|]. split; [done|]. intros. case_decide; lia. }
  apply bind_ok in Hrun as (r & s1 & Ht & Hrun). apply try_ok in Ht as [([] & -> & Ht)|(e1 & -> & Ht)];
    injection Hrun as <- <- <-; apply rext_run in Ht as [Ht Hs]; (split; [done|]); [|done].
  intros _. split; [done|]. split; [by eapply send_transfer_traces|]. intros Hesc a d' Ha.
  by apply (send_transfer_ok _ _ _ _ _ _ _ _ _ Ht Hesc a d' Ha).
Qed.

(** The coins of a list that are sent back. *)
Definition recovered_amount (x : X) (packet : Packet) (l : list (string * Z)) (d : string) : Z :=
  sumZ (λ c, if decide (d = c.1) then (if recoverable x packet c.1 then c.2 else 0) else 0) l.

Lemma recover_loop_ok ctx params packet recipient sb l bal s b e s' :
  Forall (λ c, c.2 ≠ 0) l →
  recover_loop (C := C) ctx params packet recipient sb l bal s = (Ok (b, e), s') →
  same_modules s s' ∧
  (e = None → recipient ≠ escrow_address (DestinationPort packet) (DestinationChannel packet) →
   ∀ a d, a ≠ escrow_address (DestinationPort packet) (DestinationChannel packet) →
     GetBalance (C := C) (world_of s') a d = GetBalance (C := C) (world_of s) a d
       - if decide (a = recipient) then recovered_amount (world_of s) packet l d else 0).
Proof.
  intros Hpos. revert bal s. induction Hpos as [|[d0 amt] l Hne Hpos IH]; intros bal s Hrun; cbn [recover_loop] in Hrun.
  { injection Hrun as <- <- <-. split; [done|]. intros _ _ a d _. unfold recovered_amount. simpl. case_decide; lia. }
  apply bind_ok in Hrun as ([b1 e1] & s1 & Hc & Hrun). apply recover_coin_ok in Hc as [Hs1 Hsent]; [|done].
  destruct e1 as [e1|]; [by injection Hrun as <- <- <-|]. destruct (Hsent eq_refl) as (_ & Htr & Hb1).
  apply IH in Hrun as [Hs2 Hb2]. split.
  { destruct Hs1 as (?&?&?), Hs2 as (?&?&?). repeat split; congruence. }
  intros -> Hesc a d Ha. rewrite Hb2, Hb1 by done. unfold recovered_amount. simpl.
  rewrite (sumZ_ext _ (λ c, if decide (d = c.1) then (if recoverable (world_of s) packet c.1 then c.2 else 0) else 0)).
  2: { intros c _. by rewrite (recoverable_same _ _ _ _ Htr). }
  repeat case_decide; naive_solver lia.
Qed.

Lemma recovered_amount_unique x packet l d v :
  NoDup l.*1 → (d, v) ∈ l → recovered_amount x packet l d = if recoverable x packet d then v else 0.
Proof.
  unfold recovered_amount. induction l as [|[k w] l IH]; intros Hnd Hin; [by apply not_elem_of_nil in Hin|].
  rewrite fmap_cons, NoDup_cons in Hnd. destruct Hnd as [Hnew Hnd]. simpl in *. apply elem_of_cons in Hin as [[= <- <-]|Hin].
  - rewrite decide_True by done. rewrite (sumZ_ext _ (λ _, 0)).
    + assert (sumZ (λ _, 0) l = 0) as -> by (clear; induction l; simpl; lia). lia.
    + intros [k w] Hk. simpl. rewrite decide_False; [done|]. intros ->. apply Hnew.
      by apply list_elem_of_fmap_2 with (f := fst) in Hk.
  - rewrite IH by done. rewrite decide_False; [lia|]. intros ->. apply Hnew.
    by apply list_elem_of_fmap_2 with (f := fst) in Hin.
Qed.

Lemma recovered_amount_out x packet l d : d ∉ l.*1 → recovered_amount x packet l d = 0.
Proof.
  unfold recovered_amount. induction l as [|[k w] l IH]; [done|]. rewrite fmap_cons, not_elem_of_cons. intros [Hne Hl].
  simpl in *. rewrite decide_False, IH by done. done.
Qed.

(** Recovery takes the whole balance of every recoverable coin. *)
Lemma recovered_all (x : X) packet recipient d :
  recovered_amount x packet (AccountBalances (C := C) x recipient) d =
  if recoverable x packet d then GetBalance (C := C) x recipient d else 0.
Proof.
  destruct (account_balances_sorted (C := C) x recipient) as [_ Hnd].
  destruct (decide (d ∈ (AccountBalances (C := C) x recipient).*1)) as [Hin|Hout].
  - apply list_elem_of_fmap in Hin as ([d' v] & -> & Hin). simpl. rewrite (recovered_amount_unique _ _ _ _ v) by done.
    apply account_balances_spec in Hin as [-> _]. done.
  - rewrite recovered_amount_out by done. destruct (recoverable x packet d); [|done].
    pose proof (valid_nonneg _ d (all_balances_valid (C := C) x recipient)) as Hge. rewrite all_balances_spec in Hge.
    destruct (decide (0 < GetBalance (C := C) x recipient d)) as [Hp|]; [|lia]. exfalso. apply Hout.
    apply (list_elem_of_fmap_2' fst _ (d, GetBalance (C := C) x recipient d)); [by apply account_balances_spec|done].
Qed.

(** The account whose funds a packet recovers. *)
Definition recovering (packet : Packet) s : option string :=
  let claimsParams := c_params (r_claims s) in
  if EnableRecovery (r_params s) && IsAuthorizedChannel claimsParams (DestinationChannel packet)
     && negb (IsEVMChannel claimsParams (DestinationChannel packet))
  then match GetTransferSenderRecipient packet with
       | Ok (sender, recipient, _, _) =>
           if negb (BlockedAddr (C := C) (X := X) sender || BlockedAddr (C := C) (X := X) recipient)
              && needs_recovery (C := C) (world_of s) sender recipient
           then Some recipient else None
       | _ => None
       end
  else None.

Lemma recovery_run ctx packet ack s o s' :
  recovery_OnRecvPacket (C := C) ctx packet ack s = (o, s') →
  match recovering packet s with
  | None => s' = s ∧ (o = Ok ack ∨ (∃ e, o = Ok (AckError e)) ∨ GetTransferSenderRecipient packet = Panic)
  | Some recipient => ∃ sb o1, recover_loop (C := C) ctx (r_params s) packet recipient sb
        (AccountBalances (C := C) (world_of s) recipient) coins_empty s = (o1, s') ∧
      o = match o1 with
          | Ok (_, Some e) => Ok (AckError e) | Ok (_, None) => Ok ack | Err e => Err e | Panic => Panic end
  end.
Proof.
  intros Hrun. unfold recovering. unfold recovery_OnRecvPacket, recovery_GetParams, claims_GetParams in Hrun.
  unfold bind at 1 2, gets at 1 2 in Hrun.
  destruct (EnableRecovery (r_params s)); [|injection Hrun as <- <-; simpl; by eauto].
  destruct (IsAuthorizedChannel _ _); [|injection Hrun as <- <-; simpl; by eauto].
  destruct (IsEVMChannel _ _); [injection Hrun as <- <-; simpl; by eauto|]. simpl in *.
  destruct (GetTransferSenderRecipient packet) as [[[[sender recipient] sb] rb]|e|]; [|injection Hrun as <- <-; simpl; by eauto..].
  destruct (_ || _); [injection Hrun as <- <-; simpl; by eauto|]. simpl in *. unfold bind at 1, gets in Hrun.
  destruct (needs_recovery _ sender recipient); [|injection Hrun as <- <-; simpl; by eauto]. simpl in Hrun.
  unfold bind in Hrun. exists sb. destruct (recover_loop _ _ _ _ _ _ _ s) as [[[b [e|]]|e|] s1];
    [injection Hrun as <- <-; simpl; by eauto| |injection Hrun as <- <-; simpl; by eauto..].
  assert (Hr : (Ok ack, s1) = (o, s')) by (by destruct (coins_is_zero b)). injection Hr as <- <-. eauto.
Qed.

(** Addresses are read or refused, without a panic. *)
Lemma sender_recipient_no_panic packet : GetTransferSenderRecipient packet ≠ Panic.
Proof.
  unfold GetTransferSenderRecipient. destruct (decode_packet _) as [f|]; [|done].
  assert (Hno : ∀ a, GetEvmosAddressFromBech32 a ≠ Panic).
  { intros a. unfold GetEvmosAddressFromBech32. destruct (ocheck _ _) eqn:E; simpl; [|done|].
    - destruct (get_from_bech32 _ _); [|done]. by destruct (verify_address_format _).
    - unfold ocheck in E. by destruct (String.eqb _ _). }
  pose proof (Hno (pd_Sender f)). pose proof (Hno (pd_Receiver f)).
  destruct (GetEvmosAddressFromBech32 (pd_Sender f)); [|done..]. simpl.
  by destruct (GetEvmosAddressFromBech32 (pd_Receiver f)).
Qed.

(** A success is the acknowledgement of the application below. *)
Lemma recovery_answer ctx packet ack s ack' s' :
  recovery_OnRecvPacket (C := C) ctx packet ack s = (Ok ack', s') → ack_success ack' = true → ack' = ack.
Proof.
  intros Hrun Hs. apply recovery_run in Hrun. destruct (recovering packet s) as [recipient|].
  - destruct Hrun as (sb & o1 & _ & Ho). destruct o1 as [[b [e|]]|e|]; by simplify_eq.
  - destruct Hrun as [_ [[= ->]|[[e [= ->]]|Hp]]]; [done|done|]. by apply sender_recipient_no_panic in Hp.
Qed.

(** C16: what the callback does with a packet.  When nothing is to be recovered the
    state is unchanged; otherwise parameters and claims records are.  If the answer
    is a success it is the acknowledgement of the application below, and the account
    keeps exactly the vouchers that came through other channels: the whole balance of
    every other coin is sent back, and no other account but the escrow is touched. *)
Theorem recovery_effect ctx packet ack s ack' s' :
  ack_success ack = true → recovery_OnRecvPacket (C := C) ctx packet ack s = (Ok ack', s') →
  (ack_success ack' = true → ack' = ack) ∧
  match recovering packet s with
  | None => s' = s
  | Some recipient =>
      same_modules s s' ∧
      (ack_success ack' = true →
       recipient ≠ escrow_address (DestinationPort packet) (DestinationChannel packet) →
       (∀ d, GetBalance (C := C) (world_of s') recipient d =
             if recoverable (world_of s) packet d then 0 else GetBalance (C := C) (world_of s) recipient d) ∧
       ∀ a d, a ≠ recipient → a ≠ escrow_address (DestinationPort packet) (DestinationChannel packet) →
              GetBalance (C := C) (world_of s') a d = GetBalance (C := C) (world_of s) a d)
  end.
Proof.
  intros Hack Hrun. split; [by eapply recovery_answer|]. apply recovery_run in Hrun.
  destruct (recovering packet s) as [recipient|].
  2: { by destruct Hrun as [-> _]. }
  destruct Hrun as (sb & o1 & Hloop & Ho). destruct o1 as [[b e]|e|]; [|done..].
  apply recover_loop_ok in Hloop as [Hsame Hbal].
  2: { apply Forall_forall. intros [d v] Hin. apply account_balances_spec in Hin as [_ ?]. simpl. lia. }
  destruct e as [e|]; injection Ho as ->; [done|]. split; [done|]. intros _ Hesc.
  specialize (Hbal eq_refl Hesc). split.
  - intros d. rewrite Hbal, decide_True, recovered_all by done. destruct (recoverable _ _ _); lia.
  - intros a d Hne Ha. rewrite Hbal, decide_False by done. lia.
Qed.

(** ** The stack *)

Lemma or_error_ack_cases {A} (m : M (claims_state X) A) k ack cs r cs' :
  (∀ a cs1, k a cs1 = (Ok r, cs') → r = ack ∨ ∃ e, r = AckError e) →
  or_error_ack m k cs = (Ok r, cs') → r = ack ∨ ∃ e, r = AckError e.
Proof.
  intros Hk Hrun. unfold or_error_ack in Hrun. apply bind_ok in Hrun as (t & cs1 & _ & Hrun).
  destruct t as [a|e]; [by eapply Hk|]. injection Hrun as <- <-. eauto.
Qed.

(** The claims callback answers with the acknowledgement it got or with an error. *)
Lemma claims_recv_ack ctx packet ack (cs cs' : claims_state X) ack' :
  claims_OnRecvPacket (D := D) (C := C) ctx packet ack cs = (Ok ack', cs') → ack' = ack ∨ ∃ e, ack' = AckError e.
Proof.
  intros Hrun. unfold claims_OnRecvPacket in Hrun. apply bind_ok in Hrun as (p & s1 & _ & Hrun).
  destruct (negb _); [injection Hrun as <- <-; auto|].
  destruct (GetTransferSenderRecipient packet) as [[[[sender recipient] sb] rb]|e|]; [|injection Hrun as <- <-; eauto|done].
  destruct (_ || _); [injection Hrun as <- <-; eauto|]. apply bind_ok in Hrun as (sr & s2 & _ & Hrun).
  destruct (match sr with Some r => _ | None => _ end); [injection Hrun as <- <-; auto|].
  destruct (String.eqb sender recipient && _).
  { destruct sr as [r|]; [destruct (negb (HasClaimedAny r))|]; injection Hrun as <- <-; eauto. }
  destruct (negb (IsAuthorizedChannel _ _)); [injection Hrun as <- <-; auto|].
  apply bind_ok in Hrun as (rr & s3 & _ & Hrun). destruct (GetTransferAmount packet) as [amt|e|]; [|injection Hrun as <- <-; eauto|done].
  unfold recv_claims in Hrun. destruct sr as [sr|], rr as [rr|].
  - destruct (_ && _); [|destruct (_ && _); [|injection Hrun as <- <-; auto]];
      (eapply or_error_ack_cases; [|exact Hrun]); intros a cs1 Hk; cbv beta in Hk; inv_ok; auto.
  - destruct (String.eqb amt _); [|injection Hrun as <- <-; auto]. eapply or_error_ack_cases; [|exact Hrun].
    intros a cs1 Hk. cbv beta in Hk. destruct (a =? 0); inv_ok; auto.
  - eapply or_error_ack_cases; [|exact Hrun]. intros a cs1 Hk. cbv beta in Hk. inv_ok. auto.
  - injection Hrun as <- <-. auto.
Qed.

(** The transfer stack.  A packet goes to the transfer application first; its
    error is returned at once and neither claims nor recovery sees the packet.  If
    the stack answers with a success, then the answer is that of the transfer
    application, and claims and after it recovery have accepted the packet. *)
Lemma transfer_stack_ack (transfer : IBCModule X) ctx packet relayer s ack' s' :
  OnRecvPacket (transferStack (C := C) (D := D) transfer) ctx packet relayer s = (Ok ack', s') →
  ∃ ack x1, OnRecvPacket transfer ctx packet relayer (world_of s) = (Ok ack, x1) ∧
    let cs := mkClaims (c_params (r_claims s)) (c_records (r_claims s)) x1 in
    (ack_success ack = false → ack' = ack ∧ s' = mkRec (r_params s) cs) ∧
    (ack_success ack' = true → ack' = ack ∧
     ∃ cs1, claims_OnRecvPacket (D := D) (C := C) ctx packet ack cs = (Ok ack, cs1) ∧
            recovery_OnRecvPacket (C := C) ctx packet ack (mkRec (r_params s) cs1) = (Ok ack, s')).
Proof.
  intros Hrun. simpl in Hrun. apply bind_ok in Hrun as (ack2 & s2 & Hc & Hrun).
  apply zoom_ok in Hc as (cs2 & Hc & ->). unfold claims_mw_OnRecvPacket in Hc.
  apply bind_ok in Hc as (ack & cs & Ht & Hc). apply zoom_ok in Ht as (x1 & Ht & ->).
  exists ack, x1. split; [exact Ht|]. cbv zeta. destruct (ack_success ack) eqn:Ea; simpl in Hc.
  - split; [done|]. intros Hs. destruct (claims_recv_ack _ _ _ _ _ _ Hc) as [->|[e ->]].
    2: { simpl in Hrun. by injection Hrun as <- <-. }
    rewrite Ea in Hrun. simpl in Hrun. pose proof (recovery_answer _ _ _ _ _ _ Hrun Hs) as ->. eauto.
  - injection Hc as <- <-. rewrite Ea in Hrun. simpl in Hrun. injection Hrun as <- <-. split; [done|]. congruence.
Qed.
End recovery.

(** ** Witnesses *)

(** Denomination traces and channels of a small network; a transfer escrows coins
    of this chain and burns vouchers. *)
Definition escrow (port channel : string) : string := String.append "escrow/" (String.append port channel).

Definition w_transfer (port channel : string) (coin : string * Z) (f : string) : M world unit := λ x,
  let c : coins := {[ coin.1 := coin.2 ]} in
  if String.prefix "ibc/" coin.1
  then if gcoins_valid c && gcoins_lte c (w_all x f) then (Ok tt, w_add_supply (w_debit x f c) (-1) c)
       else (Err (ErrExternal "insufficient funds"), x)
  else w_send f (escrow port channel) c x.

#[global] Instance w_ibc : IbcTransfer world := {
  ParseHexHash s := if String.eqb s EmptyString then None else Some s;
  GetDenomTrace _ h := if String.eqb h "OSMO" then Some ("transfer/channel-0"%string, "uosmo"%string)
                       else if String.eqb h "ATOM" then Some ("transfer/channel-3"%string, "uatom"%string) else None;
  GetChannel _ p c := String.eqb p "transfer";
  SendTransfer p c coin f r t := w_transfer p c coin f;
  port_id_valid _ := true;
  host_channel_valid _ := true;
  escrow_address := escrow;
}.

#[global] Instance w_ibc_laws : IbcTransferLaws coins world.
Proof.
  constructor; simpl; [|done]. intros port channel d amt f r t x x' Ht Hf a d' Ha. unfold w_transfer in Ht. simpl in Ht.
  assert (Hd : at_addr a f (gcoins_amount {[ d := amt ]} d') = if decide (a = f ∧ d' = d) then amt else 0).
  { rewrite gcoins_singleton. unfold at_addr. repeat case_decide; naive_solver. }
  destruct (String.prefix "ibc/" d).
  - destruct (gcoins_valid _) eqn:Hval; simpl in Ht; [|done]. destruct (gcoins_lte _ _) eqn:Hle; [|done]. injection Ht as <-.
    change (w_all (w_add_supply (w_debit x f {[ d := amt ]}) (-1) {[ d := amt ]}) a) with (w_all (w_debit x f {[ d := amt ]}) a).
    by rewrite w_debit_spec, Hd by done.
  - apply w_send_transferred in Ht. specialize (Ht a d'). simpl in Ht. rewrite Ht, Hd. unfold at_addr.
    rewrite decide_False by done. lia.
Qed.

(** Kim's Cosmos key cannot be used here; she holds a voucher of this channel, a
    voucher of another one, and coins of this chain. *)
Definition rec_world : world :=
  mkWorld {[ "kim"%string := {[ "aevmos"%string := 7; "ibc/OSMO"%string := 20; "ibc/ATOM"%string := 30 ]} ]} ∅
    {[ "kim"%string := PlainAcc "kim" ]} ∅ ∅ no_evm.
Definition rec_start : recovery_state world :=
  mkRec recovery_DefaultParams (mkClaims claims_DefaultParams ∅ rec_world).
Definition rec_ctx : Ctx := mkCtx (from_unix 5000) 9 "evmos_9001-2".
Definition kim_packet : Packet :=
  mkPacket "transfer" "channel-9" "transfer" "channel-0" "uosmo|20|osmo1kim|evmos1kim".

Definition rec_done : recovery_state world := (recovery_OnRecvPacket (C := coins) rec_ctx kim_packet (AckResult "") rec_start).2.

Lemma recovery_effect_witness :
  recovering (C := coins) kim_packet rec_start = Some "kim"%string ∧
  GetBalance (C := coins) (c_ext (r_claims rec_done)) "kim" "aevmos" = 0 ∧
  GetBalance (C := coins) (c_ext (r_claims rec_done)) "kim" "ibc/ATOM" = 30.
Proof.
  assert (Er : recovering (C := coins) kim_packet rec_start = Some "kim"%string) by (vm_compute; reflexivity).
  split; [exact Er|].
  destruct (recovery_effect (C := coins) rec_ctx kim_packet (AckResult "") rec_start (AckResult "") rec_done) as [_ He].
  - reflexivity.
  - vm_compute. reflexivity.
  - rewrite Er in He. destruct He as [_ He]. destruct (He eq_refl) as [Hb _]; [vm_compute; discriminate|].
    split; rewrite Hb; vm_compute; reflexivity.
Defined.

(** A transfer application that accepts every packet. *)
Definition accepting : IBCModule world :=
  mkIBCModule (λ _ _ _ _, ret tt) (λ _ _ _ v, ret v) (λ _ _ _ _, ret tt) (λ _ _, ret tt) (λ _ _, ret tt) (λ _ _, ret tt)
    (λ _ _ _, ret (AckResult "ok")) (λ _ _ _ _, ret tt) (λ _ _ _, ret tt).
Definition stack_done := OnRecvPacket (transferStack (C := coins) (D := Z) accepting) rec_ctx kim_packet "relayer" rec_start.

Lemma transfer_stack_ack_witness :
  stack_done.1 = Ok (AckResult "ok") ∧
  ∃ cs1, recovery_OnRecvPacket (C := coins) rec_ctx kim_packet (AckResult "ok") (mkRec recovery_DefaultParams cs1)
         = (Ok (AckResult "ok"), stack_done.2).
Proof.
  split; [vm_compute; reflexivity|].
  destruct (transfer_stack_ack (C := coins) (D := Z) accepting rec_ctx kim_packet "relayer" rec_start (AckResult "ok") stack_done.2)
    as (ack & x1 & Ht & _ & Hok); [vm_compute; reflexivity|].
  destruct (Hok eq_refl) as [Ea [cs1 [_ Hr]]]. rewrite <- Ea in Hr. exists cs1. exact Hr.
Defined.
