(* ===== verification/ClaimsSteps.v ===== *)
(** * The airdrop as a transition system

    The operations of the claims module as steps, the abstract airdrop on the records
    alone, and that every operation, also one that fails half-way behind an error that is
    swallowed, is at most one step of it.  The transfer stack of the application, with
    claims in the middle, only takes such steps. *)

From S2P Require Import Prelude Frame Sdk Dec EvmosUtils Keepers Ibc Claims ClaimsProps Recovery RecoveryProps.

(** ** The abstract airdrop *)

(** An open action is claimed; a packet moves or merges records; the airdrop ends. *)
Inductive airdrop_step : gmap string ClaimsRecord → gmap string ClaimsRecord → Prop :=
  | ad_claim m k r a :
      m !! k = Some r → valid_action a → HasClaimedAction r a = false →
      airdrop_step m (<[k := MarkClaimed a r]> m)
  | ad_packet sender recipient m m' : recv_effect sender recipient m m' → airdrop_step m m'
  | ad_end m : airdrop_step m ∅.

Definition records_ok (m : gmap string ClaimsRecord) : Prop := ∀ k cr, m !! k = Some cr → record_ok cr.

Lemma recv_effect_records sender recipient m m' :
  recv_effect sender recipient m m' → records_ok m → records_ok m'.
Proof.
  assert (Hins : ∀ m k cr, record_ok cr → records_ok m → records_ok (<[k := cr]> m)).
  { intros m0 k cr Hcr Hm k' cr' Hk. apply lookup_insert_Some in Hk as [[_ <-]|[_ Hk]]; [done|by eapply Hm]. }
  assert (Hdel : ∀ m k, records_ok m → records_ok (delete k m)).
  { intros m0 k Hm k' cr' Hk. apply lookup_delete_Some in Hk as [_ Hk]. by eapply Hm. }
  intros [m0|m0 r Hr|m0 r Hs Hr|m0 rs rr merged Hs Hr Hne Ha Hl _ _] Hm; [done|..].
  - by apply Hins; [eapply mark_ok, Hm|].
  - apply Hdel, Hins; [eapply mark_ok, Hm, Hs|done].
  - apply Hdel, Hins; [|done]. destruct (Hm _ _ Hs), (Hm _ _ Hr). split; [lia|done].
Qed.

(** Records stay well-formed, and what is allocated to them never grows. *)
Lemma airdrop_step_ok m m' :
  airdrop_step m m' → records_ok m → records_ok m' ∧ allocations m' ≤ allocations m.
Proof.
  intros [m0 k r a Hk Ha Hh|sender recipient m0 m0' He|m0] Hm.
  - split; [|unfold allocations; rewrite (map_sum_insert _ _ _ _ _ Hk), mark_amount; lia].
    intros k' cr'. rewrite lookup_insert_Some. intros [[_ <-]|[_ Hk']]; [eapply mark_ok, Hm, Hk|by eapply Hm].
  - split; [by eapply recv_effect_records|]. apply recv_effect_allocations in He. lia.
  - split; [intros k cr; by rewrite lookup_empty|]. unfold allocations. rewrite map_sum_empty.
    apply map_sum_nonneg. intros k cr Hk. destruct (Hm _ _ Hk). lia.
Qed.

Lemma airdrop_steps_ok m m' :
  rtc airdrop_step m m' → records_ok m → records_ok m' ∧ allocations m' ≤ allocations m.
Proof.
  induction 1 as [m|m m1 m2 Hst _ IH]; intros Hm; [done|].
  destruct (airdrop_step_ok _ _ Hst Hm) as [H1' Hle1], (IH (proj1 (airdrop_step_ok _ _ Hst Hm))). split; [done|lia].
Qed.

(** ** The operations of the module *)

Section steps.
Context {D C X : Type} `{SdkDecLaws D, SdkCoinsLaws C}.
Context `{!AccountKeeper C X, !BankKeeper C X, !DistrKeeper C X, !BankLaws C X, !DistrLaws C X}.
Context `{SdkAddress, Bech32, IbcCodec} (channel_id_valid : string → bool).
Implicit Types s : claims_state X.

Inductive claims_step : claims_state X → claims_state X → Prop :=
  | cl_hook ctx addr action s s' :
      action ∈ [ActionVote; ActionDelegate; ActionEVM] →
      claim_hook (D := D) (C := C) ctx addr action s = (Ok tt, s') → claims_step s s'
  | cl_ack ctx packet acknowledgement s s' :
      claims_OnAcknowledgementPacket (D := D) (C := C) ctx packet acknowledgement s = (Ok tt, s') → claims_step s s'
  | cl_recv ctx packet ack s ack' s' :
      ack_success ack = true →
      claims_OnRecvPacket (D := D) (C := C) ctx packet ack s = (Ok ack', s') → claims_step s s'
  | cl_end ctx s s' : EndBlocker (C := C) channel_id_valid ctx s = (Ok tt, s') → claims_step s s'
  | cl_params params s s' : claims_SetParams (C := C) channel_id_valid params s = (Ok tt, s') → claims_step s s'
  | cl_other x s : claims_step s (mkClaims (c_params s) (c_records s) x).

(** A claim that fails has not written the record. *)
Lemma cext_same_records {A} (m : M X A) s : framed (same_on c_records) s (cext m).
Proof. intros o s' Hm. apply zoom_run in Hm as (x & _ & ->). done. Qed.
#[local] Hint Resolve cext_same_records : frame.

Lemma claim_err_records ctx addr cr action params s e s' :
  ClaimCoinsForAction (D := D) (C := C) ctx addr cr action params s = (Err e, s') → c_records s' = c_records s.
Proof.
  unfold ClaimCoinsForAction. destruct (_ || _); [by intros [= _ <-]|].
  destruct (negb (IsClaimsActive _ _)); [done|]. destruct (HasClaimedAction _ _); [done|].
  unfold bind at 1, lift. destruct (GetClaimableAmountForAction _ _ _ _) as [[c r]|e1|]; [|by intros [= _ <-]|done].
  destruct (c =? 0); [done|]. unfold bind at 1.
  destruct (cext _ s) as [[[]|e1|] s1] eqn:E1; apply cext_same_records in E1; [|by intros [= _ <-]|done].
  unfold bind at 1. destruct (negb (r =? 0)); [|done].
  destruct (cext _ s1) as [[[]|e2|] s2] eqn:E2; apply cext_same_records in E2; [done| |done].
  intros [= _ <-]. unfold same_on in *. congruence.
Qed.

Lemma claim_records ctx addr cr action s c s' :
  0 ≤ action → c_records s !! addr = Some cr →
  ClaimCoinsForAction (D := D) (C := C) ctx addr cr action (c_params s) s = (Ok c, s') →
  rtc airdrop_step (c_records s) (c_records s').
Proof.
  intros Hpos Hk Hc. apply claim_coins_ok in Hc as [[_ ->]|(_ & Ha & _ & Hh & r & _ & _ & -> & _)]; [done| |done].
  apply rtc_once. by apply ad_claim.
Qed.

Lemma claim_hook_records ctx addr action s s' :
  0 ≤ action → claim_hook (D := D) (C := C) ctx addr action s = (Ok tt, s') →
  rtc airdrop_step (c_records s) (c_records s').
Proof.
  intros Hpos Hrun. unfold claim_hook, claims_GetParams, GetClaimsRecord in Hrun.
  apply bind_ok in Hrun as (p & s0 & Hg & Hrun). unfold gets in Hg. injection Hg as <- <-.
  apply bind_ok in Hrun as (o & s0 & Hg & Hrun). unfold gets in Hg. injection Hg as <- <-.
  destruct (c_records s !! addr) as [cr|] eqn:Hk; [|by inv_ok].
  apply bind_ok in Hrun as (r & s1 & Ht & Hrun). inv_ok.
  apply try_ok in Ht as [(c & -> & Hc)|(e & -> & He)]; [by eapply claim_records|].
  by rewrite (claim_err_records _ _ _ _ _ _ _ _ He).
Qed.

Lemma ack_records ctx packet acknowledgement s s' :
  claims_OnAcknowledgementPacket (D := D) (C := C) ctx packet acknowledgement s = (Ok tt, s') →
  rtc airdrop_step (c_records s) (c_records s').
Proof.
  intros Hrun. unfold claims_OnAcknowledgementPacket, claims_GetParams, GetClaimsRecord in Hrun.
  apply bind_ok in Hrun as (p & s0 & Hg & Hrun). unfold gets in Hg. injection Hg as <- <-.
  destruct (negb (IsClaimsActive _ _)); [by inv_ok|]. destruct (decode_ack _) as [ack|]; [|done].
  destruct (negb (ack_success ack)); [by inv_ok|].
  apply bind_ok in Hrun as ([[[sender r1] r2] r3] & s0 & Hl & Hrun). apply lift_ok in Hl as [_ ->].
  apply bind_ok in Hrun as (o & s0 & Hg & Hrun). unfold gets in Hg. injection Hg as <- <-.
  destruct (c_records s !! sender) as [cr|] eqn:Hk; [|by inv_ok].
  apply bind_ok in Hrun as (c & s1 & Hc & Hrun). inv_ok. eapply claim_records; [|exact Hk|exact Hc]. done.
Qed.

Lemma or_error_ack_split {A} (m : M (claims_state X) A) k s a s' :
  or_error_ack m k s = (Ok a, s') →
  (∃ r s1, m s = (Ok r, s1) ∧ k r s1 = (Ok a, s')) ∨ (∃ e, m s = (Err e, s')).
Proof.
  unfold or_error_ack. intros Hrun. apply bind_ok in Hrun as (r & s1 & Ht & Hrun).
  apply try_ok in Ht as [(b & -> & Hm)|(e & -> & Hm)]; [by eauto|]. inv_ok. eauto.
Qed.

Lemma merge_err_records ctx recipient rs rr params s e s' :
  MergeClaimsRecords (D := D) (C := C) ctx recipient rs rr params s = (Err e, s') → c_records s' = c_records s.
Proof.
  assert (Hf : framed (same_on c_records) s (MergeClaimsRecords (D := D) (C := C) ctx recipient rs rr params))
    by (unfold MergeClaimsRecords; frame).
  intros Hrun. exact (Hf _ _ Hrun).
Qed.

(** The recipient claims, or its claim fails. *)
Lemma recv_claim_records ctx sender recipient rr s ack ack' s' :
  c_records s !! recipient = Some rr →
  or_error_ack (ClaimCoinsForAction (D := D) (C := C) ctx recipient rr ActionIBCTransfer (c_params s))
    (λ _, ret ack) s = (Ok ack', s') → recv_effect sender recipient (c_records s) (c_records s').
Proof.
  intros Hr Hrun. apply or_error_ack_split in Hrun as [(c & s1 & Hc & Hrun)|[e He]].
  - inv_ok. by eapply (recv_claim_effect ctx sender recipient rr s c s').
  - rewrite (claim_err_records _ _ _ _ _ _ _ _ He). constructor.
Qed.

Lemma recv_claims_records ctx sender recipient s fromEVM trigger ack ack' s' :
  records_ok (c_records s) → ack_success ack = true →
  recv_claims (D := D) (C := C) ctx (c_params s) sender recipient (c_records s !! sender)
    (c_records s !! recipient) (String.eqb sender recipient) fromEVM trigger ack s = (Ok ack', s') →
  recv_effect sender recipient (c_records s) (c_records s').
Proof.
  intros Hok Hack Hrun. destruct (ack_success ack') eqn:Es.
  { eapply (recv_claims_ok ctx _ sender recipient s) in Hrun as (_ & _ & He); try done.
    intros k cr Hk. by apply (Hok _ _ Hk). }
  unfold recv_claims in Hrun.
  destruct (c_records s !! sender) as [rs|] eqn:Hs, (c_records s !! recipient) as [rr|] eqn:Hr;
    [|destruct trigger; [|inv_ok; constructor]|by eapply recv_claim_records|inv_ok; constructor].
  - destruct (_ && _); [|destruct (_ && _); [by eapply recv_claim_records|inv_ok; constructor]].
    apply or_error_ack_split in Hrun as [(m & s1 & Hm & Hrun)|[e He]]; [inv_ok; congruence|].
    rewrite (merge_err_records _ _ _ _ _ _ _ _ He). constructor.
  - apply or_error_ack_split in Hrun as [(c & s1 & Hc & Hrun)|[e He]].
    + destruct (c =? 0); inv_ok; congruence.
    + rewrite (claim_err_records _ _ _ _ _ _ _ _ He). constructor.
Qed.

Lemma recv_records ctx packet ack s ack' s' :
  records_ok (c_records s) → ack_success ack = true →
  claims_OnRecvPacket (D := D) (C := C) ctx packet ack s = (Ok ack', s') →
  rtc airdrop_step (c_records s) (c_records s').
Proof.
  intros Hok Hack Hrun. unfold claims_OnRecvPacket, claims_GetParams, GetClaimsRecord in Hrun.
  apply bind_ok in Hrun as (p & s0 & Hg & Hrun). unfold gets in Hg. injection Hg as <- <-.
  destruct (negb (IsClaimsActive _ _)); [by inv_ok|].
  destruct (GetTransferSenderRecipient packet) as [[[[sender recipient] b1] b2]|e|]; [|by inv_ok|done].
  destruct (_ || _); [by inv_ok|].
  apply bind_ok in Hrun as (o & s0 & Hg & Hrun). unfold gets in Hg. injection Hg as <- <-.
  destruct (match c_records s !! sender with Some _ => _ | None => _ end); [by inv_ok|].
  destruct (String.eqb sender recipient && negb (IsEVMChannel _ _)).
  { destruct (c_records s !! sender) as [r|]; [destruct (negb (HasClaimedAny r))|]; by inv_ok. }
  destruct (negb (IsAuthorizedChannel _ _)); [by inv_ok|].
  apply bind_ok in Hrun as (o & s0 & Hg & Hrun). unfold gets in Hg. injection Hg as <- <-.
  destruct (GetTransferAmount packet) as [amt|e|]; [|by inv_ok|done].
  apply rtc_once, (ad_packet sender recipient). by eapply recv_claims_records.
Qed.

Lemma end_records ctx s s' :
  EndBlocker (C := C) channel_id_valid ctx s = (Ok tt, s') → c_records s' = c_records s ∨ c_records s' = ∅.
Proof.
  intros Hrun. unfold EndBlocker, claims_GetParams in Hrun.
  apply bind_ok in Hrun as (p & s0 & Hg & Hrun). unfold gets in Hg. injection Hg as <- <-.
  destruct (negb _); [inv_ok; by left|]. destruct (_ <=? _); [inv_ok; by left|]. right. apply must_ok in Hrun.
  unfold EndAirdrop, ClawbackEmptyAccounts, IterateClaimsRecords in Hrun.
  apply bind_ok in Hrun as ([] & s1 & _ & Hrun). apply bind_ok in Hrun as ([] & s2 & Hcl & Hset).
  apply bind_ok in Hcl as (l & s0 & Hg & Hcl). unfold gets in Hg. injection Hg as <- <-.
  apply bind_ok in Hcl as ([] & s3 & Hit & Hdel). apply delete_all_records in Hdel as (_ & _ & Hk).
  assert (Hf : framed (same_on c_records) s1 (iterate (kv_iter (c_records s1)) (clawback_account (C := C) (ClaimsDenom (c_params s)))))
    by (unfold clawback_account; frame).
  pose proof (Hf _ _ Hit) as E3. unfold same_on in E3.
  unfold claims_SetParams in Hset. destruct (is_ok _); [|done]. injection Hset as <-. simpl.
  apply map_eq. intros k. rewrite Hk, E3, lookup_empty. case_decide as Hd; [done|].
  destruct (c_records s1 !! k) as [cr|] eqn:Ek; [|done].
  exfalso. apply Hd, list_elem_of_fmap. exists (k, cr). split; [done|]. by apply elem_of_kv_iter.
Qed.

(** Every operation of the module takes at most one step of the airdrop. *)
Lemma claims_step_records s s' :
  claims_step s s' → records_ok (c_records s) → rtc airdrop_step (c_records s) (c_records s').
Proof.
  intros [ctx addr action s1 s2 Ha Hrun|ctx packet a s1 s2 Hrun|ctx packet ack s1 ack' s2 Hack Hrun|ctx s1 s2 Hrun
         |params s1 s2 Hrun|x s1] Hok; [| | | | |done].
  - eapply claim_hook_records; [|exact Hrun]. rewrite !elem_of_cons, elem_of_nil in Ha.
    unfold ActionVote, ActionDelegate, ActionEVM in Ha. naive_solver lia.
  - by eapply ack_records.
  - by eapply recv_records.
  - destruct (end_records _ _ _ Hrun) as [->| ->]; [done|]. apply rtc_once, ad_end.
  - unfold claims_SetParams in Hrun. destruct (is_ok _); by simplify_eq.
Qed.

Lemma claims_steps_records s s' :
  rtc claims_step s s' → records_ok (c_records s) →
  rtc airdrop_step (c_records s) (c_records s') ∧ records_ok (c_records s').
Proof.
  induction 1 as [s|s s1 s2 Hst _ IH]; intros Hok; [done|]. pose proof (claims_step_records _ _ Hst Hok) as Hs1.
  destruct (airdrop_steps_ok _ _ Hs1 Hok) as [Hok1 _]. destruct (IH Hok1) as [Hs2 Hok2].
  split; [by etransitivity|done].
Qed.
End steps.

(** ** The transfer stack *)

Section stack.
Context {D C X : Type} `{SdkDecLaws D, SdkCoinsLaws C}.
Context `{!AccountKeeper C X, !BankKeeper C X, !DistrKeeper C X, !BankLaws C X, !DistrLaws C X}.
Context `{SdkAddress, Bech32, IbcCodec, !AccountTypes X, !IbcTransfer X} (channel_id_valid : string → bool).
Context (transfer : IBCModule X).
Implicit Types s : recovery_state X.
Local Abbreviation steps := (rtc (claims_step (D := D) (C := C) (X := X) channel_id_valid)).
Local Abbreviation stack := (transferStack (C := C) (D := D) transfer).

Lemma ext_steps (cs : claims_state X) x : steps cs (mkClaims (c_params cs) (c_records cs) x).
Proof. apply rtc_once, cl_other. Qed.

(** Recovery acts on the foreign part only. *)
Definition ext_only : relation (recovery_state X) := λ s s',
  ∃ x, r_claims s' = mkClaims (c_params (r_claims s)) (c_records (r_claims s)) x.

#[local] Instance ext_only_preorder : PreOrder ext_only.
Proof.
  split; [intros [? []]; by eexists|]. intros ? ? ? [x1 E1] [x2 E2]. exists x2. by rewrite E2, E1.
Qed.

Lemma rext_only {A} (m : M X A) s : framed ext_only s (rext m).
Proof. intros o s' Hm. apply zoom_run in Hm as (cs & Hm & ->). apply zoom_run in Hm as (x & _ & ->). by exists x. Qed.
#[local] Hint Resolve rext_only : frame.

Lemma recover_loop_only ctx params packet recipient sb l b s :
  framed ext_only s (recover_loop (C := C) ctx params packet recipient sb l b).
Proof.
  revert b s. induction l as [|c l IH]; intros b s; simpl; [frame|].
  apply framed_bind; [apply _|unfold recover_coin; frame|]. intros [b1 [e|]] s1 _; [frame|apply IH].
Qed.
#[local] Hint Resolve recover_loop_only : frame.

Lemma recover_steps ctx packet ack s o s' :
  recovery_OnRecvPacket (C := C) ctx packet ack s = (o, s') → steps (r_claims s) (r_claims s').
Proof.
  assert (Hf : framed ext_only s (recovery_OnRecvPacket (C := C) ctx packet ack))
    by (unfold recovery_OnRecvPacket; frame).
  intros Hrun. destruct (Hf _ _ Hrun) as [x ->]. apply ext_steps.
Qed.

Lemma stack_recv_steps ctx packet relayer s ack s' :
  OnRecvPacket stack ctx packet relayer s = (Ok ack, s') → steps (r_claims s) (r_claims s').
Proof.
  intros Hrun. simpl in Hrun. apply bind_ok in Hrun as (ack2 & s2 & Hc & Hrun).
  apply zoom_ok in Hc as (cs2 & Hc & ->). unfold claims_mw_OnRecvPacket in Hc.
  apply bind_ok in Hc as (ack1 & cs & Ht & Hc). apply zoom_ok in Ht as (x1 & Ht & ->).
  assert (H12 : steps (r_claims s) cs2).
  { etransitivity; [apply (ext_steps _ x1)|]. destruct (ack_success ack1) eqn:Ea; simpl in Hc; [|by injection Hc as _ <-].
    apply rtc_once. by eapply cl_recv. }
  destruct (ack_success ack2); simpl in Hrun; [|by injection Hrun as _ <-].
  etransitivity; [exact H12|]. by apply recover_steps in Hrun.
Qed.

Lemma stack_ack_steps ctx packet acknowledgement relayer s s' :
  OnAcknowledgementPacket stack ctx packet acknowledgement relayer s = (Ok tt, s') → steps (r_claims s) (r_claims s').
Proof.
  intros Hrun. simpl in Hrun. apply zoom_ok in Hrun as (cs2 & Hc & ->).
  apply bind_ok in Hc as ([] & cs & Ht & Hc). apply zoom_ok in Ht as (x1 & Ht & ->). simpl.
  etransitivity; [apply (ext_steps _ x1)|]. apply rtc_once. by eapply cl_ack.
Qed.

Lemma stack_timeout_steps ctx packet relayer s s' :
  OnTimeoutPacket stack ctx packet relayer s = (Ok tt, s') → steps (r_claims s) (r_claims s').
Proof.
  intros Hrun. simpl in Hrun. apply zoom_ok in Hrun as (cs2 & Hc & ->). apply zoom_ok in Hc as (x1 & _ & ->).
  apply ext_steps.
Qed.
End stack.
