(* ===== verification/Params.v ===== *)
(** * Parameters: the pairs of [x/*/types/params.go] and the parameter store

    A module registers a pair for each of its parameters: the key, a pointer to the field,
    and a check on a value of any type.  The parameter store of the SDK runs the checks
    when a module writes all its parameters ([SetParamSet]) and when a proposal changes
    one of them ([Update]). *)

From S2P Require Import Prelude Sdk Dec SdkInstances Keepers KeeperInstances Epochs Inflation Ibc Claims Erc20Types Erc20 Evm Incentives Feesplit Recovery.

(** A value of type [interface{}], as far as the checks look at it.  The number of a decimal
    may be nil. *)
Inductive ParamValue (D : Type) : Type :=
  | PBool (b : bool)
  | PUint64 (n : Z)
  | PString (s : string)
  | PStrings (l : list string)
  | PTime (t : Z)
  | PDuration (n : Z)
  | PDec (d : option D)
  | PExponential (e : ExponentialCalculation (option D))
  | PDistribution (e : InflationDistribution (option D))
  | POther.
Arguments PBool {D} _.
Arguments PUint64 {D} _.
Arguments PString {D} _.
Arguments PStrings {D} _.
Arguments PTime {D} _.
Arguments PDuration {D} _.
Arguments PDec {D} _.
Arguments PExponential {D} _.
Arguments PDistribution {D} _.
Arguments POther {D}.

(** [paramtypes.NewParamSetPair(key, &p.field, validate)]: the field is read and written
    through the pointer; a value of another type cannot be written. *)
Record ParamSetPair (D P : Type) := NewParamSetPair {
  ps_Key : string;
  ps_Get : P → ParamValue D;
  ps_Set : ParamValue D → P → option P;
  ps_Validate : ParamValue D → outcome unit;
}.
Arguments NewParamSetPair {D P} _ _ _ _.
Arguments ps_Key {D P} _.
Arguments ps_Get {D P} _.
Arguments ps_Set {D P} _.
Arguments ps_Validate {D P} _.

(** ** The checks *)

Section validators.
Context {D C : Type} `{SdkDec D, SdkCoins C}.
Local Abbreviation value := (ParamValue D).

Definition invalid_type {A} : outcome A := Err (ErrMsg "invalid parameter type").

(** [validateBool], the same in every module. *)
Definition validateBool (i : value) : outcome unit := match i with PBool _ => Ok tt | _ => invalid_type end.
Definition validateUint64 (i : value) : outcome unit := match i with PUint64 _ => Ok tt | _ => invalid_type end.
(** [x/claims] *)
Definition validateStartDate (i : value) : outcome unit := match i with PTime _ => Ok tt | _ => invalid_type end.
Definition claims_check_duration (i : value) : outcome unit := match i with PDuration v => validateDuration v | _ => invalid_type end.
Definition claims_check_denom (i : value) : outcome unit :=
  match i with PString denom => ocheck (negb (denom_valid (C := C) denom)) (ErrExternal "invalid denom") | _ => invalid_type end.
Definition claims_check_channels (channel_id_valid : string → bool) (i : value) : outcome unit :=
  match i with PStrings channels => ValidateChannels channel_id_valid channels | _ => invalid_type end.
(** [x/recovery] *)
Definition recovery_check_duration (i : value) : outcome unit := match i with PDuration v => validate_timeout v | _ => invalid_type end.
(** [x/epochs/types/identifier.go] *)
Definition ValidateEpochIdentifierInterface (i : value) : outcome unit :=
  match i with PString s => ValidateEpochIdentifierString s | _ => invalid_type end.
(** [x/incentives] and [x/feesplit] test for nil *)
Definition check_dec (validate : D → outcome unit) (i : value) : outcome unit :=
  match i with
  | PDec None => Err (ErrMsg "cannot be nil")
  | PDec (Some dec) => validate dec
  | _ => invalid_type
  end.
(** [x/inflation] does not: a method of a nil decimal panics. *)
Definition infl_check_denom (i : value) : outcome unit := match i with PString v => validateMintDenom (C := C) v | _ => invalid_type end.
Definition not_nil (d : option D) (k : D → outcome unit) : outcome unit := match d with Some d => k d | None => Panic end.
Definition infl_check_exponential (i : value) : outcome unit :=
  match i with
  | PExponential v =>
      let? _ := not_nil (ec_A v) (λ a, ocheck (dec_is_negative a) (ErrMsg "initial value cannot be negative")) in
      let? _ := not_nil (ec_R v) (λ r, ocheck (dec_gt r (dec_new 1)) (ErrMsg "reduction factor cannot be greater than 1")) in
      let? _ := not_nil (ec_R v) (λ r, ocheck (dec_is_negative r) (ErrMsg "reduction factor cannot be negative")) in
      let? _ := not_nil (ec_C v) (λ c, ocheck (dec_is_negative c) (ErrMsg "long term inflation cannot be negative")) in
      let? _ := not_nil (BondingTarget v) (λ b, ocheck (dec_gt b (dec_new 1)) (ErrMsg "bonded target cannot be greater than 1")) in
      let? _ := not_nil (BondingTarget v) (λ b, ocheck (negb (dec_is_positive b)) (ErrMsg "bonded target cannot be zero or negative")) in
      not_nil (MaxVariance v) (λ m, ocheck (dec_is_negative m) (ErrMsg "max variance cannot be negative"))
  | _ => invalid_type
  end.
Definition infl_check_distribution (i : value) : outcome unit :=
  match i with
  | PDistribution v =>
      let? _ := not_nil (StakingRewards v) (λ s, ocheck (dec_is_negative s) (ErrMsg "staking distribution ratio must not be negative")) in
      let? _ := not_nil (UsageIncentives v) (λ u, ocheck (dec_is_negative u) (ErrMsg "pool incentives distribution ratio must not be negative")) in
      let? _ := not_nil (CommunityPool v) (λ c, ocheck (dec_is_negative c) (ErrMsg "community pool distribution ratio must not be negative")) in
      not_nil (StakingRewards v) (λ s, not_nil (UsageIncentives v) (λ u, not_nil (CommunityPool v) (λ c,
        ocheck (negb (dec_equal (dec_add (dec_add s u) c) (dec_new 1))) (ErrMsg "total distributions ratio should be 1"))))
  | _ => invalid_type
  end.
End validators.

(** ** The pairs of the modules *)

(** A decimal, and the two records of decimals, as stored and as checked. *)
Definition exp_value {D} (e : ExponentialCalculation D) : ExponentialCalculation (option D) :=
  mkExp (Some (ec_A e)) (Some (ec_R e)) (Some (ec_C e)) (Some (BondingTarget e)) (Some (MaxVariance e)).
Definition exp_of {D} (e : ExponentialCalculation (option D)) : option (ExponentialCalculation D) :=
  match ec_A e, ec_R e, ec_C e, BondingTarget e, MaxVariance e with
  | Some a, Some r, Some c, Some b, Some m => Some (mkExp a r c b m) | _, _, _, _, _ => None end.
Definition dist_value {D} (e : InflationDistribution D) : InflationDistribution (option D) :=
  mkDist (Some (StakingRewards e)) (Some (UsageIncentives e)) (Some (CommunityPool e)).
Definition dist_of {D} (e : InflationDistribution (option D)) : option (InflationDistribution D) :=
  match StakingRewards e, UsageIncentives e, CommunityPool e with
  | Some s, Some u, Some c => Some (mkDist s u c) | _, _, _ => None end.

Section pairs.
Context {D C : Type} `{SdkDec D, SdkCoins C} (channel_id_valid : string → bool).
Local Open Scope string_scope.

Definition infl_ParamSetPairs : list (ParamSetPair D (InflParams D)) := [
  NewParamSetPair "ParamStoreKeyMintDenom" (λ p, PString (MintDenom p))
    (λ v p, match v with PString s => Some (mkInflParams s (i_ExponentialCalculation p) (i_InflationDistribution p) (EnableInflation p)) | _ => None end)
    (infl_check_denom (C := C));
  NewParamSetPair "ParamStoreKeyExponentialCalculation" (λ p, PExponential (exp_value (i_ExponentialCalculation p)))
    (λ v p, match v with
            | PExponential e => match exp_of e with
                                | Some e => Some (mkInflParams (MintDenom p) e (i_InflationDistribution p) (EnableInflation p)) | None => None end
            | _ => None end)
    infl_check_exponential;
  NewParamSetPair "ParamStoreKeyInflationDistribution" (λ p, PDistribution (dist_value (i_InflationDistribution p)))
    (λ v p, match v with
            | PDistribution e => match dist_of e with
                                 | Some e => Some (mkInflParams (MintDenom p) (i_ExponentialCalculation p) e (EnableInflation p)) | None => None end
            | _ => None end)
    infl_check_distribution;
  NewParamSetPair "ParamStoreKeyEnableInflation" (λ p, PBool (EnableInflation p))
    (λ v p, match v with PBool b => Some (mkInflParams (MintDenom p) (i_ExponentialCalculation p) (i_InflationDistribution p) b) | _ => None end)
    validateBool].

Definition claims_ParamSetPairs : list (ParamSetPair D ClaimsParams) := [
  NewParamSetPair "EnableClaims" (λ p, PBool (EnableClaims p))
    (λ v p, match v with PBool b => Some (mkClaimsParams b (ClaimsDenom p) (AirdropStartTime p) (DurationUntilDecay p) (DurationOfDecay p) (AuthorizedChannels p) (EVMChannels p)) | _ => None end)
    validateBool;
  NewParamSetPair "AirdropStartTime" (λ p, PTime (AirdropStartTime p))
    (λ v p, match v with PTime t => Some (mkClaimsParams (EnableClaims p) (ClaimsDenom p) t (DurationUntilDecay p) (DurationOfDecay p) (AuthorizedChannels p) (EVMChannels p)) | _ => None end)
    validateStartDate;
  NewParamSetPair "DurationUntilDecay" (λ p, PDuration (DurationUntilDecay p))
    (λ v p, match v with PDuration n => Some (mkClaimsParams (EnableClaims p) (ClaimsDenom p) (AirdropStartTime p) n (DurationOfDecay p) (AuthorizedChannels p) (EVMChannels p)) | _ => None end)
    claims_check_duration;
  NewParamSetPair "DurationOfDecay" (λ p, PDuration (DurationOfDecay p))
    (λ v p, match v with PDuration n => Some (mkClaimsParams (EnableClaims p) (ClaimsDenom p) (AirdropStartTime p) (DurationUntilDecay p) n (AuthorizedChannels p) (EVMChannels p)) | _ => None end)
    claims_check_duration;
  NewParamSetPair "ClaimsDenom" (λ p, PString (ClaimsDenom p))
    (λ v p, match v with PString s => Some (mkClaimsParams (EnableClaims p) s (AirdropStartTime p) (DurationUntilDecay p) (DurationOfDecay p) (AuthorizedChannels p) (EVMChannels p)) | _ => None end)
    (claims_check_denom (C := C));
  NewParamSetPair "AuthorizedChannels" (λ p, PStrings (AuthorizedChannels p))
    (λ v p, match v with PStrings l => Some (mkClaimsParams (EnableClaims p) (ClaimsDenom p) (AirdropStartTime p) (DurationUntilDecay p) (DurationOfDecay p) l (EVMChannels p)) | _ => None end)
    (claims_check_channels channel_id_valid);
  NewParamSetPair "EVMChannels" (λ p, PStrings (EVMChannels p))
    (λ v p, match v with PStrings l => Some (mkClaimsParams (EnableClaims p) (ClaimsDenom p) (AirdropStartTime p) (DurationUntilDecay p) (DurationOfDecay p) (AuthorizedChannels p) l) | _ => None end)
    (claims_check_channels channel_id_valid)].

Definition incentives_ParamSetPairs : list (ParamSetPair D (IncentivesParams D)) := [
  NewParamSetPair "EnableIncentives" (λ p, PBool (EnableIncentives p))
    (λ v p, match v with PBool b => Some (mkIncParams b (AllocationLimit p) (IncentivesEpochIdentifier p) (RewardScaler p)) | _ => None end)
    validateBool;
  NewParamSetPair "AllocationLimit" (λ p, PDec (Some (AllocationLimit p)))
    (λ v p, match v with PDec (Some d) => Some (mkIncParams (EnableIncentives p) d (IncentivesEpochIdentifier p) (RewardScaler p)) | _ => None end)
    (check_dec validatePercentage);
  NewParamSetPair "EpochIdentifier" (λ p, PString (IncentivesEpochIdentifier p))
    (λ v p, match v with PString s => Some (mkIncParams (EnableIncentives p) (AllocationLimit p) s (RewardScaler p)) | _ => None end)
    ValidateEpochIdentifierInterface;
  NewParamSetPair "RewardScaler" (λ p, PDec (Some (RewardScaler p)))
    (λ v p, match v with PDec (Some d) => Some (mkIncParams (EnableIncentives p) (AllocationLimit p) (IncentivesEpochIdentifier p) d) | _ => None end)
    (check_dec validateUncappedPercentage)].

Definition feesplit_ParamSetPairs : list (ParamSetPair D (FeesplitParams D)) := [
  NewParamSetPair "EnableFeeSplit" (λ p, PBool (EnableFeeSplit p))
    (λ v p, match v with PBool b => Some (mkFeeParams b (DeveloperShares p) (AddrDerivationCostCreate p)) | _ => None end)
    validateBool;
  NewParamSetPair "DeveloperShares" (λ p, PDec (Some (DeveloperShares p)))
    (λ v p, match v with PDec (Some d) => Some (mkFeeParams (EnableFeeSplit p) d (AddrDerivationCostCreate p)) | _ => None end)
    (check_dec validateShares);
  NewParamSetPair "AddrDerivationCostCreate" (λ p, PUint64 (AddrDerivationCostCreate p))
    (λ v p, match v with PUint64 n => Some (mkFeeParams (EnableFeeSplit p) (DeveloperShares p) n) | _ => None end)
    validateUint64].

Definition recovery_ParamSetPairs : list (ParamSetPair D RecoveryParams) := [
  NewParamSetPair "EnableRecovery" (λ p, PBool (EnableRecovery p))
    (λ v p, match v with PBool b => Some (mkRecParams b (PacketTimeoutDuration p)) | _ => None end)
    validateBool;
  NewParamSetPair "PacketTimeoutDuration" (λ p, PDuration (PacketTimeoutDuration p))
    (λ v p, match v with PDuration n => Some (mkRecParams (EnableRecovery p) n) | _ => None end)
    recovery_check_duration].

Definition erc20_ParamSetPairs : list (ParamSetPair D Erc20Params) := [
  NewParamSetPair "EnableErc20" (λ p, PBool (EnableErc20 p))
    (λ v p, match v with PBool b => Some (mkErc20Params b (EnableEVMHook p)) | _ => None end)
    validateBool;
  NewParamSetPair "EnableEVMHook" (λ p, PBool (EnableEVMHook p))
    (λ v p, match v with PBool b => Some (mkErc20Params (EnableErc20 p) b) | _ => None end)
    validateBool].

(** [func (p Params) Validate() error { return nil }] *)
Definition erc20_Params_Validate (_ : Erc20Params) : outcome unit := Ok tt.
End pairs.

(** ** The store: [x/params] of the SDK *)

(** [SetParamSet] checks every field and panics; [Update] decodes, checks and writes one. *)
Class ParamStore (D : Type) := {
  SetParamSet {P} : list (ParamSetPair D P) → P → outcome unit;
  Update {P} : list (ParamSetPair D P) → string → ParamValue D → P → outcome P;
}.
Class ParamStoreLaws (D : Type) `{ParamStore D} := {
  set_param_set {P} (pairs : list (ParamSetPair D P)) p :
    SetParamSet pairs p = Ok tt ↔ Forall (λ pr, ps_Validate pr (ps_Get pr p) = Ok tt) pairs;
  update_ok {P} (pairs : list (ParamSetPair D P)) key v p p' :
    Update pairs key v p = Ok p' →
    ∃ pr, pr ∈ pairs ∧ ps_Key pr = key ∧ ps_Validate pr v = Ok tt ∧ ps_Set pr v p = Some p';
  (** a check that panics is not caught *)
  update_panic {P} (pairs : list (ParamSetPair D P)) pr v p :
    pr ∈ pairs → NoDup (ps_Key <$> pairs) → ps_Validate pr v = Panic → Update pairs (ps_Key pr) v p = Panic;
}.
