(* ===== verification/ParamsProps.v ===== *)
(** * The checks of the parameter store

    The pairs of a module accept exactly the parameters that its [Validate] accepts, so
    that neither the module nor a sequence of proposals can store others. *)

From S2P Require Import Prelude Sdk Dec SdkInstances Keepers KeeperInstances Epochs Inflation Ibc Claims Erc20Types Erc20 Evm Incentives Feesplit Recovery Params.

Section theory.
Context {D C : Type} `{SdkDec D, SdkCoins C, ParamStoreLaws D}.

Lemma obind_unit (o k : outcome unit) : (let? _ := o in k) = Ok tt ↔ o = Ok tt ∧ k = Ok tt.
Proof. destruct o as [[]|e|]; simpl; naive_solver. Qed.

(** The checks of the pairs accept [p]. *)
Definition accepted {P} (pairs : list (ParamSetPair D P)) (p : P) : Prop :=
  Forall (λ pr, ps_Validate pr (ps_Get pr p) = Ok tt) pairs.

(** The store keeps to [validate], when a module writes and when proposals change one
    parameter after the other. *)
Definition store_keeps {P} (pairs : list (ParamSetPair D P)) (validate : P → outcome unit) : Prop :=
  (∀ p, SetParamSet pairs p = Ok tt ↔ validate p = Ok tt) ∧
  (∀ changes p p', validate p = Ok tt →
     foldl (λ o '(key, v), let? p := o in Update pairs key v p) (Ok p) changes = Ok p' → validate p' = Ok tt) ∧
  NoDup (ps_Key <$> pairs).

Lemma changes_keep {P} (pairs : list (ParamSetPair D P)) (Q : P → Prop) changes :
  (∀ key v p p', Update pairs key v p = Ok p' → Q p → Q p') →
  ∀ o p', (∀ p, o = Ok p → Q p) → foldl (λ o '(key, v), let? p := o in Update pairs key v p) o changes = Ok p' → Q p'.
Proof.
  intros Hstep. induction changes as [|[key v] changes IH]; intros o p' Ho; simpl; [intros ->; eauto|].
  apply IH. intros p E. apply obind_ok in E as (p0 & E0 & E). eauto.
Qed.

(** It does, when the pairs accept what [validate] accepts and write only their own field. *)
Lemma keeps {P} (pairs : list (ParamSetPair D P)) validate :
  (∀ p, accepted pairs p ↔ validate p = Ok tt) →
  Forall (λ pr, ∀ v p p', ps_Validate pr v = Ok tt → ps_Set pr v p = Some p' → accepted pairs p → accepted pairs p') pairs →
  NoDup (ps_Key <$> pairs) → store_keeps pairs validate.
Proof.
  intros Hacc Hset Hkeys. split; [|split; [|done]].
  - intros p. rewrite set_param_set. apply Hacc.
  - intros changes p p' Hp. apply (changes_keep pairs (λ p, validate p = Ok tt)); [|by intros ? [= <-]].
    intros key v p1 p2 Hu. rewrite <- !Hacc. apply update_ok in Hu as (pr & Hin & _ & Hv & Hs).
    rewrite Forall_forall in Hset. by eapply Hset.
Qed.

Lemma exp_of_value (e : ExponentialCalculation (option D)) e' : exp_of e = Some e' → exp_value e' = e.
Proof. destruct e as [[] [] [] [] []]; intros [= <-]; done. Qed.
Lemma dist_of_value (e : InflationDistribution (option D)) e' : dist_of e = Some e' → dist_value e' = e.
Proof. destruct e as [[] [] []]; intros [= <-]; done. Qed.

(** What the checks do on a value of the right type. *)
Lemma check_bool b : validateBool (D := D) (PBool b) = Ok tt.
Proof. done. Qed.
Lemma check_uint64 n : validateUint64 (D := D) (PUint64 n) = Ok tt.
Proof. done. Qed.
Lemma check_time t : validateStartDate (D := D) (PTime t) = Ok tt.
Proof. done. Qed.
Lemma check_some (validate : D → outcome unit) d : check_dec validate (PDec (Some d)) = validate d.
Proof. done. Qed.
Lemma check_epoch s : ValidateEpochIdentifierInterface (D := D) (PString s) = ValidateEpochIdentifierString s.
Proof. done. Qed.
Lemma check_mint_denom s : infl_check_denom (D := D) (C := C) (PString s) = validateMintDenom (C := C) s.
Proof. done. Qed.
Lemma check_exponential e : infl_check_exponential (PExponential (exp_value e)) = validateExponentialCalculation e.
Proof. done. Qed.
Lemma check_distribution e : infl_check_distribution (PDistribution (dist_value e)) = validateInflationDistribution e.
Proof. done. Qed.
Lemma ocheck_iff b e : ocheck b e = Ok tt ↔ b = false.
Proof. destruct b; naive_solver. Qed.
Lemma check_decay n : claims_check_duration (D := D) (PDuration n) = Ok tt ↔ (n <=? 0)%Z = false.
Proof. apply ocheck_iff. Qed.
Lemma check_claims_denom s :
  claims_check_denom (D := D) (C := C) (PString s) = Ok tt ↔ negb (denom_valid (C := C) s) = false.
Proof. apply ocheck_iff. Qed.
Lemma check_channels channel_id_valid l :
  claims_check_channels (D := D) channel_id_valid (PStrings l) = ValidateChannels channel_id_valid l.
Proof. done. Qed.
Lemma check_timeout n : recovery_check_duration (D := D) (PDuration n) = validate_timeout n.
Proof. done. Qed.

(** The pairs of a module one by one: they accept what the module accepts, a value of the
    right type replaces its field, and the keys are distinct. *)
Ltac checks := rewrite ?Forall_cons, ?Forall_nil, ?obind_unit; cbn [ps_Validate ps_Set ps_Get];
  rewrite ?check_bool, ?check_uint64, ?check_time, ?check_some, ?check_epoch, ?check_mint_denom, ?check_exponential, ?check_distribution,
    ?ocheck_iff, ?check_decay, ?check_claims_denom, ?check_channels, ?check_timeout.
Ltac pairs_keep :=
  apply keeps; unfold accepted;
  [intros p; checks; tauto
  |rewrite ?Forall_cons, ?Forall_nil; split_and?; [..|done]; cbn [ps_Validate ps_Set ps_Get]; intros v p p' Hv Hs;
   destruct v; try discriminate; repeat case_match; simplify_eq;
   try match goal with E : exp_of _ = _ |- _ => apply exp_of_value in E; subst end;
   try match goal with E : dist_of _ = _ |- _ => apply dist_of_value in E; subst end;
   revert Hv; checks; tauto
  |apply (bool_decide_unpack _); vm_compute; done].

Lemma infl_keeps : store_keeps (infl_ParamSetPairs (D := D) (C := C)) (infl_Params_Validate (C := C)).
Proof. unfold infl_ParamSetPairs, infl_Params_Validate. pairs_keep. Qed.
Lemma claims_keeps channel_id_valid :
  store_keeps (claims_ParamSetPairs (C := C) channel_id_valid) (claims_Params_Validate (C := C) channel_id_valid).
Proof. unfold claims_ParamSetPairs, claims_Params_Validate. pairs_keep. Qed.
Lemma incentives_keeps : store_keeps (incentives_ParamSetPairs (D := D)) incentives_Params_Validate.
Proof. unfold incentives_ParamSetPairs, incentives_Params_Validate. pairs_keep. Qed.
Lemma feesplit_keeps : store_keeps (feesplit_ParamSetPairs (D := D)) feesplit_Params_Validate.
Proof. unfold feesplit_ParamSetPairs, feesplit_Params_Validate. pairs_keep. Qed.
Lemma recovery_keeps : store_keeps recovery_ParamSetPairs recovery_Params_Validate.
Proof. unfold recovery_ParamSetPairs, recovery_Params_Validate. pairs_keep. Qed.
Lemma erc20_keeps : store_keeps erc20_ParamSetPairs erc20_Params_Validate.
Proof. unfold erc20_ParamSetPairs, erc20_Params_Validate. pairs_keep. Qed.
End theory.

(** ** The store of the SDK *)

Section store.
Context {D : Type}.

Fixpoint update_pair {P} (pairs : list (ParamSetPair D P)) (key : string) (v : ParamValue D) (p : P) : outcome P :=
  match pairs with
  | [] => Panic
  | pr :: pairs =>
      if bool_decide (ps_Key pr = key)
      then let? _ := ps_Validate pr v in match ps_Set pr v p with Some p' => Ok p' | None => Err (ErrExternal "decode") end
      else update_pair pairs key v p
  end.
#[global] Instance sdk_params : ParamStore D := {
  SetParamSet P pairs p := if forallb (λ pr, is_ok (ps_Validate pr (ps_Get pr p))) pairs then Ok tt else Panic;
  Update P := update_pair;
}.

Lemma is_ok_unit (o : outcome unit) : is_ok o ↔ o = Ok tt.
Proof. destruct o as [[]| |]; naive_solver. Qed.

#[global] Instance sdk_params_laws : ParamStoreLaws D.
Proof.
  split; simpl.
  - intros P pairs p. transitivity (forallb (λ pr, is_ok (ps_Validate pr (ps_Get pr p))) pairs : Prop).
    + destruct forallb; naive_solver.
    + rewrite forallb_True. apply Forall_proper; [|done]. intros pr. apply is_ok_unit.
  - intros P pairs key v p p'. induction pairs as [|pr pairs IH]; simpl; [done|]. case_bool_decide as Hk.
    + intros (u & Hv & E)%obind_ok. destruct u, ps_Set eqn:Hs; simplify_eq. exists pr. set_solver.
    + intros (pr' & ? & ?)%IH. exists pr'. set_solver.
  - intros P pairs pr v p. induction pairs as [|pr' pairs IH]; simpl; [by intros ?%not_elem_of_nil|].
    intros [->|Hin]%elem_of_cons [Hnew Hdup]%NoDup_cons Hv.
    + by rewrite bool_decide_true, Hv.
    + rewrite bool_decide_false; [by apply IH|]. intros E. apply Hnew. rewrite E. by apply list_elem_of_fmap_2.
Qed.
End store.

(** C20: The parameters a module holds are always valid.  For each of inflation, claims,
    incentives, feesplit, recovery and erc20, the parameter store accepts a parameter set
    exactly when the [Validate] of the module does; parameter changes that governance applies
    one after the other lead from valid parameters only to valid parameters; and the keys of
    the pairs are distinct, so that a change reaches one field. *)
Theorem params_store_checks {D C} `{SdkDec D, SdkCoins C, !ParamStore D, !ParamStoreLaws D} (channel_id_valid : string → bool) :
  store_keeps (infl_ParamSetPairs (D := D) (C := C)) (infl_Params_Validate (C := C)) ∧
  store_keeps (D := D) (claims_ParamSetPairs (C := C) channel_id_valid) (claims_Params_Validate (C := C) channel_id_valid) ∧
  store_keeps (incentives_ParamSetPairs (D := D)) incentives_Params_Validate ∧
  store_keeps (feesplit_ParamSetPairs (D := D)) feesplit_Params_Validate ∧
  store_keeps (D := D) recovery_ParamSetPairs recovery_Params_Validate ∧
  store_keeps (D := D) erc20_ParamSetPairs erc20_Params_Validate.
Proof.
  exact (conj infl_keeps (conj (claims_keeps _) (conj incentives_keeps (conj feesplit_keeps (conj recovery_keeps erc20_keeps))))).
Qed.

(** With the store of the SDK: a proposal sets the allocation limit of incentives to 7 %. *)
Lemma params_store_checks_witness :
  Update incentives_ParamSetPairs "AllocationLimit" (PDec (Some (7 * 10 ^ 16)%Z)) incentives_DefaultParams =
    Ok (mkIncParams true (7 * 10 ^ 16)%Z WeekEpochID (RewardScaler incentives_DefaultParams)) ∧
  incentives_Params_Validate (mkIncParams true (7 * 10 ^ 16)%Z WeekEpochID (RewardScaler incentives_DefaultParams)) = Ok tt.
Proof.
  destruct (params_store_checks (D := Z) (C := coins) (λ _, true)) as (_ & _ & (_ & Hch & _) & _).
  split; [by vm_compute|]. eapply (Hch [("AllocationLimit", PDec (Some (7 * 10 ^ 16)%Z))] incentives_DefaultParams); by vm_compute.
Defined.

Lemma nth_panics {D P} `{ParamStoreLaws D} (pairs : list (ParamSetPair D P)) i key v p :
  ps_Key <$> pairs !! i = Some key → NoDup (ps_Key <$> pairs) → (λ pr, ps_Validate pr v) <$> pairs !! i = Some Panic →
  Update pairs key v p = Panic.
Proof. destruct (pairs !! i) as [pr|] eqn:Hi; intros [= <-] ? [= ?]. apply update_panic; eauto using list_elem_of_lookup_2. Qed.

(** The checks of inflation call methods of the decimals without testing for nil: a proposal
    that leaves out a decimal of the distribution makes the store panic, where the checks of
    incentives and feesplit return an error. *)
Lemma missing_decimal_panics {D C} `{SdkDec D, SdkCoins C, !ParamStore D, !ParamStoreLaws D} (p : InflParams D) u c :
  Update (infl_ParamSetPairs (D := D) (C := C)) "ParamStoreKeyInflationDistribution" (PDistribution (mkDist None u c)) p = Panic.
Proof. by apply (nth_panics _ 2%nat); [|apply (bool_decide_unpack _)|]. Qed.
Lemma missing_share_refused {D} `{SdkDec D} (validate : D → outcome unit) : is_ok (check_dec validate (PDec None)) = false.
Proof. done. Qed.
