(* ===== verification/Ante.v ===== *)
(** * Transaction checks: [app/ante], [app/sigverify.go]

    The decorators of the repository, the chains they stand in, the dispatch on
    extension options, and the gas of signature verification.  The decorators of the
    SDK, of ibc-go and of Ethermint are parameters. *)

From S2P Require Import Prelude Sdk Dec Schedule Clawback EvmosUtils Keepers.

(** ** Transactions *)

(** The messages the decorators look at.  [MsgExec] carries packed messages; [None]
    is one that cannot be unpacked.  [MsgDelegate] is signed by its delegator. *)
Inductive Msg (D : Type) : Type :=
  | MsgEthereumTx (from : string)
  | MsgDelegate (delegator : string) (amount : string * Z)
  | MsgCreateValidator (rate : D)
  | MsgEditValidator (rate : option D)
  | MsgExec (msgs : list (option (Msg D)))
  | MsgOther.
Arguments MsgEthereumTx {D} _.
Arguments MsgDelegate {D} _ _.
Arguments MsgCreateValidator {D} _.
Arguments MsgEditValidator {D} _.
Arguments MsgExec {D} _.
Arguments MsgOther {D}.

(** [tx_options]: the type URLs of the extension options, when the transaction has them. *)
Record Tx (D : Type) := mkTxn { tx_msgs : list (Msg D); tx_options : option (list string) }.
Arguments mkTxn {D} _ _.
Arguments tx_msgs {D} _.
Arguments tx_options {D} _.

(** [sdk.AnteHandler], [sdk.AnteDecorator] *)
Definition AnteHandler (D X : Type) : Type := Ctx → Tx D → bool → M X Ctx.
Definition Decorator (D X : Type) : Type := Ctx → Tx D → bool → AnteHandler D X → M X Ctx.

(** [sdk.ChainAnteDecorators] and the decorators from outside the repository. *)
Class AnteChain (D X : Type) := {
  ChainAnteDecorators : list (Decorator D X) → AnteHandler D X;
}.

Class AnteDecorators (D X : Type) := {
  EthSetUpContextDecorator : Decorator D X;
  EthMempoolFeeDecorator : Decorator D X;
  EthMinGasPriceDecorator : Decorator D X;
  EthValidateBasicDecorator : Decorator D X;
  EthSigVerificationDecorator : Decorator D X;
  EthAccountVerificationDecorator : Decorator D X;
  CanTransferDecorator : Decorator D X;
  EthGasConsumeDecorator : Decorator D X;
  EthIncrementSenderSequenceDecorator : Decorator D X;
  GasWantedDecorator : Decorator D X;
  EthEmitEventDecorator : Decorator D X;
  RejectMessagesDecorator : Decorator D X;
  SetUpContextDecorator : Decorator D X;
  RejectExtensionOptionsDecorator : Decorator D X;
  ValidateBasicDecorator : Decorator D X;
  MempoolFeeDecorator : Decorator D X;
  MinGasPriceDecorator : Decorator D X;
  TxTimeoutHeightDecorator : Decorator D X;
  ValidateMemoDecorator : Decorator D X;
  ConsumeGasForTxSizeDecorator : Decorator D X;
  DeductFeeDecorator : Decorator D X;
  SetPubKeyDecorator : Decorator D X;
  ValidateSigCountDecorator : Decorator D X;
  SigGasConsumeDecorator : Decorator D X;
  SigVerificationDecorator : Decorator D X;
  Eip712SigVerificationDecorator : Decorator D X;
  IncrementSequenceDecorator : Decorator D X;
  IbcAnteDecorator : Decorator D X;
}.

(** ** The decorators of the repository *)

Section decorators.
Context {C D X : Type} `{SdkCoins C, SdkDec D, SdkPeriods C}.
Context `{!AccountKeeper C X, !StakingKeeper X}.

(** *** [ante/vesting.go] *)

(** The checks on the sender of one Ethereum transaction: [true] to go on with the
    next message, [false] to return [next] at once. *)
Definition check_eth_sender (ctx : Ctx) (x : X) (msg : Msg D) : outcome bool :=
  match msg with
  | MsgEthereumTx from =>
      match GetAccount (C := C) x from with
      | None => Err ErrUnknownAddress
      | Some (ClawbackAcc clawbackAccount) =>
          let vested := GetVestedCoins clawbackAccount (BlockTime ctx) in
          let? _ := ocheck (coins_is_empty vested) ErrInsufficientVestedCoins in
          let? islocked := HasLockedCoins clawbackAccount (BlockTime ctx) in
          let? _ := ocheck islocked ErrVestingLockup in
          Ok true
      | Some _ => Ok false
      end
  | _ => Err ErrUnknownRequest
  end.

Fixpoint check_eth_msgs (ctx : Ctx) (x : X) (msgs : list (Msg D)) : outcome unit :=
  match msgs with
  | [] => Ok tt
  | msg :: rest =>
      let? continue := check_eth_sender ctx x msg in
      if continue : bool then check_eth_msgs ctx x rest else Ok tt
  end.

Definition EthVestingTransactionDecorator : Decorator D X := λ ctx tx simulate next,
  let! x := gets id in
  lift (check_eth_msgs ctx x (tx_msgs tx)) ;;;
  next ctx tx simulate.

Definition vesting_validateMsg (ctx : Ctx) (x : X) (msg : Msg D) : outcome unit :=
  match msg with
  | MsgDelegate delegator amount =>
      match GetAccount (C := C) x delegator with
      | None => Err ErrUnknownAddress
      | Some (ClawbackAcc clawbackAccount) =>
          let bondDenom := BondDenom x in
          let coins := GetVestedOnly clawbackAccount (BlockTime ctx) in
          let? _ := ocheck (coins_is_empty coins) ErrInsufficientVestedCoins in
          let vested := amount_of coins bondDenom in
          ocheck (vested <? amount.2) ErrInsufficientVestedCoins
      | Some _ => Ok tt
      end
  | _ => Ok tt
  end.

(** The loop over the packed messages, with the check of one message. *)
Fixpoint validate_packed (validateMsg : Msg D → outcome unit) (msgs : list (option (Msg D))) : outcome unit :=
  match msgs with
  | [] => Ok tt
  | None :: _ => Err (ErrExternal "cannot unmarshal authz exec msgs")
  | Some innerMsg :: rest => let? _ := validateMsg innerMsg in validate_packed validateMsg rest
  end.

(** The loop over the messages of the transaction. *)
Fixpoint validate_msgs (validateMsg : Msg D → outcome unit) (msgs : list (Msg D)) : outcome unit :=
  match msgs with
  | [] => Ok tt
  | msg :: rest =>
      let? _ := match msg with
                | MsgExec packed => validate_packed validateMsg packed
                | _ => validateMsg msg
                end in
      validate_msgs validateMsg rest
  end.

Definition VestingDelegationDecorator : Decorator D X := λ ctx tx simulate next,
  let! x := gets id in
  lift (validate_msgs (vesting_validateMsg ctx x) (tx_msgs tx)) ;;;
  next ctx tx simulate.

(** *** [ante/comission.go] *)

Definition minCommission : D := dec_with_prec 5 2.

Definition commission_validateMsg (msg : Msg D) : outcome unit :=
  match msg with
  | MsgCreateValidator rate => ocheck (dec_lt rate minCommission) ErrInvalidRequest
  | MsgEditValidator (Some rate) => ocheck (dec_lt rate minCommission) ErrInvalidRequest
  | _ => Ok tt
  end.

Definition ValidatorCommissionDecorator : Decorator D X := λ ctx tx simulate next,
  lift (validate_msgs commission_validateMsg (tx_msgs tx)) ;;;
  next ctx tx simulate.
End decorators.

(** ** The chains: [ante/handler_options.go], [ante/ante.go] *)

(** Which of the keepers are set. *)
Record HandlerOptions := mkOptions {
  has_AccountKeeper : bool; has_BankKeeper : bool; has_StakingKeeper : bool;
  has_SignModeHandler : bool; has_FeeMarketKeeper : bool; has_EvmKeeper : bool;
}.

Definition HandlerOptions_Validate (options : HandlerOptions) : outcome unit :=
  let? _ := ocheck (negb (has_AccountKeeper options)) ErrLogic in
  let? _ := ocheck (negb (has_BankKeeper options)) ErrLogic in
  let? _ := ocheck (negb (has_StakingKeeper options)) ErrLogic in
  let? _ := ocheck (negb (has_SignModeHandler options)) ErrLogic in
  let? _ := ocheck (negb (has_FeeMarketKeeper options)) ErrLogic in
  ocheck (negb (has_EvmKeeper options)) ErrLogic.

Section chains.
Context {C D X : Type} `{SdkCoins C, SdkDec D, SdkPeriods C}.
Context `{!AccountKeeper C X, !StakingKeeper X, !AnteChain D X, !AnteDecorators D X}.

Definition newEthAnteHandler : AnteHandler D X := ChainAnteDecorators [
  EthSetUpContextDecorator; EthMempoolFeeDecorator; EthMinGasPriceDecorator;
  EthValidateBasicDecorator; EthSigVerificationDecorator; EthAccountVerificationDecorator;
  CanTransferDecorator; EthVestingTransactionDecorator (C := C); EthGasConsumeDecorator;
  EthIncrementSenderSequenceDecorator; GasWantedDecorator; EthEmitEventDecorator].

Definition newCosmosAnteHandler : AnteHandler D X := ChainAnteDecorators [
  RejectMessagesDecorator; SetUpContextDecorator; RejectExtensionOptionsDecorator;
  ValidateBasicDecorator; MempoolFeeDecorator; MinGasPriceDecorator; TxTimeoutHeightDecorator;
  ValidateMemoDecorator; ConsumeGasForTxSizeDecorator; DeductFeeDecorator;
  VestingDelegationDecorator (C := C); ValidatorCommissionDecorator;
  SetPubKeyDecorator; ValidateSigCountDecorator; SigGasConsumeDecorator; SigVerificationDecorator;
  IncrementSequenceDecorator; IbcAnteDecorator; GasWantedDecorator].

Definition newCosmosAnteHandlerEip712 : AnteHandler D X := ChainAnteDecorators [
  RejectMessagesDecorator; SetUpContextDecorator; MempoolFeeDecorator; ValidateBasicDecorator;
  MinGasPriceDecorator; TxTimeoutHeightDecorator; ValidateMemoDecorator;
  ConsumeGasForTxSizeDecorator; DeductFeeDecorator;
  VestingDelegationDecorator (C := C); ValidatorCommissionDecorator;
  SetPubKeyDecorator; ValidateSigCountDecorator; SigGasConsumeDecorator; Eip712SigVerificationDecorator;
  IncrementSequenceDecorator; IbcAnteDecorator; GasWantedDecorator].

Definition eth_option : string := "/ethermint.evm.v1.ExtensionOptionsEthereumTx".
Definition web3_option : string := "/ethermint.types.v1.ExtensionOptionsWeb3Tx".

(** [defer ethante.Recover(ctx.Logger(), &err)]: a panic becomes an error. *)
Definition recovered {A} (recover_err : error) (m : M X A) : M X A := λ x,
  match m x with (Panic, x') => (Err recover_err, x') | r => r end.

Definition NewAnteHandler (recover_err : error) : AnteHandler D X := λ ctx tx sim,
  recovered recover_err
    match tx_options tx with
    | Some (typeURL :: _) =>
        if String.eqb typeURL eth_option then newEthAnteHandler ctx tx sim
        else if String.eqb typeURL web3_option then newCosmosAnteHandlerEip712 ctx tx sim
        else fail ErrUnknownExtensionOptions
    | _ => newCosmosAnteHandler ctx tx sim
    end.
End chains.

(** ** Gas of signature verification: [app/sigverify.go] *)

(** [signing.SignatureData]: a multisignature has one bit per key and the signatures
    of the keys whose bit is set. *)
Inductive SignatureData : Type :=
  | SingleSignatureData
  | MultiSignatureData (bitArray : list bool) (signatures : list SignatureData).

Definition secp256k1VerifyCost : Z := 21000.

Section sigverify.
Context {G : Type}.
(** [meter.ConsumeGas(amount, descriptor)], which panics when the gas runs out, and
    [params.SigVerifyCostED25519] *)
Variable ConsumeGas : Z → M G unit.
Variable SigVerifyCostED25519 : Z.

(** [ConsumeMultisignatureVerificationGas] is the inner loop over the keys; an index
    beyond the keys or the signatures panics. *)
Fixpoint SigVerificationGasConsumer (pubkey : PubKey) (data : SignatureData) : M G unit :=
  match pubkey with
  | EthSecp256k1 => ConsumeGas secp256k1VerifyCost
  | Ed25519 => ConsumeGas SigVerifyCostED25519 ;;; fail ErrInvalidPubKey
  | Multisig keys =>
      match data with
      | SingleSignatureData => fail (ErrMsg "expected MultiSignatureData")
      | MultiSignatureData bitArray signatures =>
          (fix ConsumeMultisignatureVerificationGas (keys : list PubKey) (bits : list bool)
               (sigs : list SignatureData) : M G unit :=
             match keys with
             | [] => if existsb id bits then panic else ret tt
             | key :: keys =>
                 match bits with
                 | [] => ret tt
                 | false :: bits => ConsumeMultisignatureVerificationGas keys bits sigs
                 | true :: bits =>
                     match sigs with
                     | [] => panic
                     | sig :: sigs =>
                         SigVerificationGasConsumer key sig ;;;
                         ConsumeMultisignatureVerificationGas keys bits sigs
                     end
                 end
             end) keys bitArray signatures
      end
  | OtherKey => fail ErrInvalidPubKey
  end.
End sigverify.
