(* ===== verification/AnteProps.v ===== *)
(** * Properties of the transaction checks

    What an accepted transaction satisfies, what the checks do not see, and the gas
    of a multisignature. *)

From S2P Require Import Prelude Sdk Dec Schedule SdkInstances Clawback EvmosUtils Keepers KeeperInstances Ante.

(** The accounts of [x] are those of [x1], which may have more of them: fees are taken from
    balances, and the sender of an Ethereum transaction may get its account.  The denomination
    of the stakes is a parameter. *)
Definition keeps_accounts {C X} `{AccountKeeper C X, StakingKeeper X} (x x1 : X) : Prop :=
  BondDenom x1 = BondDenom x ∧ ∀ a acc, GetAccount (C := C) x a = Some acc → GetAccount (C := C) x1 a = Some acc.

(** A decorator that accepts only what the next handler accepts, at the same time and with the
    accounts as they are. *)
Definition passes {C D X} `{AccountKeeper C X, StakingKeeper X} (d : Decorator D X) : Prop :=
  ∀ ctx tx sim next x c x', d ctx tx sim next x = (Ok c, x') →
    ∃ ctx1 x1, BlockTime ctx1 = BlockTime ctx ∧ keeps_accounts (C := C) x x1 ∧ next ctx1 tx sim x1 = (Ok c, x').

(** The chain calls the first decorator with the rest of the chain; the last one is
    followed by a handler that returns the context.  The decorators from outside
    end in a call of the next one. *)
Class AnteLaws (C D X : Type) `{AccountKeeper C X, StakingKeeper X, AnteChain D X, AnteDecorators D X} := {
  chain_cons (d : Decorator D X) ds ctx tx sim :
    ChainAnteDecorators (d :: ds) ctx tx sim =
    d ctx tx sim match ds with [] => λ ctx _ _, ret ctx | _ => ChainAnteDecorators ds end;
  foreign_pass : Forall (passes (C := C)) [
    EthSetUpContextDecorator (D := D) (X := X); EthMempoolFeeDecorator; EthMinGasPriceDecorator;
    EthValidateBasicDecorator; EthSigVerificationDecorator; EthAccountVerificationDecorator;
    CanTransferDecorator; RejectMessagesDecorator; SetUpContextDecorator; RejectExtensionOptionsDecorator;
    ValidateBasicDecorator; MempoolFeeDecorator; MinGasPriceDecorator; TxTimeoutHeightDecorator;
    ValidateMemoDecorator; ConsumeGasForTxSizeDecorator; DeductFeeDecorator];
}.

Section ante.
Context {C D X : Type} `{SdkCoinsLaws C, SdkDecLaws D, !SdkPeriods C}.
Context `{!AccountKeeper C X, !StakingKeeper X, !AnteChain D X, !AnteDecorators D X, !AnteLaws C D X}.

(** An accepted transaction reaches every decorator behind foreign ones. *)
Lemma chain_reaches pre (d : Decorator D X) post ctx tx sim x c x' :
  Forall (passes (C := C)) pre → ChainAnteDecorators (pre ++ d :: post) ctx tx sim x = (Ok c, x') →
  ∃ ctx1 x1 next, BlockTime ctx1 = BlockTime ctx ∧ keeps_accounts (C := C) x x1 ∧ d ctx1 tx sim next x1 = (Ok c, x') ∧
    (post ≠ [] → next = ChainAnteDecorators post).
Proof.
  intros Hp. revert ctx x. induction Hp as [|p pre Hp Hpre IH]; intros ctx x Hrun; simpl in Hrun; rewrite chain_cons in Hrun.
  { eexists ctx, x, _. split; [done|]. split; [by split|]. split; [exact Hrun|]. by destruct post. }
  apply Hp in Hrun as (ctx1 & x1 & Ht & [Hb Ha] & Hrun). assert (Hne : pre ++ d :: post ≠ []) by (by destruct pre).
  destruct (pre ++ d :: post) eqn:E; [done|]. rewrite <- Ht.
  destruct (IH ctx1 x1 Hrun) as (ctx2 & x2 & next & Ht2 & [Hb2 Ha2] & Hrest).
  exists ctx2, x2, next. split; [done|]. split; [|done]. split; [congruence|eauto].
Qed.

Lemma validate_msgs_spec f (msgs : list (Msg D)) :
  validate_msgs f msgs = Ok tt →
  ∀ m, m ∈ msgs → match m with
                  | MsgExec packed => ∀ i, i ∈ packed → ∃ inner, i = Some inner ∧ f inner = Ok tt
                  | _ => f m = Ok tt end.
Proof.
  induction msgs as [|m0 msgs IH]; intros Hv m Hin; [by apply not_elem_of_nil in Hin|].
  cbn [validate_msgs] in Hv. apply obind_ok in Hv as ([] & Hm & Hv). apply elem_of_cons in Hin as [->|Hin]; [|by apply IH].
  destruct m0; try exact Hm. clear -Hm. induction msgs0 as [|[i|] l IHl]; intros j Hj; cbn [validate_packed] in Hm.
  - by apply not_elem_of_nil in Hj.
  - apply obind_ok in Hm as ([] & Hi & Hm). apply elem_of_cons in Hj as [->|Hj]; eauto.
  - done.
Qed.

(** The messages the checks see: those of the transaction and those packed directly
    into a [MsgExec] of it. *)
Definition visible (tx : Tx D) (m : Msg D) : Prop :=
  m ∈ tx_msgs tx ∧ (∀ l, m ≠ MsgExec l) ∨ ∃ l, MsgExec l ∈ tx_msgs tx ∧ Some m ∈ l.

Lemma validate_visible f tx m : validate_msgs f (tx_msgs tx) = Ok tt → visible tx m → f m = Ok tt.
Proof.
  intros Hv [[Hin Hne]|(l & Hl & Hin)].
  - apply (validate_msgs_spec _ _ Hv) in Hin. destruct m; try done. exfalso. by eapply Hne.
  - apply (validate_msgs_spec _ _ Hv) in Hl. destruct (Hl _ Hin) as (inner & [= <-] & Hi). exact Hi.
Qed.

(** What the two Cosmos decorators establish of a message. *)
Definition commission_ok (m : Msg D) : Prop :=
  match m with
  | MsgCreateValidator rate | MsgEditValidator (Some rate) => 5 * 10^16 ≤ dec_raw rate
  | _ => True
  end.
Definition delegation_ok (t : Z) (x : X) (m : Msg D) : Prop :=
  ∀ delegator amount va, m = MsgDelegate delegator amount → GetAccount (C := C) x delegator = Some (ClawbackAcc va) →
    coins_is_empty (GetVestedOnly va t) = false ∧ amount.2 ≤ amount_of (GetVestedOnly va t) (BondDenom x).

Lemma cosmos_checks pre post ctx tx sim x c x' :
  Forall (passes (C := C)) pre →
  ChainAnteDecorators (pre ++ VestingDelegationDecorator (C := C) :: ValidatorCommissionDecorator :: post) ctx tx sim x
    = (Ok c, x') →
  ∀ m, visible tx m → commission_ok m ∧ delegation_ok (BlockTime ctx) x m.
Proof.
  intros Hp Hrun m Hm. apply chain_reaches in Hrun as (ctx1 & x1 & next & Ht & [Hb Ha] & Hrun & Hnext); [|done].
  unfold VestingDelegationDecorator in Hrun. apply bind_ok in Hrun as (x0 & x2 & Hg & Hrun).
  unfold gets, id in Hg. injection Hg as <- <-. apply bind_ok in Hrun as ([] & x2 & Hv & Hrun).
  apply lift_ok in Hv as [Hv ->]. rewrite Hnext in Hrun by done. rewrite chain_cons in Hrun.
  unfold ValidatorCommissionDecorator in Hrun. apply bind_ok in Hrun as ([] & x2 & Hc & _). apply lift_ok in Hc as [Hc _].
  pose proof (validate_visible _ _ _ Hv Hm) as Hvm. pose proof (validate_visible _ _ _ Hc Hm) as Hcm.
  split.
  - assert (Hraw : dec_raw (minCommission (D := D)) = 5 * 10^16) by (unfold minCommission; by rewrite raw_with_prec by lia).
    destruct m as [| |rate|[rate|]| |]; simpl in *; try done; apply ocheck_ok in Hcm; rewrite lt_spec in Hcm; bool_hyps; lia.
  - intros delegator amount va -> Hacc. rewrite <- Ht, <- Hb. simpl in Hvm. rewrite (Ha _ _ Hacc) in Hvm.
    apply obind_ok in Hvm as ([] & He & Hvm). apply ocheck_ok in He, Hvm. bool_hyps. split; [done|lia].
Qed.

(** C14: a transaction that is accepted without the Ethereum extension option, signed in the
    Cosmos or the EIP-712 way, creates or edits no validator with a commission below five per
    cent, and no delegator that has a clawback account in the state in which the transaction
    arrives delegates in one message more than that account has vested at the time of the
    block, and none that has vested nothing.  This holds of the messages the checks see, those
    of the transaction and those packed directly into a [MsgExec] of it.  The decorators of
    other modules that run before the checks are assumed to keep the accounts there are. *)
Theorem accepted_cosmos_tx recover_err ctx tx sim x c x' :
  NewAnteHandler (C := C) recover_err ctx tx sim x = (Ok c, x') →
  (∀ l, tx_options tx ≠ Some (eth_option :: l)) →
  ∀ m, visible tx m → commission_ok m ∧ delegation_ok (BlockTime ctx) x m.
Proof.
  intros Hrun Hopt. unfold NewAnteHandler, recovered in Hrun.
  pose proof (foreign_pass (C := C) (D := D) (X := X)) as Hf. repeat (apply Forall_cons in Hf as [? Hf]).
  assert (Hcosmos : ∀ x2, newCosmosAnteHandler (C := C) ctx tx sim x = (Ok c, x2) →
                    ∀ m, visible tx m → commission_ok m ∧ delegation_ok (BlockTime ctx) x m).
  { intros x2 Hr. unfold newCosmosAnteHandler in Hr. eapply (cosmos_checks (_ :: _ :: _ :: _ :: _ :: _ :: _ :: _ :: _ :: [_])); [|exact Hr].
    by repeat apply Forall_cons_2. }
  destruct (tx_options tx) as [[|typeURL l]|].
  - destruct (newCosmosAnteHandler _ _ _ _) as [[]?] eqn:E; simplify_eq/=; eauto.
  - destruct (String.eqb_spec typeURL eth_option) as [->|_]; [by specialize (Hopt l)|].
    destruct (String.eqb_spec typeURL web3_option) as [->|_]; [|done].
    destruct (newCosmosAnteHandlerEip712 _ _ _ _) as [[]?] eqn:E; simplify_eq/=.
    unfold newCosmosAnteHandlerEip712 in E. eapply (cosmos_checks (_ :: _ :: _ :: _ :: _ :: _ :: _ :: _ :: [_])); [|exact E].
    by repeat apply Forall_cons_2.
  - destruct (newCosmosAnteHandler _ _ _ _) as [[]?] eqn:E; simplify_eq/=; eauto.
Qed.

(** ** Ethereum transactions *)

Definition clawback_sender (x : X) (m : Msg D) : Prop :=
  ∃ from va, m = MsgEthereumTx from ∧ GetAccount (C := C) x from = Some (ClawbackAcc va).

(** The sender exists, and a clawback account has vested coins and no locked ones. *)
Definition eth_sender_ok (t : Z) (x : X) (m : Msg D) : Prop :=
  ∃ from acc, m = MsgEthereumTx from ∧ GetAccount (C := C) x from = Some acc ∧
    match acc with
    | ClawbackAcc va => coins_is_empty (GetVestedCoins va t) = false ∧ HasLockedCoins va t = Ok false
    | _ => True
    end.

Lemma check_eth_msgs_spec ctx (x : X) pre m post :
  check_eth_msgs (C := C) ctx x (pre ++ m :: post) = Ok tt → Forall (clawback_sender x) pre →
  eth_sender_ok (BlockTime ctx) x m.
Proof.
  intros Hc Hpre. induction Hpre as [|m0 pre (from & va & -> & Hacc) Hpre IH]; cbn [app check_eth_msgs] in Hc;
    apply obind_ok in Hc as (b & Hs & Hc).
  - unfold check_eth_sender in Hs. destruct m as [from| | | | |]; try done.
    destruct (GetAccount x from) as [acc|] eqn:Ea; [|done]. exists from, acc. split; [done|]. split; [done|].
    destruct acc as [va| |]; try done. apply obind_ok in Hs as ([] & He & Hs). apply ocheck_ok in He.
    apply obind_ok in Hs as (l & Hl & Hs). apply obind_ok in Hs as ([] & Hlk & _). apply ocheck_ok in Hlk. by subst l.
  - apply IH. unfold check_eth_sender in Hs. rewrite Hacc in Hs.
    apply obind_ok in Hs as ([] & _ & Hs). apply obind_ok in Hs as (l & _ & Hs). apply obind_ok in Hs as ([] & _ & Hs).
    injection Hs as <-. exact Hc.
Qed.

(** In an accepted Ethereum transaction every sender up to and including the first
    one without a clawback account exists, and the clawback accounts among them have
    vested coins and none that are still locked.  The first sender is always checked. *)
Lemma accepted_eth_tx recover_err ctx tx l sim x c x' :
  NewAnteHandler (C := C) recover_err ctx tx sim x = (Ok c, x') → tx_options tx = Some (eth_option :: l) →
  ∃ x1, keeps_accounts (C := C) x x1 ∧ ∀ pre m post, tx_msgs tx = pre ++ m :: post → Forall (clawback_sender x1) pre →
    eth_sender_ok (BlockTime ctx) x1 m.
Proof.
  intros Hrun Hopt. unfold NewAnteHandler, recovered in Hrun. rewrite Hopt in Hrun. simpl in Hrun.
  pose proof (foreign_pass (C := C) (D := D) (X := X)) as Hf. repeat (apply Forall_cons in Hf as [? Hf]).
  destruct (newEthAnteHandler ctx tx sim x) as [[]?] eqn:E; simplify_eq/=. unfold newEthAnteHandler in E.
  apply (chain_reaches [_; _; _; _; _; _; _] (EthVestingTransactionDecorator (C := C))) in E
    as (ctx1 & x1 & next & Ht & Hk & E & _); [|by repeat apply Forall_cons_2].
  unfold EthVestingTransactionDecorator in E. apply bind_ok in E as (x0 & x2 & Hg & E).
  unfold gets, id in Hg. injection Hg as <- <-. apply bind_ok in E as ([] & x2 & Hv & _). apply lift_ok in Hv as [Hv _].
  exists x1. split; [done|]. intros pre m post Hm Hpre. rewrite <- Ht. rewrite Hm in Hv. by eapply check_eth_msgs_spec.
Qed.

(** The messages the checks do not see.  Whatever is packed into a [MsgExec] that
    is itself packed into a [MsgExec] reaches the next handler unchecked by both
    Cosmos decorators, and so do all messages of an Ethereum transaction behind one
    whose sender has no clawback account. *)
Lemma unchecked_messages ctx (m : Msg D) o sim next (x : X) from acc msgs :
  let nested := mkTxn [MsgExec [Some (MsgExec [Some m])]] o in
  let batch := mkTxn (MsgEthereumTx from :: msgs) o in
  VestingDelegationDecorator (C := C) ctx nested sim next x = next ctx nested sim x ∧
  ValidatorCommissionDecorator ctx nested sim next x = next ctx nested sim x ∧
  (GetAccount (C := C) x from = Some acc → (∀ va, acc ≠ ClawbackAcc va) →
   EthVestingTransactionDecorator (C := C) ctx batch sim next x = next ctx batch sim x).
Proof.
  cbv zeta. split; [done|]. split; [done|]. intros Ha Hne. unfold EthVestingTransactionDecorator, bind, gets, lift, id.
  simpl. rewrite Ha. destruct acc as [va| |]; [by specialize (Hne va)|done..].
Qed.

(** Delegations are checked one by one: repeating an accepted one is accepted. *)
Lemma delegations_not_accumulated ctx (x : X) (m : Msg D) n :
  (∀ l, m ≠ MsgExec l) → vesting_validateMsg (C := C) ctx x m = Ok tt →
  validate_msgs (vesting_validateMsg (C := C) ctx x) (repeat m n) = Ok tt.
Proof.
  intros Hne Hm. induction n as [|n IH]; [done|]. cbn [repeat validate_msgs].
  assert ((match m with MsgExec packed => validate_packed (vesting_validateMsg (C := C) ctx x) packed
           | _ => vesting_validateMsg ctx x m end) = Ok tt) as ->; [|exact IH].
  destruct m; try exact Hm. by exfalso; eapply Hne.
Qed.

(** A panic behind the dispatch is returned as an error. *)
Lemma ante_never_panics recover_err ctx tx sim x : (NewAnteHandler (C := C) recover_err ctx tx sim x).1 ≠ Panic.
Proof. unfold NewAnteHandler, recovered. by destruct (_ x) as [[]?]. Qed.
End ante.

(** ** Gas of signatures *)

Lemma PubKey_nested_ind (P : PubKey → Prop) :
  P EthSecp256k1 → P Ed25519 → (∀ keys, Forall P keys → P (Multisig keys)) → P OtherKey → ∀ pk, P pk.
Proof.
  intros He Hd Hm Ho. fix IH 1. intros [| |keys|]; [exact He|exact Hd| |exact Ho].
  apply Hm. induction keys as [|k keys IHk]; constructor; [apply IH|exact IHk].
Qed.

(** [signed_by pk data n]: [data] is made of [n] signatures by Ethereum keys, in the
    shape of the multisignature key [pk]. *)
Inductive signed_by : PubKey → SignatureData → nat → Prop :=
  | sb_eth data : signed_by EthSecp256k1 data 1
  | sb_multi keys bits sigs n : signed_by_keys keys bits sigs n → signed_by (Multisig keys) (MultiSignatureData bits sigs) n
with signed_by_keys : list PubKey → list bool → list SignatureData → nat → Prop :=
  | sk_end keys sigs : signed_by_keys keys [] sigs 0
  | sk_rest bits sigs : existsb id bits = false → signed_by_keys [] bits sigs 0
  | sk_skip key keys bits sigs n : signed_by_keys keys bits sigs n → signed_by_keys (key :: keys) (false :: bits) sigs n
  | sk_sig key keys bits sig sigs m n :
      signed_by key sig m → signed_by_keys keys bits sigs n →
      signed_by_keys (key :: keys) (true :: bits) (sig :: sigs) (m + n).

(** A meter without a limit. *)
Definition count_gas (amount : Z) : M Z unit := modify (λ consumed, consumed + amount).

(** The gas of a signature.  The consumer accepts exactly the signatures made by
    Ethereum keys, alone or in multisignatures of any depth, and charges 21000 for each
    single signature in them; every other key, ed25519 included, is an error. *)
Lemma signature_gas ed25519Cost pk data g g' :
  SigVerificationGasConsumer count_gas ed25519Cost pk data g = (Ok tt, g') ↔
  ∃ n, signed_by pk data n ∧ g' = g + 21000 * Z.of_nat n.
Proof.
  revert data g g'. induction pk as [| |keys Hkeys|] using PubKey_nested_ind; intros data g g'.
  - split.
    + intros [= <-]. exists 1%nat. split; [constructor|]. done.
    + intros (n & Hs & ->). by inversion Hs.
  - split; [done|]. intros (n & Hs & _). by inversion Hs.
  - destruct data as [|bits sigs]; [split; [done|]; intros (n & Hs & _); by inversion Hs|].
    transitivity (∃ n, signed_by_keys keys bits sigs n ∧ g' = g + 21000 * Z.of_nat n).
    2: { split; intros (n & Hs & ->); exists n; (split; [|done]); [by constructor|by inversion Hs]. }
    cbn [SigVerificationGasConsumer]. revert bits sigs g.
    induction Hkeys as [|key keys Hkey Hkeys IH]; intros bits sigs g.
    + destruct (existsb id bits) eqn:Eb.
      * split; [done|]. intros (n & Hs & _). inversion Hs; subst; simpl in *; congruence.
      * split.
        -- intros [= <-]. exists 0%nat. split; [by constructor|lia].
        -- intros (n & Hs & ->). inversion Hs; subst; unfold ret; f_equal; lia.
    + destruct bits as [|[] bits].
      * split.
        -- intros [= <-]. exists 0%nat. split; [constructor|lia].
        -- intros (n & Hs & ->). inversion Hs; subst. unfold ret. f_equal; lia.
      * destruct sigs as [|sig sigs]; [split; [done|]; intros (n & Hs & _); by inversion Hs|]. split.
        -- intros Hrun. apply bind_ok in Hrun as ([] & g1 & H1 & H2). apply Hkey in H1 as (m & Hm & ->).
           apply IH in H2 as (n & Hn & ->). exists (m + n)%nat. split; [by constructor|]. lia.
        -- intros (k & Hs & ->). inversion Hs as [| | |? ? ? ? ? m n Hm Hn]; subst.
           unfold bind. rewrite (proj2 (Hkey sig g (g + 21000 * Z.of_nat m))) by eauto.
           apply IH. exists n. split; [done|]. lia.
      * rewrite IH. split; intros (n & Hs & ->); exists n; (split; [|done]); [by constructor|by inversion Hs].
  - split; [done|]. intros (n & Hs & _). by inversion Hs.
Qed.

(** ** Witnesses *)

Fixpoint run_chain (l : list (Decorator Z world)) : AnteHandler Z world :=
  match l with
  | [] => λ ctx _ _, ret ctx
  | d :: l => λ ctx tx sim, d ctx tx sim (run_chain l)
  end.
#[global] Instance w_chain : AnteChain Z world := {| ChainAnteDecorators := run_chain |}.

(** Foreign decorators that accept everything, and one that takes Alice's fee. *)
Definition through : Decorator Z world := λ ctx tx sim next, next ctx tx sim.
Definition deducts : Decorator Z world := λ ctx tx sim next,
  w_send "alice" (w_mod "fee_collector") {[ "aevmos"%string := 7 ]} ;;; next ctx tx sim.
#[global] Instance w_decorators : AnteDecorators Z world :=
  Build_AnteDecorators Z world through through through through through through through through through through
    through through through through through through through through through through deducts through through through
    through through through through.

Lemma through_passes : passes (C := coins) through.
Proof. intros ctx tx sim next x c x' Hrun. exists ctx, x. by repeat split. Qed.
Lemma deducts_passes : passes (C := coins) deducts.
Proof.
  intros ctx tx sim next x c x' Hrun. apply bind_ok in Hrun as ([] & x1 & Hs & Hrun). exists ctx, x1.
  split; [done|]. split; [|done]. unfold w_send in Hs. destruct (_ && _); [|done]. injection Hs as <-. by split.
Qed.
#[global] Instance w_ante_laws : AnteLaws coins Z world.
Proof.
  constructor.
  - intros d ds ctx tx sim. simpl. by destruct ds.
  - repeat constructor; first [exact through_passes|exact deducts_passes].
Qed.

(** Alice's clawback account has vested half of 100 coins, 60 of which are unlocked;
    Bob has an ordinary account. *)
Definition half (n : Z) : list (Period coins) := [mkPeriod 10 {[ "aevmos"%string := n ]}; mkPeriod 10 {[ "aevmos"%string := 100 - n ]}].
Definition alice_va : ClawbackVestingAccount coins :=
  mkVA (mkBase "alice" {[ "aevmos"%string := 100 ]} ∅ ∅ 120) "evmos1funder" (from_unix 100) (half 60) (half 50).
Definition ante_world : world :=
  mkWorld {[ "alice"%string := {[ "aevmos"%string := 100 ]} ]} ∅ {[ "alice"%string := ClawbackAcc alice_va; "bob"%string := PlainAcc "bob" ]} ∅ ∅ no_evm.
Definition at_time (t : Z) : Ctx := mkCtx (from_unix t) 3 "evmos_9001-2".

(** Alice delegates what she has vested, through an authorization, and a validator is
    created with the minimal commission. *)
Definition delegate_50 : Msg Z := MsgDelegate "alice" ("aevmos"%string, 50).
Definition cosmos_tx : Tx Z := mkTxn [MsgExec [Some delegate_50]; MsgCreateValidator (5 * 10^16)] None.

Lemma accepted_cosmos_tx_witness :
  (NewAnteHandler (C := coins) (ErrMsg "panic") (at_time 115) cosmos_tx false ante_world).1 = Ok (at_time 115) ∧
  w_lookup ante_world "alice" = Some (ClawbackAcc alice_va) ∧ 50 ≤ gcoins_amount (GetVestedOnly alice_va (from_unix 115)) "aevmos" ∧
  (NewAnteHandler (C := coins) (ErrMsg "panic") (at_time 105) cosmos_tx false ante_world).1 = Err ErrInsufficientVestedCoins.
Proof.
  destruct (NewAnteHandler (C := coins) (ErrMsg "panic") (at_time 115) cosmos_tx false ante_world) as [o x'] eqn:E.
  assert (o = Ok (at_time 115)) as -> by (apply (f_equal fst) in E; simpl in E; rewrite <- E; vm_compute; reflexivity).
  split; [done|]. split; [vm_compute; reflexivity|]. split; [|vm_compute; reflexivity].
  destruct (accepted_cosmos_tx (C := coins) (ErrMsg "panic") (at_time 115) cosmos_tx false ante_world (at_time 115) x' E ltac:(done) delegate_50)
    as [_ Hd]; [right; exists [Some delegate_50]; split; apply list_elem_of_here|].
  apply (Hd "alice" ("aevmos"%string, 50) alice_va); [done|vm_compute; reflexivity].
Defined.

(** After the lockup Alice sends Ethereum transactions. *)
Definition eth_tx : Tx Z := mkTxn [MsgEthereumTx "alice"] (Some [eth_option]).

Lemma accepted_eth_tx_witness :
  NewAnteHandler (C := coins) (ErrMsg "panic") (at_time 120) eth_tx false ante_world = (Ok (at_time 120), ante_world) ∧
  ∃ x1, eth_sender_ok (C := coins) (D := Z) (from_unix 120) x1 (MsgEthereumTx "alice").
Proof.
  assert (E : NewAnteHandler (C := coins) (ErrMsg "panic") (at_time 120) eth_tx false ante_world = (Ok (at_time 120), ante_world))
    by (vm_compute; reflexivity).
  split; [exact E|].
  destruct (accepted_eth_tx (C := coins) (ErrMsg "panic") (at_time 120) eth_tx [] false ante_world (at_time 120) ante_world E eq_refl)
    as (x1 & _ & Hx1).
  exists x1. apply (Hx1 [] (MsgEthereumTx "alice") []); [reflexivity|constructor].
Defined.

(** Before that she is refused alone and accepted behind Bob. *)
Lemma unchecked_messages_witness :
  (EthVestingTransactionDecorator (C := coins) (at_time 105) eth_tx false (λ ctx _ _, ret ctx) ante_world).1
    = Err ErrInsufficientVestedCoins ∧
  EthVestingTransactionDecorator (C := coins) (at_time 105)
    (mkTxn [MsgEthereumTx "bob"; MsgEthereumTx (D := Z) "alice"] (Some [eth_option])) false (λ ctx _ _, ret ctx) ante_world
    = (Ok (at_time 105), ante_world).
Proof.
  split; [vm_compute; reflexivity|].
  refine (proj2 (proj2 (unchecked_messages (C := coins) (D := Z) (at_time 105) MsgOther (Some [eth_option]) false (λ ctx _ _, ret ctx)
    ante_world "bob" (PlainAcc "bob") [MsgEthereumTx "alice"])) _ _).
  - vm_compute. reflexivity.
  - done.
Defined.
