(* ===== verification/Queries.v ===== *)
(** * The lists the modules serve: [x/*/keeper/grpc_query.go]

    A paginated query walks the store of its prefix and lists the entries of the
    requested page. *)

From S2P Require Import Prelude Sdk Dec Keepers Erc20Types Epochs Ibc Claims Erc20 Evm Incentives Feesplit.

(** [query.Paginate(store, req.Pagination, ...)] for one request: the entries of the
    page, in the order of the store. *)
Class Pagination := { paginate {V} : list (string * V) → outcome (list (string * V)) }.

(** A page that holds all the entries. *)
Definition whole_page (page : Pagination) : Prop := ∀ V (l : list (string * V)), paginate l = Ok l.

(** A page is a part of the store. *)
Class PaginationLaws `{Pagination} := {
  page_sublist V (l p : list (string * V)) : paginate l = Ok p → p `sublist_of` l;
}.

Section queries.
Context {D X : Type} `{SdkAddress, EthAddress, Pagination}.

Definition query_EpochInfos (s : epoch_state X) : outcome (list EpochInfo) :=
  let? page := paginate (kv_iter (epochs s)) in Ok page.*2.

Definition query_ClaimsRecords (s : claims_state X) : outcome (list ClaimsRecordAddress) :=
  let? page := paginate (kv_iter (c_records s)) in
  Ok ((λ kv, mkCRA (acc_string kv.1) (InitialClaimableAmount kv.2) (ActionsCompleted kv.2)) <$> page).

Definition query_TokenPairs (s : erc20_state X) : outcome (list TokenPair) :=
  let? page := paginate (kv_iter (e_pairs s)) in Ok page.*2.

Definition query_Incentives (s : incentives_state D X) : outcome (list (Incentive D)) :=
  let? page := paginate (kv_iter (n_incentives s)) in Ok page.*2.

Definition query_GasMeters (contract : string) (s : incentives_state D X) : outcome (list GasMeter) :=
  let? _ := ocheck (is_blank contract) ErrInvalidRequest in
  let? _ := ocheck (negb (validate_address contract)) ErrInvalidRequest in
  let? page := paginate (prefix_store (hex_to_address contract) (n_gas s)) in
  Ok ((λ kv, mkGasMeter contract (address_hex (bytes_to_address kv.1)) kv.2) <$> page).

Definition query_AllocationMeters (s : incentives_state D X) : outcome (list (DecCoin D)) :=
  let? page := paginate (kv_iter (n_meters s)) in
  Ok ((λ kv, mkDecCoin kv.1 kv.2) <$> page).
End queries.

Section props.
Context {D X : Type} `{SdkAddress, EthAddressLaws, PaginationLaws}.

(** A list shows only what is stored. *)
Lemma page_entry {V} (m : gmap string V) p k v : paginate (kv_iter m) = Ok p → (k, v) ∈ p → m !! k = Some v.
Proof.
  intros Hp Hin. apply page_sublist in Hp. apply elem_of_kv_iter. by eapply elem_of_sublist.
Qed.

Lemma epochs_listed (s : epoch_state X) l e :
  query_EpochInfos s = Ok l → (∀ k e, epochs s !! k = Some e → Identifier e = k) → e ∈ l →
  GetEpochInfo s (Identifier e) = Some e.
Proof.
  unfold query_EpochInfos. intros Hq Hkey Hin. apply obind_ok in Hq as (page & Hp & Hq). injection Hq as <-.
  apply list_elem_of_fmap in Hin as ([k e'] & -> & Hin). pose proof (page_entry _ _ _ _ Hp Hin) as Hk. simpl.
  unfold GetEpochInfo. by rewrite (Hkey k e' Hk).
Qed.

Lemma claims_listed (s : claims_state X) l cra :
  query_ClaimsRecords s = Ok l → cra ∈ l →
  ∃ addr, cra_Address cra = acc_string addr ∧
    GetClaimsRecord s addr = Some (mkCR (cra_InitialClaimableAmount cra) (cra_ActionsCompleted cra)).
Proof.
  unfold query_ClaimsRecords. intros Hq Hin. apply obind_ok in Hq as (page & Hp & Hq). injection Hq as <-.
  apply list_elem_of_fmap in Hin as ([k cr] & -> & Hin). exists k. split; [done|].
  pose proof (page_entry _ _ _ _ Hp Hin) as Hk. unfold GetClaimsRecord. rewrite Hk. by destruct cr.
Qed.

(** The entry of a prefix store, with its prefix put back. *)
Lemma prefix_entry {V} prefix (m : gmap string V) k v :
  (k, v) ∈ prefix_store prefix m → m !! String.append prefix k = Some v.
Proof.
  unfold prefix_store. rewrite list_elem_of_fmap. intros ([k0 v0] & E & Hin). simpl in E. injection E as -> ->.
  apply list_elem_of_filter in Hin as [Hpre Hin]. apply elem_of_kv_iter in Hin. simpl in Hpre.
  enough (Hk : String.append prefix (drop_chars (String.length prefix) k0) = k0) by (by rewrite Hk).
  clear -Hpre. revert k0 Hpre. induction prefix as [|a p IH]; intros k0 Hpre; simpl in *.
  - unfold drop_chars. rewrite Nat.sub_0_r. apply substring_all.
  - destruct k0 as [|b k0]; [done|]. simpl in Hpre. destruct (Ascii.ascii_dec a b) as [->|]; [|done].
    transitivity (String b (String.append p (drop_chars (String.length p) k0))); [done|]. by rewrite IH.
Qed.

Lemma drop_append p k : drop_chars (String.length p) (String.append p k) = k.
Proof.
  induction p as [|a p IH]; [unfold drop_chars; simpl; rewrite Nat.sub_0_r; apply substring_all|]. exact IH.
Qed.

(** And every entry with the prefix is in the prefix store. *)
Lemma prefix_member {V} prefix (m : gmap string V) k v :
  m !! String.append prefix k = Some v → (k, v) ∈ prefix_store prefix m.
Proof.
  intros Hk. unfold prefix_store. apply list_elem_of_fmap. exists (String.append prefix k, v). simpl.
  rewrite drop_append. split; [done|]. apply list_elem_of_filter. split; [apply prefix_append|by apply elem_of_kv_iter].
Qed.

(** A listed gas meter is the one of its contract and its participant. *)
Lemma gas_meters_listed (s : incentives_state D X) contract l gm :
  query_GasMeters contract s = Ok l → (∀ k, is_Some (n_gas s !! k) → String.length k = 40%nat) → gm ∈ l →
  gm_Contract gm = contract ∧
  GetGasMeter s (hex_to_address contract) (hex_to_address (gm_Participant gm)) = Some (CumulativeGas gm).
Proof.
  unfold query_GasMeters. intros Hq Hlen Hin. inv_ok.
  apply list_elem_of_fmap in Hin as ([k g] & -> & Hin). split; [done|]. simpl.
  match goal with Hp : paginate _ = Ok _ |- _ => apply page_sublist in Hp; pose proof (elem_of_sublist _ _ _ Hin Hp) as He end.
  apply prefix_entry in He. assert (Hk : String.length k = 20%nat).
  { assert (Hl : String.length (String.append (hex_to_address contract) k) = 40%nat) by (apply Hlen; eauto).
    rewrite length_append, hex_to_address_length in Hl. lia. }
  unfold GetGasMeter, gas_key. by rewrite bytes_to_address_id, hex_roundtrip.
Qed.
End props.
