(* ===== verification/App.v ===== *)
(** * The application: [app/app.go], [app/forks.go], [app/tps_counter.go]

    The modules of the previous files put together: the stores of the chain, the
    order in which the module manager visits the modules, the hooks each module
    registers with the others, the accounts of the modules, and the block
    handlers. *)

From S2P Require Import Prelude Sdk Dec Keepers EvmosUtils Evm Erc20Types Epochs Inflation Ibc Claims Erc20 Incentives Feesplit Recovery.

(** ** The stores

    Every module's state contains the part of the multi-store outside the module.
    [Store F] says that [F X] is a module's own store and such a part, so that one
    multi-store is the own stores of all modules and one part [X] of the foreign
    modules. *)

Class Store (F : Type → Type) := {
  store_ext {X} : F X → X;
  store_with {X Y} : Y → F X → F Y;
  store_ext_with {X Y} (y : Y) (s : F X) : store_ext (store_with y s) = y;
  store_with_with {X Y Z} (z : Z) (y : Y) (s : F X) : store_with z (store_with y s) = store_with z s;
  store_with_ext {X} (s : F X) : store_with (store_ext s) s = s;
}.

#[global] Program Instance claims_store : Store claims_state := {
  store_ext _ := c_ext;
  store_with _ _ y s := mkClaims (c_params s) (c_records s) y;
}.
Solve All Obligations with (by intros; simpl; try (match goal with s : claims_state _ |- _ => destruct s end)).

#[global] Program Instance erc20_store : Store erc20_state := {
  store_ext _ := e_ext;
  store_with _ _ y s := mkErc20 (e_params s) (e_pairs s) (e_byERC20 s) (e_byDenom s) y;
}.
Solve All Obligations with (by intros; simpl; try (match goal with s : erc20_state _ |- _ => destruct s end)).

#[global] Program Instance infl_store D : Store (infl_state D) := {
  store_ext _ := i_ext;
  store_with _ _ y s := mkInfl (i_params s) (i_period s) (i_provision s) (i_identifier s) (i_epochsPerPeriod s) (i_skipped s) y;
}.
Solve All Obligations with (by intros; simpl; try (match goal with s : infl_state _ _ |- _ => destruct s end)).

#[global] Program Instance incentives_store D : Store (incentives_state D) := {
  store_ext _ := n_ext;
  store_with _ _ y s := mkInc (n_params s) (n_incentives s) (n_gas s) (n_meters s) y;
}.
Solve All Obligations with (by intros; simpl; try (match goal with s : incentives_state _ _ |- _ => destruct s end)).

#[global] Program Instance feesplit_store D : Store (feesplit_state D) := {
  store_ext _ := f_ext;
  store_with _ _ y s := mkFee (f_params s) (f_splits s) (f_deployer s) (f_withdrawer s) y;
}.
Solve All Obligations with (by intros; simpl; try (match goal with s : feesplit_state _ _ |- _ => destruct s end)).

(** The keepers of [Evmos] with a store, the epochs module apart. *)
Record app_stores (D X : Type) := mkApp {
  a_infl : infl_state D unit;
  a_incentives : incentives_state D unit;
  a_feesplit : feesplit_state D unit;
  a_erc20 : erc20_state unit;
  a_claims : claims_state unit;
  a_recovery : RecoveryParams;
  a_ext : X;
}.
Arguments mkApp {D X} _ _ _ _ _ _ _.
Arguments a_infl {D X} _.
Arguments a_incentives {D X} _.
Arguments a_feesplit {D X} _.
Arguments a_erc20 {D X} _.
Arguments a_claims {D X} _.
Arguments a_recovery {D X} _.
Arguments a_ext {D X} _.

Section stores.
Context {D X : Type}.
Implicit Types a : app_stores D X.

(** The state a module works on: its own store and the foreign part. *)
Definition infl_view a : infl_state D X := store_with (a_ext a) (a_infl a).
Definition incentives_view a : incentives_state D X := store_with (a_ext a) (a_incentives a).
Definition feesplit_view a : feesplit_state D X := store_with (a_ext a) (a_feesplit a).
Definition erc20_view a : erc20_state X := store_with (a_ext a) (a_erc20 a).
Definition claims_view a : claims_state X := store_with (a_ext a) (a_claims a).

Definition on_infl {A} (m : M (infl_state D X) A) : M (app_stores D X) A :=
  zoom infl_view (λ s a, mkApp (store_with tt s) (a_incentives a) (a_feesplit a) (a_erc20 a) (a_claims a)
                               (a_recovery a) (store_ext s)) m.
Definition on_incentives {A} (m : M (incentives_state D X) A) : M (app_stores D X) A :=
  zoom incentives_view (λ s a, mkApp (a_infl a) (store_with tt s) (a_feesplit a) (a_erc20 a) (a_claims a)
                                     (a_recovery a) (store_ext s)) m.
Definition on_feesplit {A} (m : M (feesplit_state D X) A) : M (app_stores D X) A :=
  zoom feesplit_view (λ s a, mkApp (a_infl a) (a_incentives a) (store_with tt s) (a_erc20 a) (a_claims a)
                                   (a_recovery a) (store_ext s)) m.
Definition on_erc20 {A} (m : M (erc20_state X) A) : M (app_stores D X) A :=
  zoom erc20_view (λ s a, mkApp (a_infl a) (a_incentives a) (a_feesplit a) (store_with tt s) (a_claims a)
                                (a_recovery a) (store_ext s)) m.
Definition on_claims {A} (m : M (claims_state X) A) : M (app_stores D X) A :=
  zoom claims_view (λ s a, mkApp (a_infl a) (a_incentives a) (a_feesplit a) (a_erc20 a) (store_with tt s)
                                 (a_recovery a) (store_ext s)) m.
End stores.

(** ** Modules and their order *)

(** The modules of [module.NewManager], by the package whose [ModuleName] the
    code uses. *)
Inductive AppModule : Type :=
  | m_genutil | m_auth | m_bank | m_capability | m_crisis | m_gov | m_slashing | m_distr | m_staking | m_upgrade
  | m_evidence | m_params | m_feegrant | m_authz | m_ibchost | m_ibctransfer | m_evm | m_feemarket
  | m_inflation | m_erc20 | m_incentives | m_epochs | m_claims | m_vesting | m_recovery | m_feesplit.

#[global] Instance AppModule_eq_dec : EqDecision AppModule.
Proof. solve_decision. Defined.

(** [app.mm = module.NewManager(...)] *)
Definition mm_modules : list AppModule :=
  [m_genutil; m_auth; m_bank; m_capability; m_crisis; m_gov; m_slashing; m_distr; m_staking; m_upgrade;
   m_evidence; m_params; m_feegrant; m_authz; m_ibchost; m_ibctransfer; m_evm; m_feemarket;
   m_inflation; m_erc20; m_incentives; m_epochs; m_claims; m_vesting; m_recovery; m_feesplit].

(** [ModuleBasics] *)
Definition ModuleBasics : list AppModule :=
  [m_auth; m_genutil; m_bank; m_capability; m_staking; m_distr; m_gov; m_params; m_crisis; m_slashing; m_ibchost;
   m_authz; m_feegrant; m_upgrade; m_evidence; m_ibctransfer; m_vesting; m_evm; m_feemarket; m_inflation; m_erc20;
   m_incentives; m_epochs; m_claims; m_recovery; m_feesplit].

Definition OrderBeginBlockers : list AppModule :=
  [m_upgrade; m_capability; m_epochs; m_feemarket; m_evm; m_distr; m_slashing; m_evidence; m_staking; m_ibchost;
   m_ibctransfer; m_auth; m_bank; m_gov; m_crisis; m_genutil; m_authz; m_feegrant; m_params; m_vesting; m_inflation;
   m_erc20; m_claims; m_incentives; m_recovery; m_feesplit].

Definition OrderEndBlockers : list AppModule :=
  [m_crisis; m_gov; m_staking; m_evm; m_feemarket; m_epochs; m_claims; m_ibchost; m_ibctransfer; m_capability;
   m_auth; m_bank; m_distr; m_slashing; m_genutil; m_evidence; m_authz; m_feegrant; m_params; m_upgrade; m_vesting;
   m_inflation; m_erc20; m_incentives; m_recovery; m_feesplit].

Definition OrderInitGenesis : list AppModule :=
  [m_capability; m_auth; m_bank; m_distr; m_claims; m_staking; m_slashing; m_gov; m_ibchost; m_evm; m_feemarket;
   m_genutil; m_evidence; m_ibctransfer; m_authz; m_feegrant; m_params; m_upgrade; m_vesting; m_inflation; m_erc20;
   m_incentives; m_epochs; m_recovery; m_feesplit; m_crisis].

(** ** Module accounts *)

Inductive ModuleAccount : Type :=
  | acc_fee_collector | acc_distr | acc_bonded_pool | acc_not_bonded_pool | acc_gov | acc_ibctransfer | acc_evm
  | acc_inflation | acc_erc20 | acc_claims | acc_incentives.

Inductive Permission : Type := Minter | Burner | Staking.

#[global] Instance ModuleAccount_eq_dec : EqDecision ModuleAccount.
Proof. solve_decision. Defined.
#[global] Instance Permission_eq_dec : EqDecision Permission.
Proof. solve_decision. Defined.

Definition maccPerms : list (ModuleAccount * list Permission) :=
  [(acc_fee_collector, []); (acc_distr, []); (acc_bonded_pool, [Burner; Staking]);
   (acc_not_bonded_pool, [Burner; Staking]); (acc_gov, [Burner]); (acc_ibctransfer, [Minter; Burner]);
   (acc_evm, [Minter; Burner]); (acc_inflation, [Minter]); (acc_erc20, [Minter; Burner]); (acc_claims, []);
   (acc_incentives, [Minter; Burner])].

Definition allowedReceivingModAcc (acc : ModuleAccount) : bool :=
  match acc with acc_distr | acc_incentives => true | _ => false end.

(** The addresses of the accounts: [authtypes.NewModuleAddress(acc).String()]. *)
Section accounts.
Variable address : ModuleAccount → string.

Definition ModuleAccountAddrs : gmap string bool :=
  foldl (λ m acc, <[address acc.1 := true]> m) ∅ maccPerms.

Definition BlockedAddrs : gmap string bool :=
  foldl (λ m acc, <[address acc.1 := negb (allowedReceivingModAcc acc.1)]> m) ∅ maccPerms.
End accounts.

(** ** Forks: [app/forks.go], [app/upgrades/v2], [v4], [v7] *)

Record Plan := mkPlan { plan_Name : string; plan_Height : Z; plan_Info : string }.

(** The [binaries] of an upgrade, as the constants [UpgradeInfo] spell them. *)
Definition quoted (s : string) : string := String (Ascii.ascii_of_nat 34) (s ++ String (Ascii.ascii_of_nat 34) "").

Definition upgrade_binary (version platform file : string) : string :=
  quoted platform ++ ":" ++
  quoted ("https://github.com/evmos/evmos/releases/download/v" ++ version ++ "/evmos_" ++ version ++ "_" ++ file).

Definition UpgradeInfo (version : string) : string :=
  "'{" ++ quoted "binaries" ++ ":{" ++
  upgrade_binary version "darwin/arm64" "Darwin_arm64.tar.gz" ++ "," ++
  upgrade_binary version "darwin/x86_64" "Darwin_x86_64.tar.gz" ++ "," ++
  upgrade_binary version "linux/arm64" "Linux_arm64.tar.gz" ++ "," ++
  upgrade_binary version "linux/x86_64" "Linux_x86_64.tar.gz" ++ "," ++
  upgrade_binary version "windows/x86_64" "Windows_x86_64.zip" ++ "}}'".

Definition v2_MainnetUpgradeHeight : Z := 58700.
Definition v4_MainnetUpgradeHeight : Z := 257850.
Definition v7_MainnetUpgradeHeight : Z := 2476000.

(** The plan of the fork at a height of the main network. *)
Definition fork_plan (height : Z) : option Plan :=
  if height =? v2_MainnetUpgradeHeight then Some (mkPlan "v2.0.0" height (UpgradeInfo "2.0.0"))
  else if height =? v4_MainnetUpgradeHeight then Some (mkPlan "v4.0.0" height (UpgradeInfo "4.0.0"))
  else if height =? v7_MainnetUpgradeHeight then Some (mkPlan "v7.0.0" height (UpgradeInfo "7.0.0"))
  else None.

(** [upgradekeeper.ScheduleUpgrade(ctx, plan)] *)
Class UpgradeKeeper (X : Type) := { ScheduleUpgrade : Plan → M X unit }.

(** ** Hooks and block handlers *)

(** The loops of the SDK and of Ethermint over what is registered with them:
    [evmkeeper.NewMultiEvmHooks], [govtypes.NewMultiGovHooks] and
    [stakingtypes.NewMultiStakingHooks] (for the two hooks a module of the chain
    implements), [module.Manager.BeginBlock] and [EndBlock]. *)
Class AppRunners := {
  NewMultiEvmHooks {S} : list (Ctx → EvmTx → M S unit) → Ctx → EvmTx → M S unit;
  NewMultiGovHooks {S} : list (Ctx → string → M S unit) → Ctx → string → M S unit;
  NewMultiStakingHooks {S} : list (Ctx → string → M S unit) → Ctx → string → M S unit;
  mm_BeginBlock {S} : list AppModule → (AppModule → M S unit) → M S unit;
  mm_EndBlock {S} : list AppModule → (AppModule → M S unit) → M S unit;
}.

(** They run everything in the given order and stop at the first failure. *)
Class AppRunnersLaws `{AppRunners} := {
  multi_evm_hooks S (l : list (Ctx → EvmTx → M S unit)) ctx tx s :
    NewMultiEvmHooks l ctx tx s = foreach l (λ h, h ctx tx) s;
  multi_gov_hooks S (l : list (Ctx → string → M S unit)) ctx voter s :
    NewMultiGovHooks l ctx voter s = foreach l (λ h, h ctx voter) s;
  multi_staking_hooks S (l : list (Ctx → string → M S unit)) ctx delegator s :
    NewMultiStakingHooks l ctx delegator s = foreach l (λ h, h ctx delegator) s;
  mm_begin_block S l (f : AppModule → M S unit) s : mm_BeginBlock l f s = foreach l f s;
  mm_end_block S l (f : AppModule → M S unit) s : mm_EndBlock l f s = foreach l f s;
}.

Section app.
Context {C D X : Type} `{SdkCoins C, SdkDec D, Ethermint, SdkAddress, EthAddress, Erc20Abi, AppRunners}.
Context `{!AccountKeeper C X, !BankKeeper C X, !DistrKeeper C X, !StakingKeeper X, !EvmKeeper X, !AccountTypes X}.
Context `{!UpgradeKeeper X}.
(** [authtypes.FeeCollectorName], [host.ChannelIdentifierValidator] *)
Variable feeCollectorName : string.
Variable channel_id_valid : string → bool.
Local Abbreviation app := (app_stores D X).
Local Abbreviation chain := (epoch_state app).

(** *** The hooks of the EVM, of epochs, governance and staking *)

(** [evmkeeper.NewMultiEvmHooks(erc20, incentives, feesplit, claims)] *)
Definition evm_hooks : list (Ctx → EvmTx → M app unit) := [
  (λ _ tx, on_erc20 (erc20_PostTxProcessing (C := C) (tx_Logs tx)));
  (λ _ tx, on_incentives (incentives_PostTxProcessing (C := C) tx));
  (λ _ tx, on_feesplit (feesplit_PostTxProcessing (C := C) feeCollectorName tx));
  (λ ctx tx, on_claims (claims_PostTxProcessing (D := D) (C := C) ctx (tx_From tx)))].

Definition app_PostTxProcessing : Ctx → EvmTx → M app unit := NewMultiEvmHooks evm_hooks.

(** A receiver of the hooks of the epochs module, on the whole state. *)
Definition receiver {S} (on : M S unit → M app unit) (h : EpochHooks S) : EpochHooks app :=
  mkHooks (λ ctx id n, on (AfterEpochEnd h ctx id n)) (λ ctx id n, on (BeforeEpochStart h ctx id n)).

(** [epochskeeper.NewMultiEpochHooks(incentives, inflation)] *)
Definition epoch_hooks : EpochHooks app := MultiEpochHooks [
  receiver on_incentives (incentives_Hooks (C := C));
  receiver on_infl (infl_Hooks (C := C) feeCollectorName)].

(** [govtypes.NewMultiGovHooks(claims)] *)
Definition app_AfterProposalVote : Ctx → string → M app unit :=
  NewMultiGovHooks [λ ctx voter, on_claims (AfterProposalVote (D := D) (C := C) ctx voter)].

(** [stakingtypes.NewMultiStakingHooks(distr, slashing, claims)] *)
Definition app_AfterDelegationModified (distr slashing : Ctx → string → M app unit)
    : Ctx → string → M app unit :=
  NewMultiStakingHooks [distr; slashing;
    λ ctx delegator, on_claims (AfterDelegationModified (D := D) (C := C) ctx delegator)].

(** *** Blocks *)

Definition on_app {A} (m : M app A) : M chain A :=
  zoom es_ext (λ a c, mkES (epochs c) (es_events c) a) m.

Definition on_ext {A} (m : M X A) : M app A :=
  zoom a_ext (λ x a, mkApp (a_infl a) (a_incentives a) (a_feesplit a) (a_erc20 a) (a_claims a) (a_recovery a) x) m.

Definition ScheduleForkUpgrade (ctx : Ctx) : M X unit :=
  if negb (IsMainnet (ChainID ctx)) then ret tt else
  match fork_plan (BlockHeight ctx) with
  | None => ret tt
  | Some upgradePlan => must (ScheduleUpgrade upgradePlan)
  end.

(** The block handlers of the modules: [x/*/module.go] for those of the chain;
    the others are foreign. *)
Variable foreign_BeginBlock foreign_EndBlock : AppModule → Ctx → M chain unit.

Definition module_BeginBlock (ctx : Ctx) (m : AppModule) : M chain unit :=
  match m with
  | m_epochs => Epochs.BeginBlocker epoch_hooks ctx
  | m_inflation | m_erc20 | m_incentives | m_claims | m_vesting | m_recovery | m_feesplit => ret tt
  | _ => foreign_BeginBlock m ctx
  end.

Definition module_EndBlock (ctx : Ctx) (m : AppModule) : M chain unit :=
  match m with
  | m_claims => on_app (on_claims (EndBlocker (C := C) channel_id_valid ctx))
  | m_epochs | m_inflation | m_erc20 | m_incentives | m_vesting | m_recovery | m_feesplit => ret tt
  | _ => foreign_EndBlock m ctx
  end.

Definition app_BeginBlocker (ctx : Ctx) : M chain unit :=
  on_app (on_ext (ScheduleForkUpgrade ctx)) ;;;
  mm_BeginBlock OrderBeginBlockers (module_BeginBlock ctx).

Definition app_EndBlocker (ctx : Ctx) : M chain unit :=
  mm_EndBlock OrderEndBlockers (module_EndBlock ctx).
End app.

(** ** Counting transactions: [app/tps_counter.go] *)

(** The counters are shared with the goroutine that reports them, which loads
    them one after the other ([latest] is the first load of a report under way). *)
Record tpsCounter := mkTps {
  nSuccessful : Z;            (* uint64 *)
  NFailed : Z;                (* uint64 *)
  latest : option Z;
  lastNSuccessful : Z;
  lastNFailed : Z;
  reports : list Z;
}.

Definition newTPSCounter : tpsCounter := mkTps 0 0 None 0 0 [].

(** The value of [recordValue], when the tag can be set. *)
Definition recordValue (latest previous : Z) : Z :=
  if latest <? previous then 0 else
  let n := wrap64 (wrapu64 (latest - previous)) in
  if n <? 0 then 0 else n.

Definition incrementSuccess (t : tpsCounter) : tpsCounter :=
  mkTps (wrapu64 (nSuccessful t + 1)) (NFailed t) (latest t) (lastNSuccessful t) (lastNFailed t) (reports t).
Definition incrementFailure (t : tpsCounter) : tpsCounter :=
  mkTps (nSuccessful t) (wrapu64 (NFailed t + 1)) (latest t) (lastNSuccessful t) (lastNFailed t) (reports t).

(** The deferred function of [DeliverTx]. *)
Definition count_tx (failed : bool) : tpsCounter → tpsCounter :=
  if failed then incrementFailure else incrementSuccess.

(** The turn of the loop of [start]: the two loads, then the report. *)
Definition load_successful (t : tpsCounter) : tpsCounter :=
  mkTps (nSuccessful t) (NFailed t) (Some (nSuccessful t)) (lastNSuccessful t) (lastNFailed t) (reports t).

Definition report (latestNSuccessful : Z) (t : tpsCounter) : tpsCounter :=
  let latestNFailed := NFailed t in
  let nTxn := recordValue latestNSuccessful (lastNSuccessful t) +i recordValue latestNFailed (lastNFailed t) in
  mkTps (nSuccessful t) (NFailed t) None latestNSuccessful latestNFailed (reports t ++ [nTxn]).

(** Transactions and the loop, interleaved; the index counts the transactions. *)
Inductive tps_step : nat * tpsCounter → nat * tpsCounter → Prop :=
  | tps_tx n t failed : tps_step (n, t) (S n, count_tx failed t)
  | tps_load n t : latest t = None → tps_step (n, t) (n, load_successful t)
  | tps_report n t l : latest t = Some l → tps_step (n, t) (n, report l t).
