(* ===== verification/AppProps.v ===== *)
(** * Properties of the application

    The hooks of the modules run together, the block handlers drive the modules,
    and the tables of [app.go] are complete. *)

From S2P Require Import Prelude Sdk Dec SdkInstances Keepers KeeperInstances EvmosUtils Evm Erc20Types Epochs EpochsProps Inflation InflationProps Ibc Claims ClaimsProps Erc20 Erc20Instances Erc20Props Incentives IncentivesProps Feesplit FeesplitProps Recovery App.

(** ** The hooks of a transaction *)

Section hooks.
Context {C D X : Type} `{SdkCoinsLaws C, SdkDecLaws D, !DecCoins D, !DecCoinsLaws D, SdkAddressLaws, EthAddressLaws}.
Context `{Erc20Abi, AppRunnersLaws}.
Context `{!AccountKeeper C X, !BankKeeper C X, !DistrKeeper C X, !EvmKeeper X, !BankMeta X, !AccountTypes X}.
Context `{!BankLaws C X, !EvmLaws C X}.
Context (feeCollectorName : string).
Implicit Types a : app_stores D X.

(** The incentives after the gas of a transaction was counted. *)
Definition gas_counted (tx : EvmTx) (s : incentives_state D X) : incentives_state D X :=
  match counted (C := C) tx s with None => s | Some (contract, i) => counted_state tx contract i s end.

(** What each hook does on the whole state. *)
Definition with_ext (x : X) a : app_stores D X :=
  mkApp (a_infl a) (a_incentives a) (a_feesplit a) (a_erc20 a) (a_claims a) (a_recovery a) x.

Lemma erc20_stage logs a o a1 :
  on_erc20 (erc20_PostTxProcessing (C := C) logs) a = (o, a1) → o ≠ Panic →
  o = Ok tt ∧ ∃ x, a1 = with_ext x a ∧
    erc20_PostTxProcessing (C := C) logs (erc20_view a) = (Ok tt, store_with x (a_erc20 a)).
Proof.
  intros Hrun Hp. apply zoom_run in Hrun as (s1 & E1 & ->).
  pose proof (hooks_never_err (C := C) logs (erc20_view a)) as Hne. rewrite E1 in Hne.
  destruct o as [[]|e|]; [|by destruct (Hne e)|done]. split; [done|].
  pose proof (hooks_same_registry _ _ _ E1) as (Ep & Eq & Ee & Ed). exists (e_ext s1).
  assert (Es : s1 = store_with (e_ext s1) (a_erc20 a)) by (destruct s1; simpl in *; by subst).
  split; [|by rewrite <- Es]. unfold with_ext. f_equal. rewrite Es. simpl. by destruct (a_erc20 a) as [? ? ? ? []].
Qed.

Lemma incentives_stage tx a :
  on_incentives (incentives_PostTxProcessing (C := C) tx) a =
  (Ok tt, mkApp (a_infl a) (store_with tt (gas_counted tx (incentives_view a))) (a_feesplit a) (a_erc20 a) (a_claims a)
                (a_recovery a) (a_ext a)).
Proof.
  unfold on_incentives, zoom. rewrite post_tx_spec. f_equal. f_equal.
  unfold gas_counted. by destruct (counted tx (incentives_view a)) as [[contract i]|].
Qed.

Lemma feesplit_stage tx a :
  fee_inv (feesplit_view a) →
  ∃ paid x2, on_feesplit (feesplit_PostTxProcessing (C := C) feeCollectorName tx) a = (paid, with_ext x2 a) ∧
    match split_of tx (feesplit_view a) with
    | None => paid = Ok tt ∧ x2 = a_ext a
    | Some fs => ∃ w, payee fs = Some w ∧
        SendCoinsFromModuleToAccount feeCollectorName w
          (coins_lit (C := C) (evm_denom (X := X)) (developer_fee (f_params (a_feesplit a)) tx)) (a_ext a) = (paid, x2)
    end.
Proof.
  intros Hinv. pose proof (post_tx_run feeCollectorName tx _ Hinv) as Hpost. unfold on_feesplit, zoom.
  assert (Ef : store_with tt (store_with (a_ext a) (a_feesplit a)) = a_feesplit a)
    by (destruct (a_feesplit a) as [? ? ? ? []]; done).
  destruct (split_of tx (feesplit_view a)) as [fs|].
  - destruct Hpost as (w & Hw & ->). unfold fext, zoom. simpl.
    destruct (SendCoinsFromModuleToAccount _ _ _ _) as [o x] eqn:Es. exists o, x. split; [|by exists w].
    unfold with_ext. f_equal. f_equal. simpl in Ef. by rewrite <- Ef at 5.
  - rewrite Hpost. exists (Ok tt), (a_ext a). split; [|done]. unfold with_ext, feesplit_view. by rewrite Ef.
Qed.

Lemma claims_stage ctx from a o a1 :
  on_claims (claims_PostTxProcessing (D := D) (C := C) ctx from) a = (o, a1) → o ≠ Panic →
  o = Ok tt ∧ claims_PostTxProcessing (D := D) (C := C) ctx from (claims_view a) = (Ok tt, claims_view a1) ∧
  a1 = mkApp (a_infl a) (a_incentives a) (a_feesplit a) (a_erc20 a) (a_claims a1) (a_recovery a) (a_ext a1).
Proof.
  intros Hrun Hp. apply zoom_run in Hrun as (s1 & E1 & ->). simpl.
  assert (Hne : never_err (claims_PostTxProcessing (D := D) (C := C) (X := X) ctx from)).
  { apply never_err_bind; [apply never_err_gets|]. intros p. apply never_err_bind; [apply never_err_gets|].
    intros [cr|]; [|apply never_err_ret]. apply never_err_bind; [apply never_err_try|]. intros r. apply never_err_ret. }
  specialize (Hne (claims_view a)). rewrite E1 in Hne. destruct o as [[]|e|]; [|by destruct (Hne e)|done].
  repeat split. rewrite E1. by destruct s1.
Qed.

(** C17: the hooks of a transaction run in the order erc20, incentives, feesplit, claims,
    each on what the previous ones left of the balances, and write only to their own
    stores.  The transaction fails exactly when the transfer of the developer's fee
    fails: the conversions and the gas meters cannot fail it, and a claim that fails is
    dropped.  After a failed transfer the claim is not made. *)
Theorem evm_hooks_compose ctx tx a o a' :
  feesplit_reachable (C := C) feeCollectorName (feesplit_view a) →
  app_PostTxProcessing (C := C) feeCollectorName ctx tx a = (o, a') → o ≠ Panic →
  a_infl a' = a_infl a ∧ a_erc20 a' = a_erc20 a ∧ a_feesplit a' = a_feesplit a ∧ a_recovery a' = a_recovery a ∧
  ∃ x1, erc20_PostTxProcessing (C := C) (tx_Logs tx) (erc20_view a) = (Ok tt, store_with x1 (a_erc20 a)) ∧
    a_incentives a' = store_with tt (gas_counted tx (store_with x1 (a_incentives a))) ∧
    ∃ paid x2,
      match split_of tx (feesplit_view a) with
      | None => paid = Ok tt ∧ x2 = x1
      | Some fs => ∃ w, payee fs = Some w ∧
          SendCoinsFromModuleToAccount feeCollectorName w
            (coins_lit (C := C) (evm_denom (X := X)) (developer_fee (f_params (a_feesplit a)) tx)) x1 = (paid, x2)
      end ∧
      match paid with
      | Ok _ => o = Ok tt ∧
          claims_PostTxProcessing (D := D) (C := C) ctx (tx_From tx) (store_with x2 (a_claims a)) = (Ok tt, claims_view a')
      | _ => o = paid ∧ a_claims a' = a_claims a ∧ a_ext a' = x2
      end.
Proof.
  intros Hr Hrun Hp. apply feesplit_reachable_inv in Hr. unfold app_PostTxProcessing in Hrun.
  rewrite multi_evm_hooks in Hrun. simpl in Hrun. unfold bind in Hrun.
  destruct (on_erc20 _ a) as [o1 a1] eqn:E1.
  destruct (erc20_stage _ _ _ _ E1) as (-> & x1 & -> & Hc); [intros ->; by injection Hrun as <- <-|].
  rewrite incentives_stage in Hrun.
  match type of Hrun with context [on_feesplit _ ?b] => set (a2 := b) in Hrun end.
  destruct (feesplit_stage tx a2) as (paid & x2 & E3 & Hpaid); [by destruct Hr; constructor|]. rewrite E3 in Hrun.
  assert (Hcl : match paid with
    | Ok _ => o = Ok tt ∧ claims_PostTxProcessing (D := D) (C := C) ctx (tx_From tx) (store_with x2 (a_claims a))
                          = (Ok tt, claims_view a') ∧
              a' = mkApp (a_infl a) (a_incentives a2) (a_feesplit a) (a_erc20 a) (a_claims a') (a_recovery a) (a_ext a')
    | _ => o = paid ∧ a' = with_ext x2 a2
    end).
  { destruct paid as [[]|e|]; [|by injection Hrun as <- <-..].
    destruct (on_claims _ _) as [o4 a4] eqn:E4.
    destruct (claims_stage _ _ _ _ _ E4) as (-> & Hcl & Ha); [intros ->; by injection Hrun as <- <-|].
    injection Hrun as <- <-. done. }
  assert (Ha : a_infl a' = a_infl a ∧ a_erc20 a' = a_erc20 a ∧ a_feesplit a' = a_feesplit a ∧ a_recovery a' = a_recovery a ∧
               a_incentives a' = a_incentives a2).
  { destruct paid as [[]|e|]; [destruct Hcl as (_ & _ & ->)|destruct Hcl as (_ & ->)..]; done. }
  destruct Ha as (-> & -> & -> & -> & ->). repeat (split; [done|]). exists x1. split; [exact Hc|]. split; [done|].
  exists paid, x2. split; [exact Hpaid|]. destruct paid as [[]|e|].
  - by destruct Hcl as (? & ? & _).
  - by destruct Hcl as (-> & ->).
  - by destruct Hcl as (-> & ->).
Qed.
End hooks.

(** ** Blocks *)

Section blocks.
Context {C D X : Type} `{SdkCoinsLaws C, SdkDecLaws D, !DecCoins D, !DecCoinsLaws D, EthAddressLaws, Ethermint}.
Context `{SdkAddress, AppRunnersLaws, !UpgradeKeeper X}.
Context `{!AccountKeeper C X, !BankKeeper C X, !DistrKeeper C X, !StakingKeeper X, !EvmKeeper X, !AccountTypes X}.
Context `{!BankLaws C X, !DistrLaws C X, !StakingLaws X}.
Context (feeCollectorName : string) (validate_abstract : IncentiveProposal D → option error).
Implicit Types a : app_stores D X.
Local Abbreviation hooks := (epoch_hooks (C := C) (D := D) (X := X) feeCollectorName).
Local Abbreviation inc_step := (incentives_step (C := C) (X := X) validate_abstract).

(** The inflation module sees its own hook and changes of the balances. *)
Lemma app_drives_inflation : drives_inflation (C := C) feeCollectorName hooks infl_view.
Proof.
  constructor.
  - intros ctx id n a a' Hrun. simpl in Hrun.
    apply bind_ok in Hrun as ([] & a1 & Hi & Hrun). apply bind_ok in Hrun as ([] & a2 & Hf & Hrun). inv_ok.
    apply zoom_run in Hi as (s1 & _ & ->). apply zoom_run in Hf as (s2 & Hf & ->).
    eexists _, s2. split; [|split; [|exact Hf]]; [by exists (n_ext s1)|]. exists (i_ext s2). by destruct s2.
  - intros ctx id n a a' Hrun. simpl in Hrun. inv_ok.
    repeat match goal with Hz : on_incentives _ _ = _ |- _ => apply zoom_run in Hz as (? & Hz & ->)
                      | Hz : on_infl _ _ = _ |- _ => apply zoom_run in Hz as (? & Hz & ->) end.
    inv_ok. by eexists.
Qed.

(** Module accounts exist, so a transfer from one does not panic. *)
Hypothesis send_no_panic : ∀ t (c : C) (x : X),
  (SendCoinsFromModuleToAccount incentives_ModuleName t c x).1 ≠ Panic.

(** What the hooks of an epoch do to the other stores. *)
Definition ticked a a' : Prop :=
  a_feesplit a' = a_feesplit a ∧ a_erc20 a' = a_erc20 a ∧ a_claims a' = a_claims a ∧ a_recovery a' = a_recovery a ∧
  rtc inc_step (incentives_view a) (incentives_view a').

#[local] Instance ticked_preorder : PreOrder ticked.
Proof.
  unfold ticked. split; [intros a; repeat (split; [done|]); done|].
  intros a1 a2 a3 (E1 & E2 & E3 & E4 & Hs) (F1 & F2 & F3 & F4 & Ht). rewrite F1, F2, F3, F4.
  repeat (split; [done|]). by etransitivity.
Qed.

(** The stores after both hooks. *)
Definition after_hooks a (s1 : incentives_state D X) (s2 : infl_state D X) : app_stores D X :=
  mkApp (store_with tt s2) (store_with tt s1) (a_feesplit a) (a_erc20 a) (a_claims a) (a_recovery a) (i_ext s2).

(** The epochs that end, in order, each with its identifier and new number: incentives
    are distributed, which succeeds, and in the state this leaves coins are minted.  The
    first failure of minting is the outcome of the run. *)
Inductive ends_run ctx : list (string * Z) → app_stores D X → outcome unit → app_stores D X → Prop :=
  | er_done a : ends_run ctx [] a (Ok tt) a
  | er_minted id n l a s1 s2 o a' :
      incentives_AfterEpochEnd (C := C) id (incentives_view a) = (Ok tt, s1) →
      infl_AfterEpochEnd (C := C) feeCollectorName ctx id n (store_with (n_ext s1) (a_infl a)) = (Ok tt, s2) →
      ends_run ctx l (after_hooks a s1 s2) o a' → ends_run ctx ((id, n) :: l) a o a'
  | er_failed id n l a s1 s2 o :
      incentives_AfterEpochEnd (C := C) id (incentives_view a) = (Ok tt, s1) →
      infl_AfterEpochEnd (C := C) feeCollectorName ctx id n (store_with (n_ext s1) (a_infl a)) = (o, s2) →
      o ≠ Ok tt → ends_run ctx ((id, n) :: l) a o (after_hooks a s1 s2).

(** The epochs that end in the block, in the order of their identifiers. *)
Definition ended_epochs ctx (c : epoch_state (app_stores D X)) : list (string * Z) :=
  map (λ e, (Identifier e, CurrentEpoch e +i 1)) (filter (λ e, starts ctx e = false ∧ ends ctx e = true) (AllEpochInfos c)).

Lemma before_start_run ctx id n a : run_call hooks ctx (CallBeforeStart id n) a = (Ok tt, a).
Proof.
  simpl. unfold bind, on_incentives, on_infl, zoom, ret. simpl.
  by destruct a as [[? ? ? ? ? ? []] [? ? ? ? []] ? ? ? ? ?].
Qed.

Lemma after_end_run ctx id n a :
  meter_inv (incentives_view a) →
  ∃ s1 o s2, incentives_AfterEpochEnd (C := C) id (incentives_view a) = (Ok tt, s1) ∧
    infl_AfterEpochEnd (C := C) feeCollectorName ctx id n (store_with (n_ext s1) (a_infl a)) = (o, s2) ∧
    run_call hooks ctx (CallAfterEnd id n) a = (o, after_hooks a s1 s2) ∧ ticked a (after_hooks a s1 s2).
Proof.
  intros Hinv. destruct (epoch_end_total (C := C) send_no_panic id (incentives_view a) Hinv) as (s1 & Hi & _).
  destruct (infl_AfterEpochEnd (C := C) feeCollectorName ctx id n (store_with (n_ext s1) (a_infl a))) as [o s2] eqn:Ef.
  exists s1, o, s2. do 2 (split; [done|]). split.
  - simpl. unfold bind, on_incentives, on_infl, zoom. simpl. rewrite Hi.
    match goal with |- context [infl_view ?b] => change (infl_view b) with (store_with (n_ext s1) (a_infl a)) end.
    rewrite Ef.
    by destruct o as [[]| |].
  - do 4 (split; [done|]). eapply rtc_l; [exact (in_epoch _ _ _ _ Hi)|]. apply rtc_once.
    apply (in_other _ (i_ext s2) s1).
Qed.

Lemma ticked_meters a a' : ticked a a' → meter_inv (incentives_view a) → meter_inv (incentives_view a').
Proof. intros (_ & _ & _ & _ & Hs) Hinv. by eapply steps_inv. Qed.

Lemma calls_run ctx l a o a' :
  meter_inv (incentives_view a) → foreach (flat_map (hook_calls ctx) l) (run_call hooks ctx) a = (o, a') →
  ticked a a' ∧
  ends_run ctx (map (λ e, (Identifier e, CurrentEpoch e +i 1)) (filter (λ e, starts ctx e = false ∧ ends ctx e = true) l)) a o a'.
Proof.
  revert a. induction l as [|e l IH]; intros a Hinv Hrun.
  { injection Hrun as <- <-. split; [done|constructor]. }
  cbn [flat_map] in Hrun. unfold hook_calls at 1 in Hrun. rewrite filter_cons.
  destruct (starts ctx e) eqn:Es; [|destruct (ends ctx e) eqn:Ee]; cbn [app foreach] in Hrun.
  - rewrite decide_False by naive_solver. unfold bind in Hrun. rewrite before_start_run in Hrun. by apply IH.
  - rewrite decide_True by done. cbn [map]. unfold bind at 1 in Hrun.
    destruct (after_end_run ctx (Identifier e) (CurrentEpoch e +i 1) a Hinv) as (s1 & o1 & s2 & Hi & Hf & Hc & Ht).
    rewrite Hc in Hrun. destruct o1 as [[]|er|]; [|injection Hrun as <- <-; split; [done|by eapply er_failed]..].
    unfold bind in Hrun. rewrite before_start_run in Hrun.
    destruct (IH _ (ticked_meters _ _ Ht Hinv) Hrun) as [Ht' Hr]. split; [by etransitivity|by eapply er_minted].
  - rewrite decide_False by naive_solver. by apply IH.
Qed.

(** C23: the begin blocker of the epochs module, with the hooks of the application: for the
    epochs that end in the block, in the order of their identifiers, the incentives module
    distributes, which never fails, and then the inflation module mints, in the state the
    distribution left; the outcome of the block is that of the first minting that fails,
    in the state it was run in.  The other modules are left alone.  For the incentives
    module this is a sequence of its steps, and for the inflation module one whose day
    counter is the stored number of the day epoch. *)
Theorem block_drives_modules ctx (c c' : epoch_state (app_stores D X)) o i0 e minted :
  n_incentives i0 = ∅ → n_meters i0 = ∅ → rtc inc_step i0 (incentives_view (es_ext c)) →
  (∀ k e, epochs c !! k = Some e → Identifier e = k) →
  GetEpochInfo c DayEpochID = Some e → EpochCountingStarted e = true → 0 ≤ CurrentEpoch e < 2^63 - 1 →
  BeginBlocker hooks ctx c = (o, c') →
  ticked (es_ext c) (es_ext c') ∧
  ends_run ctx (ended_epochs ctx c) (es_ext c) o (es_ext c') ∧
  (o = Ok tt → ∃ e' minted', GetEpochInfo c' DayEpochID = Some e' ∧
     rtc (infl_step (C := C) feeCollectorName) (CurrentEpoch e, minted, infl_view (es_ext c))
                                               (CurrentEpoch e', minted', infl_view (es_ext c'))).
Proof.
  intros Hi Hm Hreach Hkey Hday Hst Hb Hrun.
  pose proof (begin_blocker_hooks hooks ctx c) as Hcalls. cbv zeta in Hcalls. rewrite Hrun in Hcalls. simpl in Hcalls.
  symmetry in Hcalls. apply calls_run in Hcalls as [Ht Hr]; [|by eapply reachable_inv].
  split; [exact Ht|]. split; [exact Hr|].
  intros ->. by apply (epochs_drive_inflation _ _ _ app_drives_inflation ctx c c' e minted).
Qed.
End blocks.

(** ** The tables of [app.go] *)

Section tables.

(** [m] comes before [n] in the list. *)
Fixpoint before (m n : AppModule) (l : list AppModule) : bool :=
  match l with
  | [] => false
  | k :: rest => if decide (k = m) then bool_decide (n ∈ rest) else before m n rest
  end.

(** Every order names every module of the manager exactly once, as the manager
    demands, and meets the constraints the comments state: upgrades first and
    capabilities before IBC in the begin blocker; capabilities first, the claims before
    staking, the EVM and the fee market before the genesis transactions, these after
    staking, and the invariants last in genesis. *)
Lemma module_orders :
  Forall (λ l, l ≡ₚ mm_modules) [ModuleBasics; OrderBeginBlockers; OrderEndBlockers; OrderInitGenesis] ∧
  head OrderBeginBlockers = Some m_upgrade ∧ before m_capability m_ibchost OrderBeginBlockers ∧
  before m_distr m_slashing OrderBeginBlockers ∧
  head OrderInitGenesis = Some m_capability ∧ before m_claims m_staking OrderInitGenesis ∧
  before m_staking m_genutil OrderInitGenesis ∧ before m_feemarket m_genutil OrderInitGenesis ∧
  before m_evm m_feesplit OrderInitGenesis ∧ last OrderInitGenesis = Some m_crisis.
Proof.
  assert (Hall : ∀ m, m ∈ mm_modules) by (intros []; compute_done).
  assert (Hperm : ∀ l, (forallb (λ m, bool_decide (m ∈ l)) mm_modules && bool_decide (NoDup l)) = true → l ≡ₚ mm_modules).
  { intros l. rewrite andb_true_iff, bool_decide_eq_true. intros [Hin Hnd].
    apply NoDup_Permutation; [done|compute_done|]. intros m. split; [by intros _; apply Hall|].
    intros Hm. rewrite forallb_forall in Hin. apply list_elem_of_In, Hin in Hm. by apply bool_decide_eq_true in Hm. }
  split; [repeat (apply Forall_cons; split; [apply Hperm; vm_compute; done|]); apply Forall_nil_2|]. by vm_compute.
Qed.

(** The end blocker visits the fee market before the claims, whose end blocker is not
    empty: it is not the last one. *)
Lemma feemarket_not_last : before m_feemarket m_claims OrderEndBlockers.
Proof. by vm_compute. Qed.

(** Coins can be sent to the accounts of the distribution and incentives modules, to
    no other module's account, and to every other address. *)
Lemma blocked_addresses (address : ModuleAccount → string) `{!Inj (=) (=) address} addr :
  BlockedAddrs address !! addr = Some true ↔
  ∃ acc, addr = address acc ∧ acc ≠ acc_distr ∧ acc ≠ acc_incentives.
Proof.
  assert (Hkey : ∀ (l : list (ModuleAccount * list Permission)) (m : gmap string bool), NoDup l.*1 →
    foldl (λ m acc, <[address acc.1 := negb (allowedReceivingModAcc acc.1)]> m) m l !! addr = Some true ↔
    (∃ acc : ModuleAccount, acc ∈ l.*1 ∧ addr = address acc ∧ allowedReceivingModAcc acc = false) ∨
    m !! addr = Some true ∧ ∀ acc, acc ∈ l.*1 → addr ≠ address acc).
  { intros l. induction l as [|[acc perms] l IH]; intros m Hnd; simpl.
    { set_solver. }
    inv Hnd. rewrite IH by done. rewrite lookup_insert_Some. split.
    - intros [(b & Hb & Heq & Hall)|[[[Heq Hb]|[Hne Hm]] Hl]].
      + left. exists b. split; [by right|done].
      + left. exists acc. apply negb_true_iff in Hb. split; [by left|done].
      + right. split; [done|]. intros b Hb. apply elem_of_cons in Hb as [->|Hb]; [congruence|by apply Hl].
    - intros [(b & Hb & -> & Hall)|[Hm Hl]].
      + apply elem_of_cons in Hb as [->|Hb]; [|left; eauto]. right. rewrite Hall. split; [by left|].
        intros b Hb Heq. apply (inj address) in Heq as ->. done.
      + right. split; [right; split; [|done]|intros b Hb; apply Hl; by right].
        intros Heq. apply (Hl acc); [by left|congruence]. }
  unfold BlockedAddrs. rewrite Hkey by compute_done. rewrite lookup_empty. split.
  - intros [(acc & _ & -> & Hall)|[[=] _]]. exists acc. by destruct acc.
  - intros (acc & -> & H1 & H2). left. exists acc. split; [destruct acc; compute_done|]. by destruct acc.
Qed.
End tables.

(** ** Forks *)

(** Only the main network forks, at three heights; a fork that cannot be scheduled
    stops the node. *)
Lemma fork_schedule {X} `{UpgradeKeeper X} ctx (x : X) :
  ScheduleForkUpgrade ctx x =
  match (if IsMainnet (ChainID ctx) then fork_plan (BlockHeight ctx) else None) with
  | None => (Ok tt, x)
  | Some plan => let '(o, x') := ScheduleUpgrade plan x in (match o with Ok _ => Ok tt | _ => Panic end, x')
  end.
Proof.
  unfold ScheduleForkUpgrade. destruct (IsMainnet (ChainID ctx)); simpl; [|done].
  destruct (fork_plan (BlockHeight ctx)) as [plan|]; [|done]. unfold must.
  by destruct (ScheduleUpgrade plan x) as [[[]| |] x'].
Qed.

Lemma fork_heights height plan :
  fork_plan height = Some plan → height ∈ [58700; 257850; 2476000] ∧ plan_Height plan = height.
Proof.
  unfold fork_plan, v2_MainnetUpgradeHeight, v4_MainnetUpgradeHeight, v7_MainnetUpgradeHeight.
  repeat match goal with |- context [?a =? ?b] => destruct (Z.eqb_spec a b) as [->|?] end; intros [= <-];
    (split; [set_solver|done]).
Qed.

(** ** Counting transactions *)

Section tps.

Lemma record_value_spec now last : 0 ≤ last ≤ now → now < 2^63 → recordValue now last = now - last.
Proof.
  intros Hl Hn. unfold recordValue. destruct (Z.ltb_spec now last); [lia|].
  rewrite wrapu64_id, wrap64_id by (unfold in_uint64, in_int64; lia). by destruct (Z.ltb_spec (now - last) 0); [lia|].
Qed.

Record tps_inv (n : nat) (t : tpsCounter) : Prop := {
  tps_total : nSuccessful t + NFailed t = Z.of_nat n;
  tps_last : 0 ≤ lastNSuccessful t ≤ nSuccessful t ∧ 0 ≤ lastNFailed t ≤ NFailed t;
  tps_latest l : latest t = Some l → lastNSuccessful t ≤ l ≤ nSuccessful t;
  tps_reported : sumZ id (reports t) = lastNSuccessful t + lastNFailed t;
}.

Lemma tps_inv_step n t n' t' : tps_step (n, t) (n', t') → Z.of_nat n' < 2^63 → tps_inv n t → tps_inv n' t'.
Proof.
  intros Hstep Hn [I1 I2 I3 I4]. inversion Hstep as [? ? failed|? ? Hl|? ? l Hl]; subst.
  - destruct failed; constructor; simpl; rewrite ?wrapu64_id by (unfold in_uint64; lia); try lia; try done;
      intros l Hl; specialize (I3 l Hl); lia.
  - constructor; simpl; try done. intros l [= <-]. lia.
  - specialize (I3 l Hl). constructor; simpl; try done; [lia|].
    rewrite !record_value_spec, wrap64_id by (unfold in_int64; lia). rewrite sumZ_app, I4. unfold sumZ, id. simpl. lia.
Qed.

(** However transactions and reports interleave, the reports add up to transactions
    that were delivered, none counted twice, and a report made while no transaction
    is delivered accounts for all of them. *)
Lemma tps_reports n t :
  rtc tps_step (0%nat, newTPSCounter) (n, t) → Z.of_nat n < 2^63 →
  0 ≤ sumZ id (reports t) ≤ Z.of_nat n ∧
  (latest t = None → sumZ id (reports (report (nSuccessful t) (load_successful t))) = Z.of_nat n).
Proof.
  intros Hrun Hn. assert (Hmono : ∀ c c', rtc tps_step c c' → (c.1 ≤ c'.1)%nat).
  { intros c c' Hs. induction Hs as [|c1 c2 c3 Hs1 _ IH]; [done|]. inversion Hs1; subst; simpl in *; lia. }
  assert (Hinv : ∀ c c', rtc tps_step c c' → Z.of_nat c'.1 < 2^63 → tps_inv c.1 c.2 → tps_inv c'.1 c'.2).
  { intros c c' Hs. induction Hs as [|[n1 t1] [n2 t2] c3 Hs1 Hs2 IH]; [done|]. intros Hc Hi.
    apply IH; [done|]. apply Hmono in Hs2. eapply tps_inv_step; [done| |done]. simpl in *. lia. }
  specialize (Hinv _ _ Hrun Hn). simpl in Hinv. destruct Hinv as [I1 I2 I3 I4].
  { by constructor. }
  split; [lia|]. intros Hl.
  assert (H1 : tps_inv n (load_successful t)) by (eapply tps_inv_step; [by apply tps_load|done|by constructor]).
  assert (H2 : tps_inv n (report (nSuccessful t) (load_successful t)))
    by (eapply tps_inv_step; [by apply (tps_report n)|done|done]).
  rewrite (tps_reported _ _ H2). simpl. lia.
Qed.
End tps.

(** ** Witnesses *)

Section samples.
Local Open Scope string_scope.
Local Open Scope Z_scope.

#[global] Instance w_runners : AppRunners := {
  NewMultiEvmHooks S l ctx tx := foreach l (λ h, h ctx tx);
  NewMultiGovHooks S l ctx voter := foreach l (λ h, h ctx voter);
  NewMultiStakingHooks S l ctx delegator := foreach l (λ h, h ctx delegator);
  mm_BeginBlock S l f := foreach l f;
  mm_EndBlock S l f := foreach l f;
}.

#[global] Instance w_runners_laws : AppRunnersLaws.
Proof. by constructor. Qed.

(** A user with an airdrop calls a contract that has an incentive and a fee split. *)
Definition caller : string := "some-user-address-01".
Definition app_world : world :=
  mkWorld {[ w_mod collector := {[ "aevmos" := 1000 ]}; w_mod claims_ModuleName := {[ "aevmos" := 8 ]};
             w_mod incentives_ModuleName := {[ "aevmos" := 1000; "osmo" := 500 ]} ]}
    {[ "aevmos" := 2008; "osmo" := 500 ]} {[ caller := PlainAcc caller ]} {[ caller := 1 ]} ∅ no_evm.

Definition app_sample (inc : incentives_state Z unit) : app_stores Z world :=
  mkApp (store_with tt infl_sample) inc (store_with tt fee_updated) (mkErc20 (mkErc20Params true true) ∅ ∅ ∅ tt)
    (mkClaims airdrop {[ caller := rec 8 ]} tt) recovery_DefaultParams app_world.

Definition dapp_incentives : incentives_state Z unit :=
  mkInc (incentives_DefaultParams (D := Z)) {[ dapp := mkIncentive (address_hex dapp) [] 2 0 7 ]} ∅ ∅ tt.

Definition app_called := app_PostTxProcessing (C := coins) collector (claims_ctx 1500) dapp_call (app_sample dapp_incentives).

(** The heir gets 151 of 303, the caller a quarter of 8, and the gas is counted. *)
Lemma evm_hooks_compose_witness :
  app_called.1 = Ok tt ∧ GetBalance (C := coins) (a_ext app_called.2) heir "aevmos" = 151 ∧
  GetBalance (C := coins) (a_ext app_called.2) caller "aevmos" = 2 ∧
  ∃ x1, a_incentives app_called.2 =
        store_with tt (gas_counted (C := coins) dapp_call (store_with x1 dapp_incentives)).
Proof.
  assert (E : app_called.1 = Ok tt) by (vm_compute; reflexivity). split; [exact E|].
  split; [vm_compute; reflexivity|]. split; [vm_compute; reflexivity|].
  destruct (evm_hooks_compose (C := coins) collector (claims_ctx 1500) dapp_call (app_sample dapp_incentives)
    app_called.1 app_called.2) as (_ & _ & _ & _ & x1 & _ & Hi & _).
  - destruct fee_updated_reachable as (s0 & E1 & E2 & E3 & Hp & Hrun). exists s0. do 4 (split; [assumption|]).
    eapply rtc_r; [exact Hrun|]. apply (fs_other collector app_world fee_updated).
  - vm_compute. reflexivity.
  - rewrite E. discriminate.
  - exists x1. exact Hi.
Defined.

(** The third day ends: a week is not over, so no incentive is paid, and coins are minted. *)
Definition chain_sample : epoch_state (app_stores Z world) :=
  mkES {[ DayEpochID := day3 ]} [] (app_sample (store_with tt inc_played)).
Definition chain_block := BeginBlocker (epoch_hooks (C := coins) collector) day_ctx chain_sample.

Lemma block_drives_modules_witness :
  chain_block.1 = Ok tt ∧
  ends_run (C := coins) collector day_ctx [(DayEpochID, 4)] (es_ext chain_sample) (Ok tt) (es_ext chain_block.2) ∧
  a_claims (es_ext chain_block.2) = a_claims (es_ext chain_sample) ∧
  ∃ e' minted', GetEpochInfo chain_block.2 DayEpochID = Some e' ∧
    rtc (infl_step (C := coins) collector) (3, 2, infl_view (es_ext chain_sample))
      (CurrentEpoch e', minted', infl_view (es_ext chain_block.2)).
Proof.
  assert (E : chain_block.1 = Ok tt) by (vm_compute; reflexivity). split; [exact E|].
  destruct (block_drives_modules (C := coins) collector no_abstract w_send_no_panic day_ctx chain_sample chain_block.2
    chain_block.1 inc_start day3 2) as (Ht & Hr & Hi).
  - reflexivity.
  - reflexivity.
  - eapply rtc_r; [exact inc_run|]. apply (in_other no_abstract app_world inc_played).
  - intros k e. simpl. rewrite lookup_singleton_Some. by intros [<- <-].
  - reflexivity.
  - reflexivity.
  - vm_compute. split; [discriminate|reflexivity].
  - vm_compute. reflexivity.
  - rewrite E in Hr. split; [exact Hr|]. split; [exact (proj1 (proj2 (proj2 Ht)))|]. exact (Hi E).
Defined.
End samples.
