(* ===== verification/Chain.v ===== *)
(** * The chain: messages, proposals, packets, transactions and blocks

    The routing of [x/*/handler.go], and every way in which a state of the whole
    application changes: an [Action] between the block handlers, or a block
    handler. *)

From S2P Require Import Prelude Sdk Dec Schedule Clawback Keepers EvmosUtils Evm Erc20Types VestingMsgs Epochs Inflation Ibc Claims Erc20 Incentives Feesplit Recovery App.

(** ** Routing: [x/*/handler.go] *)

Inductive VestingMsg (C : Type) : Type :=
  | VestCreate (msg : MsgCreateClawbackVestingAccount C)
  | VestClawback (msg : MsgClawback)
  | VestOther.
Arguments VestCreate {C} _.
Arguments VestClawback {C} _.
Arguments VestOther {C}.

Inductive Erc20Msg : Type :=
  | ErcConvertCoin (msg : MsgConvertCoin)
  | ErcConvertERC20 (msg : MsgConvertERC20)
  | ErcOther.

Section handlers.
Context {C X : Type} `{SdkCoins C, !SdkPeriods C, !SdkBaseVesting C, SdkAddress, EthAddress, Erc20Abi}.
Context `{!AccountKeeper C X, !BankKeeper C X, !StakingKeeper X, !EvmKeeper X, !BankMeta X}.

Definition vesting_Handler (ctx : Ctx) (msg : VestingMsg C) : M X unit :=
  match msg with
  | VestCreate msg => CreateClawbackVestingAccount ctx msg
  | VestClawback msg => Clawback ctx msg
  | VestOther => fail ErrUnknownRequest
  end.

Definition erc20_Handler (msg : Erc20Msg) : M (erc20_state X) unit :=
  match msg with
  | ErcConvertCoin msg => ConvertCoin (C := C) msg ;;; ret tt
  | ErcConvertERC20 msg => ConvertERC20 (C := C) msg ;;; ret tt
  | ErcOther => fail ErrUnknownRequest
  end.

(** The claims module has no messages. *)
Definition claims_Handler {msg : Type} (_ : msg) : M (claims_state X) unit := fail ErrUnknownRequest.
End handlers.

(** ** Actions *)

Inductive AppAction (C D X : Type) : Type :=
  (* messages *)
  | act_vesting (ctx : Ctx) (msg : VestingMsg C)
  | act_erc20 (msg : Erc20Msg)
  | act_feesplit (msg : FeesplitMsg)
  | act_claims (msg : string)
  (* proposals that passed *)
  | act_erc20_proposal (content : Proposal)
  | act_incentives_proposal (ctx : Ctx) (content : IncentiveProposal D)
  (* the hooks of a transaction of the EVM, of a vote and of a delegation *)
  | act_evm (ctx : Ctx) (tx : EvmTx)
  | act_vote (ctx : Ctx) (voter : string)
  | act_delegate (ctx : Ctx) (delegator : string)
  (* packets of the transfer port *)
  | act_recv (ctx : Ctx) (packet : Packet) (relayer : string)
  | act_ack (ctx : Ctx) (packet : Packet) (acknowledgement relayer : string)
  | act_timeout (ctx : Ctx) (packet : Packet) (relayer : string)
  (* parameter changes *)
  | act_infl_params (params : InflParams D)
  | act_incentives_params (params : IncentivesParams D)
  | act_feesplit_params (params : FeesplitParams D)
  | act_erc20_params (params : Erc20Params)
  | act_claims_params (params : ClaimsParams)
  | act_recovery_params (params : RecoveryParams)
  (* whatever the foreign modules do to their stores *)
  | act_foreign (x : X).
Arguments act_vesting {C D X} _ _.
Arguments act_erc20 {C D X} _.
Arguments act_feesplit {C D X} _.
Arguments act_claims {C D X} _.
Arguments act_erc20_proposal {C D X} _.
Arguments act_incentives_proposal {C D X} _ _.
Arguments act_evm {C D X} _ _.
Arguments act_vote {C D X} _ _.
Arguments act_delegate {C D X} _ _.
Arguments act_recv {C D X} _ _ _.
Arguments act_ack {C D X} _ _ _ _.
Arguments act_timeout {C D X} _ _ _.
Arguments act_infl_params {C D X} _.
Arguments act_incentives_params {C D X} _.
Arguments act_feesplit_params {C D X} _.
Arguments act_erc20_params {C D X} _.
Arguments act_claims_params {C D X} _.
Arguments act_recovery_params {C D X} _.
Arguments act_foreign {C D X} _.

(** A change of the chain: an action, or a block handler. *)
Inductive ChainAction (C D X : Type) : Type :=
  | begin_block (ctx : Ctx)
  | deliver (act : AppAction C D X)
  | end_block (ctx : Ctx).
Arguments begin_block {C D X} _.
Arguments deliver {C D X} _.
Arguments end_block {C D X} _.

Section chain.
Context {C D X : Type} `{SdkCoins C, !SdkPeriods C, !SdkBaseVesting C, SdkDec D, !DecCoins D, Ethermint}.
Context `{SdkAddress, EthAddress, Erc20Abi, Bech32, IbcCodec, AppRunners}.
Context `{!AccountKeeper C X, !BankKeeper C X, !DistrKeeper C X, !StakingKeeper X, !EvmKeeper X, !BankMeta X}.
Context `{!AccountTypes X, !UpgradeKeeper X, !IbcTransfer X}.
Variables (feeCollectorName : string) (channel_id_valid : string → bool).
(** [ibctransfertypes.ValidateIBCDenom], [govtypes.ValidateAbstract] *)
Variable validate_ibc_denom : string → option error.
Variable erc20_abstract : Proposal → option error.
Variable incentives_abstract : IncentiveProposal D → option error.
(** The transfer application, the hooks of distribution and slashing, and the
    block handlers of the foreign modules. *)
Variable transfer : IBCModule X.
Variables distr_hook slashing_hook : Ctx → string → M X unit.
Variables foreign_BeginBlock foreign_EndBlock : AppModule → Ctx → M (epoch_state (app_stores D X)) unit.
Local Abbreviation app := (app_stores D X).
Local Abbreviation chain := (epoch_state app).
Implicit Types a : app.

(** The recovery module and the claims module below it. *)
Definition recovery_view a : recovery_state X := mkRec (a_recovery a) (claims_view a).
Definition on_recovery {A} (m : M (recovery_state X) A) : M app A :=
  zoom recovery_view (λ s a, mkApp (a_infl a) (a_incentives a) (a_feesplit a) (a_erc20 a)
                                   (store_with tt (r_claims s)) (r_params s) (store_ext (r_claims s))) m.

Definition ValidateBasic (act : AppAction C D X) : outcome unit :=
  match act with
  | act_vesting _ (VestCreate msg) => MsgCreate_ValidateBasic msg
  | act_vesting _ (VestClawback msg) => MsgClawback_ValidateBasic msg
  | act_erc20 (ErcConvertCoin msg) => MsgConvertCoin_ValidateBasic validate_ibc_denom msg
  | act_erc20 (ErcConvertERC20 msg) => MsgConvertERC20_ValidateBasic msg
  | act_feesplit msg => feesplit_ValidateBasic msg
  | act_erc20_proposal content =>
      Proposal_ValidateBasic (C := C) validate_ibc_denom (metadata_validate (X := X)) erc20_abstract content
  | act_incentives_proposal _ content => IncentiveProposal_ValidateBasic incentives_abstract content
  | _ => Ok tt
  end.

Definition run_action (act : AppAction C D X) : M app unit :=
  match act with
  | act_vesting ctx msg => on_ext (vesting_Handler ctx msg)
  | act_erc20 msg => on_erc20 (erc20_Handler (C := C) msg)
  | act_feesplit msg => on_feesplit (feesplit_Handler msg)
  | act_claims msg => on_claims (claims_Handler msg)
  | act_erc20_proposal content => on_erc20 (Erc20ProposalHandler (C := C) content)
  | act_incentives_proposal ctx content => on_incentives (IncentivesProposalHandler (C := C) ctx content)
  | act_evm ctx tx => app_PostTxProcessing (C := C) feeCollectorName ctx tx
  | act_vote ctx voter => app_AfterProposalVote (C := C) ctx voter
  | act_delegate ctx delegator =>
      app_AfterDelegationModified (C := C) (λ ctx d, on_ext (distr_hook ctx d))
        (λ ctx d, on_ext (slashing_hook ctx d)) ctx delegator
  | act_recv ctx packet relayer =>
      on_recovery (OnRecvPacket (transferStack (C := C) (D := D) transfer) ctx packet relayer) ;;; ret tt
  | act_ack ctx packet acknowledgement relayer =>
      on_recovery (OnAcknowledgementPacket (transferStack (C := C) (D := D) transfer) ctx packet acknowledgement relayer)
  | act_timeout ctx packet relayer =>
      on_recovery (OnTimeoutPacket (transferStack (C := C) (D := D) transfer) ctx packet relayer)
  | act_infl_params params => on_infl (infl_SetParams (C := C) params)
  | act_incentives_params params => on_incentives (modify (incentives_SetParams params))
  | act_feesplit_params params => on_feesplit (modify (feesplit_SetParams params))
  | act_erc20_params params => on_erc20 (modify (erc20_SetParams params))
  | act_claims_params params => on_claims (claims_SetParams (C := C) channel_id_valid params)
  | act_recovery_params params => on_recovery (modify (recovery_SetParams params))
  | act_foreign x => on_ext (modify (λ _, x))
  end.

Definition run_chain (act : ChainAction C D X) : M chain unit :=
  match act with
  | begin_block ctx => app_BeginBlocker (C := C) feeCollectorName foreign_BeginBlock ctx
  | deliver act => on_app (run_action act)
  | end_block ctx => app_EndBlocker (C := C) channel_id_valid foreign_EndBlock ctx
  end.

(** ** Traces

    A message or a proposal was validated, and its successful run is a step; the
    parameters of feesplit are validated by their subspace, and [epochs] of an
    incentive is a [uint32]. *)
Definition admissible (_ : app) (act : AppAction C D X) : Prop :=
  ValidateBasic act = Ok tt ∧
  match act with
  | act_feesplit_params params => feesplit_Params_Validate params = Ok tt
  | act_incentives_proposal _ (RegisterIncentiveProposal _ _ epochs) => 0 ≤ epochs < 2^32
  | _ => True
  end.

(** The traces of actions that meet a condition [ok] in the state they run in. *)
Inductive app_trace (ok : app → AppAction C D X → Prop) : app → list (AppAction C D X) → app → Prop :=
  | at_nil a : app_trace ok a [] a
  | at_cons a act a1 l a2 :
      ok a act → run_action act a = (Ok tt, a1) → app_trace ok a1 l a2 → app_trace ok a (act :: l) a2.

Inductive chain_trace (ok : app → AppAction C D X → Prop) : chain → list (ChainAction C D X) → chain → Prop :=
  | ct_nil c : chain_trace ok c [] c
  | ct_cons c act c1 l c2 :
      (∀ ac, act = deliver ac → ok (es_ext c) ac) → run_chain act c = (Ok tt, c1) → chain_trace ok c1 l c2 →
      chain_trace ok c (act :: l) c2.
End chain.
