(* ===== verification/ChainProps.v ===== *)
(** * Properties of the chain

    Invariants of all modules along every trace of blocks, messages, proposals,
    transactions and packets, and the conservation of coins. *)

From S2P Require Import Prelude Frame Sdk Dec SdkInstances Schedule Clawback Keepers KeeperInstances EvmosUtils Evm Erc20Types VestingMsgs Epochs EpochsProps Inflation InflationProps Ibc IbcInstances Claims ClaimsProps Erc20 Erc20Instances Erc20Props Incentives IncentivesProps Feesplit FeesplitProps Recovery RecoveryProps ClaimsSteps App AppProps Chain.

(** ** Names of token pairs *)

Section names.
Context {C X : Type} `{SdkCoinsLaws C, !AccountKeeper C X, !BankKeeper C X, !EvmKeeper X, !BankMeta X}.
Context `{!BankLaws C X, !EvmLaws C X, SdkAddress, EthAddressLaws, Erc20Abi}.
Implicit Types s : erc20_state X.

(** A pair of an external token has the denomination made from its address. *)
Definition externals_named s : Prop :=
  ∀ id tp, e_pairs s !! id = Some tp → ContractOwner tp = OWNER_EXTERNAL → Denom tp = CreateDenom (Erc20Address tp).

Lemma externals_ext s s' : e_pairs s' = e_pairs s → externals_named s → externals_named s'.
Proof. unfold externals_named. by intros ->. Qed.

Lemma externals_insert s s' tp :
  e_pairs s' = <[GetID tp := tp]> (e_pairs s) →
  (ContractOwner tp = OWNER_EXTERNAL → Denom tp = CreateDenom (Erc20Address tp)) →
  externals_named s → externals_named s'.
Proof.
  intros E Htp Hs id tp'. rewrite E. intros [[<- <-]|[_ Hid]]%lookup_insert_Some; [done|by eapply Hs].
Qed.

Lemma erc20_step_named s s' : erc20_step (C := C) s s' → externals_named s → externals_named s'.
Proof.
  assert (Hconv : ∀ (r : option unit) tp s s', externals_named s →
    match r with None => s' = DeleteTokenPair tp s | Some _ => same_registry s s' end → externals_named s').
  { intros [] tp s1 s2 Hs; [intros (_ & E & _); by apply (externals_ext s1)|intros ->].
    intros id tp' Hid. simpl in Hid. apply lookup_delete_Some in Hid as [_ Hid]. by eapply Hs. }
  intros [msg s1 r s2 Hrun|msg s1 r s2 Hrun|t s1 tp s2 Hrun|c s1 tp s2 Hl Hrun|md s1 tp s2 Hrun|logs s1 s2 Hrun|p s1|x s1] Hs.
  - apply convert_coin_registry in Hrun as (? & ? & ? & tp & _ & Hr). by eapply Hconv.
  - apply convert_erc20_registry in Hrun as (? & ? & ? & tp & _ & Hr). by eapply Hconv.
  - apply toggle_ok in Hrun as (tp0 & Etp & -> & ->).
    eapply externals_insert; [done| |exact Hs]. simpl. unfold GetTokenPair in Etp.
    destruct (GetTokenPairID _ _) as [id|]; [|done]. by eapply Hs.
  - unfold RegisterERC20 in Hrun. inv_ok.
    match goal with Hm : CreateCoinMetadata _ _ = _ |- _ => apply create_metadata_ok in Hm as ((_ & E & _) & Hname & _) end.
    match goal with Hst : store_pair _ _ = _ |- _ => apply store_pair_ok in Hst as -> end.
    eapply externals_insert; [simpl; by rewrite E| |exact Hs]. intros _. exact Hname.
  - apply register_coin_ok in Hrun as (n & s3 & _ & _ & _ & _ & -> & (_ & E & _) & Hst).
    apply store_pair_ok in Hst as ->. eapply externals_insert; [simpl; by rewrite E| |exact Hs]. done.
  - apply hooks_same_registry in Hrun as (_ & E & _). by apply (externals_ext s1).
  - exact Hs.
  - exact Hs.
Qed.
End names.

(** ** Block handlers

    A block is a tick of the timers, with the handlers of the foreign modules, the
    upgrades of forks and the end of the airdrop around it. *)

Section blocks.
Context {C D X : Type} `{SdkCoins C, SdkDec D, !DecCoins D, Ethermint, SdkAddress, EthAddress, AppRunnersLaws}.
Context `{!AccountKeeper C X, !BankKeeper C X, !DistrKeeper C X, !StakingKeeper X, !EvmKeeper X, !AccountTypes X}.
Context `{!UpgradeKeeper X}.
Context (feeCollectorName : string).
Local Abbreviation chain := (epoch_state (app_stores D X)).
Context (foreign : AppModule → Ctx → M chain unit) (B : relation chain) `{!PreOrder B}.
Hypothesis foreign_by : ∀ m ctx c c', foreign m ctx c = (Ok tt, c') → B c c'.

Lemma handlers_by l c c' ctx :
  m_epochs ∉ l → foreach l (module_BeginBlock (C := C) feeCollectorName foreign ctx) c = (Ok tt, c') → B c c'.
Proof.
  revert c. induction l as [|m l IH]; intros c Hm Hrun; simpl in Hrun; [by inv_ok|].
  apply not_elem_of_cons in Hm as [Hm Hl]. apply bind_ok in Hrun as ([] & c1 & Hh & Hrun).
  transitivity c1; [|by apply IH]. destruct m; simpl in Hh; try done; try (by inv_ok); exact (foreign_by _ _ _ _ Hh).
Qed.

Lemma begin_block_by ctx c c' :
  (∀ c c', on_app (on_ext (ScheduleForkUpgrade ctx)) c = (Ok tt, c') → B c c') →
  app_BeginBlocker (C := C) feeCollectorName foreign ctx c = (Ok tt, c') →
  ∃ c1 c2, B c c1 ∧ BeginBlocker (epoch_hooks (C := C) feeCollectorName) ctx c1 = (Ok tt, c2) ∧ B c2 c'.
Proof.
  intros Hf Hrun. apply bind_ok in Hrun as ([] & c0 & Hfork & Hrun). rewrite mm_begin_block in Hrun.
  change OrderBeginBlockers with ([m_upgrade; m_capability] ++ m_epochs :: drop 3 OrderBeginBlockers) in Hrun.
  rewrite foreach_app in Hrun. apply bind_ok in Hrun as ([] & c1 & Hpre & Hrun).
  apply bind_ok in Hrun as ([] & c2 & Htick & Hrun). exists c1, c2. split; [|split; [exact Htick|]].
  - transitivity c0; [by apply Hf|]. eapply handlers_by; [|exact Hpre]. set_solver.
  - apply (handlers_by (drop 3 OrderBeginBlockers) _ _ ctx); [|exact Hrun]. simpl. set_solver.
Qed.

Lemma end_block_by channel_id_valid ctx c c' :
  (∀ c c', on_app (on_claims (EndBlocker (C := C) channel_id_valid ctx)) c = (Ok tt, c') → B c c') →
  app_EndBlocker (C := C) channel_id_valid foreign ctx c = (Ok tt, c') → B c c'.
Proof.
  unfold app_EndBlocker. rewrite mm_end_block. intros Hc Hrun.
  eapply (foreach_ok_inv (B c)); [|exact Hrun|done]. intros m c1 c2 Hm Hb. etransitivity; [exact Hb|].
  destruct m; simpl in Hm; try (by inv_ok); try exact (foreign_by _ _ _ _ Hm). by apply Hc.
Qed.
End blocks.

(** ** Invariants of the modules *)

Section invariants.
Context {C D X : Type} `{SdkCoinsLaws C, !SdkPeriods C, !SdkBaseVesting C, SdkDecLaws D, !DecCoins D, !DecCoinsLaws D}.
Context `{Ethermint, SdkAddressLaws, EthAddressLaws, Erc20Abi, Bech32, IbcCodec, AppRunnersLaws}.
Context `{!AccountKeeper C X, !BankKeeper C X, !DistrKeeper C X, !StakingKeeper X, !EvmKeeper X, !BankMeta X}.
Context `{!AccountTypes X, !UpgradeKeeper X, !IbcTransfer X}.
Context `{!BankLaws C X, !DistrLaws C X, !StakingLaws X, !EvmLaws C X}.
Context (feeCollectorName : string) (channel_id_valid : string → bool) (validate_ibc_denom : string → option error).
Context (erc20_abstract : Proposal → option error) (incentives_abstract : IncentiveProposal D → option error).
Context (transfer : IBCModule X) (distr_hook slashing_hook : Ctx → string → M X unit).
Context (foreign_BeginBlock foreign_EndBlock : AppModule → Ctx → M (epoch_state (app_stores D X)) unit).
Implicit Types (a : app_stores D X) (c : epoch_state (app_stores D X)).
Local Abbreviation run := (run_action (C := C) (D := D) feeCollectorName channel_id_valid transfer distr_hook slashing_hook).
Local Abbreviation run_c := (run_chain (C := C) (D := D) feeCollectorName channel_id_valid transfer distr_hook slashing_hook
  foreign_BeginBlock foreign_EndBlock).
Local Abbreviation allowed := (admissible (C := C) (D := D) validate_ibc_denom erc20_abstract incentives_abstract).
Local Abbreviation trace := (app_trace (C := C) (D := D) feeCollectorName channel_id_valid transfer distr_hook slashing_hook).
Local Abbreviation trace_c := (chain_trace (C := C) (D := D) feeCollectorName channel_id_valid transfer distr_hook slashing_hook
  foreign_BeginBlock foreign_EndBlock).

(** Module accounts exist, so a transfer from one does not panic. *)
Hypothesis send_no_panic : ∀ t (c : C) (x : X),
  (SendCoinsFromModuleToAccount incentives_ModuleName t c x).1 ≠ Panic.

Record app_inv a : Prop := {
  ai_meters : meter_inv (incentives_view a);
  ai_fees : fee_inv (feesplit_view a);
  ai_pairs : registry_inv (erc20_view a);
  ai_named : externals_named (erc20_view a);
  ai_records : records_ok (c_records (claims_view a));
}.

(** ** Steps of the modules

    A change of the application, seen by each module, is a sequence of steps of
    the module's own transition system.  No day passes. *)

Local Abbreviation inc_steps := (rtc (incentives_step (C := C) (X := X) incentives_abstract)).
Local Abbreviation fee_steps := (rtc (feesplit_step (C := C) (D := D) (X := X) feeCollectorName)).
Local Abbreviation erc_steps := (rtc (erc20_step (C := C) (X := X))).
Local Abbreviation cl_steps := (rtc (claims_step (D := D) (C := C) (X := X) channel_id_valid)).
Local Abbreviation infl_steps := (rtc (infl_step (C := C) (D := D) (X := X) feeCollectorName)).

Record app_steps a a' : Prop := {
  as_inc : inc_steps (incentives_view a) (incentives_view a');
  as_fee : fee_steps (feesplit_view a) (feesplit_view a');
  as_erc : erc_steps (erc20_view a) (erc20_view a');
  as_cl : cl_steps (claims_view a) (claims_view a');
  as_infl n minted : infl_steps (n, minted, infl_view a) (n, minted, infl_view a');
}.

#[local] Instance app_steps_preorder : PreOrder app_steps.
Proof.
  split; [by constructor|]. intros a1 a2 a3 [] []. constructor; [by etransitivity..|]. intros n minted. etransitivity; eauto.
Qed.

Lemma app_steps_inv a a' : app_steps a a' → app_inv a → app_inv a'.
Proof.
  intros [Hi Hf He Hc _] [M F P N R]. constructor.
  - by eapply (steps_inv send_no_panic).
  - by eapply rtc_keeps; [apply feesplit_step_inv| |].
  - by eapply registry_reachable.
  - by eapply rtc_keeps; [apply erc20_step_named| |].
  - by eapply claims_steps_records.
Qed.

(** A change of the foreign part, for a module whose own store is the same. *)
Lemma inc_other a a' : a_incentives a' = a_incentives a → inc_steps (incentives_view a) (incentives_view a').
Proof. intros E. unfold incentives_view. rewrite E. apply rtc_once. apply (in_other incentives_abstract (a_ext a') (incentives_view a)). Qed.
Lemma fee_other a a' : a_feesplit a' = a_feesplit a → fee_steps (feesplit_view a) (feesplit_view a').
Proof. intros E. unfold feesplit_view. rewrite E. apply rtc_once. apply (fs_other feeCollectorName (a_ext a') (feesplit_view a)). Qed.
Lemma erc_other a a' : a_erc20 a' = a_erc20 a → erc_steps (erc20_view a) (erc20_view a').
Proof. intros E. unfold erc20_view. rewrite E. apply rtc_once. apply (st_other (a_ext a') (erc20_view a)). Qed.
Lemma cl_same a a' : a_claims a' = a_claims a → cl_steps (claims_view a) (claims_view a').
Proof. intros E. unfold claims_view. rewrite E. apply rtc_once. apply (cl_other channel_id_valid (a_ext a') (claims_view a)). Qed.
Lemma infl_other a a' n minted :
  a_infl a' = a_infl a → infl_steps (n, minted, infl_view a) (n, minted, infl_view a').
Proof. intros E. unfold infl_view. rewrite E. apply rtc_once. apply (step_foreign feeCollectorName n minted (infl_view a) (a_ext a')). Qed.
#[local] Hint Resolve inc_other fee_other erc_other cl_same infl_other : core.

Lemma app_steps_stores a a' :
  a_incentives a' = a_incentives a → a_feesplit a' = a_feesplit a → a_erc20 a' = a_erc20 a →
  a_claims a' = a_claims a → a_infl a' = a_infl a → app_steps a a'.
Proof. constructor; auto. Qed.

(** A step of one module is a change of the foreign part for the others. *)
Lemma on_erc20_steps a o a' (m : M (erc20_state X) unit) :
  on_erc20 m a = (o, a') → (∀ s', m (erc20_view a) = (o, s') → erc20_step (C := C) (erc20_view a) s') → app_steps a a'.
Proof.
  intros Hrun Hstep. apply zoom_run in Hrun as (s' & Hs & ->). constructor; auto.
  apply rtc_once. specialize (Hstep _ Hs). by destruct s'.
Qed.
Lemma on_incentives_steps a o a' (m : M (incentives_state D X) unit) :
  on_incentives m a = (o, a') →
  (∀ s', m (incentives_view a) = (o, s') → incentives_step (C := C) incentives_abstract (incentives_view a) s') →
  app_steps a a'.
Proof.
  intros Hrun Hstep. apply zoom_run in Hrun as (s' & Hs & ->). constructor; auto.
  apply rtc_once. specialize (Hstep _ Hs). by destruct s'.
Qed.
Lemma on_feesplit_steps a o a' (m : M (feesplit_state D X) unit) :
  on_feesplit m a = (o, a') →
  (∀ s', m (feesplit_view a) = (o, s') → feesplit_step (C := C) feeCollectorName (feesplit_view a) s') → app_steps a a'.
Proof.
  intros Hrun Hstep. apply zoom_run in Hrun as (s' & Hs & ->). constructor; auto.
  apply rtc_once. specialize (Hstep _ Hs). by destruct s'.
Qed.

Lemma on_claims_steps {A} a o a' (m : M (claims_state X) A) :
  on_claims m a = (o, a') →
  (∀ s', m (claims_view a) = (o, s') → claims_step (D := D) (C := C) channel_id_valid (claims_view a) s') → app_steps a a'.
Proof.
  intros Hrun Hstep. apply zoom_run in Hrun as (s' & Hs & ->). constructor; auto.
  apply rtc_once. specialize (Hstep _ Hs). by destruct s'.
Qed.
(** Recovery has parameters only; claims is below it. *)
Lemma on_recovery_steps {A} a o a' (m : M (recovery_state X) A) :
  on_recovery m a = (o, a') →
  (∀ s', m (recovery_view a) = (o, s') → cl_steps (claims_view a) (r_claims s')) → app_steps a a'.
Proof.
  intros Hrun Hstep. apply zoom_run in Hrun as (s' & Hs & ->). constructor; auto.
  specialize (Hstep _ Hs). by destruct s' as [? []].
Qed.
(** The keepers of the SDK change no store of the modules. *)
Lemma on_ext_steps {A} a o a' (m : M X A) : on_ext m a = (o, a') → app_steps a a'.
Proof. intros Hrun. apply zoom_run in Hrun as (s' & _ & ->). by apply app_steps_stores. Qed.

Lemma evm_steps ctx tx a a' :
  app_PostTxProcessing (C := C) feeCollectorName ctx tx a = (Ok tt, a') → app_steps a a'.
Proof.
  clear send_no_panic.
  unfold app_PostTxProcessing. rewrite multi_evm_hooks. simpl. intros Hrun.
  apply bind_ok in Hrun as ([] & a1 & Hh1 & Hrun). apply bind_ok in Hrun as ([] & a2 & Hh2 & Hrun).
  apply bind_ok in Hrun as ([] & a3 & Hh3 & Hrun). apply bind_ok in Hrun as ([] & a4 & Hh4 & Hrun). inv_ok.
  apply on_erc20_steps in Hh1; [|intros s'; apply st_hook].
  apply on_incentives_steps in Hh2; [|intros s'; apply in_tx].
  apply on_feesplit_steps in Hh3; [|intros s'; apply fs_tx].
  apply on_claims_steps in Hh4; [|intros s'; apply cl_hook; set_solver]. do 3 (etransitivity; [eassumption|]). done.
Qed.

Lemma action_steps act a a' : allowed a act → run act a = (Ok tt, a') → app_steps a a'.
Proof.
  clear send_no_panic.
  intros [Hv Hadm] Hrun.
  destruct act as [ctx msg|msg|msg|msg|content|ctx content|ctx tx|ctx voter|ctx del|ctx packet r|ctx packet ack r|ctx packet r
                  |p|p|p|p|p|p|x]; simpl in *;
    eauto using on_ext_steps, evm_steps.
  - eapply on_erc20_steps; [exact Hrun|]. intros s' Hs. destruct msg as [msg|msg|]; simpl in Hs; [..|done];
      apply bind_ok in Hs as (r & s1 & Hs & Hr); inv_ok; [by eapply st_convert_coin|by eapply st_convert_erc20].
  - eapply on_feesplit_steps; [exact Hrun|]. intros s' Hs. by eapply fs_msg.
  - eapply on_claims_steps; [exact Hrun|]. done.
  - eapply on_erc20_steps; [exact Hrun|]. intros s' Hs. destruct content as [md|addr|token|]; simpl in Hs; [..|done];
      apply bind_ok in Hs as (tp & s1 & Hs & Hr); inv_ok.
    + by eapply st_register_coin.
    + eapply st_register_erc20; [apply hex_to_address_length|exact Hs].
    + by eapply st_toggle.
  - eapply on_incentives_steps; [exact Hrun|]. intros s' Hs. eapply in_proposal; [|exact Hv|exact Hs].
    by destruct content.
  - unfold app_AfterProposalVote in Hrun. rewrite multi_gov_hooks in Hrun. simpl in Hrun.
    apply bind_ok in Hrun as ([] & a1 & Hh1 & Hrun). inv_ok. eapply on_claims_steps; [exact Hh1|].
    intros s'. apply cl_hook. set_solver.
  - unfold app_AfterDelegationModified in Hrun. rewrite multi_staking_hooks in Hrun. simpl in Hrun.
    apply bind_ok in Hrun as ([] & a1 & Hh1 & Hrun). apply bind_ok in Hrun as ([] & a2 & Hh2 & Hrun).
    apply bind_ok in Hrun as ([] & a3 & Hh3 & Hrun). inv_ok.
    apply on_ext_steps in Hh1. apply on_ext_steps in Hh2. apply on_claims_steps in Hh3; [|intros s'; apply cl_hook; set_solver].
    etransitivity; [done|by etransitivity].
  - apply bind_ok in Hrun as (ack & a1 & Hrun & Hr). inv_ok. eapply on_recovery_steps; [exact Hrun|].
    intros s' Hs. by eapply (stack_recv_steps channel_id_valid transfer ctx packet r (recovery_view a)).
  - eapply on_recovery_steps; [exact Hrun|]. intros s' Hs.
    by eapply (stack_ack_steps channel_id_valid transfer ctx packet ack r (recovery_view a)).
  - eapply on_recovery_steps; [exact Hrun|]. intros s' Hs.
    by eapply (stack_timeout_steps channel_id_valid transfer ctx packet r (recovery_view a)).
  - apply zoom_run in Hrun as (s' & Hs & ->). constructor; auto. intros n minted. apply rtc_once.
    apply (step_params feeCollectorName n minted) in Hs. by destruct s'.
  - eapply on_incentives_steps; [exact Hrun|]. intros s' [= <-]. apply in_params.
  - eapply on_feesplit_steps; [exact Hrun|]. intros s' [= <-]. by apply fs_params.
  - eapply on_erc20_steps; [exact Hrun|]. intros s' [= <-]. apply st_params.
  - eapply on_claims_steps; [exact Hrun|]. intros s'. apply cl_params.
  - eapply on_recovery_steps; [exact Hrun|]. by intros s' [= <-].
Qed.

Lemma trace_steps a l a' : trace allowed a l a' → app_steps a a'.
Proof. induction 1; [done|]. etransitivity; [by eapply action_steps|done]. Qed.
(** ** Blocks *)

Local Abbreviation hooks := (epoch_hooks (C := C) (D := D) (X := X) feeCollectorName).

(** The block handlers of the foreign modules reach the stores of the chain's
    modules only through their operations: governance executes proposals. *)
Definition through_actions (h : AppModule → Ctx → M (epoch_state (app_stores D X)) unit) : Prop :=
  ∀ m ctx c c', h m ctx c = (Ok tt, c') → epochs c' = epochs c ∧ ∃ l, trace allowed (es_ext c) l (es_ext c').

Hypothesis foreign_begin : through_actions foreign_BeginBlock.
Hypothesis foreign_end : through_actions foreign_EndBlock.

Record chain_ok c : Prop := {
  co_epochs k e : epochs c !! k = Some e → Identifier e = k;
  co_app : app_inv (es_ext c);
}.

(** Seen by the modules without timers, a change of the chain is a sequence of
    their steps. *)
Record chain_steps c c' : Prop := {
  cs_inc : inc_steps (incentives_view (es_ext c)) (incentives_view (es_ext c'));
  cs_fee : fee_steps (feesplit_view (es_ext c)) (feesplit_view (es_ext c'));
  cs_erc : erc_steps (erc20_view (es_ext c)) (erc20_view (es_ext c'));
  cs_cl : cl_steps (claims_view (es_ext c)) (claims_view (es_ext c'));
  cs_ok : chain_ok c';
}.

(** Nothing but the modules' own steps happens between the ticks of the timers. *)
Definition between_ticks c c' : Prop := epochs c' = epochs c ∧ app_steps (es_ext c) (es_ext c').

#[local] Instance between_ticks_preorder : PreOrder between_ticks.
Proof.
  split; [by split|]. intros c1 c2 c3 [E1 S1] [E2 S2]. split; [congruence|by etransitivity].
Qed.

Lemma between_ticks_ok c c' : between_ticks c c' → chain_ok c → chain_steps c c'.
Proof.
  intros [E S] [Hk Ha]. pose proof S as []. constructor; auto. constructor; [by rewrite E|by eapply app_steps_inv].
Qed.

Lemma foreign_between h m ctx c c' : through_actions h → h m ctx c = (Ok tt, c') → between_ticks c c'.
Proof. intros Hh Hrun. destruct (Hh _ _ _ _ Hrun) as [E [l Hl]]. split; [done|]. by eapply trace_steps. Qed.

Lemma end_handlers ctx c c' :
  app_EndBlocker (C := C) channel_id_valid foreign_EndBlock ctx c = (Ok tt, c') → between_ticks c c'.
Proof.
  intros Hrun. eapply end_block_by with (B := between_ticks); [apply _|intros; by eapply (foreign_between foreign_EndBlock)| |exact Hrun].
  intros c1 c2 Hm. apply zoom_run in Hm as (a1 & Hm & ->). split; [done|]. eapply on_claims_steps; [exact Hm|].
  intros s'. apply cl_end.
Qed.

Lemma begin_handlers ctx c c' :
  app_BeginBlocker (C := C) feeCollectorName foreign_BeginBlock ctx c = (Ok tt, c') →
  ∃ c1 c2, between_ticks c c1 ∧ BeginBlocker hooks ctx c1 = (Ok tt, c2) ∧ between_ticks c2 c'.
Proof.
  intros Hrun. eapply begin_block_by with (B := between_ticks); [apply _|intros; by eapply (foreign_between foreign_BeginBlock)| |exact Hrun].
  intros c1 c2 Hm. apply zoom_run in Hm as (a1 & Hm & ->). split; [done|]. by eapply on_ext_steps.
Qed.

Lemma tick_steps ctx c c' : BeginBlocker hooks ctx c = (Ok tt, c') → chain_ok c → chain_steps c c'.
Proof.
  intros Hrun [Hk Ha]. pose proof (begin_blocker_hooks hooks ctx c) as Hcalls. cbv zeta in Hcalls.
  rewrite Hrun in Hcalls. simpl in Hcalls. symmetry in Hcalls.
  apply (calls_run feeCollectorName incentives_abstract send_no_panic) in Hcalls as [(Ef & Ee & Ec & _ & Hs) _]; [|apply Ha].
  pose proof (BeginBlocker_ok hooks ctx c c' Hk Hrun) as Hep.
  constructor; [exact Hs|by apply fee_other|by apply erc_other|by apply cl_same|]. constructor.
  - intros k e. rewrite Hep, lookup_fmap. destruct (epochs c !! k) as [e1|] eqn:Ek; [|done]. intros [= <-].
    rewrite epoch_tick_id. eauto.
  - destruct Ha as [M F P N R]. constructor; [by eapply (steps_inv send_no_panic)|..].
    + eapply rtc_keeps; [apply feesplit_step_inv|by apply fee_other|done].
    + eapply registry_reachable; [by apply erc_other|done].
    + eapply rtc_keeps; [apply erc20_step_named|by apply erc_other|done].
    + eapply claims_steps_records; [by apply cl_same|done].
Qed.

Lemma chain_steps_trans c1 c2 c3 : chain_steps c1 c2 → chain_steps c2 c3 → chain_steps c1 c3.
Proof. intros [] []. constructor; [by etransitivity..|done]. Qed.

Lemma run_chain_steps act c c' :
  (∀ ac, act = deliver ac → allowed (es_ext c) ac) →
  run_c act c = (Ok tt, c') → chain_ok c → chain_steps c c'.
Proof.
  intros Hadm Hrun Hok. destruct act as [ctx|act|ctx]; simpl in Hrun.
  - apply begin_handlers in Hrun as (c1 & c2 & Hb1 & Ht & Hb2).
    pose proof (between_ticks_ok _ _ Hb1 Hok) as S1. pose proof (tick_steps _ _ _ Ht (cs_ok _ _ S1)) as S2.
    eapply chain_steps_trans; [exact S1|]. eapply chain_steps_trans; [exact S2|].
    by apply between_ticks_ok; [|apply S2].
  - apply zoom_run in Hrun as (a1 & Hrun & ->). apply between_ticks_ok; [|done]. split; [done|]. by eapply action_steps; [apply Hadm|].
  - apply end_handlers in Hrun. by apply between_ticks_ok.
Qed.

Lemma trace_chain_steps c l c' : trace_c allowed c l c' → chain_ok c → chain_steps c c'.
Proof.
  induction 1 as [c|c act c1 l c2 Hadm Hrun Htr IH]; intros Hok; [by constructor|].
  pose proof (run_chain_steps _ _ _ Hadm Hrun Hok) as S. eapply chain_steps_trans; [exact S|]. apply IH, S.
Qed.

(** *** Days *)

Lemma between_day c c' e minted :
  between_ticks c c' → GetEpochInfo c DayEpochID = Some e →
  GetEpochInfo c' DayEpochID = Some e ∧
  infl_steps (CurrentEpoch e, minted, infl_view (es_ext c)) (CurrentEpoch e, minted, infl_view (es_ext c')).
Proof. intros [E []] He. unfold GetEpochInfo in *. by rewrite E. Qed.

Lemma tick_day ctx c c' e minted :
  BeginBlocker hooks ctx c = (Ok tt, c') → chain_ok c →
  GetEpochInfo c DayEpochID = Some e → EpochCountingStarted e = true → 0 ≤ CurrentEpoch e < 2^63 - 1 →
  ∃ e' minted', GetEpochInfo c' DayEpochID = Some e' ∧ EpochCountingStarted e' = true ∧
    CurrentEpoch e ≤ CurrentEpoch e' ≤ CurrentEpoch e + 1 ∧
    infl_steps (CurrentEpoch e, minted, infl_view (es_ext c)) (CurrentEpoch e', minted', infl_view (es_ext c')).
Proof.
  intros Hrun [Hk _] He Hst Hb. pose proof (BeginBlocker_ok hooks ctx c c' Hk Hrun) as Hep.
  destruct (epochs_drive_inflation feeCollectorName hooks infl_view (app_drives_inflation feeCollectorName)
    ctx c c' e minted Hk He Hst Hb Hrun) as (e' & minted' & He' & Hs).
  exists e', minted'. split; [done|]. unfold GetEpochInfo in He, He'. rewrite Hep, lookup_fmap, He in He'.
  injection He' as <-. revert Hs. unfold epoch_tick.
  assert (starts ctx e = false) as -> by (unfold starts; by rewrite Hst).
  destruct (ends ctx e); intros Hs; simpl in *; rewrite ?wrap64_id by (unfold in_int64; lia);
    rewrite ?wrap64_id in Hs by (unfold in_int64; lia); (split; [done|split; [lia|done]]).
Qed.

Lemma run_chain_day act c c' e minted :
  (∀ ac, act = deliver ac → allowed (es_ext c) ac) →
  run_c act c = (Ok tt, c') → chain_ok c →
  GetEpochInfo c DayEpochID = Some e → EpochCountingStarted e = true → 0 ≤ CurrentEpoch e < 2^63 - 1 →
  ∃ e' minted', GetEpochInfo c' DayEpochID = Some e' ∧ EpochCountingStarted e' = true ∧
    CurrentEpoch e ≤ CurrentEpoch e' ≤ CurrentEpoch e + 1 ∧
    infl_steps (CurrentEpoch e, minted, infl_view (es_ext c)) (CurrentEpoch e', minted', infl_view (es_ext c')).
Proof.
  intros Hadm Hrun Hok He Hst Hb.
  assert (Hsame : between_ticks c c' → ∃ e' minted', GetEpochInfo c' DayEpochID = Some e' ∧
    EpochCountingStarted e' = true ∧ CurrentEpoch e ≤ CurrentEpoch e' ≤ CurrentEpoch e + 1 ∧
    infl_steps (CurrentEpoch e, minted, infl_view (es_ext c)) (CurrentEpoch e', minted', infl_view (es_ext c'))).
  { intros Hbt. destruct (between_day _ _ e minted Hbt He) as [He' Hs]. exists e, minted. split; [done|].
    split; [done|]. split; [lia|done]. }
  destruct act as [ctx|act|ctx]; simpl in Hrun.
  - apply begin_handlers in Hrun as (c1 & c2 & Hb1 & Ht & Hb2).
    destruct (between_day _ _ e minted Hb1 He) as [He1 Hs1].
    destruct (tick_day _ _ _ e minted Ht (cs_ok _ _ (between_ticks_ok _ _ Hb1 Hok)) He1 Hst Hb)
      as (e2 & m2 & He2 & Hst2 & Hn2 & Hs2).
    destruct (between_day _ _ e2 m2 Hb2 He2) as [He3 Hs3]. exists e2, m2.
    do 3 (split; [done|]). etransitivity; [exact Hs1|]. by etransitivity.
  - apply zoom_run in Hrun as (a1 & Hrun & ->). apply Hsame. split; [done|]. by eapply action_steps; [apply Hadm|].
  - apply Hsame. by eapply end_handlers.
Qed.

Lemma trace_day c l c' e minted :
  trace_c allowed c l c' → chain_ok c →
  GetEpochInfo c DayEpochID = Some e → EpochCountingStarted e = true →
  0 ≤ CurrentEpoch e → CurrentEpoch e + Z.of_nat (length l) < 2^63 →
  ∃ e' minted', GetEpochInfo c' DayEpochID = Some e' ∧ CurrentEpoch e ≤ CurrentEpoch e' < 2^63 ∧
    infl_steps (CurrentEpoch e, minted, infl_view (es_ext c)) (CurrentEpoch e', minted', infl_view (es_ext c')).
Proof.
  intros Htr. revert e minted. induction Htr as [c|c act c1 l c2 Hadm Hrun Htr IH]; intros e minted Hok He Hst Hn Hb; simpl in Hb.
  { exists e, minted. split; [done|]. split; [lia|done]. }
  destruct (run_chain_day _ _ _ e minted Hadm Hrun Hok He Hst) as (e1 & m1 & He1 & Hst1 & Hn1 & Hs1); [lia|].
  destruct (IH e1 m1 (cs_ok _ _ (run_chain_steps _ _ _ Hadm Hrun Hok)) He1 Hst1) as (e2 & m2 & He2 & Hn2 & Hs2); [lia..|].
  exists e2, m2. split; [done|]. split; [lia|]. by etransitivity.
Qed.
(** A chain whose registries are empty. *)
Lemma chain_ok_fresh c :
  (∀ k e, epochs c !! k = Some e → Identifier e = k) →
  n_incentives (a_incentives (es_ext c)) = ∅ → n_meters (a_incentives (es_ext c)) = ∅ →
  f_splits (a_feesplit (es_ext c)) = ∅ → f_deployer (a_feesplit (es_ext c)) = ∅ →
  f_withdrawer (a_feesplit (es_ext c)) = ∅ → feesplit_Params_Validate (f_params (a_feesplit (es_ext c))) = Ok tt →
  e_pairs (a_erc20 (es_ext c)) = ∅ → e_byDenom (a_erc20 (es_ext c)) = ∅ → e_byERC20 (a_erc20 (es_ext c)) = ∅ →
  records_ok (c_records (a_claims (es_ext c))) → chain_ok c.
Proof.
  intros Hk Ei Em Es Ed Ew Hp Ep Ebd Ebe Hrec. constructor; [done|]. constructor.
  - apply (reachable_inv send_no_panic incentives_abstract (incentives_view (es_ext c))); done.
  - apply (feesplit_reachable_inv feeCollectorName). by exists (feesplit_view (es_ext c)).
  - constructor; simpl; [rewrite Ep|rewrite Ebd|rewrite Ebe]; intros ? ? Hl; by rewrite lookup_empty in Hl.
  - intros id tp. simpl. rewrite Ep, lookup_empty. done.
  - exact Hrec.
Qed.

(** C3: whatever the blocks, messages, proposals, transactions, packets, hooks and parameter
    changes of a trace of the chain, each module with a store of its own sees a sequence of
    steps of its own transition system, so that the theorems on the modules hold of the
    chain: incentives, feesplit, erc20 and claims always, and inflation with the stored
    number of the day epoch as its day counter.  The records of the airdrop change only by
    claims of open actions, by packets and by the end of the airdrop, and what is allocated
    to them never grows.  The invariants of the epochs, of the incentives, of the fee
    splits, of the token pairs and of the claims records hold at the end of the trace.
    (Vesting accounts are in the account store of the SDK and recovery has parameters
    only.)  Messages and proposals were validated; the block handlers of foreign modules
    reach the stores of these modules only by such actions, and a module account can send. *)
Theorem chain_refines_modules c l c' :
  chain_ok c → trace_c allowed c l c' →
  chain_steps c c' ∧
  rtc airdrop_step (c_records (claims_view (es_ext c))) (c_records (claims_view (es_ext c'))) ∧
  allocations (c_records (claims_view (es_ext c'))) ≤ allocations (c_records (claims_view (es_ext c))) ∧
  ∀ e minted, GetEpochInfo c DayEpochID = Some e → EpochCountingStarted e = true →
    0 ≤ CurrentEpoch e → CurrentEpoch e + Z.of_nat (length l) < 2^63 →
    ∃ e' minted', GetEpochInfo c' DayEpochID = Some e' ∧
      infl_steps (CurrentEpoch e, minted, infl_view (es_ext c)) (CurrentEpoch e', minted', infl_view (es_ext c')).
Proof.
  intros Hok Htr. pose proof (trace_chain_steps _ _ _ Htr Hok) as Hs. split; [exact Hs|].
  destruct (claims_steps_records channel_id_valid _ _ (cs_cl _ _ Hs) (ai_records _ (co_app _ Hok))) as [Ha _].
  split; [exact Ha|]. split; [apply (airdrop_steps_ok _ _ Ha), Hok|]. intros e minted He Hst Hn Hb.
  destruct (trace_day _ _ _ e minted Htr Hok He Hst Hn Hb) as (e' & m' & He' & _ & Hd). eauto.
Qed.

(** On a chain in its first day and its first period, the period of inflation after
    any trace is the number of minted days divided by the epochs per period, and the
    stored number of the day epoch is the number of days minted or skipped since. *)
Lemma chain_counts_days c l c' e epp :
  chain_ok c → trace_c allowed c l c' →
  distinct_accounts (C := C) (X := X) feeCollectorName → 0 < epp < 2^63 →
  infl_Params_Validate (C := C) (i_params (a_infl (es_ext c))) = Ok tt →
  GetEpochIdentifier (a_infl (es_ext c)) = DayEpochID → GetEpochsPerPeriod (a_infl (es_ext c)) = epp →
  GetSkippedEpochs (a_infl (es_ext c)) = 0 → GetPeriod (a_infl (es_ext c)) = 0 →
  GetEpochInfo c DayEpochID = Some e → EpochCountingStarted e = true → CurrentEpoch e = 1 →
  Z.of_nat (length l) < 2^63 - 1 →
  ∃ e' minted, GetEpochInfo c' DayEpochID = Some e' ∧
    GetPeriod (a_infl (es_ext c')) = minted / epp ∧
    CurrentEpoch e' = 1 + minted + GetSkippedEpochs (a_infl (es_ext c')).
Proof.
  intros Hok Htr Hdist Hepp Hp Hid Hper Hsk Hpd He Hst Hn Hl.
  destruct (trace_day _ _ _ e 0 Htr Hok He Hst) as (e' & m' & He' & Hb & Hs); [lia..|]. exists e', m'. split; [done|].
  rewrite Hn in Hs. apply (periods_count_minted_days feeCollectorName epp) in Hs; [|done..|lia]. exact Hs.
Qed.
End invariants.

(** ** Witnesses *)

Section samples.
Local Open Scope string_scope.
Local Open Scope Z_scope.

#[global] Instance w_upgrades : UpgradeKeeper world := { ScheduleUpgrade _ := ret tt }.

(** A chain in its first day with an IBC coin, a token contract and a developer. *)
Definition first_day : EpochInfo :=
  mkEpoch DayEpochID (from_unix 1000) (hour * 24) 1 (from_unix 1000) true 7.
Definition start_world : world :=
  mkWorld {[ alice := {[ "ibc/osmo" := 100 ]}; w_mod collector := {[ "aevmos" := 1000 ]} ]}
    {[ "ibc/osmo" := 100; "aevmos" := 1000 ]} {[ dev := PlainAcc dev ]}
    {[ "module/erc20" := 0; alice := 7; dev := 3 ]} ∅
    (mkEvm {[ gold := mkToken "Gold" "GLD" 18 {[ alice := 50 ]}; dapp := mkToken "D" "D" 18 ∅ ]} ∅).
Definition start_app : app_stores Z world :=
  mkApp (store_with tt infl_sample) (mkInc (incentives_DefaultParams (D := Z)) ∅ ∅ ∅ tt)
    (mkFee (feesplit_DefaultParams (D := Z)) ∅ ∅ ∅ tt) (mkErc20 (mkErc20Params true true) ∅ ∅ ∅ tt)
    (mkClaims airdrop {[ dev := rec 6 ]} tt) recovery_DefaultParams start_world.
Definition start_chain : epoch_state (app_stores Z world) := mkES {[ DayEpochID := first_day ]} [] start_app.

(** The coin is registered and converted, the contract is registered and called, and
    the day ends. *)
Definition chain_actions : list (ChainAction coins Z world) := [
  deliver (act_erc20_proposal (RegisterCoinProposal osmo));
  deliver (act_erc20 (ErcConvertCoin osmo_to_tokens));
  deliver (act_feesplit dapp_register);
  end_block (mkCtx (from_unix 499999) 8 "evmos_9000-4");
  begin_block day_ctx;
  deliver (act_evm day_ctx dapp_call)].

Definition idle : AppModule → Ctx → M (epoch_state (app_stores Z world)) unit := λ _ _, ret tt.
Definition run_w := run_chain (C := coins) collector chan_ok accepting (λ _ _, ret tt) (λ _ _, ret tt) idle idle.
Definition ok_w := admissible (C := coins) (D := Z) (X := world) (λ _, None) (λ _, None) no_abstract.
Definition after (n : nat) : epoch_state (app_stores Z world) :=
  foldl (λ c act, (run_w act c).2) start_chain (take n chain_actions).

Lemma start_ok : chain_ok start_chain.
Proof.
  apply (chain_ok_fresh (C := coins) collector no_abstract w_send_no_panic); try reflexivity.
  - intros k e. simpl. rewrite lookup_singleton_Some. by intros [<- <-].
  - intros k cr. simpl. rewrite lookup_singleton_Some. by intros [_ <-].
Qed.

Lemma idle_through : through_actions (C := coins) collector chan_ok (λ _, None) (λ _, None) no_abstract accepting
  (λ _ _, ret tt) (λ _ _, ret tt) idle.
Proof. intros m ctx c c' [= <-]. split; [done|]. exists []. constructor. Qed.

Lemma sample_trace :
  chain_trace collector chan_ok accepting (λ _ _, ret tt) (λ _ _, ret tt) idle idle ok_w start_chain chain_actions (after 6).
Proof.
  unfold chain_actions.
  eapply ct_cons with (c1 := after 1); [intros ? [= <-]; split; [vm_compute; reflexivity|done]|vm_compute; reflexivity|].
  eapply ct_cons with (c1 := after 2); [intros ? [= <-]; split; [vm_compute; reflexivity|done]|vm_compute; reflexivity|].
  eapply ct_cons with (c1 := after 3); [intros ? [= <-]; split; [vm_compute; reflexivity|done]|vm_compute; reflexivity|].
  eapply ct_cons with (c1 := after 4); [done|vm_compute; reflexivity|].
  eapply ct_cons with (c1 := after 5); [done|vm_compute; reflexivity|].
  eapply ct_cons with (c1 := after 6); [intros ? [= <-]; split; [vm_compute; reflexivity|done]|vm_compute; reflexivity|].
  apply ct_nil.
Qed.

(** The pair is registered, and the incentives and the day epoch followed their steps. *)
Lemma chain_refines_modules_witness :
  GetTokenPair (a_erc20 (es_ext (after 6))) (GetDenomMap (a_erc20 (es_ext (after 6))) "ibc/osmo") = Some osmo_pair ∧
  chain_ok (after 6) ∧
  rtc (erc20_step (C := coins)) (erc20_view start_app) (erc20_view (es_ext (after 6))) ∧
  c_records (claims_view (es_ext (after 6))) = ∅ ∧ rtc airdrop_step (c_records (claims_view start_app)) ∅ ∧
  ∃ e' minted', GetEpochInfo (after 6) DayEpochID = Some e' ∧
    rtc (infl_step (C := coins) collector) (1, 0, infl_view start_app) (CurrentEpoch e', minted', infl_view (es_ext (after 6))).
Proof.
  split; [vm_compute; reflexivity|].
  destruct (chain_refines_modules collector chan_ok (λ _, None) (λ _, None) no_abstract accepting (λ _ _, ret tt)
    (λ _ _, ret tt) idle idle w_send_no_panic idle_through idle_through start_chain chain_actions (after 6)
    start_ok sample_trace) as ([_ _ He _ Hok] & Hrec & _ & Hday).
  split; [exact Hok|]. split; [exact He|].
  assert (E : c_records (claims_view (es_ext (after 6))) = ∅) by (vm_compute; reflexivity). split; [exact E|].
  split; [rewrite E in Hrec; exact Hrec|]. apply (Hday first_day 0); [reflexivity..|discriminate|reflexivity].
Defined.

(** One day was minted. *)
Lemma chain_counts_days_witness :
  ∃ e' minted, GetEpochInfo (after 6) DayEpochID = Some e' ∧ CurrentEpoch e' = 2 ∧
    GetPeriod (a_infl (es_ext (after 6))) = minted / 365 ∧ minted = 1.
Proof.
  destruct (chain_counts_days collector chan_ok (λ _, None) (λ _, None) no_abstract accepting (λ _ _, ret tt)
    (λ _ _, ret tt) idle idle w_send_no_panic idle_through idle_through start_chain chain_actions (after 6) first_day 365
    start_ok sample_trace sample_accounts) as (e' & minted & He & Hp & Hn);
    [split; reflexivity|apply sample_params|vm_compute; reflexivity..|].
  assert (E : GetEpochInfo (after 6) DayEpochID = Some (epoch_tick day_ctx first_day)) by (vm_compute; reflexivity).
  assert (E2 : CurrentEpoch (epoch_tick day_ctx first_day) = 2) by (vm_compute; reflexivity).
  assert (E3 : GetSkippedEpochs (a_infl (es_ext (after 6))) = 0) by (vm_compute; reflexivity).
  rewrite E in He. injection He as <-. rewrite E2, E3 in Hn.
  exists (epoch_tick day_ctx first_day), minted. split; [exact E|]. split; [exact E2|]. split; [exact Hp|lia].
Defined.
End samples.
