(* ===== verification/Supply.v ===== *)
(** * Conservation of coins

    Along every trace of the chain the supply of a denomination that is neither a voucher
    of IBC, nor the one of the EVM, nor the one minted by inflation, nor the one of a token
    pair is changed by foreign modules only. *)

From S2P Require Import Prelude Frame Sdk Dec SdkInstances Schedule Clawback Keepers KeeperInstances EvmosUtils Evm Erc20Types VestingMsgs Epochs EpochsProps Inflation InflationProps Ibc IbcInstances Claims ClaimsProps Erc20 Erc20Instances Erc20Props Incentives IncentivesProps Feesplit FeesplitProps Recovery RecoveryProps App ClaimsSteps AppProps Chain ChainProps.

(** The bank changes the supply only of the coins it mints or burns, and the other
    keepers do not change it, whether they succeed or not. *)
Class SupplyLaws (C X : Type) `{SdkCoins C, AccountKeeper C X, BankKeeper C X, DistrKeeper C X, BankMeta X} := {
  supply_send f t c x d : GetSupply (SendCoins f t c x).2 d = GetSupply x d;
  supply_mod_acc m t c x d : GetSupply (SendCoinsFromModuleToAccount m t c x).2 d = GetSupply x d;
  supply_acc_mod f m c x d : GetSupply (SendCoinsFromAccountToModule f m c x).2 d = GetSupply x d;
  supply_mod_mod m n c x d : GetSupply (SendCoinsFromModuleToModule m n c x).2 d = GetSupply x d;
  supply_fund c f x d : GetSupply (FundCommunityPool c f x).2 d = GetSupply x d;
  supply_mint m c x d : amount_of c d = 0 → GetSupply (MintCoins m c x).2 d = GetSupply x d;
  supply_module_account m x d : GetSupply (HasModuleAccount m x).2 d = GetSupply x d;
  supply_set_account acc x d : GetSupply (SetAccount acc x) d = GetSupply x d;
  supply_new_account acc x d : GetSupply (NewAccount acc x) d = GetSupply x d;
  supply_remove_account acc x d : GetSupply (RemoveAccount acc x) d = GetSupply x d;
  supply_metadata md x d : GetSupply (SetDenomMetaData md x) d = GetSupply x d;
}.

Section supply.
Context {C D X : Type} `{SdkCoinsLaws C, !SdkPeriods C, !SdkBaseVesting C, SdkDecLaws D, !DecCoins D, !DecCoinsLaws D}.
Context `{Ethermint, SdkAddressLaws, EthAddressLaws, Erc20Abi, Bech32, IbcCodec, AppRunnersLaws}.
Context `{!AccountKeeper C X, !BankKeeper C X, !DistrKeeper C X, !StakingKeeper X, !EvmKeeper X, !BankMeta X}.
Context `{!AccountTypes X, !UpgradeKeeper X, !IbcTransfer X}.
Context `{!BankLaws C X, !DistrLaws C X, !StakingLaws X, !EvmLaws C X, !SupplyLaws C X}.
Context (d : string) (not_evm : d ≠ evm_denom).

(** States with the same supply of [d]. *)
Definition kept : relation X := same_on (λ x, GetSupply (C := C) x d).
Definition kept_by {F : Type → Type} `{Store F} : relation (F X) := same_on (λ s, GetSupply (C := C) (store_ext s) d).

#[local] Instance kept_preorder : PreOrder kept.
Proof. apply same_on_preorder. Qed.
#[local] Instance kept_by_preorder {F} `{Store F} : PreOrder (kept_by (F := F)).
Proof. apply same_on_preorder. Qed.

Lemma kept_call {A} (m : M X A) x : GetSupply (C := C) (m x).2 d = GetSupply (C := C) x d → framed kept x m.
Proof. intros E o x' Hm. rewrite Hm in E. exact E. Qed.

Lemma kept_send f t c x : framed kept x (SendCoins (C := C) f t c).
Proof. apply kept_call, supply_send. Qed.
Lemma kept_mod_acc m t c x : framed kept x (SendCoinsFromModuleToAccount (C := C) m t c).
Proof. apply kept_call, supply_mod_acc. Qed.
Lemma kept_acc_mod f m c x : framed kept x (SendCoinsFromAccountToModule (C := C) f m c).
Proof. apply kept_call, supply_acc_mod. Qed.
Lemma kept_mod_mod m n c x : framed kept x (SendCoinsFromModuleToModule (C := C) m n c).
Proof. apply kept_call, supply_mod_mod. Qed.
Lemma kept_fund c f x : framed kept x (FundCommunityPool (C := C) c f).
Proof. apply kept_call, supply_fund. Qed.
Lemma kept_mint m c x : amount_of c d = 0 → framed kept x (MintCoins (C := C) m c).
Proof. intros. by apply kept_call, supply_mint. Qed.
Lemma kept_set_account acc x : framed kept x (modify (SetAccount (C := C) acc)).
Proof. apply kept_call, supply_set_account. Qed.
Lemma kept_new_account acc x : framed kept x (modify (NewAccount (C := C) acc)).
Proof. apply kept_call, supply_new_account. Qed.
Lemma kept_remove_account acc x : framed kept x (modify (RemoveAccount (C := C) acc)).
Proof. apply kept_call, supply_remove_account. Qed.
Lemma kept_metadata md x : framed kept x (modify (SetDenomMetaData md)).
Proof. apply kept_call, supply_metadata. Qed.

(** A call of the EVM moves no coin but its own. *)
Lemma kept_apply msg commit x : framed kept x (ApplyMessage msg commit).
Proof.
  intros o x' Hm. unfold kept, same_on. destruct commit; [by eapply apply_supply|]. by apply apply_no_commit in Hm as ->.
Qed.

#[local] Hint Resolve kept_send kept_mod_acc kept_acc_mod kept_mod_mod kept_fund kept_set_account kept_new_account
  kept_remove_account kept_metadata kept_apply : frame.

Lemma kept_call_data f c data commit x : framed kept x (CallEVMWithData (C := C) f c data commit).
Proof.
  intros o x' Hc. unfold CallEVMWithData in Hc.
  destruct (GetSequence x f) as [n|]; [|by simplify_eq].
  destruct (if commit then EstimateGas x f c data else Ok DefaultGasCap) as [g| |]; [|by simplify_eq..].
  revert Hc. match goal with |- ?m x = _ → _ => change (m x = (o, x') → kept x x'); assert (Hf : framed kept x m) by frame end.
  apply Hf.
Qed.

(** A call of a foreign keeper from a module. *)
Lemma kept_zoom {F} `{Store F} {A} (s : F X) (get : F X → X) set (m : M X A) :
  get s = store_ext s → (∀ x, store_ext (set x s) = x) → framed kept (store_ext s) m → framed kept_by s (zoom get set m).
Proof.
  intros Eg Es Hm. apply (framed_zoom kept_by kept); rewrite Eg; [|done].
  intros x Hx. unfold kept_by, same_on. by rewrite Es.
Qed.
Lemma kept_cext {A} (m : M X A) s : framed kept (store_ext s) m → framed kept_by s (cext m).
Proof. by apply kept_zoom. Qed.
Lemma kept_iext {A} (m : M X A) (s : infl_state D X) : framed kept (store_ext s) m → framed kept_by s (iext m).
Proof. by apply kept_zoom. Qed.
Lemma kept_next {A} (m : M X A) (s : incentives_state D X) : framed kept (store_ext s) m → framed kept_by s (next m).
Proof. by apply kept_zoom. Qed.
Lemma kept_fext {A} (m : M X A) (s : feesplit_state D X) : framed kept (store_ext s) m → framed kept_by s (fext m).
Proof. by apply kept_zoom. Qed.
Lemma kept_eext {A} (m : M X A) (s : erc20_state X) : framed kept (store_ext s) m → framed kept_by s (eext m).
Proof. by apply kept_zoom. Qed.
#[local] Hint Resolve kept_call_data kept_cext kept_iext kept_next kept_fext kept_eext : frame.

(** ** Vesting *)

Lemma kept_vesting ctx msg x : framed kept x (vesting_Handler (C := C) ctx msg).
Proof.
  destruct msg as [msg|msg|]; simpl; [| |frame].
  - unfold CreateClawbackVestingAccount, addGrant. frame.
  - unfold Clawback, transferClawback. frame.
Qed.
#[local] Hint Resolve kept_vesting : frame.

(** ** Claims *)

Lemma kept_claim ctx addr cr action params s :
  framed kept_by s (ClaimCoinsForAction (D := D) (C := C) ctx addr cr action params).
Proof. unfold ClaimCoinsForAction. frame. Qed.
#[local] Hint Resolve kept_claim : frame.

Lemma kept_claim_hook ctx addr action s : framed kept_by s (claim_hook (D := D) (C := C) ctx addr action).
Proof. unfold claim_hook. frame. Qed.
#[local] Hint Resolve kept_claim_hook : frame.

Lemma kept_claims_params chan_ok params s : framed kept_by s (claims_SetParams (C := C) (X := X) chan_ok params).
Proof. intros o s'. unfold claims_SetParams. destruct (is_ok _); by intros [= <- <-]. Qed.
#[local] Hint Resolve kept_claims_params : frame.

Lemma kept_end_blocker chan_ok ctx s : framed kept_by s (EndBlocker (C := C) chan_ok ctx).
Proof.
  unfold EndBlocker, EndAirdrop, ClawbackEscrowedTokens, ClawbackEmptyAccounts. frame.
  intros o s'. unfold IterateClaimsRecords. apply (framed_iterate kept_by). intros acr ?. unfold clawback_account. frame.
Qed.

(** ** Incentives and feesplit *)

Lemma kept_feesplit msg (s : feesplit_state D X) : framed kept_by s (feesplit_Handler msg).
Proof. destruct msg; simpl; unfold RegisterFeeSplit, UpdateFeeSplit, CancelFeeSplit; frame. Qed.

Lemma kept_fee_hook feeCollectorName tx (s : feesplit_state D X) :
  framed kept_by s (feesplit_PostTxProcessing (C := C) feeCollectorName tx).
Proof. unfold feesplit_PostTxProcessing. frame. Qed.

Lemma kept_delete_incentive i (s : incentives_state D X) :
  framed kept_by s (modify (DeleteIncentiveAndUpdateAllocationMeters i)).
Proof.
  apply framed_modify. unfold DeleteIncentiveAndUpdateAllocationMeters.
  assert (Hr : ∀ (l : list (DecCoin D)) (s : incentives_state D X), kept_by s (foldl release_allocation s l)).
  { intros l. induction l as [|al l IH]; intros s1; simpl; [done|]. etransitivity; [|apply IH]. done. }
  etransitivity; [|apply Hr]. done.
Qed.
#[local] Hint Resolve kept_delete_incentive : frame.

Lemma kept_incentives ctx content (s : incentives_state D X) :
  framed kept_by s (IncentivesProposalHandler (C := C) ctx content).
Proof. destruct content; simpl; unfold RegisterIncentive, CancelIncentive; frame. Qed.

Lemma kept_reward_loop i alloc scaler gms rewards count (s : incentives_state D X) :
  framed kept_by s (reward_loop (C := C) i alloc scaler gms rewards count).
Proof. revert rewards count s. induction gms as [|gm gms IH]; intros rewards count s; simpl; frame. Qed.
#[local] Hint Resolve kept_reward_loop : frame.

Lemma kept_incentives_epoch id (s : incentives_state D X) : framed kept_by s (incentives_AfterEpochEnd (C := C) id).
Proof.
  unfold incentives_AfterEpochEnd, DistributeRewards. frame.
  intros o s'. unfold IterateIncentives. apply (framed_iterate kept_by). intros i ?.
  unfold distribute_incentive, rewardParticipants. frame.
Qed.

Lemma kept_incentives_hook tx (s : incentives_state D X) : framed kept_by s (incentives_PostTxProcessing (C := C) tx).
Proof. unfold incentives_PostTxProcessing, addGasToIncentive, addGasToParticipant. frame. Qed.

(** ** Inflation mints its denomination only *)

Lemma kept_infl_mint coin (s : infl_state D X) : coin.1 ≠ d → framed kept_by s (infl_MintCoins (C := C) coin).
Proof.
  intros Hd. unfold infl_MintCoins. apply framed_bind; [apply _|frame|]. intros c s1 Hc.
  apply lift_ok in Hc as [Hc ->]. apply coins_new_inv in Hc as (_ & _ & Hc).
  destruct (coins_is_empty c); [frame|]. apply kept_iext, kept_mint. rewrite Hc. by rewrite decide_False by congruence.
Qed.

Lemma kept_infl_epoch feeCollectorName ctx id n (s : infl_state D X) :
  MintDenom (i_params s) ≠ d → framed kept_by s (infl_AfterEpochEnd (C := C) feeCollectorName ctx id n).
Proof.
  intros Hm. unfold infl_AfterEpochEnd, infl_GetParams.
  apply framed_bind; [apply _|frame|]. intros p s1 [= <- <-].
  frame_step; [frame|]. destruct (negb (EnableInflation _)); [frame|].
  frame_step; [frame|]. destruct (negb _); [frame|]. frame_step; [frame|]. 
  match goal with |- framed _ _ (match ?p with _ => _ end) => destruct p as [provision found] end.
  destruct (negb found); [frame|]. apply framed_bind; [apply _|frame|]. intros coin ? Hc.
  assert (Hcoin : coin.1 ≠ d).
  { apply lift_ok in Hc as [Hc _]. unfold new_coin in Hc. by inv_ok. }
  frame_step.
  - apply framed_must. unfold MintAndAllocateInflation. frame_step; [by apply kept_infl_mint|].
    unfold AllocateExponentialInflation. frame.
  - do 2 (frame_step; [frame|]). destruct (period_passed _ _ _ _); [|frame]. do 2 (frame_step; [frame|]).
    frame_step; [|frame]. apply framed_same; [apply _|done].
Qed.

Lemma kept_infl_params params (s : infl_state D X) : framed kept_by s (infl_SetParams (C := C) params).
Proof. intros o s'. unfold infl_SetParams. destruct (is_ok _); by intros [= <- <-]. Qed.

(** ** Token pairs *)

Lemma kept_call_evm f c commit method args x : framed kept x (CallEVM (C := C) f c commit method args).
Proof. unfold CallEVM. frame. Qed.
Lemma kept_unpack {A} (v : option A) e x : framed kept x (unpack v e).
Proof. unfold unpack. frame. Qed.
#[local] Hint Resolve kept_call_evm kept_unpack : frame.

Lemma kept_deploy md x : framed kept x (DeployERC20Contract (C := C) md).
Proof.
  unfold DeployERC20Contract. destruct (abi_pack _ _); [|frame]. frame_step; [|frame].
  apply framed_same; [apply _|]. by destruct (GetSequence x _).
Qed.
#[local] Hint Resolve kept_deploy : frame.

Lemma kept_proposal content (s : erc20_state X) : framed kept_by s (Erc20ProposalHandler (C := C) content).
Proof.
  destruct content; simpl; unfold RegisterCoin, RegisterERC20, ToggleConversion, CreateCoinMetadata, store_pair,
    verifyMetadata, QueryERC20; frame; apply kept_eext; frame.
Qed.

(** Coins of token pairs are minted and burnt: [d] is not the denomination of one. *)
Definition no_pair (s : erc20_state X) : Prop :=
  registry_inv s ∧ is_hex_address d = false ∧
  ∀ id tp, e_pairs s !! id = Some tp → ContractOwner tp = OWNER_EXTERNAL → Denom tp ≠ d.

Lemma no_pair_denom s tp token :
  no_pair s → GetTokenPair s (GetTokenPairID s token) = Some tp → ContractOwner tp = OWNER_EXTERNAL →
  Denom tp ≠ d ∧ token ≠ d.
Proof.
  intros (Hreg & Hhex & Hext) Htp Ho. unfold GetTokenPair, GetTokenPairID in Htp. split.
  - destruct (if is_hex_address token then _ else _) as [id|]; [|done]. by eapply Hext.
  - intros ->. rewrite Hhex in Htp. unfold GetDenomMap in Htp. destruct (e_byDenom s !! d) as [id|] eqn:Eid; [|done].
    destruct (ri_denom s Hreg d id Eid) as (tp' & Htp' & Hd). eapply Hext; [exact Htp|done|congruence].
Qed.

Lemma moved_kept x x' delta minted : coins_move (C := C) x x' delta minted → minted d = 0 → kept x x'.
Proof. intros Hmv Hd. destruct (Hmv d not_evm) as [_ Hs]. unfold kept, same_on. lia. Qed.

Lemma of_denom_other d0 amt : d0 ≠ d → of_denom d0 d amt = 0.
Proof. intros Hne. unfold of_denom. by rewrite decide_False by congruence. Qed.

Lemma kept_convert msg s s' : no_pair s → erc20_Handler (C := C) msg s = (Ok tt, s') → kept_by s s'.
Proof.
  intros Hno Hrun. destruct msg as [msg|msg|]; simpl in Hrun; [..|done];
    apply bind_ok in Hrun as (r & s1 & Hrun & Hr); inv_ok;
    [apply convert_coin_inv in Hrun as (? & tp & _ & (_ & Htp & _) & Hr)
    |apply convert_erc20_inv in Hrun as (? & tp & _ & (_ & Htp & _) & Hr)];
    (destruct r; [|destruct Hr as [_ ->]; done]); destruct Hr as (_ & _ & He); unfold kept_by;
    (destruct (ContractOwner tp) eqn:Eo; [done|..]).
  - apply coin_native_coin_ok in He as [_ Hmv]. by apply (moved_kept _ _ _ _ Hmv).
  - apply coin_native_erc20_ok in He as [_ Hmv]. apply (moved_kept _ _ _ _ Hmv).
    rewrite of_denom_other; [done|]. exact (proj2 (no_pair_denom _ _ _ Hno Htp Eo)).
  - apply erc20_native_coin_ok in He as (_ & _ & Hmv). by apply (moved_kept _ _ _ _ Hmv).
  - apply erc20_native_token_ok in He as (_ & _ & Hmv). apply (moved_kept _ _ _ _ Hmv).
    apply of_denom_other. exact (proj1 (no_pair_denom _ _ _ Hno Htp Eo)).
Qed.

Lemma no_pair_registry s s' : same_registry s s' → no_pair s → no_pair s'.
Proof.
  intros Hsame (Hreg & Hhex & Hext). pose proof Hsame as (_ & Ep & _ & _).
  split; [by eapply registry_inv_ext|]. split; [done|]. by rewrite Ep.
Qed.

Lemma kept_hook_run logs s s' : hook_run (C := C) logs s s' → no_pair s → kept_by s s'.
Proof.
  induction 1 as [s|log logs s s' _ _ IH|log logs s s1 s' tp from amt Hask Hreg Ho _ IH]; intros Hno; [done|by apply IH|].
  transitivity s1; [|by apply IH; eapply no_pair_registry]. unfold kept_by.
  destruct Hask as (t0 & t1 & t2 & _ & _ & _ & _ & _ & _ & _ & _ & Htp).
  assert (Hd : ContractOwner tp = OWNER_EXTERNAL → of_denom (Denom tp) d amt = 0).
  { intros Hown. apply of_denom_other. unfold GetTokenPair in Htp. destruct (GetERC20Map s _) as [id|]; [|done].
    by eapply (proj2 (proj2 Hno)). }
  destruct Ho as [_ Hmv|? ? _ _ _ Hmv|? _ _ _ Hmv|? Hown _ _ Hmv|Hown _ _ Hmv]; apply (moved_kept _ _ _ _ Hmv); auto.
Qed.

Lemma kept_erc20_hook logs s s' :
  no_pair s → erc20_PostTxProcessing (C := C) logs s = (Ok tt, s') → kept_by s s'.
Proof.
  intros Hno Hrun. unfold erc20_PostTxProcessing in Hrun.
  apply bind_ok in Hrun as (p & s0 & Hg & Hrun). unfold gets in Hg. injection Hg as <- <-.
  destruct (_ || _); [by inv_ok|]. apply hook_logs_run in Hrun. by eapply kept_hook_run.
Qed.

(** ** The application *)

Context (feeCollectorName : string) (channel_id_valid : string → bool) (validate_ibc_denom : string → option error).
Context (erc20_abstract : Proposal → option error) (incentives_abstract : IncentiveProposal D → option error).
Context (transfer : IBCModule X) (distr_hook slashing_hook : Ctx → string → M X unit).
Context (foreign_BeginBlock foreign_EndBlock : AppModule → Ctx → M (epoch_state (app_stores D X)) unit).
Implicit Types (a : app_stores D X) (c : epoch_state (app_stores D X)).
Local Abbreviation run := (run_action (C := C) (D := D) feeCollectorName channel_id_valid transfer distr_hook slashing_hook).
Local Abbreviation allowed := (admissible (C := C) (D := D) validate_ibc_denom erc20_abstract incentives_abstract).
Local Abbreviation trace := (app_trace (C := C) (D := D) feeCollectorName channel_id_valid transfer distr_hook slashing_hook).
Local Abbreviation trace_c := (chain_trace (C := C) (D := D) feeCollectorName channel_id_valid transfer distr_hook slashing_hook
  foreign_BeginBlock foreign_EndBlock).
Local Abbreviation hooks := (epoch_hooks (C := C) (D := D) (X := X) feeCollectorName).

(** Coins of this chain: what is not a voucher of IBC. *)
Definition native (d0 : string) : Prop := String.prefix "ibc/" d0 = false.

(** The transfer application mints and burns vouchers only: coins of this chain are
    escrowed.  The hooks of staking and the upgrade keeper mint and burn nothing. *)
Record foreign_keeps : Prop := {
  fk_recv d0 ctx packet relayer x : native d0 →
    framed (same_on (λ x, GetSupply (C := C) x d0)) x (OnRecvPacket transfer ctx packet relayer);
  fk_ack d0 ctx packet ack relayer x : native d0 →
    framed (same_on (λ x, GetSupply (C := C) x d0)) x (OnAcknowledgementPacket transfer ctx packet ack relayer);
  fk_timeout d0 ctx packet relayer x : native d0 →
    framed (same_on (λ x, GetSupply (C := C) x d0)) x (OnTimeoutPacket transfer ctx packet relayer);
  fk_send d0 port channel coin f r timeout x : native d0 →
    framed (same_on (λ x, GetSupply (C := C) x d0)) x (SendTransfer port channel coin f r timeout);
  fk_distr ctx addr x : framed kept x (distr_hook ctx addr);
  fk_slashing ctx addr x : framed kept x (slashing_hook ctx addr);
  fk_upgrade plan x : framed kept x (ScheduleUpgrade plan);
}.

Hypothesis foreign : foreign_keeps.
Hypothesis not_voucher : native d.

Lemma kept_app_recv ctx packet relayer x : framed kept x (OnRecvPacket transfer ctx packet relayer).
Proof. by apply fk_recv. Qed.
Lemma kept_app_ack ctx packet ack relayer x : framed kept x (OnAcknowledgementPacket transfer ctx packet ack relayer).
Proof. by apply fk_ack. Qed.
Lemma kept_app_timeout ctx packet relayer x : framed kept x (OnTimeoutPacket transfer ctx packet relayer).
Proof. by apply fk_timeout. Qed.
Lemma kept_app_send port channel coin f r timeout x : framed kept x (SendTransfer port channel coin f r timeout).
Proof. by apply fk_send. Qed.
#[local] Hint Resolve kept_app_recv kept_app_ack kept_app_timeout kept_app_send fk_distr fk_slashing fk_upgrade : frame.

(** *** Packets *)

Definition kept_rec : relation (recovery_state X) := same_on (λ s, GetSupply (C := C) (c_ext (r_claims s)) d).
#[local] Instance kept_rec_preorder : PreOrder kept_rec.
Proof. apply same_on_preorder. Qed.

Lemma kept_merge ctx r s1 s2 p (s : claims_state X) :
  framed kept_by s (MergeClaimsRecords (D := D) (C := C) ctx r s1 s2 p).
Proof. unfold MergeClaimsRecords. frame. Qed.
#[local] Hint Resolve kept_merge : frame.

Lemma kept_claims_recv ctx packet ack (s : claims_state X) :
  framed kept_by s (claims_OnRecvPacket (D := D) (C := C) ctx packet ack).
Proof. unfold claims_OnRecvPacket, recv_claims, or_error_ack. frame. Qed.
Lemma kept_claims_ack ctx packet ack (s : claims_state X) :
  framed kept_by s (claims_OnAcknowledgementPacket (D := D) (C := C) ctx packet ack).
Proof. unfold claims_OnAcknowledgementPacket. frame. Qed.
#[local] Hint Resolve kept_claims_recv kept_claims_ack : frame.

Lemma kept_rec_claims {A} (m : M (claims_state X) A) s : framed kept_by (r_claims s) m → framed kept_rec s (zoom r_claims set_claims m).
Proof. by apply framed_zoom. Qed.

Lemma kept_recover ctx p packet f t l balances s :
  framed kept_rec s (recover_loop (C := C) ctx p packet f t l balances).
Proof.
  revert balances s. induction l as [|coin l IH]; intros balances s; simpl; [frame|]. unfold recover_coin.
  frame; unfold rext; apply kept_rec_claims, kept_cext; frame.
Qed.
#[local] Hint Resolve kept_recover : frame.

Lemma kept_recovery_recv ctx packet ack s : framed kept_rec s (recovery_OnRecvPacket (C := C) ctx packet ack).
Proof. unfold recovery_OnRecvPacket. frame. Qed.
#[local] Hint Resolve kept_recovery_recv : frame.

Lemma kept_transfer_recv ctx packet relayer s :
  framed kept_rec s (OnRecvPacket (transferStack (C := C) (D := D) transfer) ctx packet relayer).
Proof.
  simpl. frame. apply kept_rec_claims. unfold claims_mw_OnRecvPacket. frame.
Qed.
Lemma kept_transfer_ack ctx packet ack relayer s :
  framed kept_rec s (OnAcknowledgementPacket (transferStack (C := C) (D := D) transfer) ctx packet ack relayer).
Proof.
  simpl. apply kept_rec_claims. unfold claims_mw_OnAcknowledgementPacket. frame.
Qed.
Lemma kept_transfer_timeout ctx packet relayer s :
  framed kept_rec s (OnTimeoutPacket (transferStack (C := C) (D := D) transfer) ctx packet relayer).
Proof. simpl. apply kept_rec_claims. frame. Qed.

(** *** Actions *)

(** While inflation mints another denomination, the supply of [d] and the
    denomination of inflation stay. *)
Definition mint_denom a : string := MintDenom (i_params (a_infl a)).
Definition calm a a' : Prop :=
  mint_denom a ≠ d → GetSupply (C := C) (a_ext a') d = GetSupply (C := C) (a_ext a) d ∧ mint_denom a' = mint_denom a.
#[local] Instance calm_preorder : PreOrder calm.
Proof.
  split; [done|]. intros a1 a2 a3 R1 R2 Hd. destruct (R1 Hd) as [E1 E2].
  destruct (R2 ltac:(congruence)) as [E3 E4]. split; congruence.
Qed.

Lemma calm_ext {A} (m : M X A) a : framed kept (a_ext a) m → framed calm a (on_ext m).
Proof. by apply framed_zoom. Qed.
Lemma calm_erc20 {A} (m : M (erc20_state X) A) a : framed kept_by (erc20_view a) m → framed calm a (on_erc20 m).
Proof. by apply framed_zoom. Qed.
Lemma calm_feesplit {A} (m : M (feesplit_state D X) A) a : framed kept_by (feesplit_view a) m → framed calm a (on_feesplit m).
Proof. by apply framed_zoom. Qed.
Lemma calm_incentives {A} (m : M (incentives_state D X) A) a :
  framed kept_by (incentives_view a) m → framed calm a (on_incentives m).
Proof. by apply framed_zoom. Qed.
Lemma calm_claims {A} (m : M (claims_state X) A) a : framed kept_by (claims_view a) m → framed calm a (on_claims m).
Proof. by apply framed_zoom. Qed.
Lemma calm_recovery {A} (m : M (recovery_state X) A) a : framed kept_rec (recovery_view a) m → framed calm a (on_recovery m).
Proof. by apply framed_zoom. Qed.
Lemma calm_infl {A} (m : M (infl_state D X) A) a :
  (mint_denom a ≠ d → framed kept_by (infl_view a) m ∧ framed (same_on i_params) (infl_view a) m) →
  framed calm a (on_infl m).
Proof.
  intros Hm o a' Hrun Hd. apply zoom_run in Hrun as (s' & Hs & ->). destruct (Hm Hd) as [H1' H2'].
  split; [exact (H1' _ _ Hs)|]. unfold mint_denom. simpl. by rewrite (H2' _ _ Hs).
Qed.

(** The denomination is not the one of a pair. *)
Hypothesis not_hex : is_hex_address d = false.
Hypothesis not_erc20 : String.prefix "erc20/" d = false.

Lemma app_no_pair a : app_inv a → no_pair (erc20_view a).
Proof.
  intros [_ _ P N _]. split; [done|]. split; [done|]. intros id tp Htp Ho Hd. specialize (N _ _ Htp Ho).
  rewrite N in Hd. revert not_erc20. rewrite <- Hd. change (CreateDenom _) with (String.append "erc20/" (Erc20Address tp)).
  by rewrite prefix_append.
Qed.

(** The actions in question: a change of the parameters of inflation does not make it
    mint [d], and a foreign module that changes the supply of [d] is none. *)
Definition quiet a (act : AppAction C D X) : Prop :=
  allowed a act ∧
  match act with
  | act_foreign x => GetSupply (C := C) x d = GetSupply (C := C) (a_ext a) d
  | act_infl_params params => MintDenom params ≠ d
  | _ => True
  end.

Definition still a a' : Prop :=
  mint_denom a ≠ d → GetSupply (C := C) (a_ext a') d = GetSupply (C := C) (a_ext a) d ∧ mint_denom a' ≠ d.
#[local] Instance still_preorder : PreOrder still.
Proof.
  split; [done|]. intros a1 a2 a3 R1 R2 Hd. destruct (R1 Hd) as [E1 E2]. destruct (R2 E2) as [E3 E4]. split; congruence.
Qed.
Lemma calm_still a a' : calm a a' → still a a'.
Proof. intros Hc Hd. destruct (Hc Hd) as [E1 E2]. split; [done|congruence]. Qed.

Lemma calm_evm ctx tx a a' :
  app_inv a → app_PostTxProcessing (C := C) feeCollectorName ctx tx a = (Ok tt, a') → calm a a'.
Proof.
  intros Hinv Hrun. unfold app_PostTxProcessing in Hrun. rewrite multi_evm_hooks in Hrun. simpl in Hrun.
  apply bind_ok in Hrun as ([] & a1 & Hh1 & Hrun). transitivity a1.
  { apply zoom_run in Hh1 as (s' & Hs & ->). apply kept_erc20_hook in Hs; [|by apply app_no_pair]. by intros _. }
  revert Hrun. match goal with |- ?m a1 = _ → _ => assert (Hf : framed calm a1 m); [|apply Hf] end.
  frame.
  - apply calm_incentives, kept_incentives_hook.
  - apply calm_feesplit, kept_fee_hook.
  - apply calm_claims, kept_claim_hook.
Qed.

Lemma calm_run (m : M (app_stores D X) unit) a a' : framed calm a m → m a = (Ok tt, a') → still a a'.
Proof. intros Hm Hrun. by eapply calm_still, Hm. Qed.

Lemma calm_hooks (l : list (Ctx → string → M (app_stores D X) unit)) (multi : M (app_stores D X) unit) ctx addr a :
  (∀ s, multi s = foreach l (λ h, h ctx addr) s) → Forall (λ h, ∀ a, framed calm a (h ctx addr)) l → framed calm a multi.
Proof.
  intros Hmulti Hl o a'. rewrite Hmulti. apply (foreach_inv (calm a)); [|done].
  intros h a1 o1 a2 Hh Hc Hrun. rewrite Forall_forall in Hl. etransitivity; [exact Hc|]. by eapply Hl.
Qed.

Lemma action_still act a a' : app_inv a → quiet a act → run act a = (Ok tt, a') → still a a'.
Proof.
  intros Hinv [[Hv Hadm] Hq] Hrun.
  destruct act as [ctx msg|msg|msg|msg|content|ctx content|ctx tx|ctx voter|ctx del|ctx packet r|ctx packet ack r|ctx packet r
                  |p|p|p|p|p|p|x]; simpl in Hrun, Hq.
  2: { apply calm_still. apply zoom_run in Hrun as (s' & Hs & ->). apply kept_convert in Hs; [|by apply app_no_pair].
       by intros _. }
  6: { by eapply calm_still, calm_evm. }
  11: { apply zoom_run in Hrun as (s' & Hs & ->). intros _. pose proof (kept_infl_params _ _ _ _ Hs) as Hk.
        split; [exact Hk|]. unfold infl_SetParams in Hs. destruct (is_ok _); [|done]. by injection Hs as <-. }
  16: { injection Hrun as <-. by intros Hd. }
  all: eapply calm_run; [|exact Hrun].
  - apply calm_ext, kept_vesting.
  - apply calm_feesplit, kept_feesplit.
  - apply calm_claims. unfold claims_Handler. frame.
  - apply calm_erc20, kept_proposal.
  - apply calm_incentives, kept_incentives.
  - eapply calm_hooks; [intros; apply multi_gov_hooks|]. rewrite Forall_singleton. intros a1. apply calm_claims, kept_claim_hook.
  - eapply calm_hooks; [intros; apply multi_staking_hooks|].
    rewrite !Forall_cons, Forall_nil. split_and!; [intros a1; apply calm_ext; frame..| |done].
    intros a1. apply calm_claims, kept_claim_hook.
  - frame. apply calm_recovery, kept_transfer_recv.
  - apply calm_recovery, kept_transfer_ack.
  - apply calm_recovery, kept_transfer_timeout.
  - apply calm_incentives. frame.
  - apply calm_feesplit. frame.
  - apply calm_erc20. frame.
  - apply calm_claims. frame.
  - apply calm_recovery. frame.
Qed.

Hypothesis send_no_panic : ∀ t (c : C) (x : X),
  (SendCoinsFromModuleToAccount incentives_ModuleName t c x).1 ≠ Panic.

Lemma trace_still a l a' : trace quiet a l a' → app_inv a → still a a'.
Proof.
  induction 1 as [a|a act a1 l a2 Hq Hrun Htr IH]; intros Hinv; [done|]. etransitivity; [by eapply action_still|].
  apply IH. eapply (app_steps_inv feeCollectorName channel_id_valid incentives_abstract send_no_panic); [|exact Hinv].
  eapply action_steps; [exact (proj1 Hq)|exact Hrun].
Qed.

(** *** Blocks *)

Lemma trace_mono (P Q : app_stores D X → AppAction C D X → Prop) a l a' :
  (∀ a act, P a act → Q a act) → trace P a l a' → trace Q a l a'.
Proof. intros HPQ. induction 1; [constructor|]. econstructor; eauto. Qed.

(** The block handlers of the foreign modules act through quiet actions. *)
Definition through_quiet (h : AppModule → Ctx → M (epoch_state (app_stores D X)) unit) : Prop :=
  ∀ m ctx c c', h m ctx c = (Ok tt, c') → epochs c' = epochs c ∧ ∃ l, trace quiet (es_ext c) l (es_ext c').

Local Abbreviation through := (through_actions (C := C) feeCollectorName channel_id_valid validate_ibc_denom erc20_abstract
  incentives_abstract transfer distr_hook slashing_hook).
Local Abbreviation between := (between_ticks (C := C) (D := D) (X := X) feeCollectorName channel_id_valid incentives_abstract).

Lemma quiet_through h : through_quiet h → through h.
Proof.
  intros Hh m ctx c c' Hrun. destruct (Hh _ _ _ _ Hrun) as [E [l Hl]]. split; [done|]. exists l.
  eapply trace_mono; [|exact Hl]. by intros a act [Ha _].
Qed.

Hypothesis foreign_begin : through_quiet foreign_BeginBlock.
Hypothesis foreign_end : through_quiet foreign_EndBlock.

(** Between the ticks of the timers the supply stays. *)
Definition still_between c c' : Prop := between c c' ∧ (chain_ok c → still (es_ext c) (es_ext c')).
#[local] Instance still_between_preorder : PreOrder still_between.
Proof.
  split.
  - intros c. split; [by apply between_ticks_preorder|done].
  - intros c1 c2 c3 [B1 S1] [B2 S2]. split; [by eapply between_ticks_preorder|]. intros Hok.
    etransitivity; [by apply S1|]. apply S2.
    exact (cs_ok _ _ _ _ _ (between_ticks_ok feeCollectorName channel_id_valid incentives_abstract send_no_panic _ _ B1 Hok)).
Qed.

Lemma foreign_still h m ctx c c' : through_quiet h → h m ctx c = (Ok tt, c') → still_between c c'.
Proof.
  intros Hh Hrun. split; [by eapply foreign_between; [apply quiet_through|]|]. intros Hok.
  destruct (Hh _ _ _ _ Hrun) as [_ [l Hl]]. eapply trace_still; [exact Hl|apply Hok].
Qed.

Lemma fork_still ctx c c' : on_app (on_ext (ScheduleForkUpgrade ctx)) c = (Ok tt, c') → still_between c c'.
Proof.
  intros Hm. apply zoom_run in Hm as (a1 & Hm & ->). split; [split; [done|by eapply on_ext_steps]|]. intros _.
  eapply calm_run; [|exact Hm]. apply calm_ext. unfold ScheduleForkUpgrade. frame.
Qed.

Lemma airdrop_still ctx c c' :
  on_app (on_claims (EndBlocker (C := C) channel_id_valid ctx)) c = (Ok tt, c') → still_between c c'.
Proof.
  intros Hm. apply zoom_run in Hm as (a1 & Hm & ->). split; [split; [done|]|].
  { eapply on_claims_steps; [exact Hm|]. intros s'. apply cl_end. }
  intros _.
  eapply calm_run; [|exact Hm]. apply calm_claims, kept_end_blocker.
Qed.

(** The hooks of an epoch. *)
Lemma infl_epoch_params ctx id n (s : infl_state D X) :
  framed (same_on i_params) s (infl_AfterEpochEnd (C := C) feeCollectorName ctx id n).
Proof.
  assert (Hi : ∀ {A} (m : M X A) (s : infl_state D X), framed (same_on i_params) s (iext m)).
  { intros A m s1. by apply (framed_zoom _ (λ _ _, True)). }
  unfold infl_AfterEpochEnd, MintAndAllocateInflation, infl_MintCoins, AllocateExponentialInflation.
  frame; try apply Hi. by apply framed_same; [apply _|].
Qed.

Lemma call_calm ctx call a : framed calm a (run_call hooks ctx call).
Proof.
  destruct call as [id n|id n]; simpl.
  - frame.
    + apply calm_incentives, kept_incentives_epoch.
    + apply calm_infl. intros Hd. split; [by apply kept_infl_epoch|apply infl_epoch_params].
  - frame; [apply calm_incentives; frame|apply calm_infl; intros _; split; frame].
Qed.

Lemma tick_still ctx c c' : BeginBlocker hooks ctx c = (Ok tt, c') → still (es_ext c) (es_ext c').
Proof.
  intros Hrun. pose proof (begin_blocker_hooks hooks ctx c) as Hcalls. cbv zeta in Hcalls.
  rewrite Hrun in Hcalls. simpl in Hcalls. symmetry in Hcalls. eapply calm_run; [|exact Hcalls].
  apply framed_foreach; [apply _|]. intros call a. apply call_calm.
Qed.

Lemma trace_supply c l c' : trace_c quiet c l c' → chain_ok c → still (es_ext c) (es_ext c').
Proof.
  induction 1 as [c|c act c1 l c2 Hq Hrun Htr IH]; intros Hok; [done|].
  pose proof (run_chain_steps feeCollectorName channel_id_valid validate_ibc_denom erc20_abstract incentives_abstract
    transfer distr_hook slashing_hook _ _ send_no_panic (quiet_through _ foreign_begin) (quiet_through _ foreign_end)
    act c c1 (λ ac E, proj1 (Hq ac E)) Hrun Hok) as Hsteps.
  etransitivity; [|exact (IH (cs_ok _ _ _ _ _ Hsteps))]. destruct act as [ctx|act|ctx]; simpl in Hrun.
  - eapply begin_block_by with (B := still_between) in Hrun as (c3 & c4 & [B1 S1] & Ht & [B2 S2]);
      [|apply _|intros; by eapply (foreign_still foreign_BeginBlock)|apply fork_still].
    pose proof (between_ticks_ok feeCollectorName channel_id_valid incentives_abstract send_no_panic _ _ B1 Hok) as Hok1.
    pose proof (tick_steps feeCollectorName channel_id_valid incentives_abstract send_no_panic _ _ _ Ht (cs_ok _ _ _ _ _ Hok1)) as Hok2.
    etransitivity; [by apply S1|]. etransitivity; [by eapply tick_still|]. exact (S2 (cs_ok _ _ _ _ _ Hok2)).
  - apply zoom_run in Hrun as (a1 & Hrun & ->). eapply action_still; [apply Hok|by apply Hq|exact Hrun].
  - eapply end_block_by with (B := still_between) in Hrun as [_ S]; [by apply S|apply _| |apply airdrop_still].
    intros; by eapply (foreign_still foreign_EndBlock).
Qed.

(** C4: no block, message, proposal, transaction hook, packet or claim of the chain's modules
    creates or destroys coins of this chain, of a denomination that is not a voucher of
    IBC, nor the one of the EVM, nor the one inflation mints, nor the one of a token pair
    (which starts with [erc20/], or is a hex address that a message takes for a contract):
    along any trace of the chain in which the foreign modules and the parameters of
    inflation leave its supply alone, the supply stays.  Of the transfer application only
    this is assumed, that it mints and burns vouchers only. *)
Theorem supply_conserved c l c' :
  chain_ok c → mint_denom (es_ext c) ≠ d → trace_c quiet c l c' →
  GetSupply (C := C) (a_ext (es_ext c')) d = GetSupply (C := C) (a_ext (es_ext c)) d.
Proof. intros Hok Hd Htr. by apply (trace_supply _ _ _ Htr Hok Hd). Qed.
End supply.

(** ** Witness *)

#[global] Instance w_supply_laws : SupplyLaws coins world.
Proof.
  assert (Hs : ∀ f t c x, w_supply (w_send f t c x).2 = w_supply x).
  { intros f t c x. unfold w_send. by destruct (_ && _). }
  constructor; simpl; intros; rewrite ?Hs; try done.
  unfold w_mint. destruct (gcoins_valid c); [|done]. cbn [snd]. rewrite w_add_supply_spec. simpl.
  match goal with Hc : gcoins_amount c d = 0 |- _ => rewrite Hc end. lia.
Qed.

(** A transfer application that mints a voucher for alice on every packet. *)
Definition w_voucher : coins := {[ "ibc/OSMO"%string := 20 ]}.
Definition minting : IBCModule world :=
  mkIBCModule (λ _ _ _ _, ret tt) (λ _ _ _ v, ret v) (λ _ _ _ _, ret tt) (λ _ _, ret tt) (λ _ _, ret tt) (λ _ _, ret tt)
    (λ _ _ _, MintCoins "transfer" w_voucher ;;; SendCoinsFromModuleToAccount "transfer" alice w_voucher ;;;
              ret (AckResult "ok")) (λ _ _ _ _, ret tt) (λ _ _ _, ret tt).

Lemma w_mint_native d m (c : coins) x :
  gcoins_amount c d = 0 → framed (same_on (λ x, GetSupply (C := coins) x d)) x (MintCoins m c).
Proof. intros Hc o x' Hm. unfold same_on. rewrite <- (supply_mint (C := coins) (X := world) m c x d); [by rewrite Hm|done]. Qed.

Lemma sample_foreign d : foreign_keeps (C := coins) d minting (λ _ _, ret tt) (λ _ _, ret tt).
Proof.
  assert (Hret : ∀ A (v : A) x d0, framed (same_on (λ x, GetSupply (C := coins) x d0)) x (ret v))
    by (intros A v x d0 o x' [= <- <-]; done).
  constructor; try (intros; apply Hret).
  - intros d0 ctx packet relayer x Hn. simpl.
    assert (Hd : gcoins_amount w_voucher d0 = 0).
    { unfold w_voucher. rewrite gcoins_singleton. case_decide; [subst; discriminate|done]. }
    apply framed_bind; [apply _|by apply w_mint_native|]. intros [] x1 _.
    apply framed_bind; [apply _| |intros [] x2 _; apply Hret]. intros o x' Hm. unfold same_on.
    pose proof (supply_mod_acc (C := coins) (X := world) "transfer" alice w_voucher x1 d0) as E. simpl in E, Hm |- *.
    by rewrite Hm in E.
  - intros d0 port channel coin f r t x Hn o x' Hm. unfold same_on. simpl in Hm. unfold w_transfer in Hm.
    destruct (String.prefix "ibc/" coin.1) eqn:Ep.
    + destruct (_ && _); [|by injection Hm as <- <-]. injection Hm as <- <-. cbn [GetSupply w_bank].
      rewrite w_add_supply_spec, gcoins_singleton. case_decide as E; [|simpl; lia].
      unfold native in Hn. congruence.
    + unfold w_send in Hm. destruct (_ && _); by injection Hm as <- <-.
Qed.

(** Alice has thirty photons.  They are registered and ten are converted, and a packet
    brings vouchers. *)
Definition photon : Metadata :=
  mkMeta "A coin of this chain" [mkUnit "photon" 0 []; mkUnit "Photon" 6 []] "photon" "Photon" "Photon" "PHO".
Definition photon_world : world :=
  mkWorld {[ alice := {[ "photon"%string := 30 ]} ]} {[ "photon"%string := 30 ]} {[ alice := PlainAcc alice ]}
    {[ "module/erc20"%string := 0; alice := 7 ]} ∅ no_evm.
Definition photon_app : app_stores Z world :=
  mkApp (a_infl start_app) (a_incentives start_app) (a_feesplit start_app) (a_erc20 start_app) (a_claims start_app)
    recovery_DefaultParams photon_world.
Definition photon_chain : epoch_state (app_stores Z world) := mkES {[ DayEpochID := first_day ]} [] photon_app.
Definition osmo_packet : Packet :=
  mkPacket "transfer" "channel-9" "transfer" "channel-0" "uosmo|20|osmo1kim|evmos1AAAAAAAAAAAAAAAAAAAA".
Definition photon_actions : list (ChainAction coins Z world) := [
  deliver (act_erc20_proposal (RegisterCoinProposal photon));
  deliver (act_erc20 (ErcConvertCoin (mkConvertCoin "photon" 10 (address_hex alice) (acc_string alice))));
  deliver (act_recv (claims_ctx 1500) osmo_packet "relayer")].
Definition photon_run := run_chain (C := coins) collector chan_ok minting (λ _ _, ret tt) (λ _ _, ret tt) idle idle.
Definition photons (n : nat) : epoch_state (app_stores Z world) :=
  foldl (λ c act, (photon_run act c).2) photon_chain (take n photon_actions).

Lemma photon_ok : chain_ok photon_chain.
Proof.
  apply (chain_ok_fresh (C := coins) collector no_abstract w_send_no_panic); try reflexivity.
  - intros k e. simpl. rewrite lookup_singleton_Some. by intros [<- <-].
  - intros k cr. simpl. rewrite lookup_singleton_Some. by intros [_ <-].
Qed.

Lemma photon_trace :
  chain_trace collector chan_ok minting (λ _ _, ret tt) (λ _ _, ret tt) idle idle
    (quiet (C := coins) (D := Z) (X := world) "photon" (λ _, None) (λ _, None) no_abstract)
    photon_chain photon_actions (photons 3).
Proof.
  unfold photon_actions.
  eapply ct_cons with (c1 := photons 1);
    [intros ? [= <-]; split; [split; [vm_compute; reflexivity|done]|done]|vm_compute; reflexivity|].
  eapply ct_cons with (c1 := photons 2);
    [intros ? [= <-]; split; [split; [vm_compute; reflexivity|done]|done]|vm_compute; reflexivity|].
  eapply ct_cons with (c1 := photons 3);
    [intros ? [= <-]; split; [split; [vm_compute; reflexivity|done]|done]|vm_compute; reflexivity|].
  apply ct_nil.
Qed.

(** The vouchers were minted, and all thirty photons are still there. *)
Lemma supply_conserved_witness :
  GetSupply (C := coins) (a_ext (es_ext (photons 3))) "ibc/OSMO" = 20 ∧
  GetSupply (C := coins) (a_ext (es_ext (photons 3))) "photon" = 30.
Proof.
  split; [vm_compute; reflexivity|].
  assert (Hidle : through_quiet (C := coins) "photon" collector chan_ok (λ _, None) (λ _, None) no_abstract minting
    (λ _ _, ret tt) (λ _ _, ret tt) idle).
  { intros m ctx c c' [= <-]. split; [done|]. exists []. constructor. }
  transitivity (GetSupply (C := coins) (a_ext (es_ext photon_chain)) "photon").
  - apply (supply_conserved (C := coins) "photon") with (feeCollectorName := collector) (channel_id_valid := chan_ok)
      (validate_ibc_denom := λ _, None) (erc20_abstract := λ _, None) (incentives_abstract := no_abstract)
      (transfer := minting) (distr_hook := λ _ _, ret tt) (slashing_hook := λ _ _, ret tt)
      (foreign_BeginBlock := idle) (foreign_EndBlock := idle) (l := photon_actions).
    + discriminate.
    + apply sample_foreign.
    + reflexivity.
    + reflexivity.
    + reflexivity.
    + apply w_send_no_panic.
    + exact Hidle.
    + exact Hidle.
    + exact photon_ok.
    + vm_compute. discriminate.
    + exact photon_trace.
  - vm_compute. reflexivity.
Defined.
