(* ===== verification/Genesis.v ===== *)
(** * Genesis and export of the application: [app/app.go], [app/export.go], [x/*/module.go]

    The states of the modules in the order of the module manager, from and to
    JSON, and the preparation of a restart at height zero. *)

From S2P Require Import Prelude Sdk Dec Keepers EvmosUtils Evm Erc20Types Epochs Inflation Ibc Claims Erc20 Incentives Feesplit Recovery App.

(** ** JSON: [codec.JSONCodec] *)

Class JSONCodec (G : Type) := {
  MarshalJSON : G → string;
  (** [None]: an error *)
  UnmarshalJSON : string → option G;
}.
Class JSONLaws (G : Type) `{JSONCodec G} := { json_roundtrip (g : G) : UnmarshalJSON (MarshalJSON g) = Some g }.

(** The genesis states of the modules. *)
Abbreviation EpochsGenesis := (list EpochInfo).
Abbreviation ClaimsGenesis := (ClaimsParams * list ClaimsRecordAddress)%type.
Abbreviation Erc20Genesis := (Erc20Params * list TokenPair)%type.
Abbreviation IncentivesGenesis D := (IncentivesParams D * list (Incentive D) * list GasMeter)%type.
Abbreviation FeesplitGenesis D := (FeesplitParams D * list FeeSplit)%type.

(** [simapp.GenesisState]: raw JSON by module. *)
Definition GenesisState : Type := AppModule → option string.

(** An update of the validator set: a key and its power. *)
Record ValidatorUpdate := mkUpdate { vu_PubKey : string; vu_Power : Z }.
#[global] Instance ValidatorUpdate_eq_dec : EqDecision ValidatorUpdate.
Proof. solve_decision. Defined.

(** ** The loops of the module manager *)

Class GenesisRunners := {
  mm_InitGenesis {S} : list AppModule → (AppModule → string → M S (list ValidatorUpdate)) → GenesisState →
    M S (list ValidatorUpdate);
  mm_ExportGenesis : list AppModule → (AppModule → string) → GenesisState;
}.

(** The modules with data are initialised in order; two modules with validator
    updates, or none, are refused. *)
Fixpoint init_modules {S} (l : list AppModule) (f : AppModule → string → M S (list ValidatorUpdate))
    (data : GenesisState) (updates : list ValidatorUpdate) : M S (list ValidatorUpdate) :=
  match l with
  | [] => if bool_decide (updates = []) then panic else ret updates
  | m :: rest =>
      match data m with
      | None => init_modules rest f data updates
      | Some d =>
          let! u := f m d in
          if bool_decide (u = []) then init_modules rest f data updates
          else if bool_decide (updates = []) then init_modules rest f data u else panic
      end
  end.

Class GenesisRunnersLaws `{GenesisRunners} := {
  mm_init S l (f : AppModule → string → M S (list ValidatorUpdate)) data s :
    mm_InitGenesis l f data s = init_modules l f data [] s;
  mm_export l f m : mm_ExportGenesis l f m = if decide (m ∈ l) then Some (f m) else None;
}.

Section genesis.
Context {C D X : Type} `{SdkCoins C, SdkDec D, !DecCoins D, Ethermint, SdkAddress, EthAddress, AppRunners, GenesisRunners}.
Context `{!AccountKeeper C X, !BankKeeper C X, !DistrKeeper C X, !StakingKeeper X, !EvmKeeper X, !AccountTypes X}.
Context `{!JSONCodec EpochsGenesis, !JSONCodec (InflGenesis D), !JSONCodec ClaimsGenesis, !JSONCodec Erc20Genesis}.
Context `{!JSONCodec (IncentivesGenesis D), !JSONCodec (FeesplitGenesis D), !JSONCodec RecoveryParams}.
Variable channel_id_valid : string → bool.
Local Abbreviation app := (app_stores D X).
Local Abbreviation chain := (epoch_state app).

(** The foreign modules. *)
Variable foreign_DefaultGenesis : AppModule → string.
Variable foreign_ValidateGenesis : AppModule → string → outcome unit.
Variable foreign_InitGenesis : AppModule → Ctx → string → M X (list ValidatorUpdate).
Variable foreign_ExportGenesis : AppModule → X → string.
Variable foreign_ConsensusVersion : AppModule → Z.

(** ** [x/*/module.go] *)

(** The states [DefaultGenesis] marshals: [types/genesis.go]. *)
Definition claims_DefaultGenesis : ClaimsGenesis := (claims_DefaultParams, []).
Definition erc20_DefaultGenesisState : Erc20Genesis := (mkErc20Params true true, []).
Definition incentives_DefaultGenesisState : IncentivesGenesis D := (incentives_DefaultParams, [], []).
Definition feesplit_DefaultGenesisState : FeesplitGenesis D := (feesplit_DefaultParams, []).

(** [cdc.UnmarshalJSON] and the validation of the state. *)
Definition validate_json {G} `{JSONCodec G} (validate : G → outcome unit) (bz : string) : outcome unit :=
  match UnmarshalJSON bz with
  | None => Err (ErrMsg "failed to unmarshal genesis state")
  | Some genesisState => validate genesisState
  end.

(** [cdc.MustUnmarshalJSON], the initialisation of the module, and no updates. *)
Definition init_json {S G} `{JSONCodec G} (init : G → M S unit) (data : string) : M S (list ValidatorUpdate) :=
  match UnmarshalJSON data with
  | None => panic
  | Some genesisState => init genesisState ;;; ret []
  end.

(** [AppModuleBasic] of a module: its default state, and the validation of a state. *)
Record ModuleBasic := mkBasic { DefaultGenesis_ : string; ValidateGenesis_ : string → outcome unit }.

Definition epochs_basic : ModuleBasic :=
  mkBasic (MarshalJSON DefaultGenesisState) (validate_json epochs_GenesisState_Validate).
Definition inflation_basic : ModuleBasic :=
  mkBasic (MarshalJSON (infl_DefaultGenesisState (D := D))) (validate_json (infl_GenesisState_Validate (D := D) (C := C))).
Definition claims_basic : ModuleBasic :=
  mkBasic (MarshalJSON claims_DefaultGenesis)
    (validate_json (λ '(params, records), claims_GenesisState_Validate (C := C) channel_id_valid params records)).
Definition erc20_basic : ModuleBasic :=
  mkBasic (MarshalJSON erc20_DefaultGenesisState) (validate_json (λ '(_, pairs), erc20_GenesisState_Validate (C := C) pairs)).
Definition incentives_basic : ModuleBasic :=
  mkBasic (MarshalJSON incentives_DefaultGenesisState)
    (validate_json (λ '(params, incentives, gasMeters), incentives_GenesisState_Validate (D := D) params incentives gasMeters)).
Definition feesplit_basic : ModuleBasic :=
  mkBasic (MarshalJSON feesplit_DefaultGenesisState)
    (validate_json (λ '(params, feeSplits), feesplit_GenesisState_Validate (D := D) params feeSplits)).
Definition recovery_basic : ModuleBasic :=
  mkBasic (MarshalJSON recovery_DefaultParams) (validate_json recovery_GenesisState_Validate).
Definition vesting_basic : ModuleBasic := mkBasic "{}"%string (λ _, Ok tt).

(** [ModuleBasics]; a foreign module has its own. *)
Definition basic_of (m : AppModule) : ModuleBasic :=
  match m with
  | m_epochs => epochs_basic
  | m_inflation => inflation_basic
  | m_claims => claims_basic
  | m_erc20 => erc20_basic
  | m_incentives => incentives_basic
  | m_feesplit => feesplit_basic
  | m_recovery => recovery_basic
  | m_vesting => vesting_basic
  | _ => mkBasic (foreign_DefaultGenesis m) (foreign_ValidateGenesis m)
  end.
Definition DefaultGenesis (m : AppModule) : string := DefaultGenesis_ (basic_of m).
Definition ValidateGenesis (m : AppModule) : string → outcome unit := ValidateGenesis_ (basic_of m).

(** The recovery module writes to the parameters only. *)
Definition set_recovery (params : RecoveryParams) : M app unit :=
  modify (λ a, mkApp (a_infl a) (a_incentives a) (a_feesplit a) (a_erc20 a) (a_claims a) params (a_ext a)).

(** [AppModule] of a module: the state from JSON, and to JSON. *)
Record ModuleGenesis := mkGenesis {
  InitGenesis_ : Ctx → string → M chain (list ValidatorUpdate);
  ExportGenesis_ : chain → string;
}.

Definition epochs_module : ModuleGenesis :=
  mkGenesis (λ ctx data, init_json (epochs_InitGenesis ctx) data) (λ c, MarshalJSON (epochs_ExportGenesis c)).
Definition inflation_module : ModuleGenesis :=
  mkGenesis (λ ctx data, on_app (on_infl (init_json (infl_InitGenesis (C := C) ctx) data)))
    (λ c, MarshalJSON (infl_ExportGenesis (infl_view (es_ext c)))).
Definition claims_module : ModuleGenesis :=
  mkGenesis (λ ctx data, on_app (on_claims (init_json (λ '(params, records),
      claims_InitGenesis (C := C) channel_id_valid ctx params records) data)))
    (λ c, MarshalJSON (claims_ExportGenesis (claims_view (es_ext c)))).
Definition erc20_module : ModuleGenesis :=
  mkGenesis (λ _ data, on_app (on_erc20 (init_json (λ '(params, pairs), erc20_InitGenesis (C := C) params pairs) data)))
    (λ c, MarshalJSON (erc20_ExportGenesis (erc20_view (es_ext c)))).
Definition incentives_module : ModuleGenesis :=
  mkGenesis (λ _ data, on_app (on_incentives (init_json (λ '(params, incentives, gasMeters),
      incentives_InitGenesis (C := C) params incentives gasMeters) data)))
    (λ c, MarshalJSON (incentives_ExportGenesis (incentives_view (es_ext c)))).
Definition feesplit_module : ModuleGenesis :=
  mkGenesis (λ _ data, on_app (on_feesplit (init_json (λ '(params, feeSplits), feesplit_InitGenesis params feeSplits) data)))
    (λ c, MarshalJSON (feesplit_ExportGenesis (feesplit_view (es_ext c)))).
Definition recovery_module : ModuleGenesis :=
  mkGenesis (λ _ data, on_app (init_json set_recovery data)) (λ c, MarshalJSON (a_recovery (es_ext c))).
Definition vesting_module : ModuleGenesis := mkGenesis (λ _ _, ret []) (λ _, DefaultGenesis_ vesting_basic).

Definition module_of (m : AppModule) : ModuleGenesis :=
  match m with
  | m_epochs => epochs_module
  | m_inflation => inflation_module
  | m_claims => claims_module
  | m_erc20 => erc20_module
  | m_incentives => incentives_module
  | m_feesplit => feesplit_module
  | m_recovery => recovery_module
  | m_vesting => vesting_module
  | _ => mkGenesis (λ ctx data, on_app (on_ext (foreign_InitGenesis m ctx data))) (λ c, foreign_ExportGenesis m (a_ext (es_ext c)))
  end.
Definition module_InitGenesis (ctx : Ctx) (m : AppModule) : string → M chain (list ValidatorUpdate) := InitGenesis_ (module_of m) ctx.
Definition module_ExportGenesis (c : chain) (m : AppModule) : string := ExportGenesis_ (module_of m) c.

(** [ConsensusVersion()] *)
Definition ConsensusVersion (m : AppModule) : Z :=
  match m with
  | m_claims | m_erc20 => 2
  | m_epochs | m_inflation | m_incentives | m_feesplit | m_recovery | m_vesting => 1
  | _ => foreign_ConsensusVersion m
  end.

(** ** [InitChainer] *)

(** [json.Unmarshal(req.AppStateBytes, &genesisState)] and
    [UpgradeKeeper.SetModuleVersionMap(ctx, mm.GetVersionMap())] *)
Variable unmarshal_app_state : string → option GenesisState.
Variable SetModuleVersionMap : (AppModule → Z) → X → X.

Definition InitChainer (ctx : Ctx) (appStateBytes : string) : M chain (list ValidatorUpdate) :=
  match unmarshal_app_state appStateBytes with
  | None => panic
  | Some genesisState =>
      on_app (on_ext (modify (SetModuleVersionMap ConsensusVersion))) ;;;
      mm_InitGenesis OrderInitGenesis (module_InitGenesis ctx) genesisState
  end.

(** [NewDefaultGenesisState] *)
Definition NewDefaultGenesisState : GenesisState := λ m,
  if decide (m ∈ ModuleBasics) then Some (DefaultGenesis m) else None.
End genesis.

(** ** Export: [app/export.go] *)

Record ZValidator := mkZVal { GetOperator : string; UnbondingHeight : Z; Jailed : bool; zv_rest : string }.
Record ZDelegation := mkZDel { zd_DelegatorAddress : string; zd_ValidatorAddress : string }.
(** A redelegation or an unbonding delegation: its key and its entries, by the height
    of their creation. *)
Record ZUnbonding := mkZUnb { zu_Key : string; zu_Entries : list (Z * string) }.
Record ZSigningInfo := mkZSign { StartHeight : Z; zs_rest : string }.

(** The keepers of staking, distribution, slashing and crisis. *)
Class ZeroHeightKeepers (X : Type) := {
  val_from_bech32 : string → option string;
  val_string : string → string;
  AssertInvariants : M X unit;
  (** the validators [IterateValidators] visits *)
  z_Validators : X → list ZValidator;
  WithdrawValidatorCommission : string → M X unit;
  GetAllDelegations : X → list ZDelegation;
  WithdrawDelegationRewards : string → string → M X unit;
  DeleteAllValidatorSlashEvents : M X unit;
  DeleteAllValidatorHistoricalRewards : M X unit;
  (** the community pool gets the outstanding rewards of the validator *)
  z_DecCoins : Type;
  z_dec_add : z_DecCoins → z_DecCoins → z_DecCoins;
  GetValidatorOutstandingRewardsCoins : X → string → z_DecCoins;
  GetCommunityPool : X → z_DecCoins;
  SetCommunityPool : z_DecCoins → X → X;
  (** the hooks of the distribution module *)
  AfterValidatorCreated : Ctx → string → M X unit;
  BeforeDelegationCreated : Ctx → string → string → M X unit;
  z_AfterDelegationModified : Ctx → string → string → M X unit;
  Redelegations : X → list ZUnbonding;
  SetRedelegation : ZUnbonding → X → X;
  UnbondingDelegations : X → list ZUnbonding;
  SetUnbondingDelegation : ZUnbonding → X → X;
  (** the keys of the validators in the store of the staking module, in reverse order *)
  validator_keys : X → list string;
  GetValidator : X → string → option ZValidator;
  SetValidator : ZValidator → X → X;
  ApplyAndReturnValidatorSetUpdates : M X (list ValidatorUpdate);
  SigningInfos : X → list (string * ZSigningInfo);
  SetValidatorSigningInfo : string → ZSigningInfo → X → X;
  (** [staking.WriteValidators] *)
  WriteValidators : X → outcome (list ValidatorUpdate);
}.

(** The keys of the staking store: the prefix of the validators, the length of the
    operator's address, and the address, of twenty bytes. *)
Class ZeroHeightLaws (X : Type) `{ZeroHeightKeepers X} := {
  validator_key x k : k ∈ validator_keys x →
    ∃ prefix op, k = String prefix (String (Ascii.ascii_of_nat (String.length op)) op) ∧ String.length op = 20%nat;
  get_validator_length x a v : GetValidator x a = Some v → String.length a = 20%nat;
  (** the distribution module and the records of unbonding do not touch them *)
  keys_invariants x : validator_keys (AssertInvariants x).2 = validator_keys x;
  keys_commission op x : validator_keys (WithdrawValidatorCommission op x).2 = validator_keys x;
  keys_rewards del op x : validator_keys (WithdrawDelegationRewards del op x).2 = validator_keys x;
  keys_slash_events x : validator_keys (DeleteAllValidatorSlashEvents x).2 = validator_keys x;
  keys_historical x : validator_keys (DeleteAllValidatorHistoricalRewards x).2 = validator_keys x;
  keys_pool pool x : validator_keys (SetCommunityPool pool x) = validator_keys x;
  keys_created ctx op x : validator_keys (AfterValidatorCreated ctx op x).2 = validator_keys x;
  keys_before ctx del op x : validator_keys (BeforeDelegationCreated ctx del op x).2 = validator_keys x;
  keys_modified ctx del op x : validator_keys (z_AfterDelegationModified ctx del op x).2 = validator_keys x;
  keys_red red x : validator_keys (SetRedelegation red x) = validator_keys x;
  keys_ubd ubd x : validator_keys (SetUnbondingDelegation ubd x) = validator_keys x;
}.

Section export.
Context {X : Type} `{ZeroHeightKeepers X, SdkAddress}.

(** The check of the allowed addresses. *)
Fixpoint allowed_addrs (jailAllowedAddrs : list string) (allowedAddrsMap : gset string) : outcome (gset string) :=
  match jailAllowedAddrs with
  | [] => Ok allowedAddrsMap
  | addr :: rest =>
      match val_from_bech32 addr with
      | None => Err (ErrExternal "invalid validator address")
      | Some _ => allowed_addrs rest ({[ addr ]} ∪ allowedAddrsMap)
      end
  end.

(** The addresses of a delegation. *)
Definition delegation_addrs (del : ZDelegation) : outcome (string * string) :=
  match val_from_bech32 (zd_ValidatorAddress del) with
  | None => Err (ErrExternal "invalid validator address")
  | Some valAddr =>
      match acc_from_bech32 (zd_DelegatorAddress del) with
      | None => Err (ErrExternal "invalid address")
      | Some delAddr => Ok (delAddr, valAddr)
      end
  end.

Definition reset_height (u : ZUnbonding) : ZUnbonding := mkZUnb (zu_Key u) ((λ e, (0, e.2)) <$> zu_Entries u).

(** One key of the loop over the validators. *)
Definition reset_validator (applyAllowedAddrs : bool) (allowedAddrsMap : gset string) (key : string) : M X unit :=
  let addr := String.substring 1 (String.length key - 1) key in
  let! found := gets (λ x, GetValidator x addr) in
  match found with
  | None => fail (ErrMsg "expected validator not found")
  | Some validator =>
      modify (SetValidator (mkZVal (GetOperator validator) 0
        (if applyAllowedAddrs && negb (bool_decide (val_string addr ∈ allowedAddrsMap)) then true else Jailed validator)
        (zv_rest validator)))
  end.

Definition prepForZeroHeightGenesis (ctx : Ctx) (jailAllowedAddrs : list string) : M X unit :=
  let applyAllowedAddrs := bool_decide (jailAllowedAddrs ≠ []) in
  let! allowedAddrsMap := lift (allowed_addrs jailAllowedAddrs ∅) in
  AssertInvariants ;;;
  (* withdraw all validator commission *)
  let! vals := gets z_Validators in
  foreach vals (λ val, let! _ := try (WithdrawValidatorCommission (GetOperator val)) in ret tt) ;;;
  (* withdraw all delegator rewards *)
  let! dels := gets GetAllDelegations in
  foreach dels (λ delegation,
    let! (delAddr, valAddr) := lift (delegation_addrs delegation) in
    let! _ := try (WithdrawDelegationRewards delAddr valAddr) in ret tt) ;;;
  DeleteAllValidatorSlashEvents ;;;
  DeleteAllValidatorHistoricalRewards ;;;
  (* set context height to zero *)
  let ctx := mkCtx (BlockTime ctx) 0 (ChainID ctx) in
  (* reinitialize all validators *)
  let! vals := gets z_Validators in
  foreach vals (λ val,
    let! scraps := gets (λ x, GetValidatorOutstandingRewardsCoins x (GetOperator val)) in
    let! feePool := gets GetCommunityPool in
    modify (SetCommunityPool (z_dec_add feePool scraps)) ;;;
    AfterValidatorCreated ctx (GetOperator val)) ;;;
  (* reinitialize all delegations *)
  foreach dels (λ del,
    let! (delAddr, valAddr) := lift (delegation_addrs del) in
    BeforeDelegationCreated ctx delAddr valAddr ;;;
    z_AfterDelegationModified ctx delAddr valAddr) ;;;
  (* staking state *)
  let! reds := gets Redelegations in
  foreach reds (λ red, modify (SetRedelegation (reset_height red))) ;;;
  let! ubds := gets UnbondingDelegations in
  foreach ubds (λ ubd, modify (SetUnbondingDelegation (reset_height ubd))) ;;;
  let! keys := gets validator_keys in
  foreach keys (reset_validator applyAllowedAddrs allowedAddrsMap) ;;;
  ApplyAndReturnValidatorSetUpdates ;;;
  (* slashing state *)
  let! infos := gets SigningInfos in
  foreach infos (λ '(addr, info), modify (SetValidatorSigningInfo addr (mkZSign 0 (zs_rest info)))).

Record ExportedApp := mkExported { ex_AppState : string; ex_Validators : list ValidatorUpdate; ex_Height : Z }.

Context {D : Type} `{GenesisRunners}.
Local Abbreviation chain := (epoch_state (app_stores D X)).
(** [app.LastBlockHeight()], [json.MarshalIndent], the export of the modules *)
Variable LastBlockHeight : Z.
Variable marshal_app_state : GenesisState → outcome string.
Variable export_module : chain → AppModule → string.

Definition ExportAppStateAndValidators (ctx : Ctx) (forZeroHeight : bool) (jailAllowedAddrs : list string)
    : M chain ExportedApp :=
  let height := if forZeroHeight then 0 else LastBlockHeight +i 1 in
  (if forZeroHeight then on_app (on_ext (prepForZeroHeightGenesis ctx jailAllowedAddrs)) else ret tt) ;;;
  let! c := gets id in
  let genState := mm_ExportGenesis mm_modules (export_module c) in
  let! appState := lift (marshal_app_state genState) in
  let! validators := lift (WriteValidators (a_ext (es_ext c))) in
  ret (mkExported appState validators height).
End export.
