(* ===== verification/GenesisInstances.v ===== *)
(** * Concrete genesis states: a codec and the loops of the module manager

    A codec with its round trip for every countable type, the genesis states of the
    modules as countable types, and the loops over the modules. *)

From Stdlib Require Import Ascii.
From S2P Require Import Prelude Sdk Dec Evm Erc20Types Epochs Inflation Claims Erc20 Incentives Feesplit Recovery App Genesis.

(** ** A concrete codec *)

(** A positive number as a string of bits. *)
Fixpoint bits (p : positive) : string :=
  match p with xH => EmptyString | xO p => String "0"%char (bits p) | xI p => String "1"%char (bits p) end.
Fixpoint from_bits (s : string) : positive :=
  match s with
  | EmptyString => xH
  | String a s => if Ascii.eqb a "0"%char then xO (from_bits s) else xI (from_bits s)
  end.
Lemma from_bits_bits p : from_bits (bits p) = p.
Proof. induction p as [p IH|p IH|]; simpl; by rewrite ?IH. Qed.

#[global] Instance countable_json G `{Countable G} : JSONCodec G := {
  MarshalJSON g := bits (encode g);
  UnmarshalJSON s := decode (from_bits s);
}.
#[global] Instance countable_json_laws G `{Countable G} : JSONLaws G.
Proof. constructor. intros g. simpl. by rewrite from_bits_bits, decode_encode. Qed.

Local Tactic Notation "by_tuple" uconstr(f) uconstr(g) := refine (inj_countable' f g _); by intros [].
#[global] Instance epoch_countable : Countable EpochInfo.
Proof. by_tuple (λ e, (Identifier e, ei_StartTime e, Duration e, CurrentEpoch e, CurrentEpochStartTime e, EpochCountingStarted e,
  CurrentEpochStartHeight e)) (λ '(a, b, c, d, e, f, g), mkEpoch a b c d e f g). Defined.
#[global] Instance exponential_eq_dec : EqDecision (ExponentialCalculation Z).
Proof. solve_decision. Defined.
#[global] Instance exponential_countable : Countable (ExponentialCalculation Z).
Proof. by_tuple (λ e : ExponentialCalculation Z, (ec_A e, ec_R e, ec_C e, BondingTarget e, MaxVariance e)) (λ '(a, b, c, d, e), mkExp a b c d e). Defined.
#[global] Instance distribution_eq_dec : EqDecision (InflationDistribution Z).
Proof. solve_decision. Defined.
#[global] Instance distribution_countable : Countable (InflationDistribution Z).
Proof. by_tuple (λ e : InflationDistribution Z, (StakingRewards e, UsageIncentives e, CommunityPool e)) (λ '(a, b, c), mkDist a b c). Defined.
#[global] Instance infl_params_eq_dec : EqDecision (InflParams Z).
Proof. solve_decision. Defined.
#[global] Instance infl_params_countable : Countable (InflParams Z).
Proof. by_tuple (λ p : InflParams Z, (MintDenom p, i_ExponentialCalculation p, i_InflationDistribution p, EnableInflation p))
  (λ '(a, b, c, d), mkInflParams a b c d). Defined.
#[global] Instance infl_genesis_eq_dec : EqDecision (InflGenesis Z).
Proof. solve_decision. Defined.
#[global] Instance infl_genesis_countable : Countable (InflGenesis Z).
Proof. by_tuple (λ g : InflGenesis Z, (gs_Params g, gs_Period g, gs_EpochIdentifier g, gs_EpochsPerPeriod g, gs_SkippedEpochs g))
  (λ '(a, b, c, d, e), mkInflGenesis a b c d e). Defined.
#[global] Instance claims_params_eq_dec : EqDecision ClaimsParams.
Proof. solve_decision. Defined.
#[global] Instance claims_params_countable : Countable ClaimsParams.
Proof. by_tuple (λ p, (EnableClaims p, ClaimsDenom p, AirdropStartTime p, DurationUntilDecay p, DurationOfDecay p,
  AuthorizedChannels p, EVMChannels p)) (λ '(a, b, c, d, e, f, g), mkClaimsParams a b c d e f g). Defined.
#[global] Instance record_eq_dec : EqDecision ClaimsRecordAddress.
Proof. solve_decision. Defined.
#[global] Instance record_countable : Countable ClaimsRecordAddress.
Proof. by_tuple (λ r, (cra_Address r, cra_InitialClaimableAmount r, cra_ActionsCompleted r)) (λ '(a, b, c), mkCRA a b c). Defined.
#[global] Instance erc20_params_eq_dec : EqDecision Erc20Params.
Proof. solve_decision. Defined.
#[global] Instance erc20_params_countable : Countable Erc20Params.
Proof. by_tuple (λ p, (EnableErc20 p, EnableEVMHook p)) (λ '(a, b), mkErc20Params a b). Defined.
#[global] Instance owner_countable : Countable Owner.
Proof.
  refine (inj_countable' (λ o, match o with OWNER_UNSPECIFIED => 0 | OWNER_MODULE => 1 | OWNER_EXTERNAL => 2 end)
    (λ n, if n =? 0 then OWNER_UNSPECIFIED else if n =? 1 then OWNER_MODULE else OWNER_EXTERNAL) _). by intros [].
Defined.
#[global] Instance pair_countable : Countable TokenPair.
Proof. by_tuple (λ t, (Erc20Address t, Denom t, Enabled t, ContractOwner t)) (λ '(a, b, c, d), mkPair a b c d). Defined.
#[global] Instance inc_params_eq_dec : EqDecision (IncentivesParams Z).
Proof. solve_decision. Defined.
#[global] Instance inc_params_countable : Countable (IncentivesParams Z).
Proof. by_tuple (λ p : IncentivesParams Z, (EnableIncentives p, AllocationLimit p, IncentivesEpochIdentifier p, RewardScaler p))
  (λ '(a, b, c, d), mkIncParams a b c d). Defined.
#[global] Instance dec_coin_eq_dec : EqDecision (DecCoin Z).
Proof. solve_decision. Defined.
#[global] Instance dec_coin_countable : Countable (DecCoin Z).
Proof. by_tuple (λ c : DecCoin Z, (dc_Denom c, dc_Amount c)) (λ '(a, b), mkDecCoin a b). Defined.
#[global] Instance incentive_eq_dec : EqDecision (Incentive Z).
Proof. solve_decision. Defined.
#[global] Instance incentive_countable : Countable (Incentive Z).
Proof. by_tuple (λ i : Incentive Z, (in_Contract i, Allocations i, in_Epochs i, in_StartTime i, TotalGas i))
  (λ '(a, b, c, d, e), mkIncentive a b c d e). Defined.
#[global] Instance meter_eq_dec : EqDecision GasMeter.
Proof. solve_decision. Defined.
#[global] Instance meter_countable : Countable GasMeter.
Proof. by_tuple (λ m, (gm_Contract m, gm_Participant m, CumulativeGas m)) (λ '(a, b, c), mkGasMeter a b c). Defined.
#[global] Instance fee_params_eq_dec : EqDecision (FeesplitParams Z).
Proof. solve_decision. Defined.
#[global] Instance fee_params_countable : Countable (FeesplitParams Z).
Proof. by_tuple (λ p : FeesplitParams Z, (EnableFeeSplit p, DeveloperShares p, AddrDerivationCostCreate p))
  (λ '(a, b, c), mkFeeParams a b c). Defined.
#[global] Instance split_eq_dec : EqDecision FeeSplit.
Proof. solve_decision. Defined.
#[global] Instance split_countable : Countable FeeSplit.
Proof. by_tuple (λ f, (fs_Contract f, fs_Deployer f, fs_Withdrawer f)) (λ '(a, b, c), mkFeeSplit a b c). Defined.
#[global] Instance rec_params_eq_dec : EqDecision RecoveryParams.
Proof. solve_decision. Defined.
#[global] Instance rec_params_countable : Countable RecoveryParams.
Proof. by_tuple (λ p, (EnableRecovery p, PacketTimeoutDuration p)) (λ '(a, b), mkRecParams a b). Defined.

#[global] Instance w_genesis : GenesisRunners := {
  mm_InitGenesis S l f data := init_modules l f data [];
  mm_ExportGenesis l f m := if decide (m ∈ l) then Some (f m) else None;
}.
#[global] Instance w_genesis_laws : GenesisRunnersLaws.
Proof. by constructor. Qed.
