(* ===== verification/StoresProps.v ===== *)
(** * The stores refine the maps

    The operations of the keepers on the key-value store do what the operations of the
    previous files do on one map for each prefix; reads and iterators return the same. *)

From Stdlib Require Import Ascii.
From S2P Require Import Prelude Sdk Dec SdkInstances Keepers KeeperInstances EvmosUtils Erc20Types Epochs Inflation Ibc Claims Erc20 Erc20Instances Evm Incentives Feesplit Recovery Queries App Genesis GenesisInstances Stores.

(** ** Big endian numbers *)

Lemma from_big_endian_acc n z : ∀ acc, from_big_endian acc (big_endian n z) = (acc * 256 ^ Z.of_nat n + z mod 256 ^ Z.of_nat n)%Z.
Proof.
  induction n as [|n IH]; intros acc; cbn [big_endian from_big_endian]; [by rewrite Z.mod_1_r; lia|].
  set (q := (z / 256 ^ Z.of_nat n mod 256)%Z).
  assert (Hq : (0 ≤ q < 256)%Z) by (apply Z.mod_pos_bound; lia).
  rewrite Ascii.N_ascii_embedding by lia. rewrite IH, Z2N.id by lia.
  replace (Z.of_nat (S n)) with (Z.of_nat n + 1)%Z by lia. rewrite Z.pow_add_r, Z.pow_1_r by lia.
  rewrite Z.rem_mul_r by lia. subst q. lia.
Qed.

Lemma uint64_roundtrip z : (0 ≤ z < 2 ^ 64)%Z → BigEndianToUint64 (Uint64ToBigEndian z) = z.
Proof.
  intros Hz. unfold BigEndianToUint64, Uint64ToBigEndian. rewrite from_big_endian_acc.
  change (256 ^ Z.of_nat 8)%Z with (2 ^ 64)%Z. rewrite Z.mod_small by lia. lia.
Qed.

(** ** Iteration in the order of the keys *)

Lemma sorted_entries {V} (l1 : list (string * V)) : ∀ l2,
  Sorted key_le l1 → Sorted key_le l2 → NoDup l1.*1 → NoDup l2.*1 → (∀ x, x ∈ l1 ↔ x ∈ l2) → l1 = l2.
Proof.
  assert (Htr : Transitive (key_le (V := V))) by (intros x y z; unfold key_le; apply transitivity).
  induction l1 as [|a l1 IH]; intros [|b l2] Hs1 Hs2 Hd1 Hd2 Hin.
  - done.
  - destruct (not_elem_of_nil b). apply Hin. set_solver.
  - destruct (not_elem_of_nil a). apply Hin. set_solver.
  - apply Sorted_StronglySorted in Hs1; [|done]. apply Sorted_StronglySorted in Hs2; [|done].
    apply StronglySorted_inv in Hs1 as [Hs1 Ha]. apply StronglySorted_inv in Hs2 as [Hs2 Hb].
    rewrite fmap_cons in Hd1, Hd2. apply NoDup_cons in Hd1 as [Hn1 Hd1]. apply NoDup_cons in Hd2 as [Hn2 Hd2].
    rewrite Forall_forall in Ha, Hb.
    assert (a = b) as <-.
    { destruct (proj1 (elem_of_cons _ _ _) (proj1 (Hin a) (list_elem_of_here _ _))) as [|Hal]; [done|].
      destruct (proj1 (elem_of_cons _ _ _) (proj2 (Hin b) (list_elem_of_here _ _))) as [|Hbl]; [done|].
      assert (Hk : a.1 = b.1) by (apply (anti_symm String.le); [by apply Ha|by apply Hb]).
      exfalso. apply Hn1. rewrite Hk. by apply list_elem_of_fmap_2. }
    f_equal. apply IH; [by apply StronglySorted_Sorted..|done|done|].
    intros x. split; intros Hx.
    + pose proof (proj1 (Hin x)) as Hx2. assert (x ≠ a) by (intros ->; by apply Hn1, list_elem_of_fmap_2). set_solver.
    + pose proof (proj2 (Hin x)) as Hx2. assert (x ≠ a) by (intros ->; by apply Hn2, list_elem_of_fmap_2). set_solver.
Qed.

Lemma sorted_filter {A} (R : relation A) (P : A → Prop) `{!∀ x, Decision (P x)} l : StronglySorted R l → StronglySorted R (filter P l).
Proof.
  induction 1 as [|x l Hs IH Hx]; [constructor|]. rewrite filter_cons. case_decide; [|done]. constructor; [done|].
  rewrite Forall_forall in Hx |- *. intros y [_ Hy]%list_elem_of_filter. by apply Hx.
Qed.
Lemma filter_everything {A} (P : A → Prop) `{!∀ x, Decision (P x)} (l : list A) : (∀ x, x ∈ l → P x) → filter P l = l.
Proof.
  induction l as [|x l IH]; intros Hl; [done|]. rewrite filter_cons_True by (apply Hl; left). f_equal. apply IH. intros y Hy. apply Hl. by right.
Qed.

Lemma omap_fmap_ext {A B V} (f : B → option V) (g : A → B) (h : A → option V) (l : list A) : (∀ x, f (g x) = h x) → omap f (g <$> l) = omap h l.
Proof. intros Hf. induction l as [|x l IH]; [done|]. cbn. rewrite Hf. destruct (h x); [f_equal|]; exact IH. Qed.

Lemma le_cons a x y : String.le (String a x) (String a y) ↔ String.le x y.
Proof.
  unfold String.le, String.leb. simpl. unfold Ascii.compare. by rewrite N.compare_refl.
Qed.

(** ** A map under a prefix *)

Lemma prefix_split p : ∀ k, String.prefix p k = true → ∃ k', k = p +:+ k'.
Proof.
  induction p as [|a p IH]; intros k; [by exists k|]. destruct k as [|b k]; simpl; [done|].
  destruct (Ascii.ascii_dec a b) as [->|]; [|done]. intros [k' ->]%IH. by exists k'.
Qed.

Section maps.
Context {St : Type} `{KVStoreLaws St}.
Implicit Types st : St.

(** The entries under the prefix [p] are the encoded entries of [m]. *)
Definition holds {V} (p : string) (enc : V → string) st (m : gmap string V) : Prop :=
  ∀ k, st_Get (p +:+ k) st = enc <$> m !! k.

Lemma append_byte n k k' : prefix_byte n +:+ k = prefix_byte n +:+ k' ↔ k = k'.
Proof. simpl. naive_solver. Qed.
Lemma append_prefix_byte n a b : (prefix_byte n +:+ a) +:+ b = prefix_byte n +:+ a +:+ b.
Proof. done. Qed.
Lemma append_other i j k k' : prefix_byte i ≠ prefix_byte j → prefix_byte i +:+ k ≠ prefix_byte j +:+ k'.
Proof. unfold prefix_byte. simpl. intros Hne [= E _]. congruence. Qed.

Lemma holds_set {V} n (enc : V → string) st m k v bz :
  bz = enc v → holds (prefix_byte n) enc st m → holds (prefix_byte n) enc (st_Set (prefix_byte n +:+ k) bz st) (<[k:=v]> m).
Proof.
  intros -> Hm k'. rewrite get_set, lookup_insert. case_decide as E; rewrite append_byte in E.
  - by rewrite decide_True.
  - rewrite decide_False by congruence. apply Hm.
Qed.
Lemma holds_delete {V} n (enc : V → string) st m k :
  holds (prefix_byte n) enc st m → holds (prefix_byte n) enc (st_Delete (prefix_byte n +:+ k) st) (delete k m).
Proof.
  intros Hm k'. rewrite get_delete, lookup_delete. case_decide as E; rewrite append_byte in E.
  - by rewrite decide_True.
  - rewrite decide_False by congruence. apply Hm.
Qed.
Lemma holds_set_other {V} i j (enc : V → string) st m k v :
  prefix_byte i ≠ prefix_byte j → holds (prefix_byte i) enc st m → holds (prefix_byte i) enc (st_Set (prefix_byte j +:+ k) v st) m.
Proof. intros Hne Hm k'. rewrite get_set, decide_False by by apply append_other. apply Hm. Qed.
Lemma holds_delete_other {V} i j (enc : V → string) st m k :
  prefix_byte i ≠ prefix_byte j → holds (prefix_byte i) enc st m → holds (prefix_byte i) enc (st_Delete (prefix_byte j +:+ k) st) m.
Proof. intros Hne Hm k'. rewrite get_delete, decide_False by by apply append_other. apply Hm. Qed.

(** Reads and iterators. *)
Lemma holds_has {V} p (enc : V → string) st m k : holds p enc st m → st_Has (p +:+ k) st = bool_decide (is_Some (m !! k)).
Proof. intros Hm. unfold st_Has. rewrite Hm. apply bool_decide_ext. apply fmap_is_Some. Qed.
Lemma holds_value {V} `{CodecLaws V written} p st m k :
  holds p Marshal st m → map_Forall (λ _, written) m → get_value (p +:+ k) st = m !! k.
Proof.
  intros Hm Hw. unfold get_value. rewrite Hm. destruct (m !! k) as [v|] eqn:E; simpl; [|done].
  rewrite unmarshal_marshal. pose proof (marshal_nonempty v (Hw _ _ E)). by destruct (Marshal v).
Qed.
Lemma all_written {V} (m : gmap string V) : map_Forall (λ _, always_written) m.
Proof. done. Qed.
(** The entries whose key starts with [c] under the prefix. *)
Lemma holds_subiterator {V} n (enc : V → string) st m c :
  holds (prefix_byte n) enc st m →
  st_Iterator (prefix_byte n +:+ c) st =
    (λ kv, (prefix_byte n +:+ kv.1, enc kv.2)) <$> filter (λ kv, String.prefix c kv.1 = true) (kv_iter m).
Proof.
  intros Hm. apply sorted_entries; [apply iterator_sorted| |apply iterator_keys| |].
  - apply StronglySorted_Sorted. assert (Hs : StronglySorted key_le (filter (λ kv, String.prefix c kv.1 = true) (kv_iter m))).
    { apply sorted_filter, Sorted_StronglySorted; [|apply kv_iter_sorted]. intros x y z; unfold key_le; apply transitivity. }
    induction Hs as [|x l Hs IH Hx]; simpl; constructor; [done|].
    apply Forall_fmap. eapply Forall_impl; [exact Hx|]. intros y Hy. by apply le_cons.
  - rewrite <- list_fmap_compose. change (fst ∘ _) with ((λ k, prefix_byte n +:+ k) ∘ fst (A := string) (B := V)).
    rewrite list_fmap_compose. apply NoDup_fmap_2; [intros k k'; apply append_byte|].
    apply (sublist_NoDup _ (kv_iter m).*1); [apply NoDup_kv_iter|]. apply fmap_sublist, sublist_filter.
  - intros [k v]. rewrite iterator_entries, list_elem_of_fmap. split.
    + intros [Hp Hg]. apply prefix_split in Hp as [k' ->]. rewrite append_prefix_byte, Hm in Hg.
      apply fmap_Some in Hg as (v' & Hv & ->). exists (c +:+ k', v'). split; [by rewrite append_prefix_byte|].
      apply list_elem_of_filter. split; [apply prefix_append|by apply elem_of_kv_iter].
    + intros ([k' v'] & [= -> ->] & [Hp Hin]%list_elem_of_filter). apply elem_of_kv_iter in Hin.
      simpl in Hp. apply prefix_split in Hp as [k'' ->]. rewrite Hm, Hin. split; [|done].
      rewrite <- append_prefix_byte. apply prefix_append.
Qed.
Lemma holds_iterator {V} n (enc : V → string) st m :
  holds (prefix_byte n) enc st m →
  st_Iterator (prefix_byte n) st = (λ kv, (prefix_byte n +:+ kv.1, enc kv.2)) <$> kv_iter m.
Proof.
  intros Hm. pose proof (holds_subiterator _ _ _ _ EmptyString Hm) as E. rewrite filter_everything in E; [exact E|].
  intros [[|a k] v] _; done.
Qed.
(** The prefix store of an address. *)
Definition page {V} (p : string) (enc : V → string) st (l : list (string * V)) : Prop :=
  kv_prefix_store p st = (λ kv, (kv.1, enc kv.2)) <$> l.
Lemma holds_page {V} n (enc : V → string) st m : holds (prefix_byte n) enc st m → page (prefix_byte n) enc st (kv_iter m).
Proof.
  intros Hm. unfold page, kv_prefix_store. rewrite (holds_iterator _ _ _ _ Hm), <- list_fmap_compose.
  apply list_fmap_ext. intros i [k v] _. unfold compose. cbn [fst snd]. f_equal. apply (drop_append (prefix_byte n)).
Qed.
Lemma holds_subpage {V} n (enc : V → string) st m c :
  holds (prefix_byte n) enc st m → page (prefix_byte n +:+ c) enc st (prefix_store c m).
Proof.
  intros Hm. unfold page, kv_prefix_store, prefix_store. rewrite (holds_subiterator _ _ _ _ c Hm), <- !list_fmap_compose.
  apply list_fmap_ext. intros i [k v] _. unfold compose. cbn [fst snd]. f_equal.
Qed.
Lemma holds_values {V} `{CodecLaws V written} n st m : holds (prefix_byte n) Marshal st m → kv_values (prefix_byte n) st = (kv_iter m).*2.
Proof.
  intros Hm. unfold kv_values. rewrite (holds_iterator _ _ _ _ Hm). induction (kv_iter m) as [|[k v] l IH]; simpl; [done|].
  rewrite unmarshal_marshal. by f_equal.
Qed.
End maps.

(** ** The modules *)

(** What a keeper does to its store, on the maps and on the key-value store. *)
Inductive Erc20Op : Type :=
  | op_SetTokenPair (tp : TokenPair) | op_DeleteTokenPair (tp : TokenPair) | op_SetERC20Map (erc20 id : string) | op_SetDenomMap (denom id : string).
Inductive ClaimsOp : Type := op_SetClaimsRecord (addr : string) (cr : ClaimsRecord) | op_DeleteClaimsRecord (addr : string).
Inductive EpochsOp : Type := op_SetEpochInfo (epoch : EpochInfo) | op_DeleteEpochInfo (identifier : string).
Inductive IncentivesOp (D : Type) : Type :=
  | op_SetIncentive (i : Incentive D) | op_delete_incentive (i : Incentive D) | op_SetGasMeter (gm : GasMeter) | op_DeleteGasMeter (gm : GasMeter)
  | op_SetAllocationMeter (am : DecCoin D).
Inductive FeesplitOp : Type :=
  | op_SetFeeSplit (fs : FeeSplit) | op_DeleteFeeSplit (fs : FeeSplit)
  | op_SetDeployerMap (deployer contract : string) | op_DeleteDeployerMap (deployer contract : string)
  | op_SetWithdrawerMap (withdrawer contract : string) | op_DeleteWithdrawerMap (withdrawer contract : string).
Inductive InflationOp (D : Type) : Type :=
  | op_SetPeriod (z : Z) | op_SetEpochIdentifier (identifier : string) | op_SetEpochsPerPeriod (z : Z) | op_SetSkippedEpochs (z : Z) | op_SetEpochMintProvision (d : D).
Arguments op_SetIncentive {D} _.
Arguments op_delete_incentive {D} _.
Arguments op_SetGasMeter {D} _.
Arguments op_DeleteGasMeter {D} _.
Arguments op_SetAllocationMeter {D} _.
Arguments op_SetPeriod {D} _.
Arguments op_SetEpochIdentifier {D} _.
Arguments op_SetEpochsPerPeriod {D} _.
Arguments op_SetSkippedEpochs {D} _.
Arguments op_SetEpochMintProvision {D} _.

(** A sequence of operations keeps the store [rep]resenting the state. *)
Definition refines {St S Op : Type} (rep : St → S → Prop) (valid : Op → Prop) (kv : Op → St → St) (run : Op → S → S) : Prop :=
  ∀ ops st s, rep st s → Forall valid ops → rep (foldl (λ st op, kv op st) st ops) (foldl (λ s op, run op s) s ops).

Lemma refines_step {St S Op} (rep : St → S → Prop) (valid : Op → Prop) kv run :
  (∀ op st s, rep st s → valid op → rep (kv op st) (run op s)) → refines rep valid kv run.
Proof. intros Hstep ops. induction ops as [|op ops IH]; intros st s Hr Hv; simpl; [done|]. inversion Hv; subst. eauto. Qed.

Definition uint64 (z : Z) : Prop := (0 ≤ z < 2 ^ 64)%Z.

Section modules.
Context {St D X : Type} `{KVStoreLaws St, SdkDecLaws D, EthAddress, SdkAddress}.
Context `{!Codec TokenPair, !Codec EpochInfo, !Codec ClaimsRecord, !Codec (Incentive D), !Codec FeeSplit, !Codec D}.
Context `{!CodecLaws TokenPair pair_written, !CodecLaws EpochInfo always_written, !CodecLaws ClaimsRecord always_written,
  !CodecLaws (Incentive D) always_written, !CodecLaws FeeSplit split_written, !CodecLaws D always_written}.
Implicit Types st : St.

(** *** erc20 *)
Local Abbreviation bytes := (λ bz : string, bz).
Definition erc20_rep st (s : erc20_state X) : Prop :=
  holds KeyPrefixTokenPair Marshal st (e_pairs s) ∧ holds KeyPrefixTokenPairByERC20 bytes st (e_byERC20 s) ∧
  holds KeyPrefixTokenPairByDenom bytes st (e_byDenom s) ∧ map_Forall (λ _, pair_written) (e_pairs s).
Definition erc20_valid (op : Erc20Op) : Prop := match op with op_SetTokenPair tp => pair_written tp | _ => True end.
Definition erc20_kv (op : Erc20Op) : St → St :=
  match op with
  | op_SetTokenPair tp => kv_SetTokenPair tp | op_DeleteTokenPair tp => kv_DeleteTokenPair tp
  | op_SetERC20Map erc20 id => kv_SetERC20Map erc20 id | op_SetDenomMap denom id => kv_SetDenomMap denom id
  end.
Definition erc20_run (op : Erc20Op) : erc20_state X → erc20_state X :=
  match op with
  | op_SetTokenPair tp => SetTokenPair tp | op_DeleteTokenPair tp => DeleteTokenPair tp
  | op_SetERC20Map erc20 id => SetERC20Map erc20 id | op_SetDenomMap denom id => SetDenomMap denom id
  end.

Ltac unfold_ops :=
  unfold kv_SetTokenPair, kv_DeleteTokenPair, kv_SetERC20Map, kv_SetDenomMap, kv_SetClaimsRecord, kv_DeleteClaimsRecord,
    kv_SetEpochInfo, kv_DeleteEpochInfo, kv_SetIncentive, kv_delete_incentive, kv_SetGasMeter, kv_DeleteGasMeter,
    kv_SetFeeSplit, kv_DeleteFeeSplit, kv_SetDeployerMap, kv_DeleteDeployerMap, kv_SetWithdrawerMap, kv_DeleteWithdrawerMap.
(** Each map of a state is either the one an operation changes or under another prefix. *)
Ltac store_step :=
  first [assumption
        |apply holds_set; [reflexivity|store_step]
        |apply holds_delete; store_step
        |apply holds_set_other; [vm_compute; discriminate|store_step]
        |apply holds_delete_other; [vm_compute; discriminate|store_step]].

Lemma erc20_refines : refines erc20_rep erc20_valid erc20_kv erc20_run.
Proof.
  apply refines_step. intros [] st s (Hp & He & Hd & Hw) Hv; split_and!; cbn; unfold_ops; try store_step.
  - by apply map_Forall_insert_2.
  - by apply map_Forall_delete.
Qed.

Definition erc20_agree st (s : erc20_state X) : Prop :=
  (∀ i, kv_GetTokenPair i st = GetTokenPair s i) ∧ (∀ a, kv_GetERC20Map a st = GetERC20Map s a) ∧
  (∀ d, kv_GetDenomMap d st = GetDenomMap s d) ∧ (∀ i, kv_IsTokenPairRegistered i st = IsTokenPairRegistered s i) ∧
  (∀ a, kv_IsERC20Registered a st = IsERC20Registered s a) ∧ (∀ d, kv_IsDenomRegistered d st = IsDenomRegistered s d) ∧
  kv_GetTokenPairs st = GetTokenPairs s ∧ page KeyPrefixTokenPair Marshal st (kv_iter (e_pairs s)).
Lemma erc20_reads st s : erc20_rep st s → erc20_agree st s.
Proof.
  intros (Hp & He & Hd & Hw). split_and!.
  - intros [i|]; [exact (holds_value _ _ _ _ Hp Hw)|done].
  - intros a. unfold kv_GetERC20Map. rewrite He. by destruct (e_byERC20 s !! a) eqn:E; unfold GetERC20Map; rewrite E.
  - intros d. unfold kv_GetDenomMap. rewrite Hd. by destruct (e_byDenom s !! d) eqn:E; unfold GetDenomMap; rewrite E.
  - intros i. by eapply holds_has.
  - intros a. by eapply holds_has.
  - intros d. by eapply holds_has.
  - by apply holds_values.
  - by apply holds_page.
Qed.

(** *** claims and epochs *)
Definition claims_rep st (s : claims_state X) : Prop := holds KeyPrefixClaimsRecords Marshal st (c_records s).
Definition claims_kv (op : ClaimsOp) : St → St :=
  match op with op_SetClaimsRecord addr cr => kv_SetClaimsRecord addr cr | op_DeleteClaimsRecord addr => kv_DeleteClaimsRecord addr end.
Definition claims_run (op : ClaimsOp) : claims_state X → claims_state X :=
  match op with op_SetClaimsRecord addr cr => SetClaimsRecord addr cr | op_DeleteClaimsRecord addr => DeleteClaimsRecord addr end.
Lemma claims_refines : refines claims_rep (λ _, True) claims_kv claims_run.
Proof. apply refines_step. intros [] st s Hm _; unfold claims_rep; cbn; unfold_ops; store_step. Qed.

Definition claims_agree st (s : claims_state X) : Prop :=
  (∀ a, kv_GetClaimsRecord a st = GetClaimsRecord s a) ∧ (∀ a, kv_HasClaimsRecord a st = HasClaimsRecord s a) ∧
  kv_IterateClaimsRecords st = kv_iter (c_records s).
Lemma claims_reads st s : claims_rep st s → claims_agree st s.
Proof.
  intros Hm. split_and!.
  - intros a. exact (holds_value _ _ _ _ Hm (all_written _)).
  - intros a. unfold kv_HasClaimsRecord, HasClaimsRecord. rewrite (holds_has _ _ _ _ _ Hm). by destruct (c_records s !! a).
  - unfold kv_IterateClaimsRecords. rewrite (holds_iterator _ _ _ _ Hm : st_Iterator KeyPrefixClaimsRecords st = _). induction (kv_iter (c_records s)) as [|[k v] l IH]; [done|].
    cbn. rewrite unmarshal_marshal. cbn. f_equal; [|exact IH]. f_equal. by apply (drop_append KeyPrefixClaimsRecords).
Qed.

Definition epochs_rep st (s : epoch_state X) : Prop := holds KeyPrefixEpoch Marshal st (epochs s).
Definition epochs_kv (op : EpochsOp) : St → St :=
  match op with op_SetEpochInfo e => kv_SetEpochInfo e | op_DeleteEpochInfo i => kv_DeleteEpochInfo i end.
Definition epochs_run (op : EpochsOp) : epoch_state X → epoch_state X :=
  match op with op_SetEpochInfo e => SetEpochInfo e | op_DeleteEpochInfo i => DeleteEpochInfo i end.
Lemma epochs_refines : refines epochs_rep (λ _, True) epochs_kv epochs_run.
Proof. apply refines_step. intros [] st s Hm _; unfold epochs_rep; cbn; unfold_ops; store_step. Qed.
Definition epochs_agree st (s : epoch_state X) : Prop := 
  (∀ i, kv_GetEpochInfo i st = GetEpochInfo s i) ∧ kv_AllEpochInfos st = AllEpochInfos s ∧ page KeyPrefixEpoch Marshal st (kv_iter (epochs s)).
Lemma epochs_reads st s : epochs_rep st s → epochs_agree st s.
Proof. intros Hm. split_and!; [intros i; exact (holds_value _ _ _ _ Hm (all_written _))|by apply holds_values|by apply holds_page]. Qed.

(** *** incentives: gas is a [uint64] *)
Definition incentives_rep st (s : incentives_state D X) : Prop :=
  holds KeyPrefixIncentive Marshal st (n_incentives s) ∧ holds KeyPrefixGasMeter Uint64ToBigEndian st (n_gas s) ∧
  holds KeyPrefixAllocationMeter Marshal st (n_meters s) ∧ map_Forall (λ _, uint64) (n_gas s).
Definition incentives_valid (op : IncentivesOp D) : Prop := match op with op_SetGasMeter gm => uint64 (CumulativeGas gm) | _ => True end.
Definition incentives_kv (op : IncentivesOp D) : St → St :=
  match op with
  | op_SetIncentive i => kv_SetIncentive i | op_delete_incentive i => kv_delete_incentive i
  | op_SetGasMeter gm => kv_SetGasMeter gm | op_DeleteGasMeter gm => kv_DeleteGasMeter gm
  | op_SetAllocationMeter am => kv_SetAllocationMeter am
  end.
Definition incentives_run (op : IncentivesOp D) : incentives_state D X → incentives_state D X :=
  match op with
  | op_SetIncentive i => SetIncentive i | op_delete_incentive i => delete_incentive i
  | op_SetGasMeter gm => SetGasMeter gm | op_DeleteGasMeter gm => DeleteGasMeter gm
  | op_SetAllocationMeter am => SetAllocationMeter am
  end.
Lemma incentives_refines : refines incentives_rep incentives_valid incentives_kv incentives_run.
Proof.
  apply refines_step. intros [] st s (Hi & Hg & Hm & Hr) Hv; split_and!; cbn; unfold_ops; unfold gas_key; unfold kv_SetAllocationMeter;
    try destruct (dec_is_zero _); try store_step.
  - by apply map_Forall_insert_2.
  - by apply map_Forall_delete.
Qed.

Lemma gas_read st (m : gmap string Z) k : holds KeyPrefixGasMeter Uint64ToBigEndian st m → map_Forall (λ _, uint64) m →
  get_uint64 (KeyPrefixGasMeter +:+ k) st = m !! k.
Proof.
  intros Hm Hr. unfold get_uint64. rewrite Hm. destruct (m !! k) as [z|] eqn:E; simpl; [|done].
  f_equal. apply (uint64_roundtrip z). exact (Hr _ _ E).
Qed.
Definition incentives_agree st (s : incentives_state D X) : Prop :=
  (∀ c, kv_GetIncentive c st = GetIncentive s c) ∧ (∀ c, kv_IsIncentiveRegistered c st = IsIncentiveRegistered s c) ∧
  kv_GetAllIncentives st = GetAllIncentives s ∧ page KeyPrefixIncentive Marshal st (kv_iter (n_incentives s)) ∧
  (∀ c p, kv_GetGasMeter c p st = GetGasMeter s c p) ∧ kv_GetIncentivesGasMeters st = GetIncentivesGasMeters s ∧
  (∀ c, kv_GetIncentiveGasMeters c st = GetIncentiveGasMeters s c) ∧
  (∀ c, page (KeyPrefixGasMeter +:+ c) Uint64ToBigEndian st (prefix_store c (n_gas s))) ∧
  (∀ d, kv_GetAllocationMeter d st = GetAllocationMeter s d) ∧ kv_GetAllAllocationMeters st = GetAllAllocationMeters s ∧
  page KeyPrefixAllocationMeter Marshal st (kv_iter (n_meters s)).
(** The meters an iterator decodes, the keys of which [f] reads. *)
Lemma gas_meters_decoded (f g : string → string) (l : list (string * Z)) :
  (∀ k z, (k, z) ∈ l → uint64 z) → (∀ k, f (KeyPrefixGasMeter +:+ k) = g k) →
  (λ kv, to_gas_meter (f kv.1) (BigEndianToUint64 kv.2)) <$> ((λ kv, (KeyPrefixGasMeter +:+ kv.1, Uint64ToBigEndian kv.2)) <$> l) =
  (λ kv, to_gas_meter (g kv.1) kv.2) <$> l.
Proof.
  intros Hl Hf. rewrite <- list_fmap_compose. apply list_fmap_ext. intros i [k z] Hi. apply list_elem_of_lookup_2 in Hi. unfold compose. cbn [fst snd].
  by rewrite Hf, (uint64_roundtrip z (Hl _ _ Hi)).
Qed.
Lemma allocation_read st (s : incentives_state D X) d : holds KeyPrefixAllocationMeter Marshal st (n_meters s) →
  kv_GetAllocationMeter d st = GetAllocationMeter s d.
Proof.
  intros Hm. unfold kv_GetAllocationMeter, GetAllocationMeter. rewrite Hm. destruct (n_meters s !! d); simpl; [|done].
  by rewrite unmarshal_marshal.
Qed.
Lemma allocations_read st (s : incentives_state D X) : holds KeyPrefixAllocationMeter Marshal st (n_meters s) →
  kv_GetAllAllocationMeters st = GetAllAllocationMeters s.
Proof.
  intros Hm. unfold kv_GetAllAllocationMeters, GetAllAllocationMeters. rewrite (holds_iterator _ _ _ _ Hm : st_Iterator KeyPrefixAllocationMeter st = _).
  apply omap_fmap_ext. intros [k v]. cbn [fst]. rewrite (drop_append KeyPrefixAllocationMeter). by rewrite (allocation_read _ _ _ Hm).
Qed.
Lemma incentives_reads st s : incentives_rep st s → incentives_agree st s.
Proof.
  intros (Hi & Hg & Hm & Hr). split_and!.
  - intros c. exact (holds_value _ _ _ _ Hi (all_written _)).
  - intros c. by eapply holds_has.
  - by apply holds_values.
  - by apply holds_page.
  - intros c p. by apply gas_read.
  - unfold kv_GetIncentivesGasMeters, GetIncentivesGasMeters. rewrite (holds_iterator _ _ _ _ Hg : st_Iterator KeyPrefixGasMeter st = _).
    apply (gas_meters_decoded (λ k, k) (λ k, String gas_prefix k)); [|done]. intros k z Hl. apply elem_of_kv_iter in Hl. exact (Hr _ _ Hl).
  - intros c. unfold kv_GetIncentiveGasMeters, GetIncentiveGasMeters, contract_gas.
    rewrite (holds_subiterator _ _ _ _ c Hg : st_Iterator (KeyPrefixGasMeter +:+ c) st = _).
    apply (gas_meters_decoded (drop_chars 1) (λ k, k)); [|apply (drop_append KeyPrefixGasMeter)]. intros k z [_ Hl]%list_elem_of_filter. apply elem_of_kv_iter in Hl. exact (Hr _ _ Hl).
  - intros c. by apply holds_subpage.
  - intros d. by apply allocation_read.
  - by apply allocations_read.
  - by apply holds_page.
Qed.

(** *** feesplit *)
Definition feesplit_rep st (s : feesplit_state D X) : Prop :=
  holds KeyPrefixFeeSplit Marshal st (f_splits s) ∧ holds KeyPrefixDeployer (λ _, prefix_byte 1) st (f_deployer s) ∧
  holds KeyPrefixWithdrawer (λ _, prefix_byte 1) st (f_withdrawer s) ∧ map_Forall (λ _, split_written) (f_splits s).
Definition feesplit_valid (op : FeesplitOp) : Prop := match op with op_SetFeeSplit fs => split_written fs | _ => True end.
Definition feesplit_kv (op : FeesplitOp) : St → St :=
  match op with
  | op_SetFeeSplit fs => kv_SetFeeSplit fs | op_DeleteFeeSplit fs => kv_DeleteFeeSplit fs
  | op_SetDeployerMap a c => kv_SetDeployerMap a c | op_DeleteDeployerMap a c => kv_DeleteDeployerMap a c
  | op_SetWithdrawerMap a c => kv_SetWithdrawerMap a c | op_DeleteWithdrawerMap a c => kv_DeleteWithdrawerMap a c
  end.
Definition feesplit_run (op : FeesplitOp) : feesplit_state D X → feesplit_state D X :=
  match op with
  | op_SetFeeSplit fs => SetFeeSplit fs | op_DeleteFeeSplit fs => DeleteFeeSplit fs
  | op_SetDeployerMap a c => SetDeployerMap a c | op_DeleteDeployerMap a c => DeleteDeployerMap a c
  | op_SetWithdrawerMap a c => SetWithdrawerMap a c | op_DeleteWithdrawerMap a c => DeleteWithdrawerMap a c
  end.
Lemma feesplit_refines : refines feesplit_rep feesplit_valid feesplit_kv feesplit_run.
Proof.
  apply refines_step. intros [] st s (Hs & Hd & Hw & Hm) Hv; split_and!; cbn; unfold_ops; try store_step.
  - by apply map_Forall_insert_2.
  - by apply map_Forall_delete.
Qed.

Definition feesplit_agree st (s : feesplit_state D X) : Prop :=
  (∀ c, kv_GetFeeSplit c st = GetFeeSplit s c) ∧ kv_GetFeeSplits st = GetFeeSplits s ∧
  (∀ c, kv_IsFeeSplitRegistered c st = IsFeeSplitRegistered s c) ∧
  (∀ a c, kv_IsDeployerMapSet a c st = IsDeployerMapSet s a c) ∧ (∀ a c, kv_IsWithdrawerMapSet a c st = IsWithdrawerMapSet s a c) ∧
  page KeyPrefixFeeSplit Marshal st (kv_iter (f_splits s)) ∧
  (∀ a, page (GetKeyPrefixDeployer a) (λ _, prefix_byte 1) st (prefix_store a (f_deployer s))) ∧
  (∀ a, page (GetKeyPrefixWithdrawer a) (λ _, prefix_byte 1) st (prefix_store a (f_withdrawer s))).
Lemma feesplit_reads st s : feesplit_rep st s → feesplit_agree st s.
Proof.
  intros (Hs & Hd & Hw & Hm). split_and!.
  - intros c. exact (holds_value _ _ _ _ Hs Hm).
  - by apply holds_values.
  - intros c. by eapply holds_has.
  - intros a c. by apply (holds_has _ _ _ _ (a +:+ c) Hd).
  - intros a c. by apply (holds_has _ _ _ _ (a +:+ c) Hw).
  - by apply holds_page.
  - intros a. by apply holds_subpage.
  - intros a. by apply holds_subpage.
Qed.

(** *** inflation: one key for each value *)
Definition value_rep {V} (key : string) (enc : V → string) (ok : V → Prop) st (o : option V) : Prop :=
  st_Get key st = enc <$> o ∧ ∀ v, o = Some v → ok v.
Definition inflation_rep st (s : infl_state D X) : Prop :=
  value_rep KeyPrefixPeriod Uint64ToBigEndian uint64 st (i_period s) ∧
  value_rep KeyPrefixEpochMintProvision Marshal (λ _, True) st (i_provision s) ∧
  value_rep KeyPrefixEpochIdentifier bytes (λ _, True) st (i_identifier s) ∧
  value_rep KeyPrefixEpochsPerPeriod (λ z, Uint64ToBigEndian (z mod 2^64)) in_int64 st (i_epochsPerPeriod s) ∧
  value_rep KeyPrefixSkippedEpochs Uint64ToBigEndian uint64 st (i_skipped s).
Definition inflation_valid (op : InflationOp D) : Prop :=
  match op with op_SetPeriod z | op_SetSkippedEpochs z => uint64 z | op_SetEpochsPerPeriod z => in_int64 z | _ => True end.
Definition inflation_kv (op : InflationOp D) : St → St :=
  match op with
  | op_SetPeriod z => kv_SetPeriod z | op_SetEpochIdentifier s => kv_SetEpochIdentifier s | op_SetEpochsPerPeriod z => kv_SetEpochsPerPeriod z
  | op_SetSkippedEpochs z => kv_SetSkippedEpochs z | op_SetEpochMintProvision d => kv_SetEpochMintProvision d
  end.
Definition inflation_run (op : InflationOp D) : infl_state D X → infl_state D X :=
  match op with
  | op_SetPeriod z => SetPeriod z | op_SetEpochIdentifier s => SetEpochIdentifier s | op_SetEpochsPerPeriod z => SetEpochsPerPeriod z
  | op_SetSkippedEpochs z => SetSkippedEpochs z | op_SetEpochMintProvision d => SetEpochMintProvision d
  end.

Lemma value_set {V} key enc (ok : V → Prop) st v bz : bz = enc v → ok v → value_rep key enc ok (st_Set key bz st) (Some v).
Proof. intros -> Hv. split; [by rewrite get_set, decide_True|by intros ? [= <-]]. Qed.
Lemma value_other {V} key key' enc (ok : V → Prop) st o bz : key ≠ key' → value_rep key enc ok st o → value_rep key enc ok (st_Set key' bz st) o.
Proof. intros Hne [Hg Ho]. split; [by rewrite get_set, decide_False|done]. Qed.
Lemma inflation_refines : refines inflation_rep inflation_valid inflation_kv inflation_run.
Proof.
  apply refines_step. intros op st s (Hp & Hm & Hi & He & Hs) Hv; destruct op; split_and!; cbn;
    first [by apply value_set | apply value_other; [vm_compute; discriminate|assumption]].
Qed.

Lemma uint64_value key (f : Z → Z) ok st o : value_rep key (λ z, Uint64ToBigEndian (f z)) ok st o → (∀ z, ok z → uint64 (f z)) →
  get_uint64 key st = f <$> o.
Proof.
  intros [Hg Ho] Hf. unfold get_uint64. rewrite Hg. destruct o as [z|]; simpl; [|done].
  f_equal. apply (uint64_roundtrip (f z)), Hf. by apply Ho.
Qed.
Lemma int64_uint64 z : in_int64 z → wrap64 (z mod 2 ^ 64) = z.
Proof. intros Hz. rewrite <- (wrap64_id z) at 2 by done. unfold wrap64. f_equal. by rewrite Zplus_mod_idemp_l. Qed.
Definition inflation_agree st (s : infl_state D X) : Prop :=
  kv_GetPeriod st = GetPeriod s ∧ kv_GetEpochIdentifier st = GetEpochIdentifier s ∧ kv_GetEpochsPerPeriod st = GetEpochsPerPeriod s ∧
  kv_GetSkippedEpochs st = GetSkippedEpochs s ∧ kv_GetEpochMintProvision st = GetEpochMintProvision s.
Lemma inflation_reads st s : inflation_rep st s → inflation_agree st s.
Proof.
  intros (Hp & Hm & Hi & He & Hs). split_and!.
  - unfold kv_GetPeriod, GetPeriod. rewrite (uint64_value _ (λ z, z) uint64 _ _ Hp) by done. by destruct (i_period s).
  - unfold kv_GetEpochIdentifier, GetEpochIdentifier. rewrite (proj1 Hi). by destruct (i_identifier s).
  - unfold kv_GetEpochsPerPeriod, GetEpochsPerPeriod.
    rewrite (uint64_value _ (λ z, z mod 2 ^ 64)%Z _ _ _ He) by (intros; apply Z.mod_pos_bound; lia).
    destruct (i_epochsPerPeriod s) as [z|] eqn:E; simpl; [|done]. apply int64_uint64, He. done.
  - unfold kv_GetSkippedEpochs, GetSkippedEpochs. rewrite (uint64_value _ (λ z, z) uint64 _ _ Hs) by done. by destruct (i_skipped s).
  - unfold kv_GetEpochMintProvision, GetEpochMintProvision, get_value. rewrite (proj1 Hm). destruct (i_provision s) as [d|]; simpl; [|done].
    rewrite unmarshal_marshal. pose proof (marshal_nonempty (written := always_written) d I). by destruct (Marshal d).
Qed.

(** *** Empty stores *)
Lemma holds_empty {V} p (enc : V → string) st : (∀ k, st_Get k st = None) → holds p enc st ∅.
Proof. intros He k. by rewrite He, lookup_empty. Qed.

(** C9: The stores implement the states of the modules.  On the key-value store, with its prefix
    bytes, concatenated addresses and encoded values, every sequence of the operations by which
    the keepers of erc20, claims, epochs, incentives, feesplit and inflation change their stores
    does what it does on the maps of the model, and then every read returns the same, every
    iterator passes on the same entries in the same order, and so does every prefix store that
    the queries page through: no key of one kind is ever mistaken for one of another.  Numbers
    are of their width, and a token pair or a fee split is not the message without fields,
    which has no bytes and is not found. *)
Theorem stores_refine :
  refines erc20_rep erc20_valid erc20_kv erc20_run ∧ (∀ st s, erc20_rep st s → erc20_agree st s) ∧
  refines claims_rep (λ _, True) claims_kv claims_run ∧ (∀ st s, claims_rep st s → claims_agree st s) ∧
  refines epochs_rep (λ _, True) epochs_kv epochs_run ∧ (∀ st s, epochs_rep st s → epochs_agree st s) ∧
  refines incentives_rep incentives_valid incentives_kv incentives_run ∧ (∀ st s, incentives_rep st s → incentives_agree st s) ∧
  refines feesplit_rep feesplit_valid feesplit_kv feesplit_run ∧ (∀ st s, feesplit_rep st s → feesplit_agree st s) ∧
  refines inflation_rep inflation_valid inflation_kv inflation_run ∧ (∀ st s, inflation_rep st s → inflation_agree st s).
Proof.
  exact (conj erc20_refines (conj erc20_reads (conj claims_refines (conj claims_reads (conj epochs_refines (conj epochs_reads
    (conj incentives_refines (conj incentives_reads (conj feesplit_refines (conj feesplit_reads (conj inflation_refines inflation_reads))))))))))).
Qed.
End modules.

(** ** A store as a map, and a sample *)

#[global] Instance map_store : KVStore (gmap string string) := {
  st_Get k st := st !! k;
  st_Set k v st := <[k:=v]> st;
  st_Delete k st := delete k st;
  st_Iterator p st := filter (λ kv, String.prefix p kv.1 = true) (kv_iter st);
}.
#[global] Instance map_store_laws : KVStoreLaws (gmap string string).
Proof.
  split; simpl.
  - intros k v k' st. rewrite lookup_insert. repeat case_decide; congruence.
  - intros k k' st. rewrite lookup_delete. repeat case_decide; congruence.
  - intros p st k v. by rewrite list_elem_of_filter, elem_of_kv_iter.
  - intros p st. apply (sublist_NoDup _ (kv_iter st).*1); [apply NoDup_kv_iter|]. apply fmap_sublist, sublist_filter.
  - intros p st. apply StronglySorted_Sorted, sorted_filter, Sorted_StronglySorted; [|apply kv_iter_sorted].
    intros x y z; unfold key_le; apply transitivity.
Qed.
#[global] Instance countable_codec V `{Countable V} : Codec V := {
  Marshal v := String "="%char (bits (encode v));
  Unmarshal bz := match bz with EmptyString => None | String _ bz => decode (from_bits bz) end;
}.
#[global] Instance countable_codec_laws V `{Countable V} (written : V → Prop) : CodecLaws V written.
Proof. split; [|done]. intros v. simpl. by rewrite from_bits_bits, decode_encode. Qed.
#[global] Instance claims_record_countable : Countable ClaimsRecord.
Proof. refine (inj_countable' (λ r, (InitialClaimableAmount r, ActionsCompleted r)) (λ '(a, b), mkCR a b) _). by intros []. Defined.

(** A contract registered by a deployer with an address of twenty bytes, its gas metered, and
    all of it read back. *)
Definition sample_deployer : string := "deployer-of-20-bytes".
Definition sample_contract : string := "contract-of-20-bytes".
Definition sample_split : FeeSplit := mkFeeSplit (address_hex sample_contract) "evmos1deployer" EmptyString.
Definition sample_fee_ops : list FeesplitOp := [op_SetFeeSplit sample_split; op_SetDeployerMap sample_deployer sample_contract].
Definition sample_gas_ops : list (IncentivesOp Z) :=
  [op_SetGasMeter (mkGasMeter (address_hex sample_contract) (address_hex sample_deployer) 21000); op_SetAllocationMeter (mkDecCoin "aevmos" 5)].
Lemma stores_refine_witness :
  (let st := foldl (λ st op, feesplit_kv op st) (∅ : gmap string string) sample_fee_ops in
   kv_GetFeeSplit sample_contract st = Some sample_split ∧
   kv_prefix_store (GetKeyPrefixDeployer sample_deployer) st = [(sample_contract, prefix_byte 1)] ∧
   feesplit_agree (D := Z) (X := unit) st (foldl (λ s op, feesplit_run op s) (mkFee (feesplit_DefaultParams (D := Z)) ∅ ∅ ∅ tt) sample_fee_ops)) ∧
  (let st := foldl (λ st op, incentives_kv op st) (∅ : gmap string string) sample_gas_ops in
   CumulativeGas <$> kv_GetIncentiveGasMeters sample_contract st = [21000%Z] ∧
   kv_GetAllAllocationMeters (D := Z) st = [mkDecCoin "aevmos" 5] ∧
   incentives_agree (D := Z) (X := unit) st (foldl (λ s op, incentives_run op s) (mkInc (incentives_DefaultParams (D := Z)) ∅ ∅ ∅ tt) sample_gas_ops)).
Proof.
  destruct (stores_refine (St := gmap string string) (D := Z) (X := unit)) as (_ & _ & _ & _ & _ & _ & Hiref & Hiread & Href & Hread & _).
  split; (split; [by vm_compute|]; split; [by vm_compute|]).
  - apply Hread, Href; [|by repeat constructor].
    split_and!; [apply holds_empty; intros k; apply lookup_empty..|apply map_Forall_empty].
  - apply Hiread, Hiref; [|by repeat constructor].
    split_and!; [apply holds_empty; intros k; apply lookup_empty..|apply map_Forall_empty].
Defined.

(** *** Keys without a length

    The keys of the indexes of feesplit are two addresses one behind the other, without their
    lengths, and addresses need not have twenty bytes: a withdraw address that starts with the
    address of another account is listed as one of its own by the query for that account. *)
Lemma foreign_withdrawer_listed {D X} `{EthAddress} (victim tail contract : string) (s : feesplit_state D X) :
  (tail +:+ contract, tt) ∈ prefix_store victim (f_withdrawer (SetWithdrawerMap (victim +:+ tail) contract s)) ∧
  (tail ≠ EmptyString → IsWithdrawerMapSet (SetWithdrawerMap (victim +:+ tail) contract s) victim contract = IsWithdrawerMapSet s victim contract).
Proof.
  assert (Ha : ∀ a b c, (a +:+ b) +:+ c = a +:+ b +:+ c) by (intros a b c; induction a as [|x a IH]; [done|]; transitivity (String x ((a +:+ b) +:+ c)); [done|]; by rewrite IH).
  split.
  - apply prefix_member. unfold SetWithdrawerMap. cbn [f_withdrawer]. rewrite Ha. apply lookup_insert_eq.
  - intros Ht. unfold IsWithdrawerMapSet, SetWithdrawerMap. cbn [f_withdrawer]. rewrite lookup_insert_ne; [done|].
    intros E. apply (f_equal String.length) in E. rewrite !length_append in E. destruct tail; [done|]. simpl in E. lia.
Qed.
