(* ===== verification/GenesisProps.v ===== *)
(** * Properties of genesis and export *)

From S2P Require Import Prelude Frame Sdk Dec SdkInstances Keepers KeeperInstances EvmosUtils Evm Erc20Types Epochs EpochsProps Inflation InflationProps Ibc Claims ClaimsProps Erc20 Erc20Instances Erc20Props Incentives IncentivesProps Feesplit FeesplitProps Recovery RecoveryProps App AppProps Chain ChainProps Genesis GenesisInstances.

(** ** Export at height zero *)

Section zero_height.
Context {D X : Type} `{ZeroHeightLaws X, SdkAddress, GenesisRunners}.

(** The loop over the validators looks a validator up under the bytes of the key
    behind the prefix, with the length in front: there is none. *)
Lemma reset_fails apply allowed k (x : X) :
  k ∈ validator_keys x → reset_validator apply allowed k x = (Err (ErrMsg "expected validator not found"), x).
Proof.
  intros Hk. apply validator_key in Hk as (p & op & -> & Hop). unfold reset_validator, bind, gets.
  set (addr := String.substring _ _ _).
  assert (Ha : String.length addr = 21%nat).
  { unfold addr. rewrite length_substring. simpl. rewrite Hop. done. }
  destruct (GetValidator x addr) as [v|] eqn:Ev; [|done]. apply get_validator_length in Ev. congruence.
Qed.

(** The preparation keeps the validators up to the loop. *)
Local Abbreviation keys_kept := (same_on (validator_keys (X := X))).
Lemma keys_call {A} (m : M X A) x : validator_keys (m x).2 = validator_keys x → framed keys_kept x m.
Proof. intros E o x' Hm. rewrite Hm in E. exact E. Qed.
#[local] Hint Extern 1 (framed keys_kept _ _) => apply keys_call;
  first [apply keys_invariants|apply keys_commission|apply keys_rewards|apply keys_slash_events|apply keys_historical
        |apply keys_pool|apply keys_created|apply keys_before|apply keys_modified|apply keys_red|apply keys_ubd] : frame.

(** C39: the export of a state for height zero never succeeds on a chain with a validator: the
    keys of the validators carry the length of the address behind the prefix byte, the
    code removes the prefix only, and no validator has an address of 21 bytes. *)
Theorem zero_height_export_fails lastHeight marshal_app_state export_module ctx addrs
    (c : epoch_state (app_stores D X)) :
  validator_keys (a_ext (es_ext c)) ≠ [] →
  is_ok (ExportAppStateAndValidators lastHeight marshal_app_state export_module ctx true addrs c).1 = false.
Proof.
  intros Hvals. destruct (ExportAppStateAndValidators _ _ _ _ _ _ c) as [[ex|e|] c'] eqn:Hrun; [exfalso|done..].
  unfold ExportAppStateAndValidators in Hrun.
  apply bind_ok in Hrun as ([] & c1 & Hprep & _). apply zoom_run in Hprep as (a1 & Hprep & _).
  apply zoom_run in Hprep as (x1 & Hprep & _). unfold prepForZeroHeightGenesis in Hprep. revert Hprep Hvals.
  generalize (a_ext (es_ext c)) as x. clear c1 a1 c' ex c. intros x Hprep Hvals.
  do 15 (apply bind_ok in Hprep as (? & ?y & ?Hstep & Hprep);
    match goal with Hs : _ ?z = (Ok _, ?y) |- _ => assert (Hk : keys_kept z y)
      by (revert Hs; match goal with |- ?m z = _ → _ => assert (Hf : framed keys_kept z m) by frame; apply Hf end);
      unfold same_on in Hk; rewrite <- Hk in Hvals; clear Hk Hs end).
  apply bind_ok in Hprep as (keys & z & Hk & Hprep). unfold gets in Hk. injection Hk as <- <-.
  apply bind_ok in Hprep as ([] & z & Hloop & _).
  match type of Hloop with foreach (validator_keys ?y) _ _ = _ =>
    destruct (validator_keys y) as [|k keys] eqn:Ek; [done|]; simpl in Hloop;
    apply bind_ok in Hloop as ([] & z1 & Hr & _); rewrite reset_fails in Hr; [done|]; rewrite Ek; left end.
Qed.
End zero_height.

(** ** Restart from an exported state *)

Section epochs_restart.
Context {X : Type}.

Lemma epochs_restart ctx (s s0 : epoch_state X) :
  (∀ k e, epochs s !! k = Some e → Identifier e = k) → epochs s0 = ∅ →
  ∃ s', epochs_InitGenesis ctx (epochs_ExportGenesis s) s0 = (Ok tt, s') ∧
    epochs s' = init_epoch ctx <$> epochs s ∧ es_ext s' = es_ext s0.
Proof.
  intros Hk E0. destruct (init_total ctx (epochs_ExportGenesis s) s0) as [s' Hrun]. exists s'. split; [done|]. split.
  - apply map_eq. intros k. rewrite (init_lookup _ _ _ _ k (NoDup_all_ids s Hk) Hrun), E0, lookup_empty, lookup_fmap.
    destruct (list_find (λ e, Identifier e = k) (AllEpochInfos s)) as [[i e]|] eqn:Ef.
    + apply list_find_Some in Ef as (Hl & <- & _). apply list_elem_of_lookup_2 in Hl.
      apply list_elem_of_fmap in Hl as ([k' e'] & -> & He). apply elem_of_kv_iter in He.
      pose proof (Hk _ _ He) as <-. simpl. by rewrite He.
    + destruct (epochs s !! k) as [e|] eqn:Ee; [|done]. apply list_find_None in Ef. rewrite Forall_forall in Ef.
      exfalso. apply (Ef e); [|by apply Hk]. apply list_elem_of_fmap. exists (k, e). split; [done|]. by apply elem_of_kv_iter.
  - clear E0. revert s0 Hrun. unfold epochs_InitGenesis. generalize (epochs_ExportGenesis s) as l.
    induction l as [|e l IH]; intros s0 Hrun; simpl in Hrun; [by inv_ok|].
    apply bind_ok in Hrun as ([] & s1 & [= <-] & Hrun). by apply IH in Hrun.
Qed.
End epochs_restart.

Section module_restarts.
Context {C D X : Type} `{SdkCoinsLaws C, SdkDecLaws D, !DecCoins D, !DecCoinsLaws D, Ethermint, SdkAddressLaws, EthAddressLaws}.
Context `{Erc20Abi, !AccountKeeper C X, !BankKeeper C X, !DistrKeeper C X, !StakingKeeper X, !EvmKeeper X, !BankMeta X}.
Context `{!AccountTypes X, !BankLaws C X, !StakingLaws X, !EvmLaws C X}.

(** The accounts of the modules that have one exist or are created. *)
Definition with_account : list string :=
  [erc20_ModuleName; claims_ModuleName; inflation_ModuleName; incentives_ModuleName].
Hypothesis accounts : ∀ name (x : X), name ∈ with_account → ∃ x', HasModuleAccount (C := C) name x = (Ok true, x').

(** *** Token pairs *)

Lemma pairs_listed (s : erc20_state X) tp :
  registry_inv s → tp ∈ GetTokenPairs s ↔ e_pairs s !! GetID tp = Some tp.
Proof.
  intros [R1 _ _]. unfold GetTokenPairs. rewrite list_elem_of_fmap. split.
  - intros ([id tp'] & -> & Hid). apply elem_of_kv_iter in Hid. simpl. by destruct (R1 _ _ Hid) as (<- & _).
  - intros Hid. exists (GetID tp, tp). split; [done|]. by apply elem_of_kv_iter.
Qed.

Lemma pairs_distinct (s : erc20_state X) (key : TokenPair → string) :
  registry_inv s →
  (∀ tp tp', tp ∈ GetTokenPairs s → tp' ∈ GetTokenPairs s → key tp = key tp' → GetID tp = GetID tp') →
  NoDup (key <$> GetTokenPairs s).
Proof.
  intros Hreg Hkey. apply NoDup_fmap_2_strong.
  - intros tp tp' Htp Htp' E. specialize (Hkey _ _ Htp Htp' E). apply pairs_listed in Htp, Htp'; [|done..].
    rewrite Hkey in Htp. congruence.
  - destruct Hreg as [R1 _ _]. apply NoDup_fmap_2_strong; [|eapply NoDup_fmap_1, NoDup_kv_iter].
    intros [id tp] [id' tp'] Htp Htp' E. apply elem_of_kv_iter in Htp, Htp'. simpl in E. subst tp'.
    destruct (R1 _ _ Htp) as [-> _], (R1 _ _ Htp') as [-> _]. done.
Qed.

(** A store filled under keys that tell the pairs apart is the store of [s]. *)
Lemma pairs_fill (s s1 s' : erc20_state X) {V} (get : erc20_state X → gmap string V) key val :
  registry_inv s → foreach (GetTokenPairs s) (init_pair (X := X)) s1 = (Ok tt, s') →
  (∀ tp t, get (init_pair tp t).2 = <[key tp := val tp]> (get t)) → get s1 = ∅ →
  (∀ k v, get s !! k = Some v ↔ ∃ tp, e_pairs s !! GetID tp = Some tp ∧ key tp = k ∧ val tp = v) →
  (∀ tp tp', e_pairs s !! GetID tp = Some tp → e_pairs s !! GetID tp' = Some tp' → key tp = key tp' → GetID tp = GetID tp') →
  get s' = get s.
Proof.
  intros Hreg Hrun Hget E1 Hspec Hkey.
  assert (Hnd : NoDup (key <$> GetTokenPairs s)).
  { apply pairs_distinct; [done|]. intros tp tp' Htp Htp'. apply pairs_listed in Htp, Htp'; [|done..]. by apply Hkey. }
  destruct (insert_loop get key val _ s1 s' Hget Hnd Hrun) as [Hother Hown].
  apply map_eq. intros k. destruct (decide (k ∈ key <$> GetTokenPairs s)) as [Hk|Hk].
  - apply list_elem_of_fmap in Hk as (tp & -> & Htp). rewrite Hown by done. symmetry. apply Hspec. exists tp.
    by apply pairs_listed in Htp.
  - rewrite Hother, E1, lookup_empty by done. symmetry. apply eq_None_not_Some. intros [v Hv].
    apply Hspec in Hv as (tp & Htp & <- & _). apply Hk, list_elem_of_fmap_2. by apply pairs_listed.
Qed.

Lemma init_pairs_total (l : list TokenPair) (t : erc20_state X) :
  ∃ t', foreach l (init_pair (X := X)) t = (Ok tt, t') ∧ e_params t' = e_params t.
Proof. revert t. induction l as [|tp l IH]; intros t; [by exists t|]. simpl. apply (IH (init_pair tp t).2). Qed.

Lemma erc20_restart (s s0 : erc20_state X) :
  registry_full s → e_pairs s0 = ∅ → e_byERC20 s0 = ∅ → e_byDenom s0 = ∅ →
  ∃ s', erc20_InitGenesis (C := C) (erc20_ExportGenesis s).1 (erc20_ExportGenesis s).2 s0 = (Ok tt, s') ∧
    same_registry s s'.
Proof.
  intros [Hreg Hfull] Ep Ee Ed. unfold erc20_InitGenesis, bind at 1, modify at 1.
  destruct (accounts erc20_ModuleName (e_ext s0)) as [x Ha]; [by left|]. unfold bind at 1, eext, zoom. simpl. rewrite Ha.
  cbn [negb]. set (s1 := mkErc20 _ _ _ _ x).
  destruct (init_pairs_total (GetTokenPairs s) s1) as (s' & Hrun & Hp). exists s'. split; [exact Hrun|].
  pose proof Hreg as [R1 R2 R3]. split; [done|]. split; [|split].
  - apply (pairs_fill s s1 s' e_pairs GetID id); [done..|by rewrite <- Ep| |done]. intros k v. split.
    + intros Hv. exists v. by destruct (R1 _ _ Hv) as (-> & _).
    + by intros (tp & Htp & <- & <-).
  - apply (pairs_fill s s1 s' e_byERC20 GetERC20Contract GetID); [done..|by rewrite <- Ee| |].
    + intros k v. split.
      * intros Hv. destruct (R3 _ _ Hv) as (tp & Htp & Hc). exists tp. by destruct (R1 _ _ Htp) as (-> & _).
      * intros (tp & Htp & <- & <-). by apply Hfull in Htp as [_ ?].
    + intros tp tp' Htp Htp' E. apply Hfull in Htp as [_ Hc], Htp' as [_ Hc']. rewrite E in Hc. congruence.
  - apply (pairs_fill s s1 s' e_byDenom Denom GetID); [done..|by rewrite <- Ed| |].
    + intros k v. split.
      * intros Hv. destruct (R2 _ _ Hv) as (tp & Htp & Hc). exists tp. by destruct (R1 _ _ Htp) as (-> & _).
      * intros (tp & Htp & <- & <-). by apply Hfull in Htp as [? _].
    + intros tp tp' Htp Htp' E. apply Hfull in Htp as [Hc _], Htp' as [Hc' _]. rewrite E in Hc. congruence.
Qed.

(** *** Claims *)

(** The keys of the records are addresses that can be written as text. *)
Definition printable (s : claims_state X) : Prop :=
  ∀ k cr, c_records s !! k = Some cr → acc_from_bech32 (acc_string k) = Some k.

Lemma init_records_run l sum (s : claims_state X) :
  (∀ k cr, (k, cr) ∈ l → acc_from_bech32 (acc_string k) = Some k ∧ record_ok cr) →
  init_records (map (λ acr, mkCRA (acc_string acr.1) (InitialClaimableAmount acr.2) (ActionsCompleted acr.2)) l) sum s =
  (Ok (sum + sumZ (λ kv, unclaimed_quarters kv.2) l),
   mkClaims (c_params s) (foldl (λ m kv, <[kv.1 := kv.2]> m) (c_records s) l) (c_ext s)).
Proof.
  revert sum s. induction l as [|[k cr] l IH]; intros sum s Hl; simpl.
  { unfold ret. rewrite Z.add_0_r. by destruct s. }
  destruct (Hl k cr (list_elem_of_here _ _)) as [Hk [_ Hlen]]. unfold must_acc_from_bech32. simpl. rewrite Hk.
  unfold bind at 1, lift. rewrite Hlen. simpl. unfold bind at 1, modify. rewrite IH by (intros; apply Hl; by right).
  replace (mkCR _ _) with cr by (by destruct cr). simpl. f_equal. f_equal. unfold sumZ. simpl. lia.
Qed.

(** Inserting the entries of a store one after the other gives the store. *)
Lemma insert_all {V} (m : gmap string V) : foldl (λ m kv, <[kv.1 := kv.2]> m) ∅ (kv_iter m) = m.
Proof.
  assert (Hg : ∀ (l : list (string * V)) (m0 : gmap string V), NoDup l.*1 → (∀ k v, (k, v) ∈ l → m0 !! k = None) →
    foldl (λ m kv, <[kv.1 := kv.2]> m) m0 l = list_to_map l ∪ m0).
  { induction l as [|[k v] l IH]; intros m0 Hnd Hf; simpl; [by rewrite map_empty_union|].
    rewrite fmap_cons, NoDup_cons in Hnd. destruct Hnd as [Hk Hnd]. rewrite IH; [|done|].
    - rewrite <- insert_union_r by (by apply not_elem_of_list_to_map_1). by rewrite insert_union_l.
    - intros k' v' Hin. simpl. rewrite lookup_insert_ne; [by eapply Hf; right|]. intros <-. apply Hk.
      by apply (list_elem_of_fmap_2 fst) in Hin. }
  rewrite Hg; [|apply NoDup_kv_iter|intros; apply lookup_empty]. rewrite map_union_empty.
  rewrite (list_to_map_proper _ (map_to_list m)); [apply list_to_map_to_list|apply NoDup_kv_iter|apply kv_iter_perm].
Qed.

(** An airdrop without a start time starts with the block. *)
Definition started (ctx : Ctx) (p : ClaimsParams) : ClaimsParams :=
  mkClaimsParams (EnableClaims p) (ClaimsDenom p)
    (if AirdropStartTime p =? zero_time then BlockTime ctx else AirdropStartTime p)
    (DurationUntilDecay p) (DurationOfDecay p) (AuthorizedChannels p) (EVMChannels p).

Lemma claims_restart chan_ok ctx (s s0 : claims_state X) :
  claims_inv (C := C) s → printable s → claims_Params_Validate (C := C) chan_ok (c_params s) = Ok tt → c_records s0 = ∅ →
  GetBalance (C := C) (c_ext s0) (module_addr (C := C) (X := X) claims_ModuleName) (ClaimsDenom (c_params s)) = escrowed s →
  ∃ s', claims_InitGenesis (C := C) chan_ok ctx (claims_ExportGenesis s).1 (claims_ExportGenesis s).2 s0 = (Ok tt, s') ∧
    c_params s' = started ctx (c_params s) ∧ c_records s' = c_records s.
Proof.
  intros Hinv Hpr Hv E0 Hb. destruct (accounts claims_ModuleName (c_ext s0)) as [x Ha]; [by right; left|].
  unfold claims_InitGenesis, bind at 1, cext, zoom. rewrite Ha. simpl. unfold claims_GetParams. fold (started ctx (c_params s)).
  unfold bind at 1, claims_SetParams.
  change (claims_Params_Validate (C := C) chan_ok (started ctx (c_params s))) with
         (claims_Params_Validate (C := C) chan_ok (c_params s)). rewrite Hv. simpl.
  unfold bind at 1, gets, GetModuleAccountBalances. simpl. unfold bind at 1, GetClaimsRecords. rewrite init_records_run.
  - simpl. rewrite map_sum_kv_iter, all_balances_spec.
    rewrite (balance_module_account _ _ _ _ _ _ Ha). unfold GetModuleAccountAddress. rewrite Hb. fold (escrowed s).
    rewrite Z.eqb_refl. simpl. rewrite E0, insert_all. eexists. split; [reflexivity|]. done.
  - intros k cr Hin. apply elem_of_kv_iter in Hin. split; [by eapply Hpr|by eapply (ci_records s Hinv)].
Qed.

(** *** Inflation and incentives *)

Lemma infl_restart ctx (s s0 : infl_state D X) :
  infl_GenesisState_Validate (C := C) (infl_ExportGenesis s) = Ok tt → 0 ≤ GetPeriod s → 0 ≤ PowerReduction →
  ∃ s' p, infl_InitGenesis (C := C) ctx (infl_ExportGenesis s) s0 = (Ok tt, s') ∧
    infl_ExportGenesis s' = infl_ExportGenesis s ∧ i_provision s' = Some p ∧ 0 ≤ dec_raw p.
Proof.
  intros Hv Hp HPR. destruct (accounts inflation_ModuleName (i_ext s0)) as [x Ha]; [by do 2 right; left|].
  by apply (inflation_genesis_roundtrip ctx (infl_ExportGenesis s) s0 x).
Qed.

(** The keys of the gas meters: the bytes of two addresses. *)
Definition gas_keys (s : incentives_state D X) : Prop :=
  ∀ k g, n_gas s !! k = Some g → String.length k = 40%nat.

Lemma take_drop_chars n k :
  (n ≤ String.length k)%nat → String.append (String.substring 0 n k) (drop_chars n k) = k.
Proof.
  unfold drop_chars. revert k. induction n as [|n IH]; intros k Hn.
  - rewrite Nat.sub_0_r, substring_all. by destruct k.
  - destruct k as [|a k]; simpl in *; [lia|]. change (String a (String.append (String.substring 0 n k) (String.substring n (String.length k - n) k)) = String a k).
    rewrite IH by lia. done.
Qed.

(** A gas meter that is exported is stored again under its key. *)
Lemma gas_meter_key k g :
  String.length k = 40%nat →
  gas_key (hex_to_address (gm_Contract (to_gas_meter (String gas_prefix k) g)))
          (hex_to_address (gm_Participant (to_gas_meter (String gas_prefix k) g))) = k.
Proof.
  intros Hk. unfold to_gas_meter, SplitGasMeterKey. simpl String.length. rewrite Hk. cbn [Nat.eqb].
  replace (drop_chars 1 (String gas_prefix k)) with k
    by (unfold drop_chars; simpl; rewrite Nat.sub_0_r; symmetry; apply substring_all).
  assert (L1 : String.length (String.substring 0 20 k) = 20%nat) by (rewrite length_substring; lia).
  assert (L2 : String.length (drop_chars 20 k) = 20%nat) by (unfold drop_chars; rewrite length_substring; lia).
  cbn [gm_Contract gm_Participant]. rewrite !bytes_to_address_id, !hex_roundtrip by done.
  unfold gas_key. apply take_drop_chars. lia.
Qed.

Lemma gas_meters_run (s t : incentives_state D X) l :
  (∀ k g, (k, g) ∈ l → String.length k = 40%nat) →
  foreach ((λ kv, to_gas_meter (String gas_prefix kv.1) kv.2) <$> l) (λ gm, modify (SetGasMeter gm)) t =
  (Ok tt, mkInc (n_params t) (n_incentives t) (foldl (λ m kv, <[kv.1 := kv.2]> m) (n_gas t) l) (n_meters t) (n_ext t)).
Proof.
  revert t. induction l as [|[k g] l IH]; intros t Hl; [by destruct t|].
  rewrite fmap_cons. cbn [foreach]. unfold bind, modify. rewrite IH by (intros; eapply Hl; by right).
  unfold SetGasMeter. cbn [n_params n_incentives n_gas n_meters n_ext foldl fst snd].
  rewrite gas_meter_key by (eapply Hl; left). unfold to_gas_meter. by destruct (SplitGasMeterKey _).
Qed.

Lemma incentives_restart (s s0 : incentives_state D X) :
  n_incentives s = ∅ → gas_keys s → n_incentives s0 = ∅ → n_meters s0 = ∅ → n_gas s0 = ∅ →
  ∃ s', incentives_InitGenesis (C := C) (incentives_ExportGenesis s).1.1 (incentives_ExportGenesis s).1.2
          (incentives_ExportGenesis s).2 s0 = (Ok tt, s') ∧
    n_params s' = n_params s ∧ n_incentives s' = n_incentives s ∧ n_gas s' = n_gas s ∧ n_meters s' = ∅.
Proof.
  intros E Hg E0 Em Eg. destruct (accounts incentives_ModuleName (n_ext s0)) as [x Ha]; [by do 3 right; left|].
  unfold incentives_InitGenesis, bind at 1, modify at 1. unfold bind at 1, next, zoom. simpl. rewrite Ha. simpl.
  unfold GetAllIncentives. rewrite E. change (kv_iter ∅).*2 with (@nil (Incentive D)). simpl.
  unfold bind at 1, ret. unfold bind at 1. change (map_to_list (∅ : gmap string D)) with (@nil (string * D)). simpl.
  eexists. split.
  - unfold GetIncentivesGasMeters. apply (gas_meters_run s). intros k g Hin. apply elem_of_kv_iter in Hin. by eapply Hg.
  - simpl. rewrite Eg, E0, Em, insert_all. done.
Qed.

(** A state with an allocation is not accepted. *)
Lemma init_incentives_panics (l : list (Incentive D)) (t : incentives_state D X) :
  (∃ i, i ∈ l ∧ Allocations i ≠ []) → (init_incentives l ∅ t).1 = Panic.
Proof.
  revert t. induction l as [|i l IH]; intros t (j & Hj & Ha); [by apply not_elem_of_nil in Hj|].
  simpl. unfold bind at 1, modify. unfold bind at 1, lift. destruct (Allocations i) as [|al als] eqn:Ei.
  - simpl. apply IH. exists j. split; [|done]. apply elem_of_cons in Hj as [->|?]; done.
  - simpl. rewrite lookup_empty, nil_add_panics. simpl.
    assert (E : foldl genesis_meter Panic als = Panic) by (clear; induction als; [done|exact IHals]). by rewrite E.
Qed.

Lemma incentives_restart_panics (s s0 : incentives_state D X) k i :
  n_incentives s !! k = Some i → Allocations i ≠ [] →
  (incentives_InitGenesis (C := C) (incentives_ExportGenesis s).1.1 (incentives_ExportGenesis s).1.2
     (incentives_ExportGenesis s).2 s0).1 = Panic.
Proof.
  intros Hi Ha. destruct (accounts incentives_ModuleName (n_ext s0)) as [x Hx]; [by do 3 right; left|].
  unfold incentives_InitGenesis, bind at 1, modify at 1. unfold bind at 1, next, zoom. simpl. rewrite Hx. simpl.
  unfold bind at 1. set (t := mkInc _ _ _ _ x).
  assert (E : (init_incentives (GetAllIncentives s) ∅ t).1 = Panic).
  { apply init_incentives_panics. exists i. split; [|done]. apply list_elem_of_fmap. exists (k, i).
    split; [done|]. by apply elem_of_kv_iter. }
  by destruct (init_incentives _ _ t) as [[m| |] t1].
Qed.
End module_restarts.

(** *** The application *)

Section restart.
Context {C D X : Type} `{SdkCoinsLaws C, SdkDecLaws D, !DecCoins D, !DecCoinsLaws D, Ethermint, SdkAddressLaws, EthAddressLaws}.
Context `{Erc20Abi, GenesisRunnersLaws}.
Context `{!AccountKeeper C X, !BankKeeper C X, !DistrKeeper C X, !StakingKeeper X, !EvmKeeper X, !BankMeta X}.
Context `{!AccountTypes X, !BankLaws C X, !StakingLaws X, !EvmLaws C X}.
Context `{JE : JSONLaws EpochsGenesis, JI : JSONLaws (InflGenesis D), JC : JSONLaws ClaimsGenesis, JR : JSONLaws Erc20Genesis}.
Context `{JN : JSONLaws (IncentivesGenesis D), JF : JSONLaws (FeesplitGenesis D), JV : JSONLaws RecoveryParams}.
Context (channel_id_valid : string → bool) (ctx : Ctx).
Context (foreign_ExportGenesis : AppModule → X → string).
Context (foreign_InitGenesis : AppModule → Ctx → string → M X (list ValidatorUpdate)).
Implicit Types c : epoch_state (app_stores D X).
Local Abbreviation init := (module_InitGenesis (C := C) (D := D) channel_id_valid foreign_InitGenesis foreign_ExportGenesis ctx).
Local Abbreviation export := (module_ExportGenesis (C := C) (D := D) channel_id_valid foreign_InitGenesis foreign_ExportGenesis).
Local Abbreviation escrow_addr := (module_addr (C := C) (X := X) claims_ModuleName).

Hypothesis accounts : ∀ name (x : X), name ∈ with_account → ∃ x', HasModuleAccount (C := C) name x = (Ok true, x').

(** The stores of a module before genesis. *)
Definition fresh c (m : AppModule) : Prop :=
  match m with
  | m_epochs => epochs c = ∅
  | m_claims => c_records (a_claims (es_ext c)) = ∅
  | m_erc20 => e_pairs (a_erc20 (es_ext c)) = ∅ ∧ e_byERC20 (a_erc20 (es_ext c)) = ∅ ∧ e_byDenom (a_erc20 (es_ext c)) = ∅
  | m_incentives => n_incentives (a_incentives (es_ext c)) = ∅ ∧ n_meters (a_incentives (es_ext c)) = ∅ ∧
                    n_gas (a_incentives (es_ext c)) = ∅
  | m_feesplit => f_splits (a_feesplit (es_ext c)) = ∅ ∧ f_deployer (a_feesplit (es_ext c)) = ∅ ∧
                  f_withdrawer (a_feesplit (es_ext c)) = ∅
  | _ => True
  end.

(** The module has the state it had in [c0]; an epoch counts from the new height, an
    airdrop without a start time starts, and the provision of inflation is computed anew. *)
Definition restored c0 c (m : AppModule) : Prop :=
  match m with
  | m_epochs => epochs c = init_epoch ctx <$> epochs c0
  | m_claims => c_params (a_claims (es_ext c)) = started ctx (c_params (a_claims (es_ext c0))) ∧
                c_records (a_claims (es_ext c)) = c_records (a_claims (es_ext c0))
  | m_erc20 => a_erc20 (es_ext c) = a_erc20 (es_ext c0)
  | m_incentives => n_params (a_incentives (es_ext c)) = n_params (a_incentives (es_ext c0)) ∧
                    n_incentives (a_incentives (es_ext c)) = n_incentives (a_incentives (es_ext c0)) ∧
                    n_gas (a_incentives (es_ext c)) = n_gas (a_incentives (es_ext c0)) ∧
                    ∀ d, meter (a_incentives (es_ext c)) d = meter (a_incentives (es_ext c0)) d
  | m_feesplit => a_feesplit (es_ext c) = a_feesplit (es_ext c0)
  | m_inflation => infl_ExportGenesis (a_infl (es_ext c)) = infl_ExportGenesis (a_infl (es_ext c0)) ∧
                   ∃ p, i_provision (a_infl (es_ext c)) = Some p ∧ 0 ≤ dec_raw p
  | m_recovery => a_recovery (es_ext c) = a_recovery (es_ext c0)
  | _ => True
  end.

(** What the exported state is like: the invariants hold, every token pair is found
    through its indexes (no coin was registered twice), and the airdrop and inflation have
    valid parameters. *)
Record exportable c0 : Prop := {
  ex_ok : chain_ok c0;
  ex_pairs : registry_full (erc20_view (es_ext c0));
  ex_gas : gas_keys (incentives_view (es_ext c0));
  ex_claims : claims_inv (C := C) (claims_view (es_ext c0));
  ex_printable : printable (claims_view (es_ext c0));
  ex_airdrop : claims_Params_Validate (C := C) channel_id_valid (c_params (a_claims (es_ext c0))) = Ok tt;
  ex_infl : infl_GenesisState_Validate (C := C) (infl_ExportGenesis (a_infl (es_ext c0))) = Ok tt;
  ex_period : 0 ≤ GetPeriod (a_infl (es_ext c0));
}.

(** The escrow of the airdrop. *)
Definition escrow_balance c0 (x : X) : Prop :=
  GetBalance (C := C) x escrow_addr (ClaimsDenom (c_params (a_claims (es_ext c0)))) =
  GetBalance (C := C) (a_ext (es_ext c0)) escrow_addr (ClaimsDenom (c_params (a_claims (es_ext c0)))).

Lemma init_json_run {S G} `{JSONLaws G} (f : G → M S unit) g s s' :
  f g s = (Ok tt, s') → init_json f (MarshalJSON g) s = (Ok [], s').
Proof. intros Hf. unfold init_json. rewrite json_roundtrip. unfold bind. by rewrite Hf. Qed.

Lemma init_json_panics {S G} `{JSONLaws G} (f : G → M S unit) g s :
  (f g s).1 = Panic → (init_json f (MarshalJSON g) s).1 = Panic.
Proof. intros Hf. unfold init_json. rewrite json_roundtrip. unfold bind. by destruct (f g s) as [[]]. Qed.

Local Ltac json_run Hrun :=
  match goal with |- context [init_json ?f ?data ?s] =>
    let E := fresh in eassert (E : init_json f data s = (Ok [], _)) by (apply init_json_run; exact Hrun); rewrite E end.

(** One module of the chain; the others keep what they have. *)
Lemma own_restart c0 c m :
  exportable c0 → 0 ≤ PowerReduction → fresh c m → (m = m_claims → escrow_balance c0 (a_ext (es_ext c))) →
  (m = m_incentives → n_incentives (a_incentives (es_ext c0)) = ∅) →
  m ∈ [m_epochs; m_inflation; m_claims; m_erc20; m_incentives; m_feesplit; m_recovery; m_vesting] →
  ∃ c', init m (export c0 m) c = (Ok [], c') ∧ restored c0 c' m ∧
    ∀ k, k ≠ m → (restored c0 c k → restored c0 c' k) ∧ (fresh c k → fresh c' k).
Proof.
  intros [Hok Hreg Hgas Hcl Hpr Hav Hiv Hper] HPR Hfr Hesc Hinc Hm. destruct Hok as [Hk [Hmet Hfee _ _ _]].
  rewrite !elem_of_cons, elem_of_nil in Hm. destruct_or! Hm; subst m; simpl in Hfr |- *;
    cbv [module_InitGenesis module_ExportGenesis module_of InitGenesis_ ExportGenesis_ epochs_module inflation_module claims_module
      erc20_module incentives_module feesplit_module recovery_module vesting_module].
  - destruct (epochs_restart ctx c0 c Hk Hfr) as (c' & Hrun & He & Hx). exists c'. split; [by apply init_json_run|].
    split; [done|]. intros k Hne. destruct k; try done; simpl; rewrite Hx; by split.
  - destruct (infl_restart accounts ctx (infl_view (es_ext c0)) (infl_view (es_ext c)) Hiv Hper HPR) as (s' & p & Hrun & He & Hp & Hp0).
    eexists. split; [unfold on_app, on_infl, zoom; by json_run Hrun|]. split.
    + split; [exact He|]. exists p. done.
    + intros k Hne. by destruct k.
  - destruct (claims_restart accounts channel_id_valid ctx (claims_view (es_ext c0)) (claims_view (es_ext c)) Hcl Hpr Hav Hfr)
      as (s' & Hrun & Hp & Hr).
    { rewrite <- (ci_escrow _ Hcl). by apply Hesc. }
    eexists. split; [unfold on_app, on_claims, zoom; by json_run Hrun|]. split.
    + simpl. by rewrite Hp, Hr.
    + intros k Hne. by destruct k.
  - destruct Hfr as (F1 & F2 & F3).
    destruct (erc20_restart accounts (erc20_view (es_ext c0)) (erc20_view (es_ext c)) Hreg F1 F2 F3) as (s' & Hrun & E1 & E2 & E3 & E4).
    eexists. split; [unfold on_app, on_erc20, zoom; by json_run Hrun|]. split.
    + simpl. rewrite E1, E2, E3, E4. simpl. by destruct (a_erc20 (es_ext c0)) as [? ? ? ? []].
    + intros k Hne. by destruct k.
  - destruct Hfr as (F1 & F2 & F3). specialize (Hinc eq_refl).
    destruct (incentives_restart accounts (incentives_view (es_ext c0)) (incentives_view (es_ext c)) Hinc Hgas F1 F2 F3)
      as (s' & Hrun & E1 & E2 & E3 & E4).
    eexists. split; [unfold on_app, on_incentives, zoom; by json_run Hrun|]. split.
    + do 3 (split; [done|]). intros d. pose proof (mi_sum _ Hmet d) as Hsum. simpl in Hsum. rewrite Hinc, map_sum_empty in Hsum.
      change (meter s' d = meter (incentives_view (es_ext c0)) d). rewrite Hsum. unfold meter, GetAllocationMeter.
      rewrite E4, lookup_empty. apply raw_new.
    + intros k Hne. by destruct k.
  - destruct Hfr as (F1 & F2 & F3).
    pose proof (feesplit_genesis_roundtrip (feesplit_view (es_ext c0)) (feesplit_view (es_ext c)) Hfee F1 F2 F3) as Hrun.
    eexists. split; [unfold on_app, on_feesplit, zoom; by json_run Hrun|]. split.
    + simpl. by destruct (a_feesplit (es_ext c0)) as [? ? ? ? []].
    + intros k Hne. by destruct k.
  - eexists. split; [unfold on_app, zoom, init_json; by rewrite json_roundtrip|]. split; [done|].
    intros k Hne. by destruct k.
  - exists c. split; [done|]. by split.
Qed.

Definition own : list AppModule :=
  [m_epochs; m_inflation; m_claims; m_erc20; m_incentives; m_feesplit; m_recovery; m_vesting].

(** The foreign modules accept their exported states; staking returns the validators,
    and the bank restores the escrow, which no other module touches. *)
Record foreign_restarts c0 : Prop := {
  fr_total m x : m ∉ own → ∃ u x', foreign_InitGenesis m ctx (foreign_ExportGenesis m (a_ext (es_ext c0))) x = (Ok u, x') ∧
    (u = [] ↔ m ≠ m_staking);
  fr_bank x u x' : foreign_InitGenesis m_bank ctx (foreign_ExportGenesis m_bank (a_ext (es_ext c0))) x = (Ok u, x') →
    escrow_balance c0 x';
  fr_other m x u x' : m ∉ own → m ≠ m_bank →
    foreign_InitGenesis m ctx (foreign_ExportGenesis m (a_ext (es_ext c0))) x = (Ok u, x') →
    escrow_balance c0 x → escrow_balance c0 x';
}.

(** The state of genesis after the modules [done]. *)
Record progress c0 (done : list AppModule) c : Prop := {
  pg_done m : m ∈ done → restored c0 c m;
  pg_fresh m : m ∉ done → fresh c m;
  pg_escrow : m_bank ∈ done → m_claims ∉ done → escrow_balance c0 (a_ext (es_ext c));
}.

Lemma foreign_step c0 c m done :
  foreign_restarts c0 → m ∉ own → progress c0 done c →
  ∃ u c', init m (export c0 m) c = (Ok u, c') ∧ progress c0 (m :: done) c' ∧ (u = [] ↔ m ≠ m_staking).
Proof.
  intros [Ft Fb Fo] Hm [P1 P2 P3]. destruct (Ft m (a_ext (es_ext c)) Hm) as (u & x' & Hrun & Hu).
  set (c' := mkES (epochs c) (es_events c) (mkApp (a_infl (es_ext c)) (a_incentives (es_ext c)) (a_feesplit (es_ext c))
    (a_erc20 (es_ext c)) (a_claims (es_ext c)) (a_recovery (es_ext c)) x')).
  exists u, c'. split; [|split; [|done]].
  - assert (Ei : init m (export c0 m) c = on_app (on_ext (foreign_InitGenesis m ctx (foreign_ExportGenesis m (a_ext (es_ext c0))))) c).
    { destruct m; try done; exfalso; apply Hm; set_solver. }
    rewrite Ei. unfold on_app, on_ext, zoom. by rewrite Hrun.
  - assert (Hsame : ∀ k, (restored c0 c k → restored c0 c' k) ∧ (fresh c k → fresh c' k)) by (intros []; done).
    constructor.
    + intros k Hk. apply elem_of_cons in Hk as [->|Hk]; [|apply Hsame, P1; done]. destruct m; try done; exfalso; apply Hm; set_solver.
    + intros k Hk. apply not_elem_of_cons in Hk as [_ Hk]. apply Hsame, P2, Hk.
    + intros Hb Hc. apply not_elem_of_cons in Hc as [_ Hc]. simpl. destruct (decide (m = m_bank)) as [->|Hne]; [by eapply Fb|].
      eapply Fo; [done|done|exact Hrun|]. apply P3; [set_solver|done].
Qed.

Lemma own_step c0 c m done :
  exportable c0 → 0 ≤ PowerReduction → m ∈ own → m ∉ done → (m = m_claims → m_bank ∈ done) →
  (m ≠ m_claims → m_bank ∈ done → m_claims ∈ done) →
  (m = m_incentives → n_incentives (a_incentives (es_ext c0)) = ∅) →
  progress c0 done c →
  ∃ c', init m (export c0 m) c = (Ok [], c') ∧ progress c0 (m :: done) c'.
Proof.
  intros Hex HPR Hm Hnd Hcl Hlate Hinc [P1 P2 P3].
  destruct (own_restart c0 c m Hex HPR) as (c' & Hrun & Hr & Hother); [by apply P2| |done|done|].
  { intros ->. apply P3; [by apply Hcl|done]. }
  exists c'. split; [done|]. constructor.
  - intros k Hk. destruct (decide (k = m)) as [->|Hne]; [done|]. apply Hother; [done|]. apply P1. set_solver.
  - intros k Hk. apply not_elem_of_cons in Hk as [Hne Hk]. apply Hother; [done|]. by apply P2.
  - intros Hb Hc. exfalso. apply not_elem_of_cons in Hc as [Hne Hc]. apply Hc, Hlate; [done|].
    apply elem_of_cons in Hb as [<-|Hb]; [|done]. revert Hm. unfold own. set_solver.
Qed.
(** The order of the module manager: every module once, the bank before the airdrop, and
    no module of the chain between them. *)
Fixpoint ordered (done l : list AppModule) : bool :=
  match l with
  | [] => true
  | m :: rest =>
      bool_decide (m ∉ done) && bool_decide (m = m_claims → m_bank ∈ done) &&
      bool_decide (m ∈ own → m ≠ m_claims → m_bank ∈ done → m_claims ∈ done) && ordered (m :: done) rest
  end.

Lemma init_loop c0 data l rest done u c :
  exportable c0 → 0 ≤ PowerReduction → foreign_restarts c0 → ordered done l = true →
  (m_incentives ∈ l → n_incentives (a_incentives (es_ext c0)) = ∅) →
  (∀ m, m ∈ l → data m = Some (export c0 m)) → (u = [] ↔ m_staking ∉ done) → progress c0 done c →
  ∃ u' c', init_modules (l ++ rest) init data u c = init_modules rest init data u' c' ∧
    (u' = [] ↔ m_staking ∉ reverse l ++ done) ∧ progress c0 (reverse l ++ done) c'.
Proof.
  intros Hex HPR Hfr. revert done u c. induction l as [|m l IH]; intros done u c Hord Hinc Hdata Hu Hpg; simpl in Hord |- *.
  { exists u, c. done. }
  rewrite !andb_true_iff, !bool_decide_eq_true in Hord. destruct Hord as [[[Hnew Hcl] Hlate] Hord].
  assert (Hstep : ∃ v c', init m (export c0 m) c = (Ok v, c') ∧ progress c0 (m :: done) c' ∧ (v = [] ↔ m ≠ m_staking)).
  { destruct (decide (m ∈ own)) as [Hm|Hm]; [|by apply foreign_step].
    destruct (own_step c0 c m done Hex HPR Hm Hnew Hcl (Hlate Hm)) as (c' & Hrun & Hpg'); [|done|].
    { intros ->. apply Hinc. left. }
    exists [], c'. split; [done|]. split; [done|]. split; [|done]. intros _ ->. revert Hm. unfold own. set_solver. }
  destruct Hstep as (v & c' & Hrun & Hpg' & Hv). rewrite Hdata by left. unfold bind. rewrite Hrun, reverse_cons, <- app_assoc.
  rewrite (bool_decide_ext _ _ Hv). case_bool_decide as Hm.
  - apply (IH (m :: done)); [done|set_solver|set_solver|rewrite Hu; set_solver|done].
  - subst m. rewrite bool_decide_eq_true_2 by (by apply Hu).
    apply (IH (m_staking :: done)); [done|set_solver|set_solver| |done]. rewrite Hv. set_solver.
Qed.

Lemma exported_data c0 m : m ∈ OrderInitGenesis → mm_ExportGenesis mm_modules (export c0) m = Some (export c0 m).
Proof.
  intros Hm. rewrite mm_export, decide_True; [done|].
  assert (Hall : Forall (λ m, m ∈ mm_modules) OrderInitGenesis) by (by apply (bool_decide_unpack _)).
  by eapply Forall_forall in Hall.
Qed.

(** The modules before and after the incentives. *)
Definition before_incentives : list AppModule := take 21 OrderInitGenesis.
Definition after_incentives : list AppModule := drop 22 OrderInitGenesis.

(** C18: a chain that starts from the exported states of the modules, over empty stores.
    When no incentive is registered it starts, and every module of the chain has the state
    it was exported with, gas meters included: an epoch restarts at the current height, an
    airdrop without a start time starts, the provision of a day is computed anew.  When an
    incentive with an allocation is registered, genesis panics.  The exported state
    satisfies the invariants, with every token pair found through its indexes, valid
    parameters of claims and inflation, and the airdrop's escrow equal to its records; the
    foreign modules accept their states. *)
Theorem app_genesis_roundtrip c0 c :
  exportable c0 → 0 ≤ PowerReduction → foreign_restarts c0 → (∀ m, fresh c m) →
  let start := mm_InitGenesis OrderInitGenesis init (mm_ExportGenesis mm_modules (export c0)) c in
  (n_incentives (a_incentives (es_ext c0)) = ∅ →
   ∃ updates c', start = (Ok updates, c') ∧ ∀ m, m ∈ own → restored c0 c' m) ∧
  ((∃ k i, n_incentives (a_incentives (es_ext c0)) !! k = Some i ∧ Allocations i ≠ []) → start.1 = Panic).
Proof.
  intros Hex HPR Hfr Hfresh start.
  assert (Hpg : progress c0 [] c) by (split; [set_solver|by intros m _|set_solver]).
  assert (Hu : ([] : list ValidatorUpdate) = [] ↔ m_staking ∉ ([] : list AppModule)) by (split; [set_solver|done]).
  unfold start. rewrite mm_init. split.
  - intros Hinc. rewrite <- (app_nil_r OrderInitGenesis).
    destruct (init_loop c0 (mm_ExportGenesis mm_modules (export c0)) OrderInitGenesis [] [] [] c Hex HPR Hfr)
      as (u & c' & -> & Hst & [Hd _ _]); [done..|by apply exported_data|done|done|].
    exists u, c'. split.
    + simpl. rewrite bool_decide_eq_false_2; [done|]. rewrite Hst. intros Hno. apply Hno. by apply (bool_decide_unpack _).
    + intros m Hm. apply Hd.
      assert (Hall : Forall (λ m, m ∈ reverse OrderInitGenesis ++ []) own) by (by apply (bool_decide_unpack _)).
      by eapply Forall_forall in Hall.
  - intros (k & i & Hi & Ha).
    change OrderInitGenesis with (before_incentives ++ m_incentives :: after_incentives) at 1.
    destruct (init_loop c0 (mm_ExportGenesis mm_modules (export c0)) before_incentives (m_incentives :: after_incentives) [] [] c
      Hex HPR Hfr) as (u & c' & -> & _ & _); [done| |intros m Hm; apply exported_data|done|done|].
    + intros Hin. exfalso. revert Hin. by apply (bool_decide_unpack _).
    + revert m Hm. apply Forall_forall. by apply (bool_decide_unpack _).
    + cbn [init_modules]. rewrite exported_data by (by apply (bool_decide_unpack _)). unfold bind.
      assert (E : (init m_incentives (export c0 m_incentives) c').1 = Panic).
      { cbv [module_InitGenesis module_ExportGenesis module_of InitGenesis_ ExportGenesis_ incentives_module].
        unfold on_app, on_incentives, zoom.
        match goal with |- context [init_json ?f ?data ?t] => pose proof (init_json_panics f (incentives_ExportGenesis (incentives_view (es_ext c0))) t) as Hp;
          destruct (init_json f data t) end. simpl. apply Hp.
        exact (incentives_restart_panics accounts (incentives_view (es_ext c0)) (incentives_view (es_ext c')) k i Hi Ha). }
      by destruct (init m_incentives _ c') as [[]].
Qed.
End restart.

(** ** Samples *)

Section samples.
Local Open Scope string_scope.
Local Open Scope Z_scope.

(** The chain of the sample trace, with an airdrop to two addresses and a gas meter. *)
Definition with_airdrop (c : epoch_state (app_stores Z world)) : epoch_state (app_stores Z world) :=
  let a := es_ext c in
  mkES (epochs c) [] (mkApp (a_infl a)
    (mkInc (n_params (a_incentives a)) (n_incentives (a_incentives a)) {[ gas_key gold alice := 9 ]} (n_meters (a_incentives a)) tt)
    (a_feesplit a) (a_erc20 a) (store_with tt claims_sample) (a_recovery a) (c_ext claims_sample)).
Lemma with_airdrop_ok c : chain_ok c → chain_ok (with_airdrop c).
Proof.
  intros [Hk [[M1 M2 M3] [F1 F2 F3 F4] [P1 P2 P3] N _]]. constructor; [exact Hk|].
  constructor; [constructor..|exact N|]; auto. exact (ci_records _ claims_sample_inv).
Qed.
Definition exported := with_airdrop (after 6).

Lemma one_pair_full (s : erc20_state world) tp :
  String.length (Erc20Address tp) = 42%nat → e_pairs s = {[ GetID tp := tp ]} → e_byDenom s = {[ Denom tp := GetID tp ]} →
  e_byERC20 s = {[ GetERC20Contract tp := GetID tp ]} → registry_full s.
Proof.
  intros Hl E1 E2 E3. constructor; [constructor|]; rewrite ?E1, ?E2, ?E3.
  - intros id tp' [<- <-]%lookup_singleton_Some. done.
  - intros d id [<- <-]%lookup_singleton_Some. exists tp. by rewrite lookup_singleton_eq.
  - intros a id [<- <-]%lookup_singleton_Some. exists tp. by rewrite lookup_singleton_eq.
  - intros id tp' [<- <-]%lookup_singleton_Some. by rewrite !lookup_singleton_eq.
Qed.

Lemma exported_pairs : registry_full (erc20_view (es_ext exported)).
Proof. apply (one_pair_full _ osmo_pair); vm_compute; reflexivity. Qed.

(** A chain before genesis. *)
Definition empty_chain : epoch_state (app_stores Z world) :=
  mkES ∅ [] (mkApp (mkInfl infl_DefaultParams None None None None None tt) (mkInc incentives_DefaultParams ∅ ∅ ∅ tt)
    (mkFee feesplit_DefaultParams ∅ ∅ ∅ tt) (mkErc20 (mkErc20Params false false) ∅ ∅ ∅ tt) (mkClaims airdrop ∅ tt)
    (mkRecParams false 0) empty_world).

(** The bank restores the balances and staking returns the validators. *)
Definition w_foreign_init (m : AppModule) (_ : Ctx) (_ : string) : M world (list ValidatorUpdate) :=
  match m with
  | m_bank => λ _, (Ok [], c_ext claims_sample)
  | m_staking => ret [mkUpdate "validator" 100]
  | _ => ret []
  end.

Definition w_export := module_ExportGenesis (C := coins) (D := Z) chan_ok w_foreign_init (λ _ _, EmptyString).

Lemma w_foreign_other m ctx d x u x' : m ≠ m_bank → w_foreign_init m ctx d x = (Ok u, x') → x' = x.
Proof. destruct m; try done; by intros _ [= <- <-]. Qed.

Lemma exported_ok : exportable (C := coins) chan_ok exported.
Proof.
  assert (Hok : chain_ok (after 6)).
  { eapply cs_ok, (trace_chain_steps collector chan_ok (λ _, None) (λ _, None) no_abstract accepting (λ _ _, ret tt)
      (λ _ _, ret tt) idle idle w_send_no_panic idle_through idle_through start_chain chain_actions (after 6) sample_trace start_ok). }
  constructor.
  - by apply with_airdrop_ok.
  - exact exported_pairs.
  - intros k g Hg. change (({[ gas_key gold alice := 9 ]} : gmap string Z) !! k = Some g) in Hg.
    apply lookup_singleton_Some in Hg as [<- _]. reflexivity.
  - exact claims_sample_inv.
  - intros k cr Hk'. apply w_bech32_string. intros ->. by vm_compute in Hk'.
  - vm_compute. reflexivity.
  - vm_compute. reflexivity.
  - vm_compute. discriminate.
Qed.

Lemma w_accounts name (x : world) : name ∈ with_account → ∃ x', HasModuleAccount (C := coins) name x = (Ok true, x').
Proof. by exists x. Qed.

Lemma app_genesis_roundtrip_witness :
  ∃ updates c', mm_InitGenesis OrderInitGenesis
      (module_InitGenesis (C := coins) (D := Z) chan_ok w_foreign_init (λ _ _, EmptyString) day_ctx)
      (mm_ExportGenesis mm_modules (w_export exported)) empty_chain = (Ok updates, c') ∧
    a_erc20 (es_ext c') = a_erc20 (es_ext exported) ∧ c_records (a_claims (es_ext c')) = c_records (a_claims (es_ext exported)) ∧
    n_gas (a_incentives (es_ext c')) = {[ gas_key gold alice := 9 ]}.
Proof.
  destruct (app_genesis_roundtrip (C := coins) (D := Z) chan_ok day_ctx (λ _ _, EmptyString) w_foreign_init
    w_accounts exported empty_chain exported_ok) as [Hstart _].
  - vm_compute. discriminate.
  - constructor.
    + intros m x Hm. destruct m; simpl; eexists _, _; (split; [reflexivity|]); done.
    + intros x u x' [= <- <-]. reflexivity.
    + intros m x u x' _ Hb Hrun He. apply w_foreign_other in Hrun as ->; [exact He|exact Hb].
  - by intros [].
  - destruct Hstart as (u & c' & Hrun & Hr); [vm_compute; reflexivity|]. exists u, c'. split; [exact Hrun|].
    split; [apply (Hr m_erc20); vm_compute; repeat constructor|].
    split; [apply (Hr m_claims); vm_compute; repeat constructor|].
    destruct (Hr m_incentives) as (_ & _ & Hg & _); [vm_compute; repeat constructor|exact Hg].
Defined.

(** A validator of the staking module. *)
Definition val_op : string := "validator-operator-a".
#[local] Instance w_zero_height : ZeroHeightKeepers world := {
  val_from_bech32 a := Some a; val_string a := a;
  AssertInvariants := ret tt;
  z_Validators _ := [mkZVal val_op 0 false ""];
  WithdrawValidatorCommission _ := ret tt;
  GetAllDelegations _ := [mkZDel "evmos1alice" val_op];
  WithdrawDelegationRewards _ _ := ret tt;
  DeleteAllValidatorSlashEvents := ret tt;
  DeleteAllValidatorHistoricalRewards := ret tt;
  z_DecCoins := Z; z_dec_add := Z.add;
  GetValidatorOutstandingRewardsCoins _ _ := 0;
  GetCommunityPool _ := 0;
  SetCommunityPool _ x := x;
  AfterValidatorCreated _ _ := ret tt;
  BeforeDelegationCreated _ _ _ := ret tt;
  z_AfterDelegationModified _ _ _ := ret tt;
  Redelegations _ := []; SetRedelegation _ x := x;
  UnbondingDelegations _ := []; SetUnbondingDelegation _ x := x;
  validator_keys _ := [String (Ascii.ascii_of_nat 33) (String (Ascii.ascii_of_nat 20) val_op)];
  GetValidator _ a := if String.eqb a val_op then Some (mkZVal val_op 0 false "") else None;
  SetValidator _ x := x;
  ApplyAndReturnValidatorSetUpdates := ret [];
  SigningInfos _ := []; SetValidatorSigningInfo _ _ x := x;
  WriteValidators _ := Ok [mkUpdate val_op 100];
}.
#[local] Instance w_zero_height_laws : ZeroHeightLaws world.
Proof.
  constructor; try done.
  - intros x k Hk. simpl in Hk. apply list_elem_of_singleton in Hk as ->. by eexists _, val_op.
  - intros x a v. simpl. destruct (String.eqb_spec a val_op) as [->|]; [done|discriminate].
Qed.

(** The same state is exported at its own height. *)
Lemma zero_height_export_fails_witness :
  is_ok (ExportAppStateAndValidators (D := Z) 41 (λ _, Ok "state") w_export
    day_ctx true [] exported).1 = false ∧
  (ExportAppStateAndValidators (D := Z) 41 (λ _, Ok "state") w_export
    day_ctx false [] exported).1 = Ok (mkExported "state" [mkUpdate val_op 100] 42).
Proof.
  split; [|vm_compute; reflexivity].
  apply (zero_height_export_fails (D := Z) 41 (λ _, Ok "state") w_export day_ctx [] exported).
  discriminate.
Defined.
End samples.
