(* ===== verification/Upgrades.v ===== *)
(** * Upgrades and migrations: [app/upgrades/*], [x/*/migrations], [x/*/keeper/migrations.go]

    The handlers that the upgrade module runs once, at the height of an upgrade,
    and the migrations of the module stores. *)

From S2P Require Import Prelude Sdk Dec Keepers EvmosUtils Erc20Types Epochs Inflation Ibc Claims Erc20 Incentives Feesplit Recovery App.

(** ** Foreign stores the handlers touch *)

(** A [transfertypes.DenomTrace] *)
Record DenomTrace := mkTrace { trace_Path : string; BaseDenom : string }.

#[global] Instance DenomTrace_eq_dec : EqDecision DenomTrace.
Proof. solve_decision. Defined.

(** [tmproto.EvidenceParams] *)
Record EvidenceParams := mkEvidence { MaxAgeNumBlocks : Z; MaxAgeDuration : Z; ep_MaxBytes : Z }.

#[global] Instance EvidenceParams_eq_dec : EqDecision EvidenceParams.
Proof. solve_decision. Defined.

(** [ibcclienttypes.ClientUpdateProposal] *)
Record ClientUpdate := mkClientUpdate {
  cu_Title : string; cu_Description : string; SubjectClientId : string; SubstituteClientId : string;
}.

Class UpgradeStores (D X : Type) := {
  (** the subspace of the consensus parameters; [None]: not found *)
  GetEvidenceParams : X → option EvidenceParams;
  SetEvidenceParams : EvidenceParams → X → X;
  (** [stakingkeeper.GetParams(ctx).UnbondingTime] *)
  UnbondingTime : X → Z;
  (** [slashingkeeper.GetParams(ctx).SignedBlocksWindow], written back with [SetParams] *)
  SignedBlocksWindow : X → Z;
  SetSignedBlocksWindow : Z → X → X;
  (** the traces [IterateDenomTraces] visits *)
  DenomTraces : X → list DenomTrace;
  SetDenomTrace : DenomTrace → X → X;
  (** [ParseDenomTrace], [DenomTrace.GetFullDenomPath], [DenomTrace.Validate() == nil] *)
  ParseDenomTrace : string → DenomTrace;
  GetFullDenomPath : DenomTrace → string;
  trace_valid : DenomTrace → bool;
  (** [clientkeeper.ClientUpdateProposal] *)
  ClientUpdateProposal : ClientUpdate → M X unit;
  (** [feemarkettypes.DefaultMinGasPrice], [DefaultMinGasMultiplier] *)
  SetFeeMarketDefaults : D → D → X → X;
}.

(** [module.VersionMap] *)
Definition VersionMap : Type := gmap string Z.

Definition feemarket_ModuleName : string := "feemarket".
Definition evm_ModuleName : string := "evm".

(** ** Version 5: [app/upgrades/v5] *)

(** The slice is shared with the caller's copy of the record, which sees the swap. *)
Definition swapUnclaimedAction (cr : ClaimsRecord) (unclaimed claimed : Action) : bool * ClaimsRecord :=
  if negb (HasClaimedAction cr unclaimed) && HasClaimedAction cr claimed then
    (true, mkCR (InitialClaimableAmount cr)
             (<[Z.to_nat (claimed - 1) := false]> (<[Z.to_nat (unclaimed - 1) := true]> (ActionsCompleted cr))))
  else (false, cr).

(** The five swaps, joined by [||]: the first that applies is the only one. *)
Fixpoint first_swap (cr : ClaimsRecord) (swaps : list (Action * Action)) : bool * ClaimsRecord :=
  match swaps with
  | [] => (false, cr)
  | (unclaimed, claimed) :: rest =>
      let '(override, cr) := swapUnclaimedAction cr unclaimed claimed in
      if override then (true, cr) else first_swap cr rest
  end.

Definition airdrop_swaps : list (Action * Action) := [
  (ActionEVM, ActionIBCTransfer); (ActionEVM, ActionVote); (ActionEVM, ActionDelegate);
  (ActionVote, ActionIBCTransfer); (ActionDelegate, ActionIBCTransfer)].

Section claims.
Context {X : Type} `{SdkAddress}.
Implicit Types s : claims_state X.
Local Abbreviation CM := (M (claims_state X)).

(** The callback of the iteration: the record to override, if any. *)
Definition resolved (acr : string * ClaimsRecord) : option ClaimsRecordAddress :=
  let '(override, cr) := first_swap acr.2 airdrop_swaps in
  if override then Some (mkCRA (acc_string acr.1) (InitialClaimableAmount cr) (ActionsCompleted cr)) else None.

Definition ResolveAirdrop : CM unit :=
  let! claimsRecords := gets (λ s, omap resolved (kv_iter (c_records s))) in
  foreach claimsRecords (λ claim,
    let! addr := lift (must_acc_from_bech32 (cra_Address claim)) in
    modify (SetClaimsRecord addr (mkCR (cra_InitialClaimableAmount claim) (cra_ActionsCompleted claim)))).

Definition v5_ContributorAddrFrom : string := "evmos13cf9npvns2vhh3097909mkhfxngmw6d6eppfm4".
Definition v5_ContributorAddrTo : string := "evmos1hmntpkn623y3vl0nvzrazvq4rqzv3xa74l40gl".

Definition v5_MigrateContributorClaim : CM unit :=
  let! from := lift (must_acc_from_bech32 v5_ContributorAddrFrom) in
  let! to := lift (must_acc_from_bech32 v5_ContributorAddrTo) in
  let! found := gets (λ s, GetClaimsRecord s from) in
  match found with
  | None => ret tt
  | Some cr => modify (DeleteClaimsRecord from) ;;; modify (SetClaimsRecord to cr)
  end.

(** ** Version 7: [app/upgrades/v7] *)

Definition v7_ContributorAddrFrom : string := "evmos1659xwt0hnu5humgek7scefhnpcm2w6hyvy4fsq".
Definition v7_ContributorAddrTo : string := "evmos1pktlmqrz448cuazl98tqmsj4kjwpqpmaa0cjcf".

(** The errors of the two conversions are dropped: an address that is not valid is
    nil, on which the access of the store panics. *)
Definition v7_MigrateContributorClaim : CM unit :=
  let! from := lift (must_acc_from_bech32 v7_ContributorAddrFrom) in
  let! found := gets (λ s, GetClaimsRecord s from) in
  match found with
  | None => ret tt
  | Some cr =>
      modify (DeleteClaimsRecord from) ;;;
      let! to := lift (must_acc_from_bech32 v7_ContributorAddrTo) in
      modify (SetClaimsRecord to cr)
  end.
End claims.

Definition MigrateSkippedEpochs {D X} (s : infl_state D X) : infl_state D X :=
  let previousValue := GetSkippedEpochs s in
  let newValue := wrapu64 (previousValue - 2) in
  SetSkippedEpochs newValue s.

Definition FaucetAddressFrom : string := "evmos1z4ya98ga2xnffn2mhjym7tzlsm49ec23890sze".
Definition FaucetAddressTo : string := "evmos1ujm4z5v9zkdqm70xnptr027gqu90f7lxjr0fch".

Definition MigrateFaucetBalances {C X} `{SdkAddress, BankKeeper C X} : M X unit :=
  let! from := lift (must_acc_from_bech32 FaucetAddressFrom) in
  let! to := lift (must_acc_from_bech32 FaucetAddressTo) in
  let! balances := gets (λ x, GetAllBalances (C := C) x from) in
  SendCoins from to balances.

(** ** Parameters and clients: [v4], [v5], [v6] *)

Section foreign.
Context {D X : Type} `{UpgradeStores D X}.

Definition v4_proposals : ClientUpdate * ClientUpdate :=
  (mkClientUpdate "Update expired Osmosis IBC client"
     "Update the existing expired Cosmos Hub IBC client on Evmos (07-tendermint-0) in order to resume packet transfers between both chains."
     "07-tendermint-0" "07-tendermint-26",
   mkClientUpdate "Update expired Cosmos Hub IBC client"
     "Update the existing expired Cosmos Hub IBC client on Evmos (07-tendermint-3) in order to resume packet transfers between both chains."
     "07-tendermint-3" "07-tendermint-29").

Definition UpdateIBCClients : M X unit :=
  let '(proposalOsmosis, proposalCosmosHub) := v4_proposals in
  ClientUpdateProposal proposalOsmosis ;;;
  ClientUpdateProposal proposalCosmosHub.

(** [2 * time.Second] *)
Definition AvgBlockTime : Z := 2 * ns_per_s.

Definition UpdateConsensusParams (x : X) : X :=
  match GetEvidenceParams x with
  | None => x
  | Some evidenceParams =>
      if decide (evidenceParams = mkEvidence 0 0 0) then x else
      let maxAgeDuration := UnbondingTime x in
      let maxAgeNumBlocks := Z.quot maxAgeDuration AvgBlockTime in
      SetEvidenceParams (mkEvidence maxAgeNumBlocks maxAgeDuration (ep_MaxBytes evidenceParams)) x
  end.

Definition equalTraces (dtA dtB : DenomTrace) : bool :=
  String.eqb (BaseDenom dtA) (BaseDenom dtB) && String.eqb (trace_Path dtA) (trace_Path dtB).

(** The callback of the iteration: the corrected trace, when it is valid and differs. *)
Definition corrected (dt : DenomTrace) : option DenomTrace :=
  let newTrace := ParseDenomTrace (GetFullDenomPath dt) in
  if trace_valid newTrace && negb (equalTraces newTrace dt) then Some newTrace else None.

Definition UpdateIBCDenomTraces (x : X) : X :=
  foldl (λ x nt, SetDenomTrace nt x) x (omap corrected (DenomTraces x)).

Definition UpdateSlashingParams (x : X) : X :=
  SetSignedBlocksWindow (SignedBlocksWindow x *i 3) x.
End foreign.

(** ** The handlers *)

Definition MainnetMinGasPrices {D} `{SdkDec D} : D := dec_new 20000000000.
Definition MainnetMinGasMultiplier {D} `{SdkDec D} : D := dec_with_prec 5 1.

Definition TestnetDenomMetadata : Metadata :=
  mkMeta "The native EVM, governance and staking token of the Evmos testnet"
    [mkUnit "atevmos" 0 ["attotevmos"%string]; mkUnit "tevmos" 18 []] "atevmos" "tevmos" "Testnet Evmos" "tEVMOS".

Section handlers.
Context {C D X : Type} `{SdkCoins C, SdkDec D, SdkAddress}.
Context `{!AccountKeeper C X, !BankKeeper C X, !BankMeta X, !UpgradeStores D X}.
Local Abbreviation app := (app_stores D X).
(** [mm.RunMigrations(ctx, configurator, vm)] *)
Variable RunMigrations : Ctx → VersionMap → M app VersionMap.

Definition UpgradeHandler : Type := Ctx → VersionMap → M app VersionMap.

Definition v2_UpgradeHandler : UpgradeHandler := λ ctx vm,
  let vm := <[claims_ModuleName := 1]> vm in
  let vm := <[erc20_ModuleName := 1]> vm in
  RunMigrations ctx vm.

Definition v4_UpgradeHandler : UpgradeHandler := λ ctx vm,
  (if IsMainnet (ChainID ctx)
   then let! r := try (on_ext (UpdateIBCClients (D := D))) in ret tt
   else ret tt) ;;;
  RunMigrations ctx vm.

(** What version 5 does on both networks, and version 6 on the main network. *)
Definition v5_UpgradeHandler : UpgradeHandler := λ ctx vm,
  on_ext (modify (SetFeeMarketDefaults (MainnetMinGasPrices (D := D)) MainnetMinGasMultiplier)) ;;;
  (if IsTestnet (ChainID ctx) then on_ext (modify (SetDenomMetaData TestnetDenomMetadata)) else ret tt) ;;;
  on_ext (modify (UpdateConsensusParams (D := D))) ;;;
  on_ext (modify (UpdateIBCDenomTraces (D := D))) ;;;
  on_claims ResolveAirdrop ;;;
  on_claims v5_MigrateContributorClaim ;;;
  let vm := <[feemarket_ModuleName := 2]> vm in
  RunMigrations ctx vm.

Definition v6_UpgradeHandler : UpgradeHandler := λ ctx vm,
  on_ext (modify (SetFeeMarketDefaults (MainnetMinGasPrices (D := D)) MainnetMinGasMultiplier)) ;;;
  let! vm :=
    if IsMainnet (ChainID ctx) then
      on_ext (modify (UpdateConsensusParams (D := D))) ;;;
      on_ext (modify (UpdateSlashingParams (D := D))) ;;;
      on_ext (modify (UpdateIBCDenomTraces (D := D))) ;;;
      on_claims ResolveAirdrop ;;;
      on_claims v5_MigrateContributorClaim ;;;
      ret (<[feemarket_ModuleName := 2]> vm)
    else ret vm in
  let vm := <[evm_ModuleName := 1]> vm in
  RunMigrations ctx vm.

Definition v7_UpgradeHandler : UpgradeHandler := λ ctx vm,
  (if IsTestnet (ChainID ctx)
   then let! r := try (on_ext (MigrateFaucetBalances (C := C))) in ret tt
   else ret tt) ;;;
  (if IsMainnet (ChainID ctx)
   then on_infl (modify MigrateSkippedEpochs) ;;; on_claims v7_MigrateContributorClaim
   else ret tt) ;;;
  RunMigrations ctx vm.

Definition v8_UpgradeHandler : UpgradeHandler := λ ctx vm, RunMigrations ctx vm.

(** [app.setupUpgradeHandlers]: the handlers by the name of the upgrade, and the
    stores an upgrade adds. *)
Definition upgrade_handlers : list (string * UpgradeHandler) := [
  ("v2.0.0"%string, v2_UpgradeHandler); ("v4.0.0"%string, v4_UpgradeHandler); ("v5.0.0"%string, v5_UpgradeHandler);
  ("v6.0.1"%string, v6_UpgradeHandler); ("v7.0.0"%string, v7_UpgradeHandler); ("v8.0.0"%string, v8_UpgradeHandler)].

Definition added_stores (skip_height : bool) (upgrade : string) : list string :=
  if skip_height then [] else
  if String.eqb upgrade "v8.0.0" then [feesplit_ModuleName] else [].
End handlers.

(** ** Migrations of the stores: [x/claims/migrations/v2], [x/erc20/migrations/v2] *)

Definition DefaultAuthorizedChannels : list string := ["channel-0"%string; "channel-3"%string].
Definition DefaultEVMChannels : list string := ["channel-2"%string].

(** [v2.MigrateStore]: [Migrate1to2] of the claims module *)
Definition claims_MigrateStore {X} (s : claims_state X) : claims_state X :=
  let p := c_params s in
  mkClaims (mkClaimsParams (EnableClaims p) (ClaimsDenom p) (AirdropStartTime p) (DurationUntilDecay p)
              (DurationOfDecay p) DefaultAuthorizedChannels DefaultEVMChannels) (c_records s) (c_ext s).

(** The genesis state of the first version has no channels. *)
Record v1_ClaimsGenesis := mkV1Genesis {
  v1_EnableClaims : bool;
  v1_ClaimsDenom : string;
  v1_AirdropStartTime : Z;
  v1_DurationUntilDecay : Z;
  v1_DurationOfDecay : Z;
  v1_ClaimsRecords : list ClaimsRecordAddress;
}.

Definition claims_MigrateJSON (oldState : v1_ClaimsGenesis) : ClaimsParams * list ClaimsRecordAddress :=
  (mkClaimsParams (v1_EnableClaims oldState) (v1_ClaimsDenom oldState) (v1_AirdropStartTime oldState)
     (v1_DurationUntilDecay oldState) (v1_DurationOfDecay oldState) DefaultAuthorizedChannels DefaultEVMChannels,
   v1_ClaimsRecords oldState).

(** [v2.UpdateParams]: [Migrate1to2] of the erc20 module *)
Definition erc20_UpdateParams {X} (s : erc20_state X) : erc20_state X := erc20_SetParams (mkErc20Params true true) s.

(** ** Exported genesis files: [v3.MigrateGenesis], [v5.MigrateGenesis]

    Both convert the state of the fee market from one version to the next; the codec
    and the conversion are Ethermint's. *)
Definition MigrateGenesis {Old New : Type} (unmarshal : string → option Old) (MigrateJSON : Old → New)
    (marshal : New → option string) (appState : gmap string string) : gmap string string :=
  match appState !! feemarket_ModuleName with
  | None => appState
  | Some bz =>
      match unmarshal bz with
      | None => appState
      | Some oldFeeMarketState =>
          let appState := delete feemarket_ModuleName appState in
          match marshal (MigrateJSON oldFeeMarketState) with
          | None => appState
          | Some feeMarketBz => <[feemarket_ModuleName := feeMarketBz]> appState
          end
      end
  end.
