(* ===== verification/UpgradesProps.v ===== *)
(** * Properties of the upgrades

    The airdrop migration keeps every amount, the contributor migrations move one
    record, and the parameter migrations do what their comments promise. *)

From S2P Require Import Prelude Sdk Dec SdkInstances Keepers KeeperInstances EvmosUtils Epochs Inflation Ibc Claims ClaimsProps Erc20 App Upgrades.

(** ** Swapping actions *)

(** How many actions a record has completed. *)
Definition completed (cr : ClaimsRecord) : nat := length (filter (λ b : bool, b = true) (ActionsCompleted cr)).

(** A swap keeps the amount and the number of completed actions, and so what is still
    to be claimed. *)
Definition swapped (cr cr' : ClaimsRecord) : Prop :=
  record_ok cr' ∧ InitialClaimableAmount cr' = InitialClaimableAmount cr ∧ completed cr' = completed cr ∧
  unclaimed_quarters cr' = unclaimed_quarters cr.

(** The record after the first swap that applies. *)
Definition resolve (cr : ClaimsRecord) : ClaimsRecord := (first_swap cr airdrop_swaps).2.

(** A record of four actions, by cases. *)
Lemma record_cases cr :
  record_ok cr → ∃ amt c0 c1 c2 c3, cr = mkCR amt [c0; c1; c2; c3] ∧ 0 < amt.
Proof.
  intros [Ha Hl]. destruct cr as [amt [|c0 [|c1 [|c2 [|c3 [|? ?]]]]]]; try discriminate Hl. naive_solver.
Qed.

Lemma resolve_swapped cr : record_ok cr → swapped cr (resolve cr).
Proof.
  intros (amt & c0 & c1 & c2 & c3 & -> & Ha)%record_cases. unfold swapped, record_ok, resolve.
  destruct c0, c1, c2, c3; cbn -[Z.quot]; repeat split; try done; unfold unclaimed_quarters; cbn -[Z.quot]; lia.
Qed.

(** A user who completed any action has completed the EVM action afterwards. *)
Lemma resolve_evm cr : record_ok cr → HasClaimedAny cr = true → HasClaimedAction (resolve cr) ActionEVM = true.
Proof.
  intros (amt & c0 & c1 & c2 & c3 & -> & Ha)%record_cases. by destruct c0, c1, c2, c3.
Qed.

(** The record is written back exactly when it changes. *)
Lemma resolved_spec `{SdkAddress} k cr :
  record_ok cr →
  resolved (k, cr) = if decide (resolve cr = cr) then None
                     else Some (mkCRA (acc_string k) (InitialClaimableAmount (resolve cr)) (ActionsCompleted (resolve cr))).
Proof.
  intros (amt & c0 & c1 & c2 & c3 & -> & Ha)%record_cases. unfold resolved, resolve.
  destruct c0, c1, c2, c3; case_decide as Hd; cbn in Hd |- *; by try congruence.
Qed.

Section claims.
Context {C X : Type} `{SdkCoinsLaws C, SdkAddressLaws, !AccountKeeper C X, !BankKeeper C X, !BankLaws C X}.
Implicit Types s : claims_state X.

(** The records of the chain are stored under addresses. *)
Definition address_key (k : string) : Prop := acc_from_bech32 (acc_string k) = Some k.

Lemma record_eta cr : mkCR (InitialClaimableAmount cr) (ActionsCompleted cr) = cr.
Proof. by destruct cr. Qed.

Lemma resolve_loop (l : list (string * ClaimsRecord)) s :
  NoDup l.*1 → (∀ k cr, (k, cr) ∈ l → record_ok cr ∧ address_key k ∧ c_records s !! k = Some cr) →
  ∃ s', foreach (omap resolved l) (λ claim,
          let! addr := lift (must_acc_from_bech32 (cra_Address claim)) in
          modify (SetClaimsRecord addr (mkCR (cra_InitialClaimableAmount claim) (cra_ActionsCompleted claim)))) s
        = (Ok tt, s') ∧ c_params s' = c_params s ∧ c_ext s' = c_ext s ∧
    ∀ k, c_records s' !! k = if decide (k ∈ l.*1) then resolve <$> c_records s !! k else c_records s !! k.
Proof.
  revert s. induction l as [|[k cr] l IH]; intros s Hnd Hl.
  { exists s. do 3 (split; [done|]). intros k. by rewrite decide_False by (simpl; set_solver). }
  simpl in Hnd. apply NoDup_cons in Hnd as [Hni Hnd]. destruct (Hl k cr) as (Hok & Hkey & Hk); [by left|].
  simpl. rewrite (resolved_spec k cr Hok).
  set (s1 := SetClaimsRecord k (resolve cr) s).
  assert (Hlook : ∀ k', c_records s1 !! k' = if decide (k' = k) then Some (resolve cr) else c_records s !! k').
  { intros k'. simpl. case_decide as E; [subst; by rewrite lookup_insert_eq|by rewrite lookup_insert_ne]. }
  destruct (IH s1 Hnd) as (s' & Hrun & Hp & Hx & Hs').
  { intros k' cr' Hin. destruct (Hl k' cr') as (? & ? & ?); [by right|]. split; [done|]. split; [done|].
    rewrite Hlook, decide_False; [done|]. intros ->. apply Hni. apply list_elem_of_fmap. by exists (k, cr'). }
  assert (Hrec : ∀ k', c_records s' !! k' =
    if decide (k' ∈ (k :: l.*1)) then resolve <$> c_records s !! k' else c_records s !! k').
  { intros k'. rewrite Hs', Hlook. destruct (decide (k' = k)) as [->|Hne].
    - rewrite decide_False, decide_True by set_solver. by rewrite Hk.
    - by destruct (decide (k' ∈ l.*1)); [rewrite decide_True by set_solver|rewrite decide_False by set_solver]. }
  exists s'. case_decide as Hd; simpl.
  - assert (E : s1 = s) by (unfold s1, SetClaimsRecord; rewrite Hd, insert_id by done; by destruct s).
    rewrite E in *. done.
  - split; [|done]. unfold bind, lift, must_acc_from_bech32. rewrite Hkey. unfold modify.
    cbn [cra_InitialClaimableAmount cra_ActionsCompleted]. rewrite record_eta. exact Hrun.
Qed.

(** C37: resolving the airdrop always succeeds.  It rewrites each record by its first
    applicable swap, which keeps the initial amount and the number of completed
    actions, and touches nothing else: what is escrowed stays what is still to be
    claimed, and everyone who completed some action has completed the EVM action. *)
Theorem resolve_airdrop_keeps_escrow s :
  claims_inv (C := C) s → (∀ k, is_Some (c_records s !! k) → address_key k) →
  ∃ s', ResolveAirdrop s = (Ok tt, s') ∧ claims_inv (C := C) s' ∧
    c_params s' = c_params s ∧ c_ext s' = c_ext s ∧ escrowed s' = escrowed s ∧
    ∀ k, match c_records s !! k with
         | None => c_records s' !! k = None
         | Some cr => ∃ cr', c_records s' !! k = Some cr' ∧ swapped cr cr' ∧
                      (HasClaimedAny cr = true → HasClaimedAction cr' ActionEVM = true)
         end.
Proof.
  intros Hinv Hkeys. destruct (resolve_loop (kv_iter (c_records s)) s) as (s' & Hrun & Hp & Hx & Hs').
  - auto with evmos.
  - intros k cr Hin. apply elem_of_kv_iter in Hin. split; [by eapply ci_records|]. split; [|done]. apply Hkeys. eauto.
  - assert (Hrec : c_records s' = resolve <$> c_records s).
    { apply map_eq. intros k. rewrite Hs', lookup_fmap. case_decide as Hd; [done|].
      destruct (c_records s !! k) as [cr|] eqn:Ek; [|done]. destruct Hd. apply list_elem_of_fmap.
      exists (k, cr). split; [done|]. by apply elem_of_kv_iter. }
    assert (Hesc : escrowed s' = escrowed s).
    { unfold escrowed. rewrite Hrec. apply map_sum_fmap. intros k cr Hk. by apply resolve_swapped, (ci_records s Hinv k). }
    assert (Hall : ∀ k cr, c_records s !! k = Some cr → swapped cr (resolve cr))
      by (intros k cr Hk; by apply resolve_swapped, (ci_records s Hinv k)).
    exists s'. split; [exact Hrun|]. split; [constructor; rewrite ?Hp, ?Hx, ?Hesc; try apply Hinv|].
    + intros k cr. rewrite Hrec, lookup_fmap. destruct (c_records s !! k) as [cr0|] eqn:Ek; [|done].
      intros [= <-]. apply (Hall k cr0 Ek).
    + do 3 (split; [done|]). intros k. rewrite Hrec, lookup_fmap. destruct (c_records s !! k) as [cr|] eqn:Ek; [|done].
      exists (resolve cr). split; [done|]. split; [by eapply Hall|]. by apply resolve_evm, (ci_records s Hinv k).
Qed.
End claims.

Section contributor.
Context {X : Type} `{SdkAddress}.
Implicit Types s : claims_state X.

(** The record of the contributor moves; one that the new address had is lost, and
    with it the claim on its open quarters. *)
Lemma contributor_moves from to cr s s' :
  acc_from_bech32 v5_ContributorAddrFrom = Some from → acc_from_bech32 v5_ContributorAddrTo = Some to → from ≠ to →
  c_records s !! from = Some cr → v5_MigrateContributorClaim s = (Ok tt, s') →
  c_records s' !! from = None ∧ c_records s' !! to = Some cr ∧
  (∀ k, k ≠ from → k ≠ to → c_records s' !! k = c_records s !! k) ∧
  escrowed s' = escrowed s - match c_records s !! to with Some old => unclaimed_quarters old | None => 0 end.
Proof.
  intros Hf Ht Hne Hcr Hrun. unfold v5_MigrateContributorClaim, must_acc_from_bech32 in Hrun. rewrite Hf, Ht in Hrun.
  unfold bind, lift, gets, modify, GetClaimsRecord in Hrun. rewrite Hcr in Hrun. injection Hrun as <-. simpl.
  split; [by rewrite lookup_insert_ne, lookup_delete_eq|]. split; [by rewrite lookup_insert_eq|]. split.
  { intros k H1 H2. by rewrite lookup_insert_ne, lookup_delete_ne. }
  unfold escrowed. simpl. rewrite (map_sum_delete _ _ from cr Hcr).
  destruct (c_records s !! to) as [old|] eqn:Eto.
  - rewrite (map_sum_insert _ _ to cr old) by (by rewrite lookup_delete_ne). lia.
  - rewrite map_sum_insert_new by (by rewrite lookup_delete_ne). lia.
Qed.
End contributor.

(** Two skipped epochs are taken back; a chain that skipped fewer would count almost
    [2^64] of them. *)
Lemma skipped_epochs_migrated {D X} (s : infl_state D X) :
  0 ≤ GetSkippedEpochs s < 2^64 →
  GetSkippedEpochs (MigrateSkippedEpochs s) =
  GetSkippedEpochs s - 2 + (if GetSkippedEpochs s <? 2 then 2^64 else 0).
Proof.
  intros Hs. unfold MigrateSkippedEpochs. unfold GetSkippedEpochs at 1. simpl. unfold wrapu64.
  destruct (Z.ltb_spec (GetSkippedEpochs s) 2).
  - symmetry. apply (Z.mod_unique_pos _ _ (-1)); lia.
  - rewrite Z.mod_small by lia. lia.
Qed.

Section params.
Context {D X : Type} `{UpgradeStores D X}.

(** Evidence expires with the unbonding period, and not before as many blocks of two
    seconds as fit into it. *)
Lemma consensus_params_updated (x : X) ep :
  GetEvidenceParams x = Some ep → ep ≠ mkEvidence 0 0 0 → 0 ≤ UnbondingTime x →
  ∃ ep', UpdateConsensusParams x = SetEvidenceParams ep' x ∧ MaxAgeDuration ep' = UnbondingTime x ∧
    MaxAgeNumBlocks ep' * AvgBlockTime ≤ UnbondingTime x < (MaxAgeNumBlocks ep' + 1) * AvgBlockTime.
Proof.
  intros Hep Hne Hu. unfold UpdateConsensusParams. rewrite Hep, decide_False by done. eexists. split; [reflexivity|].
  split; [done|]. simpl. rewrite Z.quot_div_nonneg by (unfold AvgBlockTime, ns_per_s; lia).
  pose proof (Z.div_mod (UnbondingTime x) AvgBlockTime). pose proof (Z.mod_pos_bound (UnbondingTime x) AvgBlockTime).
  unfold AvgBlockTime, ns_per_s in *. lia.
Qed.

(** Every valid reading of a stored trace that differs from it is stored. *)
Lemma traces_corrected (x : X) nt :
  nt ∈ omap corrected (DenomTraces x) ↔
  ∃ dt, dt ∈ DenomTraces x ∧ nt = ParseDenomTrace (GetFullDenomPath dt) ∧ trace_valid nt = true ∧ nt ≠ dt.
Proof.
  rewrite list_elem_of_omap. split; intros (dt & Hin & Hc); exists dt; (split; [done|]); unfold corrected, equalTraces in *.
  - destruct (trace_valid _) eqn:Ev; simpl in Hc; [|done].
    destruct (String.eqb_spec (BaseDenom (ParseDenomTrace (GetFullDenomPath dt))) (BaseDenom dt)) as [Eb|Eb]; simpl in Hc;
      [destruct (String.eqb_spec (trace_Path (ParseDenomTrace (GetFullDenomPath dt))) (trace_Path dt)) as [Ep|Ep];
         simpl in Hc; [done|]|]; injection Hc as <-; (split; [done|]); (split; [done|]); congruence.
  - destruct Hc as (-> & Hv & Hne). rewrite Hv. simpl.
    destruct (String.eqb_spec (BaseDenom (ParseDenomTrace (GetFullDenomPath dt))) (BaseDenom dt)) as [Eb|Eb]; simpl; [|done].
    destruct (String.eqb_spec (trace_Path (ParseDenomTrace (GetFullDenomPath dt))) (trace_Path dt)) as [Ep|Ep]; simpl; [|done].
    destruct Hne. destruct (ParseDenomTrace _), dt. simpl in *. by subst.
Qed.
End params.

(** The migrated parameters of the claims module are valid when the old ones were. *)
Lemma claims_migration_valid {C X} `{SdkCoins C} chan_ok (s : claims_state X) :
  Forall (λ c, chan_ok c = true) (DefaultAuthorizedChannels ++ DefaultEVMChannels) →
  claims_Params_Validate (C := C) chan_ok (c_params s) = Ok tt →
  claims_Params_Validate (C := C) chan_ok (c_params (claims_MigrateStore s)) = Ok tt ∧
  c_records (claims_MigrateStore s) = c_records s.
Proof.
  intros Hch Hv. split; [|done]. unfold DefaultAuthorizedChannels, DefaultEVMChannels in Hch. simpl in Hch.
  rewrite !Forall_cons in Hch. destruct Hch as (H0 & H3 & H2 & _).
  unfold claims_Params_Validate in *. simpl in *. inv_ok. bool_hyps.
  rewrite H0, H2, H3. repeat match goal with E : denom_valid _ = true |- _ => rewrite E; clear E end. simpl.
  rewrite !(proj2 (Z.leb_gt _ 0)) by done. done.
Qed.

(** A migration of an exported genesis file that cannot encode its result is not a
    no-op: it drops the state of the fee market. *)
Lemma genesis_migration_drops {Old New} (unmarshal : string → option Old) (MigrateJSON : Old → New) marshal appState bz old :
  appState !! feemarket_ModuleName = Some bz → unmarshal bz = Some old → marshal (MigrateJSON old) = None →
  MigrateGenesis unmarshal MigrateJSON marshal appState !! feemarket_ModuleName = None.
Proof. intros Ha Hu Hm. unfold MigrateGenesis. rewrite Ha, Hu, Hm. apply lookup_delete_eq. Qed.

(** ** Witnesses *)

Section samples.
Local Open Scope string_scope.
Local Open Scope Z_scope.

(** One user completed the IBC action, the other nothing: seven open quarters. *)
Definition stuck : claims_state world :=
  mkClaims airdrop {[ "alice" := mkCR 6 [false; false; false; true]; "bob" := rec 6 ]} (ledger 7).
Definition unstuck : claims_state world := (ResolveAirdrop stuck).2.

Lemma resolve_airdrop_keeps_escrow_witness :
  ResolveAirdrop stuck = (Ok tt, unstuck) ∧ escrowed unstuck = escrowed stuck ∧
  c_records unstuck !! "alice" = Some (mkCR 6 [false; false; true; false]).
Proof.
  destruct (resolve_airdrop_keeps_escrow (C := coins) stuck) as (s' & Hrun & _ & _ & _ & He & _).
  - constructor; [|vm_compute; reflexivity|vm_compute; split; reflexivity|vm_compute; reflexivity].
    intros k cr. simpl. rewrite lookup_insert_Some, lookup_singleton_Some.
    intros [[_ <-]|(_ & _ & <-)]; (split; [reflexivity|reflexivity]).
  - intros k. simpl. intros [cr Hk]. revert Hk. rewrite lookup_insert_Some, lookup_singleton_Some.
    intros [[<- _]|(_ & <- & _)]; vm_compute; reflexivity.
  - assert (E : ResolveAirdrop stuck = (Ok tt, unstuck)) by (vm_compute; reflexivity).
    split; [exact E|]. pose proof (run_det _ _ _ _ _ _ Hrun E) as ->. split; [exact He|vm_compute; reflexivity].
Defined.
End samples.
