(* ===== verification/Msgs.v ===== *)
(** * The messages and proposals of the modules: [x/*/types/msg.go], [codec.go], [proposal.go]

    The seven messages as the SDK sees them ([sdk.Msg]): their route, type, validation,
    signers and the bytes to sign, and the handler that runs them. *)

From S2P Require Import Prelude Sdk Dec Schedule Clawback Keepers Evm Erc20Types VestingMsgs Inflation Epochs Ibc Claims Erc20 Incentives Feesplit Recovery App Chain.

Definition vesting_ModuleName : string := "vesting".

(** ** Messages *)

Inductive EvmosMsg (C : Type) : Type :=
  | em_create (msg : MsgCreateClawbackVestingAccount C)
  | em_clawback (msg : MsgClawback)
  | em_convert_coin (msg : MsgConvertCoin)
  | em_convert_erc20 (msg : MsgConvertERC20)
  | em_register (msg : MsgRegisterFeeSplit)
  | em_cancel (msg : MsgCancelFeeSplit)
  | em_update (msg : MsgUpdateFeeSplit).
Arguments em_create {C} _.
Arguments em_clawback {C} _.
Arguments em_convert_coin {C} _.
Arguments em_convert_erc20 {C} _.
Arguments em_register {C} _.
Arguments em_cancel {C} _.
Arguments em_update {C} _.

(** [Route()]: the router key of the module. *)
Definition msg_Route {C} (msg : EvmosMsg C) : string :=
  match msg with
  | em_create _ | em_clawback _ => vesting_ModuleName
  | em_convert_coin _ | em_convert_erc20 _ => erc20_ModuleName
  | em_register _ | em_cancel _ | em_update _ => feesplit_ModuleName
  end.

Definition TypeMsgCreateClawbackVestingAccount : string := "create_clawback_vesting_account".
Definition TypeMsgClawback : string := "clawback".
Definition TypeMsgConvertCoin : string := "convert_coin".
Definition TypeMsgConvertERC20 : string := "convert_ERC20".
Definition TypeMsgRegisterFeeSplit : string := "register_fee_split".
Definition TypeMsgCancelFeeSplit : string := "cancel_fee_split".
Definition TypeMsgUpdateFeeSplit : string := "update_fee_split".

Definition msg_Type {C} (msg : EvmosMsg C) : string :=
  match msg with
  | em_create _ => TypeMsgCreateClawbackVestingAccount
  | em_clawback _ => TypeMsgClawback
  | em_convert_coin _ => TypeMsgConvertCoin
  | em_convert_erc20 _ => TypeMsgConvertERC20
  | em_register _ => TypeMsgRegisterFeeSplit
  | em_cancel _ => TypeMsgCancelFeeSplit
  | em_update _ => TypeMsgUpdateFeeSplit
  end.

(** The names under which [RegisterLegacyAminoCodec] registers the concrete types. *)
Definition amino_name {C} (msg : EvmosMsg C) : option string :=
  match msg with
  | em_create _ | em_clawback _ => None
  | em_convert_coin _ => Some "evmos/MsgConvertCoin"%string
  | em_convert_erc20 _ => Some "evmos/MsgConvertERC20"%string
  | em_register _ => Some "evmos/MsgRegisterFeeSplit"%string
  | em_cancel _ => Some "evmos/MsgCancelFeeSplit"%string
  | em_update _ => Some "evmos/MsgUpdateFeeSplit"%string
  end.

(** [codec.NewAminoCodec(amino)] with the registered types, [codec.NewProtoCodec(...)], and
    [sdk.MustSortJSON]. *)
Class MsgCodecs (C : Type) := {
  amino_MustMarshalJSON : string → EvmosMsg C → string;
  proto_MustMarshalJSON : EvmosMsg C → string;
  MustSortJSON : string → string;
}.

Section messages.
Context {C D X : Type} `{SdkCoins C, !SdkPeriods C, !SdkBaseVesting C, SdkDec D, !DecCoins D}.
Context `{SdkAddress, EthAddress, Erc20Abi}.
Context `{!AccountKeeper C X, !BankKeeper C X, !StakingKeeper X, !EvmKeeper X, !BankMeta X}.

(** The vesting module signs the JSON of the protobuf codec, the others that of amino, which
    panics on a type that is not registered. *)
Definition GetSignBytes `{!MsgCodecs C} (msg : EvmosMsg C) : outcome string :=
  match msg with
  | em_create _ | em_clawback _ => Ok (MustSortJSON (proto_MustMarshalJSON msg))
  | _ => match amino_name msg with
         | Some name => Ok (MustSortJSON (amino_MustMarshalJSON name msg))
         | None => Panic
         end
  end.

(** [GetSigners()] *)
Definition must_signer (addr : string) : outcome (list string) :=
  let? from := must_acc_from_bech32 addr in Ok [from].
Definition MsgCreate_GetSigners (msg : MsgCreateClawbackVestingAccount C) : outcome (list string) := must_signer (mc_FromAddress msg).
Definition MsgClawback_GetSigners (msg : MsgClawback) : outcome (list string) := must_signer (cb_FunderAddress msg).
Definition MsgConvertCoin_GetSigners (msg : MsgConvertCoin) : outcome (list string) := must_signer (mcc_Sender msg).
Definition MsgConvertERC20_GetSigners (msg : MsgConvertERC20) : outcome (list string) := Ok [hex_to_address (mce_Sender msg)].
Definition MsgRegisterFeeSplit_GetSigners (msg : MsgRegisterFeeSplit) : outcome (list string) := must_signer (mr_Deployer msg).
Definition MsgCancelFeeSplit_GetSigners (msg : MsgCancelFeeSplit) : outcome (list string) := must_signer (mx_Deployer msg).
Definition MsgUpdateFeeSplit_GetSigners (msg : MsgUpdateFeeSplit) : outcome (list string) := must_signer (mu_Deployer msg).

Definition GetSigners (msg : EvmosMsg C) : outcome (list string) :=
  match msg with
  | em_create msg => MsgCreate_GetSigners msg
  | em_clawback msg => MsgClawback_GetSigners msg
  | em_convert_coin msg => MsgConvertCoin_GetSigners msg
  | em_convert_erc20 msg => MsgConvertERC20_GetSigners msg
  | em_register msg => MsgRegisterFeeSplit_GetSigners msg
  | em_cancel msg => MsgCancelFeeSplit_GetSigners msg
  | em_update msg => MsgUpdateFeeSplit_GetSigners msg
  end.

(** [types/msg.go] of the erc20 module; those of the other modules are with their messages. *)
Definition NewMsgConvertCoin (denom : string) (amount : Z) (receiver sender : string) : MsgConvertCoin :=
  mkConvertCoin denom amount (address_hex receiver) (acc_string sender).
Definition NewMsgConvertERC20 (amount : Z) (receiver contract sender : string) : MsgConvertERC20 :=
  mkConvertERC20 (address_hex contract) amount (acc_string receiver) (address_hex sender).

Variable validate_ibc_denom : string → option error.  (* [ibctransfertypes.ValidateIBCDenom] *)

Definition msg_ValidateBasic (msg : EvmosMsg C) : outcome unit :=
  match msg with
  | em_create msg => MsgCreate_ValidateBasic msg
  | em_clawback msg => MsgClawback_ValidateBasic msg
  | em_convert_coin msg => MsgConvertCoin_ValidateBasic validate_ibc_denom msg
  | em_convert_erc20 msg => MsgConvertERC20_ValidateBasic msg
  | em_register msg => MsgRegisterFeeSplit_ValidateBasic msg
  | em_cancel msg => MsgCancelFeeSplit_ValidateBasic msg
  | em_update msg => MsgUpdateFeeSplit_ValidateBasic msg
  end.

(** The handler of the module that the message is routed to. *)
Definition run_msg (ctx : Ctx) (msg : EvmosMsg C) : M (app_stores D X) unit :=
  match msg with
  | em_create msg => on_ext (vesting_Handler ctx (VestCreate msg))
  | em_clawback msg => on_ext (vesting_Handler ctx (VestClawback msg))
  | em_convert_coin msg => on_erc20 (erc20_Handler (C := C) (ErcConvertCoin msg))
  | em_convert_erc20 msg => on_erc20 (erc20_Handler (C := C) (ErcConvertERC20 msg))
  | em_register msg => on_feesplit (feesplit_Handler (FsRegister msg))
  | em_cancel msg => on_feesplit (feesplit_Handler (FsCancel msg))
  | em_update msg => on_feesplit (feesplit_Handler (FsUpdate msg))
  end.
End messages.

(** ** Proposals: [types/proposal.go] *)

Section proposals.
Context {D : Type}.

Definition Proposal_Route (p : Proposal) : option string :=
  match p with OtherProposal => None | _ => Some erc20_ModuleName end.
Definition Proposal_Type (p : Proposal) : option string :=
  match p with
  | RegisterCoinProposal _ => Some "RegisterCoin"%string
  | RegisterERC20Proposal _ => Some "RegisterERC20"%string
  | ToggleTokenConversionProposal _ => Some "ToggleTokenConversion"%string
  | OtherProposal => None
  end.
Definition IncentiveProposal_Route (p : IncentiveProposal D) : option string :=
  match p with OtherIncentiveProposal => None | _ => Some incentives_ModuleName end.
Definition IncentiveProposal_Type (p : IncentiveProposal D) : option string :=
  match p with
  | RegisterIncentiveProposal _ _ _ => Some "RegisterIncentive"%string
  | CancelIncentiveProposal _ => Some "CancelIncentive"%string
  | OtherIncentiveProposal => None
  end.

(** [init()]: the types that the modules register with gov, which panics on a repeated one. *)
Definition registered_proposal_types : list string :=
  ["RegisterCoin"; "RegisterERC20"; "ToggleTokenConversion"; "RegisterIncentive"; "CancelIncentive"]%string.
End proposals.
