(* ===== verification/MsgsProps.v ===== *)
(** * Who pays for a message *)

From S2P Require Import Prelude Frame Sdk Dec SdkInstances Schedule Clawback Keepers KeeperInstances Evm Erc20Types VestingMsgs VestingProps Inflation Epochs Ibc Claims Erc20 Erc20Instances Erc20Props Incentives IncentivesProps Feesplit FeesplitProps Recovery App Chain Msgs.

Section signers.
Context {C D X : Type} `{SdkCoinsLaws C, !SdkPeriods C, !SdkBaseVesting C, SdkDec D, !DecCoins D}.
Context `{SdkAddressLaws, EthAddress, Erc20Abi}.
Context `{!AccountKeeper C X, !BankKeeper C X, !StakingKeeper X, !EvmKeeper X, !BankMeta X}.
Context `{!BankLaws C X, !EvmLaws C X} (validate_ibc_denom : string → option error).
Local Abbreviation app := (app_stores D X).
Implicit Types x : X.

(** Only the accounts in [payers] have less of a coin of [coins]. *)
Definition paid_by (payers : string → Prop) (coins : string → Prop) x x' : Prop :=
  ∀ a d, coins d → GetBalance (C := C) x' a d < GetBalance (C := C) x a d → payers a.

Lemma paid_by_weaken (P Q : string → Prop) (coins coins' : string → Prop) x x' :
  (∀ a, P a → Q a) → (∀ d, coins' d → coins d) → paid_by P coins x x' → paid_by Q coins' x x'.
Proof. intros HP Hc Hp a d Hd Hlt. eapply HP, Hp; eauto. Qed.

Lemma paid_by_same P coins x x' : (∀ a d, GetBalance (C := C) x' a d = GetBalance (C := C) x a d) → paid_by P coins x x'.
Proof. intros E a d _. rewrite E. lia. Qed.

(** A transfer of valid coins is paid by its sender. *)
Lemma send_paid coins f t c x x0 x' :
  (∀ a d, GetBalance (C := C) x0 a d = GetBalance (C := C) x a d) → SendCoins f t c x0 = (Ok tt, x') →
  paid_by (λ a, a = f) coins x x'.
Proof.
  intros E Hs a d _ Hlt. pose proof (send_ok _ _ _ _ _ Hs a d) as Hb. rewrite E in Hb.
  pose proof (valid_nonneg _ d (send_valid _ _ _ _ _ Hs)). unfold at_addr in Hb. repeat case_decide; try done; lia.
Qed.

(** The vesting module *)

Lemma create_paid coins ctx msg x x' :
  CreateClawbackVestingAccount ctx msg x = (Ok tt, x') →
  ∃ from, acc_from_bech32 (mc_FromAddress msg) = Some from ∧ paid_by (λ a, a = from) coins x x'.
Proof.
  intros Hrun. apply create_inv in Hrun as (from & to & lp & lc & vp & cs & x1 & Hf & _ & _ & _ & _ & Hx1 & Hs).
  exists from. split; [done|]. eapply send_paid; [|exact Hs].
  destruct Hx1 as [[_ ->]|(va & va' & _ & _ & _ & _ & ->)]; intros a d; by rewrite ?balance_set_account, ?balance_new_account.
Qed.

Lemma compute_clawback_address va t va' (c : C) :
  ComputeClawback va t = Ok (va', c) → ba_address (va_base va') = ba_address (va_base va).
Proof.
  unfold ComputeClawback. destruct (t <? GetStartTime va); [by intros [= <- _]|]. intros Hc.
  apply obind_ok in Hc as (u & _ & Hc). apply obind_ok in Hc as ([[? ?] ?] & _ & Hc). by injection Hc as <- _.
Qed.

Lemma clawback_paid coins ctx msg x x' :
  Clawback ctx msg x = (Ok tt, x') →
  ∃ addr va, GetAccount x addr = Some (ClawbackAcc va) ∧ FunderAddress va = cb_FunderAddress msg ∧
    paid_by (λ a, a = addr) coins x x'.
Proof.
  intros Hrun. apply Clawback_inv in Hrun as (addr & va & dest & _ & Hacc & Ha & Hf & _ & _ & _ & Ht).
  exists addr, va. do 2 (split; [done|]). unfold transferClawback in Ht.
  apply bind_ok in Ht as ([va' c] & x0 & Hc & Ht). apply lift_ok in Hc as [Hc ->].
  destruct (coins_is_zero c); [inv_ok; by apply paid_by_same|].
  apply bind_ok in Ht as ([] & x1 & Hm & Ht). injection Hm as <-.
  rewrite (compute_clawback_address _ _ _ _ Hc), Ha in Ht. eapply send_paid; [|exact Ht]. intros. apply balance_set_account.
Qed.

(** The erc20 module *)

Lemma move_paid (P : string → Prop) x x' delta minted :
  coins_move (C := C) x x' delta minted → (∀ a d, delta a d < 0 → P a) → paid_by P (λ d, d ≠ evm_denom) x x'.
Proof. intros Hmv HP a d Hd Hlt. apply (HP a d). destruct (Hmv d Hd) as [Hb _]. rewrite Hb in Hlt. lia. Qed.

Definition erc20_payer (signer : string) (a : string) : Prop := a = signer ∨ a = ModuleAddress (C := C) (X := X).

Lemma convert_coin_paid msg (s : erc20_state X) r s' :
  ConvertCoin (C := C) msg s = (Ok r, s') → 0 < mcc_Amount msg →
  ∃ sender, acc_from_bech32 (mcc_Sender msg) = Some sender ∧
    paid_by (erc20_payer sender) (λ d, d ≠ evm_denom) (e_ext s) (e_ext s').
Proof.
  intros Hrun Hpos. apply convert_coin_inv in Hrun as (sender & tp & Hs & _ & Hr). exists sender. split; [done|].
  destruct r; [|destruct Hr as [_ ->]; by apply paid_by_same]. destruct Hr as (_ & _ & Hr). unfold erc20_payer.
  destruct (ContractOwner tp); [done|apply coin_native_coin_ok in Hr as [_ Hmv]|apply coin_native_erc20_ok in Hr as [_ Hmv]];
    eapply move_paid; [exact Hmv| |exact Hmv|]; cbn beta; intros a d; unfold at_addr, of_denom; repeat case_decide; auto; lia.
Qed.

Lemma convert_erc20_paid msg (s : erc20_state X) r s' sender :
  ConvertERC20 (C := C) msg s = (Ok r, s') → 0 < mce_Amount msg →
  paid_by (erc20_payer sender) (λ d, d ≠ evm_denom) (e_ext s) (e_ext s').
Proof.
  intros Hrun Hpos. apply convert_erc20_inv in Hrun as (receiver & tp & _ & _ & Hr).
  destruct r; [|destruct Hr as [_ ->]; by apply paid_by_same]. destruct Hr as (_ & _ & Hr). unfold erc20_payer.
  destruct (ContractOwner tp); [done|apply erc20_native_coin_ok in Hr as (_ & _ & Hmv)|apply erc20_native_token_ok in Hr as (_ & _ & Hmv)];
    eapply move_paid; [exact Hmv| |exact Hmv|]; cbn beta; intros a d; unfold at_addr, of_denom; repeat case_decide; auto; lia.
Qed.

(** The feesplit module moves nothing. *)
Lemma feesplit_still msg (s : feesplit_state D X) : framed (same_on f_ext) s (feesplit_Handler msg).
Proof. destruct msg; simpl; unfold RegisterFeeSplit, UpdateFeeSplit, CancelFeeSplit; frame. Qed.

(** Who may pay for a message of [signers] in the state [x]: a signer, the escrow of the
    erc20 module, or a clawback account that a signer funded. *)
Definition payer x (msg : EvmosMsg C) (signers : list string) (a : string) : Prop :=
  a ∈ signers ∨
  (msg_Route msg = erc20_ModuleName ∧ a = ModuleAddress (C := C) (X := X)) ∨
  ∃ va funder, msg_Type msg = TypeMsgClawback ∧ GetAccount x a = Some (ClawbackAcc va) ∧
    acc_from_bech32 (FunderAddress va) = Some funder ∧ funder ∈ signers.

Lemma must_signer_ok addr signers : must_signer addr = Ok signers → ∃ a, acc_from_bech32 addr = Some a ∧ signers = [a].
Proof.
  unfold must_signer, must_acc_from_bech32. destruct (acc_from_bech32 addr) as [a|]; simpl; [|done].
  intros [= <-]. by exists a.
Qed.

Lemma check_signer addr o : (let? _ := check_bech32 addr in o) = Ok tt → ∃ a, must_signer addr = Ok [a].
Proof. unfold check_bech32, must_signer, must_acc_from_bech32. destruct (acc_from_bech32 addr) as [a|]; [by exists a|done]. Qed.

(** A message that passes its validation has one signer. *)
Lemma one_signer (msg : EvmosMsg C) : msg_ValidateBasic validate_ibc_denom msg = Ok tt → ∃ signer, GetSigners msg = Ok [signer].
Proof.
  destruct msg as [msg|msg|msg|msg|msg|msg|msg]; simpl; try (by apply check_signer).
  - intros Hv. do 2 apply obind_ok in Hv as ([] & _ & Hv). by eapply check_signer.
  - eauto.
Qed.

Lemma signers_pay ctx msg signers (a a' : app) addr d :
  msg_ValidateBasic validate_ibc_denom msg = Ok tt → GetSigners msg = Ok signers →
  run_msg (C := C) ctx msg a = (Ok tt, a') →
  (msg_Route msg = erc20_ModuleName → d ≠ evm_denom) →
  GetBalance (C := C) (a_ext a') addr d < GetBalance (C := C) (a_ext a) addr d →
  payer (a_ext a) msg signers addr.
Proof.
  intros Hv Hs Hrun Hd. revert addr d Hd.
  enough (Hp : paid_by (payer (a_ext a) msg signers) (λ d, msg_Route msg = erc20_ModuleName → d ≠ evm_denom) (a_ext a) (a_ext a'))
    by (intros addr d Hd Hlt; by eapply Hp).
  destruct msg as [msg|msg|msg|msg|msg|msg|msg]; simpl in Hv, Hs, Hrun;
    apply zoom_run in Hrun as (s' & Hrun & ->); simpl in Hrun.
  - apply must_signer_ok in Hs as (f & Hf & ->). destruct (create_paid (λ _, True) _ _ _ _ Hrun) as (from & Hf' & Hp).
    rewrite Hf in Hf'. injection Hf' as <-. eapply paid_by_weaken; [| |exact Hp]; [|done]. intros ? ->. left. by apply list_elem_of_singleton.
  - apply must_signer_ok in Hs as (f & Hf & ->).
    destruct (clawback_paid (λ _, True) _ _ _ _ Hrun) as (addr & va & Hacc & Hfu & Hp).
    eapply paid_by_weaken; [| |exact Hp]; [|done]. intros ? ->. right; right. exists va, f. rewrite Hfu.
    do 3 (split; [done|]). by apply list_elem_of_singleton.
  - apply bind_ok in Hrun as (r & s1 & Hrun & Hr). inv_ok. apply must_signer_ok in Hs as (f & Hf & ->).
    destruct (convert_coin_paid _ _ _ _ Hrun) as (sender & Hs & Hp).
    { unfold MsgConvertCoin_ValidateBasic in Hv. apply obind_ok in Hv as ([] & _ & Hv).
      apply obind_ok in Hv as ([] & Hpos & _). apply ocheck_ok in Hpos. bool_hyps. lia. }
    rewrite Hf in Hs. injection Hs as <-. eapply paid_by_weaken; [| |exact Hp]; [|by intros ? Hne; apply Hne].
    intros ? [-> | ->]; [left; by apply list_elem_of_singleton|by right; left].
  - apply bind_ok in Hrun as (r & s1 & Hrun & Hr). inv_ok. injection Hs as <-.
    eapply paid_by_weaken; [| |eapply (convert_erc20_paid _ _ _ _ (hex_to_address (mce_Sender msg)) Hrun)]; [|by intros ? Hne; apply Hne|].
    + intros ? [-> | ->]; [left; by apply list_elem_of_singleton|by right; left].
    + unfold MsgConvertERC20_ValidateBasic in Hv. apply obind_ok in Hv as ([] & _ & Hv).
      apply obind_ok in Hv as ([] & Hpos & _). apply ocheck_ok in Hpos. bool_hyps. lia.
  - apply (feesplit_still (FsRegister msg)) in Hrun. simpl. rewrite Hrun. by apply paid_by_same.
  - apply (feesplit_still (FsCancel msg)) in Hrun. simpl. rewrite Hrun. by apply paid_by_same.
  - apply (feesplit_still (FsUpdate msg)) in Hrun. simpl. rewrite Hrun. by apply paid_by_same.
Qed.

(** C15: a message takes coins only from those who signed it.  A message of the modules that
    passes its validation has exactly one signer, and the coins of an account that has less
    after the message than before are those of the signer, the escrow of the erc20 module that
    a conversion releases, or a clawback account whose funder signed.  For conversions this is
    said of every coin but the one of the EVM, which the contract that is called may move. *)
Theorem only_signers_pay ctx msg (a a' : app) :
  msg_ValidateBasic validate_ibc_denom msg = Ok tt → run_msg (C := C) ctx msg a = (Ok tt, a') →
  ∃ signer, GetSigners msg = Ok [signer] ∧
    ∀ addr d, (msg_Route msg = erc20_ModuleName → d ≠ evm_denom) →
      GetBalance (C := C) (a_ext a') addr d < GetBalance (C := C) (a_ext a) addr d → payer (a_ext a) msg [signer] addr.
Proof.
  intros Hv Hrun. destruct (one_signer msg Hv) as [signer Hs]. exists signer. split; [done|].
  intros addr d. by eapply signers_pay.
Qed.
End signers.

(** ** Sample *)

Section samples.
Local Open Scope string_scope.

(** The funder claws back the coins of alice, who pays them. *)
Definition vesting_app : app_stores Z world :=
  mkApp (mkInfl infl_DefaultParams None None None None None tt) (mkInc (incentives_DefaultParams (D := Z)) ∅ ∅ ∅ tt)
    (mkFee (feesplit_DefaultParams (D := Z)) ∅ ∅ ∅ tt) (mkErc20 (mkErc20Params true true) ∅ ∅ ∅ tt)
    (mkClaims claims_DefaultParams ∅ tt) recovery_DefaultParams sample_world.
Definition clawed_app : app_stores Z world := (run_msg (C := coins) sample_ctx (em_clawback sample_clawback_msg) vesting_app).2.

Lemma only_signers_pay_witness :
  GetBalance (C := coins) (a_ext clawed_app) "alice" "aevmos" < GetBalance (C := coins) (a_ext vesting_app) "alice" "aevmos" ∧
  payer (C := coins) (a_ext vesting_app) (em_clawback sample_clawback_msg) ["funder"] "alice".
Proof.
  split; [vm_compute; reflexivity|].
  destruct (only_signers_pay (C := coins) (D := Z) (λ _, None) sample_ctx (em_clawback sample_clawback_msg) vesting_app clawed_app)
    as (signer & Hs & Hpay); [vm_compute; reflexivity..|].
  injection Hs as <-. apply (Hpay "alice" "aevmos"); [intros E; vm_compute in E; discriminate|vm_compute; reflexivity].
Defined.
End samples.

(** Every message can be signed: the types that are signed with amino are registered. *)
Lemma sign_bytes_total {C} `{MsgCodecs C} (msg : EvmosMsg C) : ∃ bz, GetSignBytes msg = Ok bz.
Proof. destruct msg; by eexists. Qed.

(** The types of the proposals are registered once each, so that [init] does not panic. *)
Lemma proposal_types_distinct : NoDup registered_proposal_types.
Proof. apply (bool_decide_unpack _). by vm_compute. Qed.
Lemma proposal_types_registered {D} (p : Proposal) (q : IncentiveProposal D) t :
  Proposal_Type p = Some t ∨ IncentiveProposal_Type q = Some t → t ∈ registered_proposal_types.
Proof. intros [E|E]; [destruct p|destruct q]; simplify_eq/=; apply (bool_decide_unpack _); by vm_compute. Qed.
