(* ===== verification/Wiring.v ===== *)
(** * The construction of the keepers: [x/*/keeper/keeper.go], [NewEvmos], [RegisterServices]

    The keepers refer to each other.  Some are shared through a pointer and completed after
    they have been handed out ([SetHooks], [SetICS4Wrapper]), others are copied by value.
    The objects behind pointers live in a heap; what is copied is a value. *)

From S2P Require Import Prelude Sdk Dec Keepers EvmosUtils Erc20Types Epochs Inflation Ibc Claims Erc20 Evm Incentives Feesplit Recovery App Params Ante Upgrades.

(** ** Foreign parts *)

Definition ascii_alnum (a : Ascii.ascii) : bool :=
  let n := Ascii.nat_of_ascii a in
  (((48 <=? n) && (n <=? 57)) || ((65 <=? n) && (n <=? 90)) || ((97 <=? n) && (n <=? 122)))%nat.
(** [sdk.IsAlphaNumeric] *)
Definition IsAlphaNumeric (s : string) : bool := negb (String.eqb s "") && forallb ascii_alnum (String.list_ascii_of_string s).

(** [paramskeeper.Keeper]: the subspaces share their tables with the keeper.  [pk_tables] is
    the table of each subspace, empty until it is set. *)
Class ParamsKeeper (PK : Type) := {
  pk_NewKeeper : PK;
  pk_Subspace : AppModule → PK → outcome PK;
  (** [NewKeyTable().RegisterParamSet]: the keys of the table *)
  RegisterParamSet : list string → outcome (list string);
  HasKeyTable : PK → AppModule → bool;
  WithKeyTable : AppModule → list string → PK → outcome PK;
  pk_tables : PK → AppModule → option (list string);
}.

(** The accounts [authkeeper.NewAccountKeeper] is given, and the foreign setters of hooks. *)
Class SdkWiring (AK : Type) := {
  NewAccountKeeper : list ModuleAccount → AK;
  GetModuleAddress : AK → ModuleAccount → option string;
  (** of the staking, governance and EVM keepers *)
  SdkSetHooks {H} : option H → H → outcome (option H);
}.

(** The constructor of the keeper of another module: it may set its own table, and panics when
    a module account it needs is not one of the account keeper's. *)
Class ForeignKeepers (PK AK : Type) := {
  NewForeignKeeper : AppModule → AK → PK → outcome PK;
}.
(** The accounts these constructors ask [GetModuleAddress] for: the pools of staking, and those
    named like their module. *)
Definition constructor_accounts (m : AppModule) : list ModuleAccount :=
  match m with
  | m_staking => [acc_bonded_pool; acc_not_bonded_pool]
  | m_distr => [acc_distr]
  | m_gov => [acc_gov]
  | m_evm => [acc_evm]
  | m_ibctransfer => [acc_ibctransfer]
  | _ => []
  end.

(** [module.Manager]: [SetOrderBeginBlockers] and the like panic when the order leaves out a
    module of the manager.  [LoadLatestVersion] of the base application, with the stores that
    are mounted and the ones an upgrade adds. *)
Class BaseApplication := {
  SetOrder : list AppModule → list AppModule → outcome unit;
  LoadLatestVersion : list AppModule → list string → outcome unit;
}.

(** ** The keepers *)

(** [transfertypes.ICS4Wrapper]: the channel keeper, or a pointer to a keeper of the chain *)
Inductive ICS4Wrapper : Type := ics4_channel | ics4_claims (p : nat) | ics4_recovery (p : nat).

(** The keepers of the SDK and Ethermint that a keeper is given; they are not changed later.
    The EVM keeper is a pointer. *)
Inductive SdkKeeper : Type := k_bank | k_distr | k_evm.

(** [&stakingKeeper] *)
Inductive StakingPtr : Type := addr_stakingKeeper.

Section keepers.
Context {AK : Type}.

Record inflation_Keeper (SK : Type) := mkInflK {
  ik_storeKey : option AppModule; ik_paramstore : AppModule; ik_accountKeeper : AK; ik_bankKeeper : SdkKeeper;
  ik_distrKeeper : SdkKeeper; ik_stakingKeeper : SK; ik_feeCollectorName : string;
}.
Record claims_Keeper (SK : Type) := mkClaimsK {
  ck_storeKey : option AppModule; ck_paramstore : AppModule; ck_accountKeeper : AK; ck_bankKeeper : SdkKeeper;
  ck_stakingKeeper : SK; ck_distrKeeper : SdkKeeper; ck_ics4Wrapper : option ICS4Wrapper;
}.
Record vesting_Keeper (SK : Type) := mkVestK {
  vk_storeKey : option AppModule; vk_accountKeeper : AK; vk_bankKeeper : SdkKeeper; vk_stakingKeeper : SK;
}.
Record erc20_Keeper := mkErc20K {
  ek_storeKey : option AppModule; ek_paramstore : AppModule; ek_accountKeeper : AK; ek_bankKeeper : SdkKeeper;
  ek_evmKeeper : SdkKeeper;
}.
Record incentives_Keeper (IK SK : Type) := mkIncK {
  nk_storeKey : option AppModule; nk_paramstore : AppModule; nk_accountKeeper : AK; nk_bankKeeper : SdkKeeper;
  nk_inflationKeeper : IK; nk_stakeKeeper : SK; nk_evmKeeper : SdkKeeper;
}.
Record feesplit_Keeper := mkFeeK {
  fk_storeKey : option AppModule; fk_paramstore : AppModule; fk_bankKeeper : SdkKeeper; fk_evmKeeper : SdkKeeper;
  fk_feeCollectorName : string;
}.
Record epochs_Keeper (EH : Type) := mkEpochsK { pk_storeKey : option AppModule; pk_hooks : option EH }.
(** [ibctransferkeeper.Keeper], by the wrapper it was given *)
Record transfer_Keeper := mkTransferK { tk_ics4Wrapper : ICS4Wrapper }.
Record recovery_Keeper := mkRecK {
  rk_paramstore : AppModule; rk_accountKeeper : AK; rk_bankKeeper : SdkKeeper; rk_ics4Wrapper : option ICS4Wrapper;
  rk_channelKeeper : ICS4Wrapper; rk_transferKeeper : transfer_Keeper; rk_claimsKeeper : nat;
}.
End keepers.
Arguments inflation_Keeper : clear implicits.
Arguments claims_Keeper : clear implicits.
Arguments vesting_Keeper : clear implicits.
Arguments erc20_Keeper : clear implicits.
Arguments incentives_Keeper : clear implicits.
Arguments recovery_Keeper : clear implicits.
Arguments mkInflK {AK SK} _ _ _ _ _ _ _.
Arguments mkClaimsK {AK SK} _ _ _ _ _ _ _.
Arguments ck_storeKey {AK SK} _.
Arguments ck_paramstore {AK SK} _.
Arguments ck_accountKeeper {AK SK} _.
Arguments ck_bankKeeper {AK SK} _.
Arguments ck_stakingKeeper {AK SK} _.
Arguments ck_distrKeeper {AK SK} _.
Arguments ck_ics4Wrapper {AK SK} _.
Arguments mkVestK {AK SK} _ _ _ _.
Arguments mkErc20K {AK} _ _ _ _ _.
Arguments mkIncK {AK IK SK} _ _ _ _ _ _ _.
Arguments mkEpochsK {EH} _ _.
Arguments mkRecK {AK} _ _ _ _ _ _ _.

(** ** Hooks: a receiver holds a copy of its keeper *)

Section hooks.
Variable AK : Type.

Inductive StakingHook : Type := sh_distr | sh_slashing | sh_claims (k : claims_Keeper AK StakingPtr).
(** [stakingkeeper.Keeper], by its hooks *)
Record StakingK := mkStakingK { sk_hooks : option (list StakingHook) }.

Definition InflK : Type := inflation_Keeper AK StakingPtr.
Definition IncK : Type := incentives_Keeper AK InflK StakingK.
Inductive EpochHook : Type := eh_incentives (k : IncK) | eh_inflation (k : InflK).
Inductive GovHook : Type := gh_claims (k : claims_Keeper AK StakingPtr).
Inductive EvmHook : Type :=
  | vh_erc20 (k : erc20_Keeper AK) | vh_incentives (k : IncK) | vh_feesplit (k : feesplit_Keeper) | vh_claims (k : claims_Keeper AK StakingPtr).
End hooks.
Arguments sh_distr {AK}.
Arguments sh_slashing {AK}.
Arguments sh_claims {AK} _.
Arguments mkStakingK {AK} _.
Arguments sk_hooks {AK} _.
Arguments eh_incentives {AK} _.
Arguments eh_inflation {AK} _.
Arguments gh_claims {AK} _.
Arguments vh_erc20 {AK} _.
Arguments vh_incentives {AK} _.
Arguments vh_feesplit {AK} _.
Arguments vh_claims {AK} _.

(** The objects behind the pointers: the tables of the parameters, the variable
    [stakingKeeper], the hooks of the EVM keeper, and the keepers that [NewKeeper] returns by
    reference, in the order of their allocation. *)
Record heap (PK AK : Type) := mkHeap {
  h_params : PK;
  h_staking : StakingK AK;
  h_evm_hooks : option (list (EvmHook AK));
  h_claims : list (claims_Keeper AK StakingPtr);
  h_recovery : list (recovery_Keeper AK);
  h_epochs : list (epochs_Keeper (list (EpochHook AK)));
}.
Arguments mkHeap {PK AK} _ _ _ _ _ _.
Arguments h_params {PK AK} _.
Arguments h_staking {PK AK} _.
Arguments h_evm_hooks {PK AK} _.
Arguments h_claims {PK AK} _.
Arguments h_recovery {PK AK} _.
Arguments h_epochs {PK AK} _.

(** ** [x/*/keeper/keeper.go] *)

Section operations.
Context {D C PK AK : Type} `{SdkDec D, SdkCoins C, ParamsKeeper PK, SdkWiring AK}.
Local Abbreviation WM := (M (heap PK AK)).
Local Abbreviation claims_K := (claims_Keeper AK StakingPtr).

Definition set_params (pk : PK) (h : heap PK AK) : heap PK AK :=
  mkHeap pk (h_staking h) (h_evm_hooks h) (h_claims h) (h_recovery h) (h_epochs h).
Definition set_staking (k : StakingK AK) (h : heap PK AK) : heap PK AK :=
  mkHeap (h_params h) k (h_evm_hooks h) (h_claims h) (h_recovery h) (h_epochs h).
Definition set_evm_hooks (hs : option (list (EvmHook AK))) (h : heap PK AK) : heap PK AK :=
  mkHeap (h_params h) (h_staking h) hs (h_claims h) (h_recovery h) (h_epochs h).
Definition set_claims (l : list claims_K) (h : heap PK AK) : heap PK AK :=
  mkHeap (h_params h) (h_staking h) (h_evm_hooks h) l (h_recovery h) (h_epochs h).
Definition set_recoveries (l : list (recovery_Keeper AK)) (h : heap PK AK) : heap PK AK :=
  mkHeap (h_params h) (h_staking h) (h_evm_hooks h) (h_claims h) l (h_epochs h).
Definition set_epochs (l : list (epochs_Keeper (list (EpochHook AK)))) (h : heap PK AK) : heap PK AK :=
  mkHeap (h_params h) (h_staking h) (h_evm_hooks h) (h_claims h) (h_recovery h) l.

Definition on_params (f : PK → outcome PK) : WM unit := λ h,
  match f (h_params h) with Ok pk => (Ok tt, set_params pk h) | Err e => (Err e, h) | Panic => (Panic, h) end.

(** [types.ParamKeyTable()] *)
Definition ParamKeyTable {P} (pairs : list (ParamSetPair D P)) : outcome (list string) := RegisterParamSet (ps_Key <$> pairs).

(** [if !ps.HasKeyTable() { ps = ps.WithKeyTable(types.ParamKeyTable()) }] *)
Definition set_key_table {P} (ps : AppModule) (pairs : list (ParamSetPair D P)) : WM unit :=
  let! has := gets (λ h, HasKeyTable (h_params h) ps) in
  if has then ret tt
  else let! table := lift (ParamKeyTable pairs) in on_params (WithKeyTable ps table).

Definition inflation_NewKeeper {SK} (storeKey : option AppModule) (ps : AppModule) (ak : AK) (bk dk : SdkKeeper) (sk : SK)
    (feeCollectorName : string) : WM (inflation_Keeper AK SK) :=
  match GetModuleAddress ak acc_inflation with
  | None => panic
  | Some _ =>
      set_key_table ps (infl_ParamSetPairs (D := D) (C := C)) ;;;
      ret (mkInflK storeKey ps ak bk dk sk feeCollectorName)
  end.

Definition claims_NewKeeper (channel_id_valid : string → bool) (storeKey : option AppModule) (ps : AppModule) (ak : AK) (bk : SdkKeeper)
    (sk : StakingPtr) (dk : SdkKeeper) : WM nat :=
  set_key_table ps (claims_ParamSetPairs (D := D) (C := C) channel_id_valid) ;;;
  let! l := gets h_claims in
  modify (set_claims (l ++ [mkClaimsK storeKey ps ak bk sk dk None])) ;;;
  ret (length l).

Definition vesting_NewKeeper {SK} (storeKey : option AppModule) (ak : AK) (bk : SdkKeeper) (sk : SK) : vesting_Keeper AK SK :=
  mkVestK storeKey ak bk sk.

Definition erc20_NewKeeper (storeKey : option AppModule) (ps : AppModule) (ak : AK) (bk evmKeeper : SdkKeeper) : WM (erc20_Keeper AK) :=
  set_key_table ps (erc20_ParamSetPairs (D := D)) ;;; ret (mkErc20K storeKey ps ak bk evmKeeper).

Definition incentives_NewKeeper {IK SK} (storeKey : option AppModule) (ps : AppModule) (ak : AK) (bk : SdkKeeper) (ik : IK) (sk : SK)
    (evmKeeper : SdkKeeper) : WM (incentives_Keeper AK IK SK) :=
  set_key_table ps (incentives_ParamSetPairs (D := D)) ;;; ret (mkIncK storeKey ps ak bk ik sk evmKeeper).

Definition feesplit_NewKeeper (storeKey : option AppModule) (ps : AppModule) (bk evmKeeper : SdkKeeper) (feeCollector : string) : WM feesplit_Keeper :=
  set_key_table ps (feesplit_ParamSetPairs (D := D)) ;;; ret (mkFeeK storeKey ps bk evmKeeper feeCollector).

Definition epochs_NewKeeper (storeKey : option AppModule) : WM nat :=
  let! l := gets h_epochs in
  modify (set_epochs (l ++ [mkEpochsK storeKey None])) ;;;
  ret (length l).

Definition recovery_NewKeeper (ps : AppModule) (ak : AK) (bk : SdkKeeper) (ck : ICS4Wrapper) (tk : transfer_Keeper) (claimsKeeper : nat) : WM nat :=
  set_key_table ps (recovery_ParamSetPairs (D := D)) ;;;
  let! l := gets h_recovery in
  modify (set_recoveries (l ++ [mkRecK ps ak bk None ck tk claimsKeeper])) ;;;
  ret (length l).

(** Reading through a pointer: a nil pointer panics. *)
Definition deref {A} (o : option A) : WM A := match o with Some a => ret a | None => panic end.

(** [func (k *Keeper) SetHooks(eh types.EpochHooks) *Keeper] *)
Definition epochs_SetHooks (p : nat) (eh : list (EpochHook AK)) : WM nat :=
  let! l := gets h_epochs in
  let! k := deref (l !! p) in
  match pk_hooks _ k with
  | Some _ => panic
  | None => modify (set_epochs (<[p := mkEpochsK (pk_storeKey _ k) (Some eh)]> l)) ;;; ret p
  end.

(** [func (k *Keeper) SetICS4Wrapper(ics4Wrapper porttypes.ICS4Wrapper)] of claims and recovery *)
Definition claims_SetICS4Wrapper (p : nat) (ics4Wrapper : ICS4Wrapper) : WM unit :=
  let! l := gets h_claims in
  let! k := deref (l !! p) in
  match ck_ics4Wrapper k with
  | Some _ => panic
  | None => modify (set_claims (<[p := mkClaimsK (ck_storeKey k) (ck_paramstore k) (ck_accountKeeper k) (ck_bankKeeper k)
                                         (ck_stakingKeeper k) (ck_distrKeeper k) (Some ics4Wrapper)]> l))
  end.
Definition recovery_SetICS4Wrapper (p : nat) (ics4Wrapper : ICS4Wrapper) : WM unit :=
  let! l := gets h_recovery in
  let! k := deref (l !! p) in
  match rk_ics4Wrapper k with
  | Some _ => panic
  | None => modify (set_recoveries (<[p := mkRecK (rk_paramstore k) (rk_accountKeeper k) (rk_bankKeeper k) (Some ics4Wrapper)
                                            (rk_channelKeeper k) (rk_transferKeeper k) (rk_claimsKeeper k)]> l))
  end.

(** *** [SendPacket] and [WriteAcknowledgement] of the keepers: down the stack of wrappers.
    [next] is what the wrapper does with the call. *)
Definition claims_call {T A} (next : ICS4Wrapper → M T A) (k : claims_K) : M T A :=
  match ck_ics4Wrapper k with Some w => next w | None => panic end.
Definition recovery_call {T A} (next : ICS4Wrapper → M T A) (k : recovery_Keeper AK) : M T A :=
  match rk_ics4Wrapper k with Some w => next w | None => panic end.

(** A call on a wrapper of the heap [h]: at most [n] keepers pass it on; [channel] is the
    channel keeper. *)
Fixpoint ics4_call {T A} (channel : M T A) (h : heap PK AK) (n : nat) (w : ICS4Wrapper) : M T A :=
  match w, n with
  | ics4_channel, _ => channel
  | ics4_claims p, S n => match h_claims h !! p with Some k => claims_call (ics4_call channel h n) k | None => panic end
  | ics4_recovery p, S n => match h_recovery h !! p with Some k => recovery_call (ics4_call channel h n) k | None => panic end
  | _, O => panic
  end.
End operations.

(** ** [NewEvmos] *)

(** [keys := sdk.NewKVStoreKeys(...)]; the store key of a module is its name. *)
Definition keys : list AppModule :=
  [m_auth; m_bank; m_staking; m_distr; m_slashing; m_gov; m_params; m_upgrade; m_evidence; m_capability; m_feegrant; m_authz;
   m_ibchost; m_ibctransfer; m_evm; m_feemarket; m_inflation; m_erc20; m_incentives; m_epochs; m_claims; m_vesting; m_feesplit].
Definition GetKey (storeKey : AppModule) : option AppModule := if decide (storeKey ∈ keys) then Some storeKey else None.

(** The subspaces of [initParamsKeeper] *)
Definition subspaces : list AppModule :=
  [m_auth; m_bank; m_staking; m_distr; m_slashing; m_gov; m_crisis; m_ibctransfer; m_ibchost; m_evm; m_feemarket;
   m_inflation; m_erc20; m_claims; m_incentives; m_recovery; m_feesplit].

(** The fields of [Evmos]; [ClaimsKeeper] and [RecoveryKeeper] are pointers, and so is
    [EvmKeeper].  The middlewares of the transfer stack hold copies. *)
Record Evmos (AK : Type) := mkEvmos {
  app_InflationKeeper : InflK AK;
  app_ClaimsKeeper : nat;
  app_StakingKeeper : StakingK AK;
  app_VestingKeeper : vesting_Keeper AK (StakingK AK);
  app_Erc20Keeper : erc20_Keeper AK;
  app_IncentivesKeeper : IncK AK;
  app_FeesplitKeeper : feesplit_Keeper;
  app_EpochsKeeper : epochs_Keeper (list (EpochHook AK));
  app_GovHooks : option (list (GovHook AK));
  app_TransferKeeper : transfer_Keeper;
  app_RecoveryKeeper : nat;
  stack_claims : claims_Keeper AK StakingPtr;
  stack_recovery : recovery_Keeper AK;
}.
Arguments mkEvmos {AK} _ _ _ _ _ _ _ _ _ _ _ _ _.
Arguments app_InflationKeeper {AK} _.
Arguments app_ClaimsKeeper {AK} _.
Arguments app_StakingKeeper {AK} _.
Arguments app_VestingKeeper {AK} _.
Arguments app_Erc20Keeper {AK} _.
Arguments app_IncentivesKeeper {AK} _.
Arguments app_FeesplitKeeper {AK} _.
Arguments app_EpochsKeeper {AK} _.
Arguments app_GovHooks {AK} _.
Arguments app_TransferKeeper {AK} _.
Arguments app_RecoveryKeeper {AK} _.
Arguments stack_claims {AK} _.
Arguments stack_recovery {AK} _.

Section application.
Context {D C PK AK : Type} `{SdkDec D, SdkCoins C, ParamsKeeper PK, SdkWiring AK, !ForeignKeepers PK AK}.
Local Abbreviation WM := (M (heap PK AK)).
Variables (feeCollectorName : string) (channel_id_valid : string → bool) (gov_table : list string).

Definition initParamsKeeper : WM unit :=
  foreach subspaces (λ m,
    on_params (pk_Subspace m) ;;;
    if decide (m = m_gov) then on_params (WithKeyTable m_gov gov_table) else ret tt).

Definition staking_SetHooks (sh : list (StakingHook AK)) : WM (StakingK AK) :=
  let! k := gets h_staking in
  let! hooks := lift (SdkSetHooks (sk_hooks k) sh) in
  modify (set_staking (mkStakingK hooks)) ;;; gets h_staking.
Definition evm_SetHooks (hs : list (EvmHook AK)) : WM unit :=
  let! old := gets h_evm_hooks in
  let! hooks := lift (SdkSetHooks old hs) in
  modify (set_evm_hooks hooks).

(** [app.ClaimsKeeper.Hooks()] copies the keeper behind the pointer. *)
Definition load_claims (p : nat) : WM (claims_Keeper AK StakingPtr) := λ h, deref (h_claims h !! p) h.
Definition load_recovery (p : nat) : WM (recovery_Keeper AK) := λ h, deref (h_recovery h !! p) h.
Definition load_epochs (p : nat) : WM (epochs_Keeper (list (EpochHook AK))) := λ h, deref (h_epochs h !! p) h.

(** The keepers, in the order in which they are created *)
Definition new_keepers : WM (Evmos AK) :=
  initParamsKeeper ;;;
  let ak := NewAccountKeeper (maccPerms.*1) in
  foreach [m_auth; m_bank; m_staking; m_distr; m_slashing; m_crisis; m_feemarket; m_evm; m_ibchost; m_gov]
    (λ m, on_params (NewForeignKeeper m ak)) ;;;
  let! inflationKeeper := inflation_NewKeeper (D := D) (C := C) (GetKey m_inflation) m_inflation ak k_bank k_distr addr_stakingKeeper feeCollectorName in
  let! claimsKeeper := claims_NewKeeper (D := D) (C := C) channel_id_valid (GetKey m_claims) m_claims ak k_bank addr_stakingKeeper k_distr in
  let! claims_Hooks := load_claims claimsKeeper in
  let! stakingKeeper := staking_SetHooks [sh_distr; sh_slashing; sh_claims claims_Hooks] in
  let vestingKeeper := vesting_NewKeeper (GetKey m_vesting) ak k_bank stakingKeeper in
  let! erc20Keeper := erc20_NewKeeper (D := D) (GetKey m_erc20) m_erc20 ak k_bank k_evm in
  let! incentivesKeeper := incentives_NewKeeper (D := D) (GetKey m_incentives) m_incentives ak k_bank inflationKeeper stakingKeeper k_evm in
  let! feesplitKeeper := feesplit_NewKeeper (D := D) (GetKey m_feesplit) m_feesplit k_bank k_evm feeCollectorName in
  let! epochsKeeper := epochs_NewKeeper (GetKey m_epochs) in
  let! epochsKeeper := epochs_SetHooks epochsKeeper [eh_incentives incentivesKeeper; eh_inflation inflationKeeper] in
  let! app_epochs := load_epochs epochsKeeper in
  let! claims_Hooks := load_claims claimsKeeper in
  let! govHooks := lift (SdkSetHooks None [gh_claims claims_Hooks]) in
  let! claims_Hooks := load_claims claimsKeeper in
  evm_SetHooks [vh_erc20 erc20Keeper; vh_incentives incentivesKeeper; vh_feesplit feesplitKeeper; vh_claims claims_Hooks] ;;;
  on_params (NewForeignKeeper m_ibctransfer ak) ;;;
  let transferKeeper := mkTransferK (ics4_claims claimsKeeper) in
  let! recoveryKeeper := recovery_NewKeeper (D := D) m_recovery ak k_bank ics4_channel transferKeeper claimsKeeper in
  recovery_SetICS4Wrapper recoveryKeeper ics4_channel ;;;
  claims_SetICS4Wrapper claimsKeeper (ics4_recovery recoveryKeeper) ;;;
  let! stack_claims := load_claims claimsKeeper in
  let! stack_recovery := load_recovery recoveryKeeper in
  ret (mkEvmos inflationKeeper claimsKeeper stakingKeeper vestingKeeper erc20Keeper incentivesKeeper feesplitKeeper app_epochs govHooks
         transferKeeper recoveryKeeper stack_claims stack_recovery).

(** The state at the start: nothing allocated, no hooks. *)
Definition empty_heap : heap PK AK := mkHeap pk_NewKeeper (mkStakingK None) None [] [] [].
End application.

(** ** [RegisterServices] *)

(** [module.Configurator]: [cf_msg], [cf_query] and [cf_migration] say what is registered. *)
Class Configurator (Cf Hd : Type) := {
  RegisterMsgServer : AppModule → Cf → outcome Cf;
  RegisterQueryServer : AppModule → Cf → outcome Cf;
  RegisterMigration : AppModule → Z → Hd → Cf → outcome Cf;
  foreign_RegisterServices : AppModule → Cf → outcome Cf;
  cf_empty : Cf;
  cf_msg : Cf → AppModule → bool;
  cf_query : Cf → AppModule → bool;
  cf_migration : Cf → AppModule → Z → option Hd;
}.

Section services.
Context {D X Cf : Type} `{Configurator Cf (M (app_stores D X) unit)}.

(** The migrators of [x/*/keeper/migrations.go] *)
Definition claims_Migrate1to2 : M (app_stores D X) unit := on_claims (modify claims_MigrateStore).
Definition erc20_Migrate1to2 : M (app_stores D X) unit := on_erc20 (modify erc20_UpdateParams).

(** [if err := cfg.RegisterMigration(...); err != nil { panic(...) }] *)
Definition must_migrate (m : AppModule) (v : Z) (h : M (app_stores D X) unit) (cfg : Cf) : outcome Cf :=
  match RegisterMigration m v h cfg with Err _ => Panic | r => r end.

(** [RegisterServices] of each module *)
Definition vesting_RegisterServices (cfg : Cf) : outcome Cf :=
  let? cfg := RegisterMsgServer m_vesting cfg in RegisterQueryServer m_vesting cfg.
Definition feesplit_RegisterServices (cfg : Cf) : outcome Cf :=
  let? cfg := RegisterMsgServer m_feesplit cfg in RegisterQueryServer m_feesplit cfg.
Definition erc20_RegisterServices (cfg : Cf) : outcome Cf :=
  let? cfg := RegisterMsgServer m_erc20 cfg in
  let? cfg := RegisterQueryServer m_erc20 cfg in
  must_migrate m_erc20 1 erc20_Migrate1to2 cfg.
Definition claims_RegisterServices (cfg : Cf) : outcome Cf :=
  let? cfg := RegisterQueryServer m_claims cfg in must_migrate m_claims 1 claims_Migrate1to2 cfg.
Definition epochs_RegisterServices (cfg : Cf) : outcome Cf := RegisterQueryServer m_epochs cfg.
Definition inflation_RegisterServices (cfg : Cf) : outcome Cf := RegisterQueryServer m_inflation cfg.
Definition incentives_RegisterServices (cfg : Cf) : outcome Cf := RegisterQueryServer m_incentives cfg.
Definition recovery_RegisterServices (cfg : Cf) : outcome Cf := RegisterQueryServer m_recovery cfg.

Definition RegisterServices (m : AppModule) : Cf → outcome Cf :=
  match m with
  | m_vesting => vesting_RegisterServices
  | m_feesplit => feesplit_RegisterServices
  | m_erc20 => erc20_RegisterServices
  | m_claims => claims_RegisterServices
  | m_epochs => epochs_RegisterServices
  | m_inflation => inflation_RegisterServices
  | m_incentives => incentives_RegisterServices
  | m_recovery => recovery_RegisterServices
  | _ => foreign_RegisterServices m
  end.

(** [app.mm.RegisterServices(app.configurator)] *)
Definition mm_RegisterServices (cfg : Cf) : outcome Cf := foldl (λ o m, let? cfg := o in RegisterServices m cfg) (Ok cfg) mm_modules.
End services.

(** ** [NewEvmos]: the whole construction *)

Section construction.
Context {D C X PK AK Cf : Type} `{SdkDec D, SdkCoins C, ParamsKeeper PK, SdkWiring AK, !ForeignKeepers PK AK, BaseApplication}.
Context `{Configurator Cf (M (app_stores D X) unit)}.
Local Abbreviation WM := (M (heap PK AK)).
Variables (feeCollectorName : string) (channel_id_valid : string → bool) (gov_table : list string).
(** [encodingConfig.TxConfig.SignModeHandler() != nil], [loadLatest], the file the upgrade
    keeper reads, with the name and the height of an upgrade, and [IsSkipHeight] *)
Variables (SignModeHandler loadLatest : bool) (ReadUpgradeInfoFromDisk : outcome (string * Z)) (IsSkipHeight : Z → bool).

(** [ante.HandlerOptions{...}]: the keepers of the application are structs or pointers to them. *)
Definition ante_options : HandlerOptions := mkOptions true true true SignModeHandler true true.

(** The end of [setupUpgradeHandlers]: the stores that are added. *)
Definition setupUpgradeHandlers : WM (list string) :=
  match ReadUpgradeInfoFromDisk with
  | Ok (name, height) => ret (added_stores (IsSkipHeight height) name)
  | _ => panic
  end.

(** [if err := options.Validate(); err != nil { panic(err) }] *)
Definition check_options : WM unit := match HandlerOptions_Validate ante_options with Ok _ => ret tt | _ => panic end.

(** The application, what its modules registered and the stores an upgrade adds.  The error is
    the one of [LoadLatestVersion], on which the process exits. *)
Definition NewEvmos : WM (Evmos AK * Cf * list string) :=
  let! app := new_keepers (D := D) (C := C) feeCollectorName channel_id_valid gov_table in
  lift (SetOrder mm_modules OrderBeginBlockers) ;;;
  lift (SetOrder mm_modules OrderEndBlockers) ;;;
  lift (SetOrder mm_modules OrderInitGenesis) ;;;
  let! configurator := lift (mm_RegisterServices (D := D) (X := X) cf_empty) in
  check_options ;;;
  let! added := setupUpgradeHandlers in
  (if loadLatest then lift (LoadLatestVersion keys added) else ret tt) ;;;
  ret (app, configurator, added).
End construction.

(** ** Laws of the foreign parts *)

Class ParamsKeeperLaws (PK : Type) `{ParamsKeeper PK} := {
  tables_new m : pk_tables pk_NewKeeper m = None;
  subspace_new pk m : pk_tables pk m = None →
    ∃ pk', pk_Subspace m pk = Ok pk' ∧ ∀ m', pk_tables pk' m' = if decide (m' = m) then Some [] else pk_tables pk m';
  register_keys ks : NoDup ks → Forall IsAlphaNumeric ks → RegisterParamSet ks = Ok ks;
  has_table pk m t : pk_tables pk m = Some t → HasKeyTable pk m = negb (bool_decide (t = []));
  with_table pk m t : pk_tables pk m = Some [] →
    ∃ pk', WithKeyTable m t pk = Ok pk' ∧ ∀ m', pk_tables pk' m' = if decide (m' = m) then Some t else pk_tables pk m';
}.

(** A constructor of another module that finds its subspace and its module accounts returns, and
    uses no other subspace. *)
Class ForeignKeepersLaws (PK AK : Type) `{ParamsKeeper PK, SdkWiring AK, ForeignKeepers PK AK} := {
  foreign_keeper pk ak m t : pk_tables pk m = Some t → Forall (λ acc, is_Some (GetModuleAddress ak acc)) (constructor_accounts m) →
    ∃ pk', NewForeignKeeper m ak pk = Ok pk' ∧ ∀ m', m' ≠ m → pk_tables pk' m' = pk_tables pk m';
}.

Class BaseApplicationLaws `{BaseApplication} := {
  order_complete mods order : (∀ m, m ∈ mods → m ∈ order) → SetOrder mods order = Ok tt;
}.

Class SdkWiringLaws (AK : Type) `{SdkWiring AK} := {
  module_address accs acc : acc ∈ accs → is_Some (GetModuleAddress (NewAccountKeeper accs) acc);
  set_hooks {H} (h : H) : SdkSetHooks None h = Ok (Some h);
}.

Class ConfiguratorLaws (Cf Hd : Type) `{Configurator Cf Hd} := {
  cf_nothing m v : cf_msg cf_empty m = false ∧ cf_query cf_empty m = false ∧ cf_migration cf_empty m v = None;
  msg_server cf m : cf_msg cf m = false →
    ∃ cf', RegisterMsgServer m cf = Ok cf' ∧ (∀ m', cf_msg cf' m' = bool_decide (m' = m) || cf_msg cf m') ∧
      (∀ m', cf_query cf' m' = cf_query cf m') ∧ ∀ m' v, cf_migration cf' m' v = cf_migration cf m' v;
  query_server cf m : cf_query cf m = false →
    ∃ cf', RegisterQueryServer m cf = Ok cf' ∧ (∀ m', cf_query cf' m' = bool_decide (m' = m) || cf_query cf m') ∧
      (∀ m', cf_msg cf' m' = cf_msg cf m') ∧ ∀ m' v, cf_migration cf' m' v = cf_migration cf m' v;
  migration_handler cf m v h : v ≠ 0%Z → cf_migration cf m v = None →
    ∃ cf', RegisterMigration m v h cf = Ok cf' ∧
      (∀ m' v', cf_migration cf' m' v' = if decide (m' = m ∧ v' = v) then Some h else cf_migration cf m' v') ∧
      (∀ m', cf_msg cf' m' = cf_msg cf m') ∧ ∀ m', cf_query cf' m' = cf_query cf m';
  (** another module registers its own services *)
  foreign_services cf m : cf_msg cf m = false → cf_query cf m = false → (∀ v, cf_migration cf m v = None) →
    ∃ cf', foreign_RegisterServices m cf = Ok cf' ∧ ∀ m', m' ≠ m →
      cf_msg cf' m' = cf_msg cf m' ∧ cf_query cf' m' = cf_query cf m' ∧ ∀ v, cf_migration cf' m' v = cf_migration cf m' v;
}.
