(* ===== verification/WiringProps.v ===== *)
(** * The application is wired as its modules need it

    The construction of the keepers does not panic, the pointers and copies it leaves reach
    the hooks and wrappers that were set later, the modules register their services and
    migrations, and the rest of [NewEvmos] fails only for what is outside the program. *)

From S2P Require Import Prelude Sdk Dec SdkInstances Keepers EvmosUtils Erc20Types Epochs Inflation Ibc Claims Erc20 Evm Incentives Feesplit Recovery App Params Genesis Ante Upgrades Chain Msgs Wiring.

(** The names of the parameters are fit for a table. *)
Ltac keys_ok := first [apply (bool_decide_unpack _); vm_compute; done | by repeat constructor].

(** ** The keepers *)

Section keepers.
Context {D C PK AK : Type} `{SdkDec D, SdkCoins C, ParamsKeeperLaws PK, SdkWiringLaws AK}.
Context `{!ForeignKeepers PK AK, !ForeignKeepersLaws PK AK}.
Implicit Types h : heap PK AK.

Lemma bind_step {S A B} (m : M S A) (k : A → M S B) s a s' : m s = (Ok a, s') → bind m k s = k a s'.
Proof. unfold bind. by intros ->. Qed.

Lemma on_params_ok (f : PK → outcome PK) h pk' : f (h_params h) = Ok pk' → on_params f h = (Ok tt, set_params pk' h).
Proof. unfold on_params. by intros ->. Qed.

(** A keeper finds its subspace without a table, and sets it. *)
Lemma key_table_set {P} (pairs : list (ParamSetPair D P)) m pk :
  pk_tables pk m = Some [] → NoDup (ps_Key <$> pairs) → Forall IsAlphaNumeric (ps_Key <$> pairs) →
  ∃ pk', (∀ h, h_params h = pk → set_key_table m pairs h = (Ok tt, set_params pk' h)) ∧
    ∀ m', pk_tables pk' m' = if decide (m' = m) then Some (ps_Key <$> pairs) else pk_tables pk m'.
Proof.
  intros Ht Hd Ha. destruct (with_table _ _ (ps_Key <$> pairs) Ht) as (pk' & Hw & Htab). exists pk'. split; [|done]. intros h <-.
  unfold set_key_table, ParamKeyTable, bind, gets, lift. rewrite (has_table _ _ _ Ht), register_keys by done. by apply on_params_ok.
Qed.

Lemma subspaces_set gov_table l : ∀ h, NoDup l → (∀ m, m ∈ l → pk_tables (h_params h) m = None) →
  ∃ pk', foreach l (λ m, on_params (pk_Subspace m) ;;;
             if decide (m = m_gov) then on_params (WithKeyTable m_gov gov_table) else ret tt) h = (Ok tt, set_params pk' h) ∧
    ∀ m, pk_tables pk' m = if decide (m ∈ l) then Some (if decide (m = m_gov) then gov_table else []) else pk_tables (h_params h) m.
Proof.
  induction l as [|m l IH]; intros h Hd Hnone; simpl.
  { exists (h_params h). by destruct h. }
  apply NoDup_cons in Hd as [Hm Hd]. destruct (subspace_new (h_params h) m) as (pk1 & Hs & Ht1); [apply Hnone; set_solver|].
  assert (∃ pk2, bind (on_params (pk_Subspace m)) (λ _, if decide (m = m_gov) then on_params (WithKeyTable m_gov gov_table) else ret tt) h
            = (Ok tt, set_params pk2 h) ∧
          ∀ m', pk_tables pk2 m' = if decide (m' = m) then Some (if decide (m = m_gov) then gov_table else []) else pk_tables (h_params h) m')
    as (pk2 & Hrun & Ht2).
  { rewrite (bind_step _ _ _ _ _ (on_params_ok _ _ _ Hs)). case_decide as Hg; [subst m|by exists pk1].
    destruct (with_table pk1 m_gov gov_table) as (pk2 & Hw & Ht2); [by rewrite Ht1, decide_True|].
    exists pk2. split; [by apply (on_params_ok _ (set_params pk1 h))|]. intros m'. rewrite Ht2. case_decide; [done|]. rewrite Ht1. by case_decide. }
  destruct (IH (set_params pk2 h)) as (pk' & Hl & Ht); [done| |].
  { intros m' Hin. simpl. rewrite Ht2, decide_False by (intros ->; done). apply Hnone. set_solver. }
  exists pk'. rewrite (bind_step _ _ _ _ _ Hrun). split; [done|].
  intros m'. rewrite Ht. simpl. rewrite Ht2. repeat case_decide; subst; set_solver.
Qed.

(** The keepers of the other modules find their accounts among the permissions, and leave the
    subspaces of the chain alone. *)
Lemma accounts_found m : Forall (λ acc, is_Some (GetModuleAddress (NewAccountKeeper (AK := AK) maccPerms.*1) acc)) (constructor_accounts m).
Proof.
  apply Forall_forall. intros acc Hacc. apply module_address.
  assert (Hall : Forall (λ acc, acc ∈ maccPerms.*1) (constructor_accounts m)) by (apply (bool_decide_unpack _); by destruct m).
  rewrite Forall_forall in Hall. by apply Hall.
Qed.
Lemma foreign_set l : ∀ h, NoDup l → (∀ m, m ∈ l → is_Some (pk_tables (h_params h) m)) →
  ∃ pk', foreach l (λ m, on_params (NewForeignKeeper m (NewAccountKeeper maccPerms.*1))) h = (Ok tt, set_params pk' h) ∧
    ∀ m, m ∉ l → pk_tables pk' m = pk_tables (h_params h) m.
Proof.
  induction l as [|m l IH]; intros h Hd Hsome; simpl.
  { exists (h_params h). by destruct h. }
  apply NoDup_cons in Hd as [Hm Hd]. destruct (Hsome m) as [t Ht]; [set_solver|].
  destruct (foreign_keeper _ _ _ _ Ht (accounts_found m)) as (pk1 & Hf & Ht1). rewrite (bind_step _ _ _ _ _ (on_params_ok _ _ _ Hf)).
  destruct (IH (set_params pk1 h)) as (pk' & Hl & Htab); [done| |].
  { intros m' Hin. simpl. rewrite Ht1 by (intros ->; done). apply Hsome. set_solver. }
  exists pk'. split; [done|]. intros m' Hm'. rewrite Htab by set_solver. apply Ht1. set_solver.
Qed.

(** What the keepers of the chain find: their subspaces without tables. *)
Lemma subspaces_ready gov_table :
  ∃ pk, (∀ A (k : unit → M (heap PK AK) A),
      bind (initParamsKeeper gov_table) (λ _, bind (foreach [m_auth; m_bank; m_staking; m_distr; m_slashing; m_crisis; m_feemarket; m_evm; m_ibchost; m_gov]
         (λ m, on_params (NewForeignKeeper m (NewAccountKeeper maccPerms.*1)))) k) empty_heap = k tt (set_params pk empty_heap)) ∧
    Forall (λ m, pk_tables pk m = Some []) [m_inflation; m_claims; m_erc20; m_incentives; m_feesplit; m_ibctransfer; m_recovery].
Proof.
  destruct (subspaces_set gov_table subspaces (empty_heap (PK := PK) (AK := AK))) as (pk1 & Hrun1 & Ht1).
  { apply (bool_decide_unpack _); vm_compute; done. }
  { intros m _. apply tables_new. }
  destruct (foreign_set [m_auth; m_bank; m_staking; m_distr; m_slashing; m_crisis; m_feemarket; m_evm; m_ibchost; m_gov]
              (set_params pk1 empty_heap)) as (pk2 & Hrun2 & Ht2).
  { apply (bool_decide_unpack _); vm_compute; done. }
  { intros m Hm. simpl. rewrite Ht1, decide_True; [eauto|]. unfold subspaces. set_solver. }
  exists pk2. split.
  { intros A k. rewrite (bind_step _ _ _ _ _ Hrun1). by rewrite (bind_step _ _ _ _ _ Hrun2). }
  repeat constructor; (rewrite Ht2; [simpl; rewrite Ht1; by vm_compute|apply (bool_decide_unpack _); by vm_compute]).
Qed.

(** *** The constructors, one by one

    [sets pk pk' m pairs]: a keeper that finds the tables [pk] leaves [pk']. *)
Definition sets {P} pk pk' m (pairs : list (ParamSetPair D P)) : Prop :=
  ∀ h, h_params h = pk → set_key_table m pairs h = (Ok tt, set_params pk' h).

Section constructors.
Variables (pk pk' : PK) (s : StakingK AK) (e : option (list (EvmHook AK))) (c : list (claims_Keeper AK StakingPtr)).
Variables (r : list (recovery_Keeper AK)) (p : list (epochs_Keeper (list (EpochHook AK)))).
Local Abbreviation before := (mkHeap pk s e c r p).

Lemma inflation_new m sk bk dk st fee :
  sets pk pk' m (infl_ParamSetPairs (D := D) (C := C)) →
  inflation_NewKeeper (D := D) (C := C) sk m (NewAccountKeeper maccPerms.*1) bk dk st fee before =
    (Ok (mkInflK (SK := StakingPtr) sk m (NewAccountKeeper maccPerms.*1) bk dk st fee), mkHeap pk' s e c r p).
Proof.
  intros Hs. unfold inflation_NewKeeper. destruct (module_address (maccPerms.*1) acc_inflation) as [addr ->]; [set_solver|].
  by rewrite (bind_step _ _ _ _ _ (Hs before eq_refl)).
Qed.
Lemma claims_new channel_id_valid m sk ak bk st dk :
  sets pk pk' m (claims_ParamSetPairs (D := D) (C := C) channel_id_valid) →
  claims_NewKeeper (D := D) (C := C) channel_id_valid sk m ak bk st dk before =
    (Ok (length c), mkHeap pk' s e (c ++ [mkClaimsK sk m ak bk st dk None]) r p).
Proof. intros Hs. unfold claims_NewKeeper. by rewrite (bind_step _ _ _ _ _ (Hs before eq_refl)). Qed.
Lemma erc20_new m sk ak bk ev :
  sets pk pk' m (erc20_ParamSetPairs (D := D)) →
  erc20_NewKeeper (D := D) sk m ak bk ev before = (Ok (mkErc20K sk m ak bk ev), mkHeap pk' s e c r p).
Proof. intros Hs. unfold erc20_NewKeeper. by rewrite (bind_step _ _ _ _ _ (Hs before eq_refl)). Qed.
Lemma incentives_new {IK SK} m sk ak bk (ik : IK) (st : SK) ev :
  sets pk pk' m (incentives_ParamSetPairs (D := D)) →
  incentives_NewKeeper (D := D) sk m ak bk ik st ev before = (Ok (mkIncK sk m ak bk ik st ev), mkHeap pk' s e c r p).
Proof. intros Hs. unfold incentives_NewKeeper. by rewrite (bind_step _ _ _ _ _ (Hs before eq_refl)). Qed.
Lemma feesplit_new m sk bk ev fee :
  sets pk pk' m (feesplit_ParamSetPairs (D := D)) →
  feesplit_NewKeeper (D := D) sk m bk ev fee before = (Ok (mkFeeK sk m bk ev fee), mkHeap pk' s e c r p).
Proof. intros Hs. unfold feesplit_NewKeeper. by rewrite (bind_step _ _ _ _ _ (Hs before eq_refl)). Qed.
Lemma recovery_new m ak bk ck tk k :
  sets pk pk' m (recovery_ParamSetPairs (D := D)) →
  recovery_NewKeeper (D := D) m ak bk ck tk k before = (Ok (length r), mkHeap pk' s e c (r ++ [mkRecK m ak bk None ck tk k]) p).
Proof. intros Hs. unfold recovery_NewKeeper. by rewrite (bind_step _ _ _ _ _ (Hs before eq_refl)). Qed.
Lemma foreign_new m ak : NewForeignKeeper m ak pk = Ok pk' → on_params (NewForeignKeeper m ak) before = (Ok tt, mkHeap pk' s e c r p).
Proof. intros Hf. by apply (on_params_ok _ before). Qed.
Lemma staking_hooked hs : s = mkStakingK None → staking_SetHooks hs before = (Ok (mkStakingK (Some hs)), mkHeap pk (mkStakingK (Some hs)) e c r p).
Proof. intros ->. unfold staking_SetHooks, bind, gets, lift. simpl. by rewrite set_hooks. Qed.
Lemma evm_hooked hs : e = None → evm_SetHooks hs before = (Ok tt, mkHeap pk s (Some hs) c r p).
Proof. intros ->. unfold evm_SetHooks, bind, gets, lift. simpl. by rewrite set_hooks. Qed.
Lemma gov_hooked {T} (hs : T) : lift (SdkSetHooks None hs) before = (Ok (Some hs), before).
Proof. unfold lift. by rewrite set_hooks. Qed.
End constructors.

(** *** What the application needs of its keepers *)

(** The copy of the claims keeper before its wrapper was set. *)
Definition unwrapped (k : claims_Keeper AK StakingPtr) : claims_Keeper AK StakingPtr :=
  mkClaimsK (ck_storeKey k) (ck_paramstore k) (ck_accountKeeper k) (ck_bankKeeper k) (ck_stakingKeeper k) (ck_distrKeeper k) None.

(** A packet that the transfer keeper sends, or an acknowledgement, passes the claims keeper
    and the recovery keeper and reaches the channel; so it does from the copies in the
    middlewares of the stack. *)
Definition packets_pass h (app : Evmos AK) : Prop :=
  tk_ics4Wrapper (app_TransferKeeper app) = ics4_claims (app_ClaimsKeeper app) ∧
  h_claims h !! app_ClaimsKeeper app = Some (stack_claims app) ∧
  ck_ics4Wrapper (stack_claims app) = Some (ics4_recovery (app_RecoveryKeeper app)) ∧
  h_recovery h !! app_RecoveryKeeper app = Some (stack_recovery app) ∧
  ∀ T A (channel : M T A) n, (2 ≤ n)%nat →
    ics4_call channel h n (tk_ics4Wrapper (app_TransferKeeper app)) = channel ∧
    ics4_call channel h n (tk_ics4Wrapper (rk_transferKeeper (stack_recovery app))) = channel ∧
    claims_call (ics4_call channel h n) (stack_claims app) = channel ∧
    recovery_call (ics4_call channel h n) (stack_recovery app) = channel.

(** Every copy of the staking keeper has the hooks, and the receivers are the keepers of the
    application. *)
Definition hooks_shared h (app : Evmos AK) : Prop :=
  let claims := unwrapped (stack_claims app) in
  sk_hooks (h_staking h) = Some [sh_distr; sh_slashing; sh_claims claims] ∧
  app_StakingKeeper app = h_staking h ∧ vk_stakingKeeper _ (app_VestingKeeper app) = h_staking h ∧
  nk_stakeKeeper _ _ (app_IncentivesKeeper app) = h_staking h ∧
  nk_inflationKeeper _ _ (app_IncentivesKeeper app) = app_InflationKeeper app ∧
  pk_hooks _ (app_EpochsKeeper app) = Some [eh_incentives (app_IncentivesKeeper app); eh_inflation (app_InflationKeeper app)] ∧
  app_GovHooks app = Some [gh_claims claims] ∧
  h_evm_hooks h = Some [vh_erc20 (app_Erc20Keeper app); vh_incentives (app_IncentivesKeeper app);
                        vh_feesplit (app_FeesplitKeeper app); vh_claims claims].

(** Every keeper has the key of its own store. *)
Definition stores_found (app : Evmos AK) : Prop :=
  [ik_storeKey _ (app_InflationKeeper app); ek_storeKey (app_Erc20Keeper app); nk_storeKey _ _ (app_IncentivesKeeper app);
   pk_storeKey _ (app_EpochsKeeper app); ck_storeKey (stack_claims app); vk_storeKey _ (app_VestingKeeper app);
   fk_storeKey (app_FeesplitKeeper app)] =
  Some <$> [m_inflation; m_erc20; m_incentives; m_epochs; m_claims; m_vesting; m_feesplit].

(** The subspace of every keeper has the table of its parameters. *)
Definition tables_of (channel_id_valid : string → bool) : list (AppModule * list string) := [
  (m_inflation, ps_Key <$> infl_ParamSetPairs (D := D) (C := C));
  (m_claims, ps_Key <$> claims_ParamSetPairs (D := D) (C := C) channel_id_valid);
  (m_erc20, ps_Key <$> erc20_ParamSetPairs (D := D));
  (m_incentives, ps_Key <$> incentives_ParamSetPairs (D := D));
  (m_feesplit, ps_Key <$> feesplit_ParamSetPairs (D := D));
  (m_recovery, ps_Key <$> recovery_ParamSetPairs (D := D))].
End keepers.

(** The heap as a record. *)
Ltac heap_norm :=
  unfold set_epochs, set_claims, set_recoveries;
  cbn [h_params h_staking h_evm_hooks h_claims h_recovery h_epochs app length insert list_insert].

(** The construction of the keepers does not panic. *)
Lemma keepers_wired {D C PK AK} `{SdkDec D, SdkCoins C, ParamsKeeperLaws PK, SdkWiringLaws AK, !ForeignKeepers PK AK, !ForeignKeepersLaws PK AK}
    feeCollectorName channel_id_valid gov_table :
  ∃ (app : Evmos AK) (h : heap PK AK),
    new_keepers (D := D) (C := C) feeCollectorName channel_id_valid gov_table empty_heap = (Ok app, h) ∧
    packets_pass h app ∧ hooks_shared h app ∧ stores_found app ∧
    Forall (λ '(m, ks), pk_tables (h_params h) m = Some ks) (tables_of (D := D) (C := C) channel_id_valid).
Proof.
  destruct (subspaces_ready (AK := AK) gov_table) as (pk & Hinit & Hpk). rewrite !Forall_cons in Hpk. destruct Hpk as (Hi & Hc & He & Hn & Hf & Ht & Hr & _).
  destruct (key_table_set (AK := AK) (infl_ParamSetPairs (D := D) (C := C)) m_inflation pk) as (pk1 & R1 & T1); [done|keys_ok..|].
  destruct (key_table_set (AK := AK) (claims_ParamSetPairs (D := D) (C := C) channel_id_valid) m_claims pk1) as (pk2 & R2 & T2); [by rewrite T1|keys_ok..|].
  destruct (key_table_set (AK := AK) (erc20_ParamSetPairs (D := D)) m_erc20 pk2) as (pk3 & R3 & T3); [by rewrite T2, T1|keys_ok..|].
  destruct (key_table_set (AK := AK) (incentives_ParamSetPairs (D := D)) m_incentives pk3) as (pk4 & R4 & T4); [by rewrite T3, T2, T1|keys_ok..|].
  destruct (key_table_set (AK := AK) (feesplit_ParamSetPairs (D := D)) m_feesplit pk4) as (pk5 & R5 & T5); [by rewrite T4, T3, T2, T1|keys_ok..|].
  destruct (foreign_keeper pk5 (NewAccountKeeper (AK := AK) maccPerms.*1) m_ibctransfer []) as (pk6 & R6 & T6); [by rewrite T5, T4, T3, T2, T1|apply accounts_found|].
  destruct (key_table_set (AK := AK) (recovery_ParamSetPairs (D := D)) m_recovery pk6) as (pk7 & R7 & T7); [by rewrite T6, T5, T4, T3, T2, T1|keys_ok..|].
  unfold new_keepers. rewrite Hinit. change (set_params pk empty_heap) with (mkHeap (AK := AK) pk (mkStakingK None) None [] [] []).
  rewrite (bind_step _ _ _ _ _ (inflation_new _ _ _ _ _ _ _ _ _ _ _ _ _ R1)). set (ik := mkInflK _ _ _ _ _ _ _).
  rewrite (bind_step _ _ _ _ _ (claims_new _ _ _ _ _ _ _ _ _ _ _ _ _ _ R2)). set (ck := mkClaimsK _ _ _ _ _ _ _). simpl length. simpl app.
  erewrite bind_step by reflexivity.
  rewrite (bind_step _ _ _ _ _ (staking_hooked _ _ _ _ _ _ _ eq_refl)). set (st := mkStakingK _). set (vk := vesting_NewKeeper _ _ _ _).
  rewrite (bind_step _ _ _ _ _ (erc20_new _ _ _ _ _ _ _ _ _ _ _ _ R3)). set (ek := mkErc20K _ _ _ _ _).
  rewrite (bind_step _ _ _ _ _ (incentives_new _ _ _ _ _ _ _ _ _ _ _ _ _ _ R4)). set (nk := mkIncK _ _ _ _ _ _ _).
  rewrite (bind_step _ _ _ _ _ (feesplit_new _ _ _ _ _ _ _ _ _ _ _ _ R5)). set (fk := mkFeeK _ _ _ _ _).
  do 4 (erewrite bind_step by reflexivity; heap_norm).
  rewrite (bind_step _ _ _ _ _ (gov_hooked _ _ _ _ _ _ _)). erewrite bind_step by reflexivity.
  rewrite (bind_step _ _ _ _ _ (evm_hooked _ _ _ _ _ _ _ eq_refl)). set (vh := [vh_erc20 _; _; _; _]).
  rewrite (bind_step _ _ _ _ _ (foreign_new _ _ _ _ _ _ _ _ _ R6)).
  rewrite (bind_step _ _ _ _ _ (recovery_new _ _ _ _ _ _ _ _ _ _ _ _ _ R7)). heap_norm.
  do 4 (erewrite bind_step by reflexivity; heap_norm). unfold ret.
  eexists _, _. split; [done|]. split; [|split; [|split]]; [| |done|].
  - do 4 (split; [done|]). intros T A channel [|[|[|n]]] ?; [lia|lia|by split_and!..].
  - by repeat split.
  - unfold tables_of. repeat constructor; cbn; rewrite T7; cbn; by rewrite ?T6, ?T5, ?T4, ?T3, ?T2, ?T1 by done.
Qed.

(** ** Instances: tables and registrations as functions *)

Section instances.
Definition upd {A} (f : AppModule → A) (m : AppModule) (a : A) : AppModule → A := λ m', if decide (m' = m) then a else f m'.

#[global] Instance fun_params : ParamsKeeper (AppModule → option (list string)) := {
  pk_NewKeeper := λ _, None;
  pk_Subspace m pk := match pk m with Some _ => Panic | None => Ok (upd pk m (Some [])) end;
  RegisterParamSet ks := if decide (NoDup ks ∧ Forall IsAlphaNumeric ks) then Ok ks else Panic;
  HasKeyTable pk m := match pk m with Some (_ :: _) => true | _ => false end;
  WithKeyTable m t pk := match pk m with Some [] => Ok (upd pk m (Some t)) | _ => Panic end;
  pk_tables pk := pk;
}.
#[global] Instance fun_params_laws : ParamsKeeperLaws (AppModule → option (list string)).
Proof.
  split; simpl.
  - done.
  - intros pk m ->. by eexists.
  - intros ks ? ?. by rewrite decide_True.
  - by intros pk m [|] ->.
  - intros pk m t ->. by eexists.
Qed.

#[global] Instance list_wiring : SdkWiring (list ModuleAccount) := {
  NewAccountKeeper accs := accs;
  GetModuleAddress accs acc := if decide (acc ∈ accs) then Some "module address"%string else None;
  SdkSetHooks _ old h := match old with Some _ => Panic | None => Ok (Some h) end;
}.
#[global] Instance list_wiring_laws : SdkWiringLaws (list ModuleAccount).
Proof. split; simpl; [|done]. intros accs acc ?. rewrite decide_True by done. eauto. Qed.

#[global] Instance fun_foreign : ForeignKeepers (AppModule → option (list string)) (list ModuleAccount) := {
  NewForeignKeeper m ak pk :=
    if decide (Forall (λ acc, acc ∈ ak) (constructor_accounts m))
    then match pk m with Some _ => Ok (upd pk m (Some ["Params"%string])) | None => Panic end else Panic;
}.
#[global] Instance fun_foreign_laws : ForeignKeepersLaws (AppModule → option (list string)) (list ModuleAccount).
Proof.
  split; simpl. intros pk ak m t -> Hacc. rewrite decide_True.
  - eexists. split; [done|]. intros m' ?. unfold upd. by rewrite decide_False.
  - eapply Forall_impl; [exact Hacc|]. simpl. intros acc. case_decide; [done|by intros [? ?]].
Qed.
#[global] Instance list_base : BaseApplication := {
  SetOrder mods order := if decide (Forall (λ m, m ∈ order) mods) then Ok tt else Panic;
  LoadLatestVersion mounted _ := if decide (m_bank ∈ mounted) then Ok tt else Err (ErrExternal "failed to load latest version");
}.
#[global] Instance list_base_laws : BaseApplicationLaws.
Proof. split; simpl. intros mods order Hall. rewrite decide_True; [done|]. by apply Forall_forall. Qed.
End instances.

(** A second wrapper, and hooks set twice, panic. *)
Lemma wrapper_set_once {PK AK} p w w' (h h' : heap PK AK) :
  claims_SetICS4Wrapper p w h = (Ok tt, h') → claims_SetICS4Wrapper p w' h' = (Panic, h').
Proof.
  unfold claims_SetICS4Wrapper, bind, gets, deref, modify, ret. destruct (h_claims h !! p) as [k|] eqn:Hk; [|done].
  destruct (ck_ics4Wrapper k); [done|]. intros [= <-]. simpl. by rewrite list_lookup_insert_eq by by eapply lookup_lt_Some.
Qed.

(** ** Services and migrations *)

Section services.
Context {D X Cf : Type} `{ConfiguratorLaws Cf (M (app_stores D X) unit)}.
Implicit Types cf : Cf.

Definition fresh cf m : Prop := cf_msg cf m = false ∧ cf_query cf m = false ∧ ∀ v, cf_migration cf m v = None.
Definition same cf cf' m : Prop :=
  cf_msg cf' m = cf_msg cf m ∧ cf_query cf' m = cf_query cf m ∧ ∀ v, cf_migration cf' m v = cf_migration cf m v.

(** What a module of the chain registers: whether it has messages, and its migrations. *)
Definition has_msgs (m : AppModule) : bool := match m with m_vesting | m_erc20 | m_feesplit => true | _ => false end.
Definition migrations (m : AppModule) (v : Z) : option (M (app_stores D X) unit) :=
  match m with
  | m_claims => if decide (v = 1%Z) then Some claims_Migrate1to2 else None
  | m_erc20 => if decide (v = 1%Z) then Some erc20_Migrate1to2 else None
  | _ => None
  end.
Definition own_modules : list AppModule := [m_inflation; m_erc20; m_incentives; m_epochs; m_claims; m_vesting; m_recovery; m_feesplit].
Definition registered cf m : Prop :=
  cf_msg cf m = has_msgs m ∧ cf_query cf m = true ∧ ∀ v, cf_migration cf m v = migrations m v.

Lemma same_fresh cf cf' m : same cf cf' m → fresh cf m → fresh cf' m.
Proof. intros (? & ? & Hv) (? & ? & ?). split_and!; [congruence..|]. intros v. by rewrite Hv. Qed.
Lemma same_registered cf cf' m : same cf cf' m → registered cf m → registered cf' m.
Proof. intros (? & ? & Hv) (? & ? & ?). split_and!; [congruence..|]. intros v. by rewrite Hv. Qed.

Lemma query_step cf m : cf_query cf m = false →
  ∃ cf', RegisterQueryServer m cf = Ok cf' ∧ cf_query cf' m = true ∧ cf_msg cf' m = cf_msg cf m ∧
    (∀ v, cf_migration cf' m v = cf_migration cf m v) ∧ ∀ m', m' ≠ m → same cf cf' m'.
Proof.
  intros Hq. destruct (query_server cf m Hq) as (cf' & ? & Hq' & Hm & Hv). exists cf'. split_and!; try done.
  - by rewrite Hq', bool_decide_true.
  - intros m' ?. split_and!; [done| |done]. by rewrite Hq', bool_decide_false.
Qed.
Lemma msg_step cf m : cf_msg cf m = false →
  ∃ cf', RegisterMsgServer m cf = Ok cf' ∧ cf_msg cf' m = true ∧ cf_query cf' m = cf_query cf m ∧
    (∀ v, cf_migration cf' m v = cf_migration cf m v) ∧ ∀ m', m' ≠ m → same cf cf' m'.
Proof.
  intros Hq. destruct (msg_server cf m Hq) as (cf' & ? & Hq' & Hm & Hv). exists cf'. split_and!; try done.
  - by rewrite Hq', bool_decide_true.
  - intros m' ?. split_and!; [|done..]. by rewrite Hq', bool_decide_false.
Qed.
Lemma migrate_step cf m f : (∀ v, cf_migration cf m v = None) →
  ∃ cf', must_migrate m 1 f cf = Ok cf' ∧ cf_msg cf' m = cf_msg cf m ∧ cf_query cf' m = cf_query cf m ∧
    (∀ v, cf_migration cf' m v = if decide (v = 1%Z) then Some f else None) ∧ ∀ m', m' ≠ m → same cf cf' m'.
Proof.
  intros Hv. destruct (migration_handler cf m 1 f) as (cf' & Hr & Hv' & Hm & Hq); [done..|]. exists cf'.
  unfold must_migrate. rewrite Hr. split_and!; try done.
  - intros v. rewrite Hv'. repeat case_decide; naive_solver.
  - intros m' ?. split_and!; [done..|]. intros v. rewrite Hv'. case_decide; naive_solver.
Qed.

Lemma same_trans cf1 cf2 cf3 m : same cf1 cf2 m → same cf2 cf3 m → same cf1 cf3 m.
Proof. intros (? & ? & Hv) (? & ? & Hv'). split_and!; [congruence..|]. intros v. by rewrite Hv'. Qed.

(** A module registers what it has, once, and nothing of another module. *)
Lemma services_step cf m : fresh cf m →
  ∃ cf', RegisterServices (Cf := Cf) (D := D) (X := X) m cf = Ok cf' ∧ (∀ m', m' ≠ m → same cf cf' m') ∧
    (m ∈ own_modules → registered cf' m).
Proof.
  intros (Hm & Hq & Hv). destruct (decide (m ∈ own_modules)) as [Hown|Hown].
  2:{ destruct (foreign_services cf m Hm Hq Hv) as (cf' & Hr & Hs). exists cf'. split; [|done].
      destruct m; try done; exfalso; apply Hown; unfold own_modules; set_solver. }
  unfold RegisterServices, vesting_RegisterServices, feesplit_RegisterServices, erc20_RegisterServices, claims_RegisterServices,
    epochs_RegisterServices, inflation_RegisterServices, incentives_RegisterServices, recovery_RegisterServices, registered.
  destruct (query_step cf m Hq) as (cfq & Rq & Q1 & M1 & V1 & S1).
  destruct (msg_step cf m Hm) as (cfm & Rm & M2 & Q2 & V2 & S2).
  destruct (query_step cfm m) as (cfmq & Rmq & Q3 & M3 & V3 & S3); [congruence|].
  destruct (migrate_step cfq m claims_Migrate1to2) as (cfc & Rc & M4 & Q4 & V4 & S4); [intros; by rewrite V1|].
  destruct (migrate_step cfmq m erc20_Migrate1to2) as (cfe & Re & M5 & Q5 & V5 & S5); [intros; by rewrite V3, V2|].
  assert (T3 : ∀ m', m' ≠ m → same cf cfmq m') by (intros; apply (same_trans _ cfm); auto).
  assert (T4 : ∀ m', m' ≠ m → same cf cfc m') by (intros; apply (same_trans _ cfq); auto).
  assert (T5 : ∀ m', m' ≠ m → same cf cfe m') by (intros; apply (same_trans _ cfmq); auto).
  apply (bool_decide_pack _) in Hown. destruct m; try (by vm_compute in Hown);
    rewrite ?Rq, ?Rm; simpl; rewrite ?Rmq, ?Rc; simpl; rewrite ?Re;
    eexists; (split; [done|]); (split; [done|]); intros _; split_and!; try congruence; intros v;
    rewrite ?V5, ?V4, ?V3, ?V2, ?V1, ?Hv; done.
Qed.

Lemma services_all l : ∀ cf, NoDup l → (∀ m, m ∈ l → fresh cf m) →
  ∃ cf', foldl (λ o m, let? cf := o in RegisterServices (Cf := Cf) (D := D) (X := X) m cf) (Ok cf) l = Ok cf' ∧
    (∀ m, m ∉ l → same cf cf' m) ∧ ∀ m, m ∈ l → m ∈ own_modules → registered cf' m.
Proof.
  induction l as [|m l IH]; intros cf Hd Hf; simpl.
  { exists cf. split_and!; [done|done|]. by intros ? ?%not_elem_of_nil. }
  apply NoDup_cons in Hd as [Hm Hd]. destruct (services_step cf m) as (cf1 & -> & Hs & Hr); [set_solver|].
  destruct (IH cf1 Hd) as (cf' & -> & Hs' & Hr').
  { intros m' Hin. apply (same_fresh cf); [apply Hs; set_solver|set_solver]. }
  exists cf'. split_and!; [done| |].
  - intros m' Hin. apply (same_trans _ cf1); [apply Hs|apply Hs']; set_solver.
  - intros m' [->|Hin]%elem_of_cons Hown; [|by apply Hr']. apply (same_registered cf1); [by apply Hs'|by apply Hr].
Qed.
End services.

(** A configurator as functions *)
Section configurator.
Context {Hd : Type}.
Record config := mkCfg { cfg_msg : AppModule → bool; cfg_query : AppModule → bool; cfg_migration : AppModule → Z → option Hd }.
#[global] Instance fun_config : Configurator config Hd := {
  RegisterMsgServer m cf := if cfg_msg cf m then Panic else Ok (mkCfg (upd (cfg_msg cf) m true) (cfg_query cf) (cfg_migration cf));
  RegisterQueryServer m cf := if cfg_query cf m then Panic else Ok (mkCfg (cfg_msg cf) (upd (cfg_query cf) m true) (cfg_migration cf));
  RegisterMigration m v f cf :=
    if decide (v = 0%Z) then Err (ErrExternal "module migration versions should start at 1")
    else match cfg_migration cf m v with
         | Some _ => Err (ErrExternal "another migration for the version already exists")
         | None => Ok (mkCfg (cfg_msg cf) (cfg_query cf) (λ m' v', if decide (m' = m ∧ v' = v) then Some f else cfg_migration cf m' v'))
         end;
  foreign_RegisterServices m cf := Ok (mkCfg (upd (cfg_msg cf) m true) (upd (cfg_query cf) m true) (cfg_migration cf));
  cf_empty := mkCfg (λ _, false) (λ _, false) (λ _ _, None);
  cf_msg := cfg_msg;
  cf_query := cfg_query;
  cf_migration := cfg_migration;
}.
Lemma upd_true f m m' : upd f m true m' = bool_decide (m' = m) || f m'.
Proof. unfold upd. case_decide; [by rewrite bool_decide_true|by rewrite bool_decide_false]. Qed.
#[global] Instance fun_config_laws : ConfiguratorLaws config Hd.
Proof.
  split; simpl.
  - done.
  - intros cf m ->. eexists. split; [done|]. simpl. split; [intros; apply upd_true|done].
  - intros cf m ->. eexists. split; [done|]. simpl. split; [intros; apply upd_true|done].
  - intros cf m v f ? ->. rewrite decide_False by done. by eexists.
  - intros cf m _ _ _. eexists. split; [done|]. intros m' ?. simpl. unfold upd. by rewrite !decide_False.
Qed.
End configurator.
Arguments config : clear implicits.

(** The module whose server runs a message. *)
Definition msg_module {C} (msg : EvmosMsg C) : AppModule :=
  match msg with
  | em_create _ | em_clawback _ => m_vesting
  | em_convert_coin _ | em_convert_erc20 _ => m_erc20
  | em_register _ | em_cancel _ | em_update _ => m_feesplit
  end.

(** The services the modules register are complete.  [RegisterServices] of the module
    manager does not panic; every module of the chain has its query server, every message of
    the chain has the server of its module, and for every version below the consensus version
    of a module the migration to the next one is registered - for claims and erc20 the
    migration of their stores - and no other. *)
Lemma services_registered {D X Cf C} `{ConfiguratorLaws Cf (M (app_stores D X) unit)} foreign_ConsensusVersion :
  ∃ cf : Cf, mm_RegisterServices (D := D) (X := X) cf_empty = Ok cf ∧
    (∀ msg : EvmosMsg C, cf_msg cf (msg_module msg) = true) ∧
    (∀ m, m ∈ own_modules → cf_query cf m = true ∧
       ∀ v, is_Some (cf_migration cf m v) ↔ (1 ≤ v < ConsensusVersion foreign_ConsensusVersion m)%Z) ∧
    cf_migration cf m_claims 1 = Some (on_claims (modify claims_MigrateStore)) ∧
    cf_migration cf m_erc20 1 = Some (on_erc20 (modify erc20_UpdateParams)).
Proof.
  destruct (services_all (D := D) (X := X) mm_modules (cf_empty : Cf)) as (cf & Hrun & _ & Hreg).
  { apply (bool_decide_unpack _); vm_compute; done. }
  { intros m _. split_and!; [apply (cf_nothing m 1)..|]. intros v. apply cf_nothing. }
  assert (Hown : ∀ m, m ∈ own_modules → registered cf m).
  { intros m Hm. apply Hreg; [|done]. apply (bool_decide_unpack _). by destruct m. }
  exists cf. split; [exact Hrun|]. split; [|split].
  - intros msg. destruct (Hown (msg_module msg)) as [-> _]; [|by destruct msg].
    apply (bool_decide_unpack _). by destruct msg.
  - intros m Hm. destruct (Hown m Hm) as (_ & Hq & Hv). split; [done|]. intros v. rewrite Hv.
    apply (bool_decide_pack _) in Hm. destruct m; try (by vm_compute in Hm); unfold ConsensusVersion, is_Some; simpl;
      destruct (decide (v = 1%Z)); (split; [intros [? ?]|intros ?; eauto]); simplify_eq; lia.
  - split; [destruct (Hown m_claims) as (_ & _ & ->)|destruct (Hown m_erc20) as (_ & _ & ->)]; try done;
      apply (bool_decide_unpack _); by vm_compute.
Qed.

(** With the configurator above, the upgrade from version 1 finds the migration of erc20. *)
Lemma services_registered_witness :
  ∃ cf : config (M (app_stores Z unit) unit), mm_RegisterServices (D := Z) (X := unit) cf_empty = Ok cf ∧
    cfg_migration cf m_erc20 1 = Some (on_erc20 (modify erc20_UpdateParams)).
Proof.
  destruct (services_registered (D := Z) (X := unit) (C := coins) (Cf := config (M (app_stores Z unit) unit)) (λ _, 1%Z))
    as (cf & Hrun & _ & _ & _ & Hm).
  exists cf. split; [exact Hrun|exact Hm].
Defined.

(** ** The whole construction *)

(** An order that names all modules is accepted. *)
Lemma orders_set `{BaseApplicationLaws} order : forallb (λ m, bool_decide (m ∈ order)) mm_modules = true → SetOrder mm_modules order = Ok tt.
Proof.
  intros Hall. apply order_complete. intros m Hm. rewrite forallb_forall in Hall. apply list_elem_of_In, Hall in Hm. by apply bool_decide_eq_true in Hm.
Qed.

(** C19: The application is wired as its modules need it.  The construction of the keepers in
    [NewEvmos] does not panic: the module accounts for which the constructors of inflation,
    staking, distribution, governance, EVM and transfer ask are among the permissions, every
    subspace is registered and gets the table of its module once, and every store key that a
    keeper looks up was created.  A packet that the transfer keeper sends passes the claims and
    the recovery keeper before the channel, although the wrappers were set after the transfer
    keeper got its pointer.  The hooks are those of the keepers of the application, and every
    copy of the staking keeper that a module got has them.  What follows - the orders of the
    modules, their services, the options of the transaction checks, the upgrade file, the load
    of the stores - fails for three reasons only: it panics when the configuration has no
    handler of signing modes or the upgrade file cannot be read, and ends with the error of
    the stores when they do not load; otherwise the application, with the server of every
    message and the migration of every older version, is returned.  The routers, the
    simulation manager and the counter are not part of it. *)
Theorem application_wired {D C X PK AK Cf} `{SdkDec D, SdkCoins C, ParamsKeeperLaws PK, SdkWiringLaws AK, !ForeignKeepers PK AK, !ForeignKeepersLaws PK AK}
    `{BaseApplicationLaws} `{ConfiguratorLaws Cf (M (app_stores D X) unit)}
    feeCollectorName channel_id_valid gov_table SignModeHandler loadLatest ReadUpgradeInfoFromDisk IsSkipHeight :
  ∃ (app : Evmos AK) (h : heap PK AK) (cf : Cf),
    new_keepers (D := D) (C := C) feeCollectorName channel_id_valid gov_table empty_heap = (Ok app, h) ∧
    packets_pass h app ∧ hooks_shared h app ∧ stores_found app ∧
    Forall (λ '(m, ks), pk_tables (h_params h) m = Some ks) (tables_of (D := D) (C := C) channel_id_valid) ∧
    (∀ msg : EvmosMsg C, cf_msg cf (msg_module msg) = true) ∧
    (∀ foreign m v, m ∈ own_modules → (1 ≤ v < ConsensusVersion foreign m)%Z → is_Some (cf_migration cf m v)) ∧
    NewEvmos (D := D) (C := C) (X := X) feeCollectorName channel_id_valid gov_table SignModeHandler loadLatest ReadUpgradeInfoFromDisk
      IsSkipHeight empty_heap =
    match SignModeHandler, ReadUpgradeInfoFromDisk with
    | true, Ok (name, height) =>
        let added := added_stores (IsSkipHeight height) name in
        (let? _ := if loadLatest then LoadLatestVersion keys added else Ok tt in Ok (app, cf, added), h)
    | _, _ => (Panic, h)
    end.
Proof.
  destruct (keepers_wired (D := D) (C := C) (PK := PK) (AK := AK) feeCollectorName channel_id_valid gov_table) as (app & h & Hrun & Hp & Hh & Hs & Ht).
  destruct (services_registered (D := D) (X := X) (C := C) (Cf := Cf) (λ _, 1%Z)) as (cf & Hcf & Hmsg & _).
  exists app, h, cf. do 6 (split; [done|]). split.
  { intros foreign m v Hm Hv. destruct (services_registered (D := D) (X := X) (C := C) (Cf := Cf) foreign) as (cf' & Hcf' & _ & Hmig & _).
    assert (cf' = cf) as -> by congruence. by apply Hmig. }
  unfold NewEvmos. rewrite (bind_step _ _ _ _ _ Hrun).
  unfold lift at 1 2 3 4, bind. rewrite !orders_set by by vm_compute. rewrite Hcf.
  unfold check_options, setupUpgradeHandlers, ante_options, HandlerOptions_Validate.
  destruct SignModeHandler; [|done]. cbn. destruct ReadUpgradeInfoFromDisk as [[name height]| |]; [|done..]. cbn.
  destruct loadLatest; [|done]. unfold lift. by destruct (LoadLatestVersion _ _).
Qed.

(** The construction with these parts: it returns with the upgrade file of the eighth version,
    which adds a store, and panics without a handler of signing modes. *)
Lemma application_wired_witness :
  let run handler := NewEvmos (D := Z) (C := coins) (X := unit) (AK := list ModuleAccount) (Cf := config (M (app_stores Z unit) unit))
    "fee_collector" (λ _, true) ["depositparams"%string] handler true (Ok ("v8.0.0"%string, 5%Z)) (λ _, false)
    (empty_heap (PK := AppModule → option (list string))) in
  (∃ app cf h, run true = (Ok (app, cf, ["feesplit"%string]), h) ∧ h_claims h !! app_ClaimsKeeper app = Some (stack_claims app)) ∧
  ∃ h, run false = (Panic, h).
Proof.
  cbv zeta. split.
  - destruct (application_wired (D := Z) (C := coins) (X := unit) (AK := list ModuleAccount) (PK := AppModule → option (list string))
      (Cf := config (M (app_stores Z unit) unit)) "fee_collector" (λ _, true) ["depositparams"%string] true true
      (Ok ("v8.0.0"%string, 5%Z)) (λ _, false)) as (app & h & cf & _ & Hp & _ & _ & _ & _ & _ & Hrun).
    exists app, cf, h. split; [exact Hrun|apply Hp].
  - destruct (application_wired (D := Z) (C := coins) (X := unit) (AK := list ModuleAccount) (PK := AppModule → option (list string))
      (Cf := config (M (app_stores Z unit) unit)) "fee_collector" (λ _, true) ["depositparams"%string] false true
      (Ok ("v8.0.0"%string, 5%Z)) (λ _, false)) as (app & h & cf & _ & _ & _ & _ & _ & _ & _ & Hrun).
    exists h. exact Hrun.
Defined.
