(* ===== verification/Json.v ===== *)
(** * JSON as [encoding/json] reads it

    The command line reads schedule files and nonces with [json.Unmarshal].  This file
    has the values, the scanner with its string escapes, the numbers as their literals,
    and the decoding of numbers and fields by the rules of the Go package. *)

From Stdlib Require Import Ascii.
From S2P Require Import Prelude Erc20Types.

Inductive Json : Type :=
  | JNull
  | JBool (b : bool)
  | JNum (literal : string)
  | JStr (s : string)
  | JArr (l : list Json)
  | JObj (l : list (string * Json)).

Definition chr (n : nat) : ascii := ascii_of_nat n.
Definition is_code (n : nat) (a : ascii) : bool := Nat.eqb (code a) n.
Definition in_codes (lo hi : nat) (a : ascii) : bool := Nat.leb lo (code a) && Nat.leb (code a) hi.

(** ** The scanner *)

Definition is_space (a : ascii) : bool := is_code 32 a || is_code 9 a || is_code 10 a || is_code 13 a.
Fixpoint skip_space (s : string) : string :=
  match s with
  | EmptyString => s
  | String a rest => if is_space a then skip_space rest else s
  end.

(** The longest prefix of digits. *)
Fixpoint span_digits (s : string) : string * string :=
  match s with
  | EmptyString => (EmptyString, s)
  | String a rest => if is_digit a then let '(ds, r) := span_digits rest in (String a ds, r) else (EmptyString, s)
  end.

(** [int]: a zero, or digits that do not start with one. *)
Definition scan_int (s : string) : option (string * string) :=
  match s with
  | String a rest =>
      if is_code 48 a then Some (String a EmptyString, rest)
      else if is_digit a then Some (span_digits s) else None
  | EmptyString => None
  end.
(** [frac] and [exp], with the digits they need. *)
Definition scan_frac (s : string) : option (string * string) :=
  match s with
  | String a rest =>
      if is_code 46 a then
        match span_digits rest with (EmptyString, _) => None | (ds, r) => Some (String a ds, r) end
      else Some (EmptyString, s)
  | EmptyString => Some (EmptyString, s)
  end.
Definition scan_sign (s : string) : string * string :=
  match s with
  | String a rest => if is_code 43 a || is_code 45 a then (String a EmptyString, rest) else (EmptyString, s)
  | EmptyString => (EmptyString, s)
  end.
Definition scan_exp (s : string) : option (string * string) :=
  match s with
  | String a rest =>
      if is_code 101 a || is_code 69 a then
        let '(sign, rest) := scan_sign rest in
        match span_digits rest with (EmptyString, _) => None | (ds, r) => Some (String a (String.append sign ds), r) end
      else Some (EmptyString, s)
  | EmptyString => Some (EmptyString, s)
  end.
Definition scan_number (s : string) : option (string * string) :=
  let '(minus, s) := match s with
                     | String a rest => if is_code 45 a then (String a EmptyString, rest) else (EmptyString, s)
                     | EmptyString => (EmptyString, s) end in
  match scan_int s with
  | None => None
  | Some (i, s) =>
      match scan_frac s with
      | None => None
      | Some (f, s) =>
          match scan_exp s with
          | None => None
          | Some (e, s) => Some (String.append minus (String.append i (String.append f e)), s)
          end
      end
  end.

(** ** Strings: [unquote] *)

Definition is_cont (a : ascii) : bool := in_codes 128 191 a.
(** [utf8.DecodeRune]: the number of bytes of the rune at the head, and none when it is
    not valid. *)
Definition rune_size (s : string) : nat :=
  match s with
  | EmptyString => 0
  | String a r1 =>
      if Nat.ltb (code a) 128 then 1 else
      match r1 with
      | EmptyString => 0
      | String b r2 =>
          if in_codes 194 223 a && is_cont b then 2 else
          match r2 with
          | EmptyString => 0
          | String c r3 =>
              if is_cont c && (is_code 224 a && in_codes 160 191 b || is_code 237 a && in_codes 128 159 b
                 || (in_codes 225 236 a || in_codes 238 239 a) && is_cont b) then 3 else
              match r3 with
              | EmptyString => 0
              | String d _ =>
                  if is_cont c && is_cont d && (is_code 240 a && in_codes 144 191 b || is_code 244 a && in_codes 128 143 b
                     || in_codes 241 243 a && is_cont b) then 4 else 0
              end
          end
      end
  end%nat.

Definition rune_error : Z := 65533.
(** [utf8.EncodeRune] *)
Definition encode_rune (r : Z) : string :=
  let byte z := chr (Z.to_nat z) in
  let cont z := byte (128 + z mod 64) in
  if r <? 128 then String (byte r) EmptyString
  else if r <? 2048 then String (byte (192 + r / 64)) (String (cont r) EmptyString)
  else if r <? 65536 then String (byte (224 + r / 4096)) (String (cont (r / 64)) (String (cont r) EmptyString))
  else String (byte (240 + r / 262144)) (String (cont (r / 4096)) (String (cont (r / 64)) (String (cont r) EmptyString))).

Definition hex_value (a : ascii) : option Z :=
  if is_digit a then Some (Z.of_nat (code a) - 48)
  else if in_codes 97 102 a then Some (Z.of_nat (code a) - 87)
  else if in_codes 65 70 a then Some (Z.of_nat (code a) - 55) else None.
(** [getu4]: four hexadecimal digits behind [\u] *)
Definition four_hex (s : string) : option (Z * string) :=
  match s with
  | String a (String b (String c (String d rest))) =>
      match hex_value a, hex_value b, hex_value c, hex_value d with
      | Some w, Some x, Some y, Some z => Some (4096 * w + 256 * x + 16 * y + z, rest)
      | _, _, _, _ => None
      end
  | _ => None
  end.
(** The low surrogate of a pair, if it follows. *)
Definition low_surrogate (s : string) : option (Z * string) :=
  match s with
  | String a (String b rest) =>
      if is_code 92 a && is_code 117 b then
        match four_hex rest with
        | Some (r, rest) => if (56320 <=? r) && (r <? 57344) then Some (r, rest) else None
        | None => None
        end
      else None
  | _ => None
  end.
Definition unicode_escape (s : string) : option (string * string) :=
  match four_hex s with
  | None => None
  | Some (r, rest) =>
      if (55296 <=? r) && (r <? 57344) then
        match (if r <? 56320 then low_surrogate rest else None) with
        | Some (r', rest') => Some (encode_rune (65536 + (r - 55296) * 1024 + (r' - 56320)), rest')
        | None => Some (encode_rune rune_error, rest)
        end
      else Some (encode_rune r, rest)
  end.
Definition simple_escape (a : ascii) : option ascii :=
  if is_code 34 a || is_code 92 a || is_code 47 a then Some a
  else if is_code 98 a then Some (chr 8) else if is_code 102 a then Some (chr 12)
  else if is_code 110 a then Some (chr 10) else if is_code 114 a then Some (chr 13)
  else if is_code 116 a then Some (chr 9) else None.

(** The characters behind the opening quote; every round takes at least one. *)
Fixpoint scan_string (fuel : nat) (s : string) : option (string * string) :=
  match fuel, s with
  | S fuel, String a rest =>
      let then_ (x : string) (r : string) := match scan_string fuel r with Some (y, r) => Some (String.append x y, r) | None => None end in
      if is_code 34 a then Some (EmptyString, rest)
      else if Nat.ltb (code a) 32 then None
      else if is_code 92 a then
        match rest with
        | EmptyString => None
        | String e r =>
            if is_code 117 e then match unicode_escape r with Some (x, r) => then_ x r | None => None end
            else match simple_escape e with Some c => then_ (String c EmptyString) r | None => None end
        end
      else
        match rune_size s with
        | O => then_ (encode_rune rune_error) rest
        | n => then_ (String.substring 0 n s) (drop_chars n s)
        end
  | _, _ => None
  end.

(** ** Values *)

Definition after_prefix (p s : string) : option string :=
  if String.prefix p s then Some (drop_chars (String.length p) s) else None.

Definition scan_literal (s : string) : option (Json * string) :=
  match after_prefix "null" s with
  | Some r => Some (JNull, r)
  | None =>
      match after_prefix "true" s with
      | Some r => Some (JBool true, r)
      | None => match after_prefix "false" s with Some r => Some (JBool false, r) | None => None end
      end
  end.

(** [maxNestingDepth] *)
Definition max_depth : Z := 10000.

Section values.
(** The values inside an array or an object. *)
Variable scan_inner : string → option (Json * string).

(** A name, a colon and a value. *)
Definition scan_member (s : string) : option ((string * Json) * string) :=
  match s with
  | String q rest =>
      if is_code 34 q then
        match scan_string (String.length rest) rest with
        | Some (k, r) =>
            match skip_space r with
            | String c r =>
                if is_code 58 c then
                  match scan_inner (skip_space r) with Some (v, r) => Some ((k, v), r) | None => None end
                else None
            | EmptyString => None
            end
        | None => None
        end
      else None
  | EmptyString => None
  end.

(** What follows the first item of an array, or the first member of an object. *)
Fixpoint scan_items (n : nat) (acc : list Json) (s : string) : option (Json * string) :=
  match n, s with
  | S n, String a rest =>
      if is_code 93 a then Some (JArr (reverse acc), rest)
      else if is_code 44 a then
        match scan_inner (skip_space rest) with Some (v, r) => scan_items n (v :: acc) (skip_space r) | None => None end
      else None
  | _, _ => None
  end.
Fixpoint scan_members (n : nat) (acc : list (string * Json)) (s : string) : option (Json * string) :=
  match n, s with
  | S n, String a rest =>
      if is_code 125 a then Some (JObj (reverse acc), rest)
      else if is_code 44 a then
        match scan_member (skip_space rest) with Some (kv, r) => scan_members n (kv :: acc) (skip_space r) | None => None end
      else None
  | _, _ => None
  end.

Definition scan_array (rest : string) : option (Json * string) :=
  match skip_space rest with
  | String b r =>
      if is_code 93 b then Some (JArr [], r)
      else match scan_inner (String b r) with
           | Some (v, r) => scan_items (String.length rest) [v] (skip_space r) | None => None end
  | EmptyString => None
  end.
Definition scan_object (rest : string) : option (Json * string) :=
  match skip_space rest with
  | String b r =>
      if is_code 125 b then Some (JObj [], r)
      else match scan_member (String b r) with
           | Some (kv, r) => scan_members (String.length rest) [kv] (skip_space r) | None => None end
  | EmptyString => None
  end.
End values.

(** A value at the head of [s], inside [depth] arrays and objects. *)
Fixpoint scan_value (fuel : nat) (depth : Z) (s : string) : option (Json * string) :=
  match fuel with
  | O => None
  | S fuel =>
      match s with
      | EmptyString => None
      | String a rest =>
          if is_code 34 a then
            match scan_string (String.length rest) rest with Some (x, r) => Some (JStr x, r) | None => None end
          else if is_code 91 a then
            if max_depth <=? depth then None else scan_array (scan_value fuel (depth + 1)) rest
          else if is_code 123 a then
            if max_depth <=? depth then None else scan_object (scan_value fuel (depth + 1)) rest
          else if is_code 45 a || is_digit a then
            match scan_number s with Some (l, r) => Some (JNum l, r) | None => None end
          else scan_literal s
      end
  end.

(** The whole text is one value: every level of the recursion takes a character. *)
Definition json_parse (s : string) : option Json :=
  match scan_value (S (String.length s)) 0 (skip_space s) with
  | Some (v, rest) => match skip_space rest with EmptyString => Some v | _ => None end
  | None => None
  end.

(** ** Decoding *)

(** The value of digits; [strconv.ParseUint(s, 10, bits)] *)
Fixpoint digits_value (acc : Z) (s : string) : option Z :=
  match s with
  | EmptyString => Some acc
  | String a s => if is_digit a then digits_value (10 * acc + (Z.of_nat (code a) - 48)) s else None
  end.
Definition ParseUint (s : string) (bits : Z) : option Z :=
  match s with
  | EmptyString => None
  | _ => match digits_value 0 s with Some n => if n <? 2 ^ bits then Some n else None | None => None end
  end.
(** [strconv.ParseInt(s, 10, 64)] *)
Definition ParseInt64 (s : string) : option Z :=
  let '(neg, ds) := match s with
                    | String a rest => if is_code 45 a then (true, rest) else if is_code 43 a then (false, rest) else (false, s)
                    | EmptyString => (false, s) end in
  match ParseUint ds 64 with
  | None => None
  | Some n => if neg then (if n <=? 2 ^ 63 then Some (- n) else None) else if n <? 2 ^ 63 then Some n else None
  end.

(** A value decoded over an earlier one: [null] leaves it, another type is an error. *)
Definition decode_int64 (old : Z) (v : Json) : option Z :=
  match v with JNull => Some old | JNum l => ParseInt64 l | _ => None end.
Definition decode_uint64 (old : Z) (v : Json) : option Z :=
  match v with JNull => Some old | JNum l => ParseUint l 64 | _ => None end.
Definition decode_string (old : string) (v : Json) : option string :=
  match v with JNull => Some old | JStr s => Some s | _ => None end.

(** Items are decoded over the items of the earlier value, and over [zero] behind them. *)
Fixpoint decode_items {A} (f : A → Json → option A) (zero : A) (old : list A) (l : list Json) : option (list A) :=
  match l with
  | [] => Some []
  | v :: rest =>
      match f (default zero (head old)) v with
      | None => None
      | Some x => match decode_items f zero (tail old) rest with Some xs => Some (x :: xs) | None => None end
      end
  end.
Definition decode_slice {A} (f : A → Json → option A) (zero : A) (old : list A) (v : Json) : option (list A) :=
  match v with JNull => Some [] | JArr l => decode_items f zero old l | _ => None end.

(** Names are compared without case; the long s and the Kelvin sign are letters too. *)
Fixpoint fold_name (fuel : nat) (s : string) : string :=
  match fuel, s with
  | S fuel, String a rest =>
      if String.prefix (String (chr 197) (String (chr 191) EmptyString)) s then String (chr 115) (fold_name fuel (drop_chars 2 s))
      else if String.prefix (String (chr 226) (String (chr 132) (String (chr 170) EmptyString))) s
      then String (chr 107) (fold_name fuel (drop_chars 3 s))
      else String (if in_codes 65 90 a then chr (code a + 32) else a) (fold_name fuel rest)
  | _, _ => EmptyString
  end.
Definition is_field (name key : string) : bool := String.eqb (fold_name (String.length key) key) name.

(** The members of an object in order, each for the field of its name; others are ignored. *)
Fixpoint decode_members {A} (field : string → A → Json → option A) (old : A) (l : list (string * Json)) : option A :=
  match l with
  | [] => Some old
  | (k, v) :: rest => match field k old v with Some x => decode_members field x rest | None => None end
  end.
Definition decode_struct {A} (field : string → A → Json → option A) (old : A) (v : Json) : option A :=
  match v with JNull => Some old | JObj l => decode_members field old l | _ => None end.
