(* ===== verification/Clients.v ===== *)
(** * The transaction commands: [x/*/client/cli]

    A command takes the address of the signer, its flags and its arguments, and ends with
    the message it hands to [tx.GenerateOrBroadcastTxCLI], or with an error.  Signing and
    sending are not modelled. *)

From S2P Require Import Prelude Sdk Dec Schedule Clawback Keepers VestingMsgs Erc20Types Incentives Feesplit Json.

(** [sdk.ParseCoinNormalized] and the like, and the codec of the bank's metadata. *)
Class ClientParsers (C D : Type) := {
  ParseCoinNormalized : string → option (string * Z);
  ParseCoinsNormalized : string → option C;
  ParseDecCoins : string → option (list (DecCoin D));
  NewIntFromString : string → option Z;
  UnmarshalMetadata : string → option Metadata;
}.
Arguments ParseCoinNormalized C D {_} _.
Arguments ParseCoinsNormalized {C} D {_} _.
Arguments ParseDecCoins C {D} {_} _.
Arguments NewIntFromString C D {_} _.
Arguments UnmarshalMetadata C D {_} _.

(** An error for a value that does not parse. *)
Definition parsed {A} (what : string) (o : option A) : outcome A :=
  match o with Some a => Ok a | None => Err (ErrMsg what) end.

(** [cobra.ExactArgs(n)] and [cobra.RangeArgs(m, n)] fail with this error. *)
Definition wrong_args {A} : outcome A := Err (ErrMsg "wrong number of arguments").

(** ** Schedule files: [x/vesting/client/cli/utils.go] *)

Record InputPeriod := mkInput { ip_Coins : string; ip_Length : Z }.
Record VestingData := mkVestingData { vd_StartTime : Z; vd_Periods : list InputPeriod }.

(** The decoding of the two structs by their tags. *)
Definition period_field (key : string) (p : InputPeriod) (v : Json) : option InputPeriod :=
  if is_field "coins" key then
    match decode_string (ip_Coins p) v with Some c => Some (mkInput c (ip_Length p)) | None => None end
  else if is_field "length_seconds" key then
    match decode_int64 (ip_Length p) v with Some n => Some (mkInput (ip_Coins p) n) | None => None end
  else Some p.
Definition data_field (key : string) (d : VestingData) (v : Json) : option VestingData :=
  if is_field "start_time" key then
    match decode_int64 (vd_StartTime d) v with Some n => Some (mkVestingData n (vd_Periods d)) | None => None end
  else if is_field "periods" key then
    match decode_slice (decode_struct period_field) (mkInput EmptyString 0) (vd_Periods d) v with
    | Some ps => Some (mkVestingData (vd_StartTime d) ps) | None => None end
  else Some d.
(** [json.Unmarshal(contents, &data)] *)
Definition unmarshal_data (contents : string) : option VestingData :=
  match json_parse contents with Some v => decode_struct data_field (mkVestingData 0 []) v | None => None end.

Section clients.
Context {C D : Type} `{SdkCoins C, !SdkPeriods C, SdkDec D, !DecCoins D, SdkAddress, EthAddress, !ClientParsers C D}.
(** [os.ReadFile(filepath.Clean(path))] *)
Variable ReadFile : string → option string.

(** The loop over the periods. *)
Fixpoint read_periods (l : list InputPeriod) : outcome (list (Period C)) :=
  match l with
  | [] => Ok []
  | p :: rest =>
      let? _ := ocheck (ip_Length p <? 1) (ErrMsg "invalid period length") in
      let? amount := parsed "invalid coins" (ParseCoinsNormalized D (ip_Coins p)) in
      let? periods := read_periods rest in
      Ok (mkPeriod (ip_Length p) amount :: periods)
  end.

Definition ReadScheduleFile (path : string) : outcome (Z * list (Period C)) :=
  let? contents := parsed "no such file" (ReadFile path) in
  let? data := parsed "invalid schedule" (unmarshal_data contents) in
  let? periods := read_periods (vd_Periods data) in
  Ok (vd_StartTime data, periods).

(** [if file != "" { start, periods, err = ReadScheduleFile(file) }] *)
Definition read_schedule (start : Z) (file : string) : outcome (Z * list (Period C)) :=
  if String.eqb file EmptyString then Ok (start, []) else ReadScheduleFile file.

(** ** [x/vesting/client/cli/tx.go] *)

(** [types/msg.go] *)
Definition NewMsgCreateClawbackVestingAccount (fromAddr toAddr : string) (startTime : Z)
    (lockupPeriods vestingPeriods : list (Period C)) (merge : bool) : MsgCreateClawbackVestingAccount C :=
  mkMsgCreate (acc_string fromAddr) (acc_string toAddr) startTime lockupPeriods vestingPeriods merge.
Definition NewMsgClawback (funder addr : string) (dest : option string) : MsgClawback :=
  mkMsgClawback (acc_string funder) (acc_string addr) match dest with Some d => acc_string d | None => EmptyString end.

Record CreateFlags := mkCreateFlags { FlagLockup : string; FlagVesting : string; FlagMerge : bool }.

(** [AlignSchedules] extends the first periods of the slices in place, and the message is
    made of the slices. *)
Definition NewMsgCreateClawbackVestingAccountCmd (clientCtx : outcome string) (flags : CreateFlags) (args : list string)
    : outcome (MsgCreateClawbackVestingAccount C) :=
  match args with
  | [to] =>
      let? from := clientCtx in
      let? toAddr := parsed "invalid address" (acc_from_bech32 to) in
      let? _ := ocheck (String.eqb (FlagLockup flags) EmptyString && String.eqb (FlagVesting flags) EmptyString)
                  (ErrMsg "must specify at least one of lockup or vesting") in
      let? (lockupStart, lockupPeriods) := read_schedule 0 (FlagLockup flags) in
      let? (vestingStart, vestingPeriods) := read_schedule 0 (FlagVesting flags) in
      let '(commonStart, _, lockupPeriods, vestingPeriods) :=
        AlignSchedules lockupStart vestingStart lockupPeriods vestingPeriods in
      let msg := NewMsgCreateClawbackVestingAccount from toAddr (from_unix commonStart) lockupPeriods vestingPeriods
                   (FlagMerge flags) in
      let? _ := MsgCreate_ValidateBasic msg in
      Ok msg
  | _ => wrong_args
  end.

(** The destination of the flag [dest]. *)
Definition NewMsgClawbackCmd (clientCtx : outcome string) (flagDest : string) (args : list string) : outcome MsgClawback :=
  match args with
  | [account] =>
      let? from := clientCtx in
      let? addr := parsed "invalid address" (acc_from_bech32 account) in
      let? dest := if String.eqb flagDest EmptyString then Ok None
                   else let? d := parsed "bad dest address" (acc_from_bech32 flagDest) in Ok (Some d) in
      let msg := NewMsgClawback from addr dest in
      let? _ := MsgClawback_ValidateBasic msg in
      Ok msg
  | _ => wrong_args
  end.

(** ** [x/erc20/client/cli/tx.go] *)

(** [ibctransfertypes.ValidateIBCDenom] *)
Variable validate_ibc_denom : string → option error.

Definition NewConvertCoinCmd (clientCtx : outcome string) (args : list string) : outcome MsgConvertCoin :=
  let convert coinStr receiver :=
    let? sender := clientCtx in
    let? (denom, amount) := parsed "invalid coin" (ParseCoinNormalized C D coinStr) in
    let? receiver := match receiver with
                     | Some receiver =>
                         let? _ := ocheck (negb (validate_address receiver)) (ErrMsg "invalid receiver hex address") in
                         Ok receiver
                     | None => Ok (address_hex (bytes_to_address sender))
                     end in
    let msg := mkConvertCoin denom amount receiver (acc_string sender) in
    let? _ := MsgConvertCoin_ValidateBasic validate_ibc_denom msg in
    Ok msg in
  match args with
  | [coin] => convert coin None
  | [coin; receiver] => convert coin (Some receiver)
  | _ => wrong_args
  end.

Definition NewConvertERC20Cmd (clientCtx : outcome string) (args : list string) : outcome MsgConvertERC20 :=
  let convert contract amountStr receiver :=
    let? sender := clientCtx in
    let? _ := ocheck (negb (validate_address contract)) (ErrMsg "invalid ERC20 contract address") in
    let? amount := parsed "invalid amount" (NewIntFromString C D amountStr) in
    let from := bytes_to_address sender in
    let? receiver := match receiver with
                     | Some receiver => parsed "invalid address" (acc_from_bech32 receiver)
                     | None => Ok sender
                     end in
    let msg := mkConvertERC20 contract amount (acc_string receiver) (address_hex from) in
    let? _ := MsgConvertERC20_ValidateBasic msg in
    Ok msg in
  match args with
  | [contract; amount] => convert contract amount None
  | [contract; amount; receiver] => convert contract amount (Some receiver)
  | _ => wrong_args
  end.

(** ** Proposals *)

Record ProposalFlags := mkProposalFlags { FlagTitle : string; FlagDescription : string; FlagDeposit : string }.

(** [govtypes.MsgSubmitProposal] *)
Record MsgSubmitProposal (P : Type) := mkSubmit {
  sp_Title : string; sp_Description : string; sp_Content : P; sp_InitialDeposit : C; sp_Proposer : string;
}.
Arguments mkSubmit {P} _ _ _ _ _.
Arguments sp_Title {P} _.
Arguments sp_Description {P} _.
Arguments sp_Content {P} _.
Arguments sp_InitialDeposit {P} _.
Arguments sp_Proposer {P} _.

(** [msg.ValidateBasic()] of the gov module, which validates the content of the proposal. *)
Variable submit_ValidateBasic : ∀ {P}, (P → outcome unit) → MsgSubmitProposal P → outcome unit.

(** The common part of the commands: the deposit, the content, and the message. *)
Definition submit_proposal {P} (validate : P → outcome unit) (clientCtx : outcome string) (flags : ProposalFlags)
    (content : outcome P) : outcome (MsgSubmitProposal P) :=
  let? from := clientCtx in
  let? deposit := parsed "invalid deposit" (ParseCoinsNormalized D (FlagDeposit flags)) in
  let? content := content in
  let msg := mkSubmit (FlagTitle flags) (FlagDescription flags) content deposit (acc_string from) in
  let? _ := submit_ValidateBasic validate msg in
  Ok msg.

Variable metadata_validate : Metadata → option error.
Variable erc20_abstract : Proposal → option error.
Variable incentives_abstract : IncentiveProposal D → option error.
Local Abbreviation submit_erc20 :=
  (submit_proposal (Proposal_ValidateBasic (C := C) validate_ibc_denom metadata_validate erc20_abstract)).
Local Abbreviation submit_incentives := (submit_proposal (IncentiveProposal_ValidateBasic incentives_abstract)).

(** [utils.go] *)
Definition ParseMetadata (metadataFile : string) : outcome Metadata :=
  let? contents := parsed "no such file" (ReadFile metadataFile) in
  parsed "invalid metadata" (UnmarshalMetadata C D contents).

Definition NewRegisterCoinProposalCmd (clientCtx : outcome string) (flags : ProposalFlags) (args : list string)
    : outcome (MsgSubmitProposal Proposal) :=
  match args with
  | [metadataFile] => submit_erc20 clientCtx flags (let? metadata := ParseMetadata metadataFile in Ok (RegisterCoinProposal metadata))
  | _ => wrong_args
  end.
Definition NewRegisterERC20ProposalCmd (clientCtx : outcome string) (flags : ProposalFlags) (args : list string)
    : outcome (MsgSubmitProposal Proposal) :=
  match args with
  | [erc20Addr] => submit_erc20 clientCtx flags (Ok (RegisterERC20Proposal erc20Addr))
  | _ => wrong_args
  end.
Definition NewToggleTokenConversionProposalCmd (clientCtx : outcome string) (flags : ProposalFlags) (args : list string)
    : outcome (MsgSubmitProposal Proposal) :=
  match args with
  | [token] => submit_erc20 clientCtx flags (Ok (ToggleTokenConversionProposal token))
  | _ => wrong_args
  end.

(** [x/incentives/client/cli/tx.go] *)
Definition NewRegisterIncentiveProposalCmd (clientCtx : outcome string) (flags : ProposalFlags) (args : list string)
    : outcome (MsgSubmitProposal (IncentiveProposal D)) :=
  match args with
  | [contract; allocationStr; epochsStr] =>
      submit_incentives clientCtx flags
        (let? _ := ocheck (negb (is_hex_address contract)) (ErrMsg "invalid contract address") in
         let? allocation := parsed "invalid allocation" (ParseDecCoins C allocationStr) in
         let? epochs := parsed "invalid epochs" (ParseUint epochsStr 32) in
         Ok (RegisterIncentiveProposal contract allocation epochs))
  | _ => wrong_args
  end.
Definition NewCancelIncentiveProposalCmd (clientCtx : outcome string) (flags : ProposalFlags) (args : list string)
    : outcome (MsgSubmitProposal (IncentiveProposal D)) :=
  match args with
  | [contract] =>
      submit_incentives clientCtx flags
        (let? _ := ocheck (negb (is_hex_address contract)) (ErrMsg "invalid contract address") in
         Ok (CancelIncentiveProposal contract))
  | _ => wrong_args
  end.

(** ** [x/feesplit/client/cli/tx.go] *)

(** The nonces, as the items of an array. *)
Definition unmarshal_nonces (s : string) : option (list Z) :=
  match json_parse (String.append "[" (String.append s "]")) with
  | Some v => decode_slice decode_uint64 0 [] v
  | None => None
  end.

Definition NewRegisterFeeSplit (clientCtx : outcome string) (args : list string) : outcome MsgRegisterFeeSplit :=
  let register contract noncesStr withdraw :=
    let? deployer := clientCtx in
    let? _ := ocheck (negb (validate_nonzero_address contract)) (ErrMsg "invalid contract hex address") in
    let? nonces := parsed "invalid nonces" (unmarshal_nonces noncesStr) in
    let? _ := match withdraw with Some w => check_bech32 w | None => Ok tt end in
    let withdraw := default EmptyString withdraw in
    (* the deployer needs no withdraw address *)
    let withdraw := if String.eqb (acc_string deployer) withdraw then EmptyString else withdraw in
    let msg := mkMsgRegister contract (acc_string deployer) withdraw nonces in
    let? _ := MsgRegisterFeeSplit_ValidateBasic msg in
    Ok msg in
  match args with
  | [contract; nonces] => register contract nonces None
  | [contract; nonces; withdraw] => register contract nonces (Some withdraw)
  | _ => wrong_args
  end.

Definition NewCancelFeeSplit (clientCtx : outcome string) (args : list string) : outcome MsgCancelFeeSplit :=
  match args with
  | [contract] =>
      let? deployer := clientCtx in
      let? _ := ocheck (negb (validate_nonzero_address contract)) (ErrMsg "invalid contract hex address") in
      let msg := mkMsgCancel contract (acc_string deployer) in
      let? _ := MsgCancelFeeSplit_ValidateBasic msg in
      Ok msg
  | _ => wrong_args
  end.

Definition NewUpdateFeeSplit (clientCtx : outcome string) (args : list string) : outcome MsgUpdateFeeSplit :=
  match args with
  | [contract; withdraw] =>
      let? deployer := clientCtx in
      let? _ := ocheck (negb (validate_nonzero_address contract)) (ErrMsg "invalid contract hex address") in
      let? _ := check_bech32 withdraw in
      let msg := mkMsgUpdate contract (acc_string deployer) withdraw in
      let? _ := MsgUpdateFeeSplit_ValidateBasic msg in
      Ok msg
  | _ => wrong_args
  end.
End clients.

Arguments mkSubmit {C P} _ _ _ _ _.
Arguments sp_Title {C P} _.
Arguments sp_Description {C P} _.
Arguments sp_Content {C P} _.
Arguments sp_InitialDeposit {C P} _.
Arguments sp_Proposer {C P} _.
