(* ===== verification/QueryClients.v ===== *)
(** * The query commands: [x/*/client/cli/query.go]

    A query command takes its arguments, the client's context and, where it lists entries,
    the page that its flags ask for.  It ends with the answer of the query server that it
    hands to the printer, or with an error.  The connection to a node is the context; the
    request itself is the call of the query of the module. *)

From stdpp Require Import pretty.
From S2P Require Import Prelude Sdk Dec Keepers Schedule Clawback VestingMsgs Erc20Types Epochs Inflation Ibc Claims Erc20 Evm Incentives Feesplit Recovery Queries Json Clients.

(** [cobra.NoArgs] and [cobra.ExactArgs(1)] *)
Definition no_args {R} (args : list string) (run : outcome R) : outcome R :=
  match args with [] => run | _ => wrong_args end.
Definition one_arg {R} (args : list string) (run : string → outcome R) : outcome R :=
  match args with [arg] => run arg | _ => wrong_args end.

(** ** The [Params] queries: [x/*/keeper/grpc_query.go] *)

Section params.
Context {D X : Type}.
Definition incentives_query_Params (s : incentives_state D X) : outcome (IncentivesParams D) := Ok (incentives_GetParams s).
Definition erc20_query_Params (s : erc20_state X) : outcome Erc20Params := Ok (erc20_GetParams s).
Definition feesplit_query_Params (s : feesplit_state D X) : outcome (FeesplitParams D) := Ok (feesplit_GetParams s).
Definition claims_query_Params (s : claims_state X) : outcome ClaimsParams := Ok (claims_GetParams s).
Definition infl_query_Params (s : infl_state D X) : outcome (InflParams D) := Ok (infl_GetParams s).
Definition recovery_query_Params (s : recovery_state X) : outcome RecoveryParams := Ok (recovery_GetParams s).
End params.

(** The texts of the SDK's values, as [%s] prints them. *)
Class SdkStrings (C D : Type) := {
  coins_String : C → string;
  deccoin_String : string * D → string;
  dec_String : D → string;
}.
Arguments coins_String {C} D {_} _.
Arguments deccoin_String C {D} {_} _.
Arguments dec_String C {D} {_} _.

Definition newline : string := String (chr 10) EmptyString.
(** [fmt.Sprintf] of a value and a line end. *)
Definition line (s : string) : string := String.append s newline.

Section commands.
Context {C D X : Type} `{SdkCoins C, !SdkPeriods C, !SdkBaseVesting C, SdkDec D, SdkAddress, EthAddress, Ethermint, !SdkStrings C D}.
Context `{!AccountKeeper C X, !BankKeeper C X, !DistrKeeper C X, !StakingKeeper X}.
(** [client.GetClientQueryContext(cmd)] and [client.ReadPageRequest(cmd.Flags())] *)
Variable clientCtx : outcome unit.
Variable pageReq : outcome Pagination.

(** The two forms of the commands: they get the context, the page if they list, and run the query. *)
Definition queried {R} (query : outcome R) : outcome R := let? _ := clientCtx in query.
Definition listed {R} (query : Pagination → outcome R) : outcome R :=
  let? _ := clientCtx in let? page := pageReq in query page.

(** ** [x/incentives/client/cli/query.go] *)

Section incentives.
Implicit Types s : incentives_state D X.

Definition GetIncentivesCmd (args : list string) s : outcome (list (Incentive D)) :=
  no_args args (listed (λ page, query_Incentives s)).
Definition GetIncentiveCmd (args : list string) s : outcome (Incentive D) :=
  one_arg args (λ contract,
    let? _ := ocheck (negb (is_hex_address contract)) (ErrMsg "invalid contract address") in
    queried (query_Incentive contract s)).
Definition GetGasMetersCmd (args : list string) s : outcome (list GasMeter) :=
  one_arg args (λ contract,
    let? _ := ocheck (negb (is_hex_address contract)) (ErrMsg "invalid contract address") in
    listed (λ page, query_GasMeters contract s)).
Definition GetGasMeterCmd (args : list string) s : outcome Z :=
  match args with
  | [contract; participant] =>
      let? _ := ocheck (negb (is_hex_address contract)) (ErrMsg "invalid contract address") in
      let? _ := ocheck (negb (is_hex_address participant)) (ErrMsg "invalid user address") in
      queried (query_GasMeter contract participant s)
  | _ => wrong_args
  end.
Definition GetAllocationMetersCmd (args : list string) s : outcome (list (DecCoin D)) :=
  no_args args (listed (λ page, query_AllocationMeters s)).
Definition GetAllocationMeterCmd (args : list string) s : outcome (DecCoin D) :=
  one_arg args (λ denom, queried (query_AllocationMeter denom s)).
Definition incentives_GetParamsCmd (args : list string) s : outcome (IncentivesParams D) :=
  no_args args (queried (incentives_query_Params s)).
End incentives.

(** ** [x/erc20/client/cli/query.go] *)

Section erc20.
Implicit Types s : erc20_state X.

Definition GetTokenPairsCmd (args : list string) s : outcome (list TokenPair) :=
  no_args args (listed (λ page, query_TokenPairs s)).
Definition GetTokenPairCmd (args : list string) s : outcome TokenPair :=
  one_arg args (λ token, queried (query_TokenPair (C := C) token s)).
Definition erc20_GetParamsCmd (args : list string) s : outcome Erc20Params :=
  no_args args (queried (erc20_query_Params s)).
End erc20.

(** ** [x/feesplit/client/cli/query.go] *)

Section feesplit.
Implicit Types s : feesplit_state D X.

Definition GetCmdQueryFeeSplits (args : list string) s : outcome (list FeeSplit) :=
  no_args args (listed (λ page, query_FeeSplits (@paginate page) s)).
Definition GetCmdQueryFeeSplit (args : list string) s : outcome FeeSplit :=
  one_arg args (λ contract, queried (query_FeeSplit contract s)).
Definition feesplit_GetCmdQueryParams (args : list string) s : outcome (FeesplitParams D) :=
  no_args args (queried (feesplit_query_Params s)).
Definition GetCmdQueryDeployerFeeSplits (args : list string) s : outcome (list string) :=
  one_arg args (λ deployer, listed (λ page, query_DeployerFeeSplits (@paginate page) deployer s)).
Definition GetCmdQueryWithdrawerFeeSplits (args : list string) s : outcome (list string) :=
  one_arg args (λ withdrawer, listed (λ page, query_WithdrawerFeeSplits (@paginate page) withdrawer s)).
End feesplit.

(** ** [x/claims/client/cli/query.go] *)

Section claims.
Implicit Types s : claims_state X.

Definition GetCmdQueryTotalUnclaimed (args : list string) s : outcome C :=
  no_args args (queried (query_TotalUnclaimed s)).
Definition claims_GetCmdQueryParams (args : list string) s : outcome ClaimsParams :=
  no_args args (queried (claims_query_Params s)).
Definition GetCmdQueryClaimsRecords (args : list string) s : outcome (list ClaimsRecordAddress) :=
  no_args args (listed (λ page, query_ClaimsRecords s)).
Definition GetCmdQueryClaimsRecord (ctx : Ctx) (args : list string) s : outcome (Z * list (Action * bool * Z)) :=
  one_arg args (λ address, queried (query_ClaimsRecord (D := D) ctx address s)).
End claims.

(** ** [x/epochs/client/cli/query.go] *)

Section epochs.
Implicit Types s : epoch_state X.

Definition GetCmdEpochsInfos (args : list string) s : outcome (list EpochInfo) :=
  no_args args (listed (λ page, query_EpochInfos s)).
Definition GetCmdCurrentEpoch (args : list string) s : outcome Z :=
  one_arg args (λ identifier, queried (query_CurrentEpoch s identifier)).
End epochs.

(** ** [x/inflation/client/cli/query.go] *)

Section inflation.
Implicit Types s : infl_state D X.
Variable new_dec_coin : string → D → outcome (string * D).  (* [sdk.NewDecCoinFromDec] *)

Definition GetPeriodCmd (args : list string) s : outcome string :=
  no_args args (queried (let? period := query_Period s in Ok (line (pretty period)))).
Definition GetEpochMintProvisionCmd (args : list string) s : outcome string :=
  no_args args (queried (let? coin := query_EpochMintProvision new_dec_coin s in Ok (line (deccoin_String C coin)))).
Definition GetSkippedEpochsCmd (args : list string) s : outcome string :=
  no_args args (queried (let? skipped := query_SkippedEpochs s in Ok (line (pretty skipped)))).
Definition GetCirculatingSupplyCmd (ctx : Ctx) (args : list string) s : outcome string :=
  no_args args (queried (let? coin := query_CirculatingSupply new_dec_coin ctx s in Ok (line (deccoin_String C coin)))).
Definition GetInflationRateCmd (ctx : Ctx) (args : list string) s : outcome string :=
  no_args args (queried (let? rate := query_InflationRate ctx s in Ok (line (String.append (dec_String C rate) "%")))).
Definition GetInflationParamsCmd (args : list string) s : outcome (InflParams D) :=
  no_args args (queried (infl_query_Params s)).
End inflation.

(** ** [x/recovery/client/cli/query.go] and [x/vesting/client/cli/query.go] *)

Definition recovery_GetParamsCmd (args : list string) (s : recovery_state X) : outcome RecoveryParams :=
  no_args args (queried (recovery_query_Params s)).

Definition GetBalancesCmd (ctx : Ctx) (args : list string) (x : X) : outcome string :=
  one_arg args (λ address, queried (
    let? (locked, unvested, vested) := (Balances ctx address x).1 in
    Ok (String.append (line (String.append "Locked: " (coins_String D locked)))
         (String.append (line (String.append "Unvested: " (coins_String D unvested)))
           (line (String.append "Vested: " (coins_String D vested))))))).
End commands.
