(* ===== verification/Rest.v ===== *)
(** * The REST handlers of the proposals: [x/erc20/client/rest], [x/incentives/client/rest]

    A handler decodes the body of a request and ends with the message that
    [tx.WriteGeneratedTxResponse] writes, or with an error response.  The gov module mounts
    every handler of the application under the sub route it names. *)

From S2P Require Import Prelude Sdk Dec Keepers Inflation Erc20Types Erc20 Incentives Json Clients.

(** ** The requests *)

(** [rest.BaseReq] is a type of the SDK. *)
Class RestBase (B : Type) := {
  base_From : B → string;
  Sanitize : B → B;
  BaseReq_ValidateBasic : B → bool;
}.

(** The fields that the five requests share, and the fields of each. *)
Record ProposalRequest (B C F : Type) := mkReq {
  rq_BaseReq : B; rq_Title : string; rq_Description : string; rq_Deposit : C; rq_Fields : F;
}.
Arguments mkReq {B C F} _ _ _ _ _.
Arguments rq_BaseReq {B C F} _.
Arguments rq_Title {B C F} _.
Arguments rq_Description {B C F} _.
Arguments rq_Deposit {B C F} _.
Arguments rq_Fields {B C F} _.

Record RegisterCoinFields := mkCoinFields { rq_Metadata : Metadata }.
Record RegisterERC20Fields := mkERC20Fields { rq_ERC20Address : string }.
Record ToggleFields := mkToggleFields { rq_Token : string }.
Record RegisterIncentiveFields (D : Type) := mkIncentiveFields {
  rq_ContractAddress : string; rq_Allocation : list (DecCoin D); rq_Epochs : Z;
}.
Arguments mkIncentiveFields {D} _ _ _.
Arguments rq_ContractAddress {D} _.
Arguments rq_Allocation {D} _.
Arguments rq_Epochs {D} _.
Record CancelIncentiveFields := mkCancelFields { rq_CancelAddress : string }.

(** [rest.ReadRESTReq(w, r, cdc, &req)] for a type of requests *)
Class RestReader (B C F : Type) := { ReadRESTReq : string → option (ProposalRequest B C F) }.

(** The router under [/gov/proposals]: documented to try the routes in the order in which
    they were added. *)
Class RestRouter := { serve {H} : list (string * H) → string → option H }.
Class RestRouterLaws `{RestRouter} := {
  serve_first {H} sub (h : H) rest : serve ((sub, h) :: rest) sub = Some h;
  serve_next {H} sub sub' (h : H) rest : sub ≠ sub' → serve ((sub', h) :: rest) sub = serve rest sub;
}.

Section handlers.
Context {B C D : Type} `{SdkCoins C, SdkDec D, !DecCoins D, SdkAddress, EthAddress, RestBase B}.
Context `{!RestReader B C RegisterCoinFields, !RestReader B C RegisterERC20Fields, !RestReader B C ToggleFields,
  !RestReader B C (RegisterIncentiveFields D), !RestReader B C CancelIncentiveFields}.
Variable validate_ibc_denom : string → option error.
Variable submit_ValidateBasic : ∀ {P}, (P → outcome unit) → MsgSubmitProposal (C := C) P → outcome unit.
Variable metadata_validate : Metadata → option error.
Variable erc20_abstract : Proposal → option error.
Variable incentives_abstract : IncentiveProposal D → option error.

(** The steps of a handler, up to the content that it makes of the fields. *)
Definition proposal_handler {F P} `{!RestReader B C F} (validate : P → outcome unit) (content : F → P) (body : string)
    : outcome (MsgSubmitProposal (C := C) P) :=
  let? req := parsed "bad request" (ReadRESTReq body) in
  let base := Sanitize (rq_BaseReq req) in
  let? _ := ocheck (negb (BaseReq_ValidateBasic base)) (ErrMsg "bad request") in
  let? fromAddr := parsed "bad request" (acc_from_bech32 (base_From base)) in
  let msg := mkSubmit (rq_Title req) (rq_Description req) (content (rq_Fields req)) (rq_Deposit req) (acc_string fromAddr) in
  let? _ := submit_ValidateBasic validate msg in
  Ok msg.
Local Abbreviation erc20_handler :=
  (proposal_handler (Proposal_ValidateBasic (C := C) validate_ibc_denom metadata_validate erc20_abstract)).
Local Abbreviation incentives_handler := (proposal_handler (IncentiveProposal_ValidateBasic incentives_abstract)).

Definition newRegisterCoinProposalHandler : string → outcome (MsgSubmitProposal Proposal) :=
  erc20_handler (λ f : RegisterCoinFields, RegisterCoinProposal (rq_Metadata f)).
Definition newRegisterERC20ProposalHandler : string → outcome (MsgSubmitProposal Proposal) :=
  erc20_handler (λ f : RegisterERC20Fields, RegisterERC20Proposal (rq_ERC20Address f)).
Definition newToggleTokenConversionHandler : string → outcome (MsgSubmitProposal Proposal) :=
  erc20_handler (λ f : ToggleFields, ToggleTokenConversionProposal (rq_Token f)).
Definition newRegisterIncentiveProposalHandler : string → outcome (MsgSubmitProposal (IncentiveProposal D)) :=
  incentives_handler (λ f : RegisterIncentiveFields D,
    RegisterIncentiveProposal (rq_ContractAddress f) (rq_Allocation f) (rq_Epochs f)).
Definition newCancelIncentiveProposalRequestHandler : string → outcome (MsgSubmitProposal (IncentiveProposal D)) :=
  incentives_handler (λ f : CancelIncentiveFields, CancelIncentiveProposal (rq_CancelAddress f)).

(** ** The sub routes *)

(** What a handler of the application writes: a message of one of the two modules, or of
    a module of the SDK. *)
Inductive Written :=
  | Erc20Msg (msg : MsgSubmitProposal (C := C) Proposal)
  | IncentivesMsg (msg : MsgSubmitProposal (C := C) (IncentiveProposal D))
  | SdkMsg.
Definition RESTHandler : Type := string * (string → outcome Written).

Definition erc20_route (handler : string → outcome (MsgSubmitProposal Proposal)) : RESTHandler :=
  (erc20_ModuleName, λ body, let? msg := handler body in Ok (Erc20Msg msg)).
Definition incentives_route (handler : string → outcome (MsgSubmitProposal (IncentiveProposal D))) : RESTHandler :=
  (incentives_ModuleName, λ body, let? msg := handler body in Ok (IncentivesMsg msg)).

Definition RegisterCoinProposalRESTHandler : RESTHandler := erc20_route newRegisterCoinProposalHandler.
Definition RegisterERC20ProposalRESTHandler : RESTHandler := erc20_route newRegisterERC20ProposalHandler.
Definition ToggleTokenConversionRESTHandler : RESTHandler := erc20_route newToggleTokenConversionHandler.
Definition RegisterIncentiveProposalRESTHandler : RESTHandler := incentives_route newRegisterIncentiveProposalHandler.
Definition CancelIncentiveProposalRequestRESTHandler : RESTHandler :=
  incentives_route newCancelIncentiveProposalRequestHandler.

(** The handlers of the modules of the SDK come first in [gov.NewAppModuleBasic(...)] *)
Variable sdk_handlers : list RESTHandler.
Definition proposal_routes : list RESTHandler :=
  sdk_handlers ++
  [RegisterCoinProposalRESTHandler; RegisterERC20ProposalRESTHandler; ToggleTokenConversionRESTHandler;
   RegisterIncentiveProposalRESTHandler; CancelIncentiveProposalRequestRESTHandler].

(** A request to [/gov/proposals/<sub>] *)
Definition post_proposal `{RestRouter} (sub body : string) : outcome Written :=
  match serve proposal_routes sub with
  | Some handler => handler body
  | None => Err (ErrMsg "not found")
  end.
End handlers.
Arguments Erc20Msg {C D} _.
Arguments IncentivesMsg {C D} _.
Arguments SdkMsg {C D}.
