(* ===== verification/JsonProps.v ===== *)
(** * Numbers through [json.Unmarshal]

    A list of printed numbers, as the command line takes it, is read back. *)

From stdpp Require Import pretty.
From S2P Require Import Prelude Sdk Erc20Types Json Clients.

Local Abbreviation app := String.append.
Lemma append_cons a (s t : string) : app (String a s) t = String a (app s t).
Proof. done. Qed.
Lemma append_nil_l (s : string) : app EmptyString s = s.
Proof. done. Qed.
Lemma append_nil_r (s : string) : app s EmptyString = s.
Proof. induction s as [|a s IH]; [done|]. by rewrite append_cons, IH. Qed.
Lemma append_assoc (a b c : string) : app (app a b) c = app a (app b c).
Proof. induction a as [|x a IH]; [done|]. by rewrite !append_cons, IH. Qed.

(** ** Printed numbers *)

Lemma digit_char k : (k < 10)%N →
  is_digit (pretty_N_char k) = true ∧ Z.of_nat (code (pretty_N_char k)) - 48 = Z.of_N k ∧
  (k ≠ 0%N → is_code 48 (pretty_N_char k) = false).
Proof.
  intros Hk. assert (Hin : k ∈ [0; 1; 2; 3; 4; 5; 6; 7; 8; 9]%N).
  { rewrite !elem_of_cons. lia. }
  assert (Hall : Forall (λ k, is_digit (pretty_N_char k) = true ∧ Z.of_nat (code (pretty_N_char k)) - 48 = Z.of_N k ∧
    (k ≠ 0%N → is_code 48 (pretty_N_char k) = false)) [0; 1; 2; 3; 4; 5; 6; 7; 8; 9]%N) by (repeat constructor; done).
  rewrite Forall_forall in Hall. by apply Hall.
Qed.

(** The digits of a positive number in front of [s]: a digit that is not zero, digits,
    and [s]; their value continues with [s]. *)
Lemma digits_spec n s : (0 < n)%N → ∃ a ds,
  pretty_N_go n s = String a (app ds s) ∧ is_digit a = true ∧ is_code 48 a = false ∧ all_chars is_digit ds = true ∧
  digits_value 0 (String a (app ds s)) = digits_value (Z.of_N n) s.
Proof.
  revert s. induction (N.lt_wf_0 n) as [n _ IH]; intros s Hn. rewrite pretty_N_go_step by done.
  destruct (digit_char (n mod 10)) as (Hd & Hv & Hz); [by apply N.mod_lt|].
  pose proof (N.div_mod n 10 ltac:(done)) as Hdiv.
  destruct (decide (0 < n / 10)%N) as [Hp|Hp].
  - destruct (IH (n / 10)%N) with (s := String (pretty_N_char (n mod 10)) s) as (a & ds & E & Ha & H0 & Hds & Hval); [|done|].
    { apply N.div_lt; lia. }
    exists a, (app ds (String (pretty_N_char (n mod 10)) EmptyString)).
    rewrite append_assoc, append_cons. split; [exact E|]. split; [done|]. split; [done|]. split.
    + clear - Hds Hd. induction ds as [|b ds IHd]; [by rewrite append_nil_l; simpl; rewrite Hd|].
      rewrite append_cons. simpl in Hds |- *. apply andb_true_iff in Hds as [-> Hds]. by apply IHd.
    + rewrite append_nil_l, Hval. simpl. rewrite Hd, Hv. f_equal. lia.
  - assert (E0 : (n / 10)%N = 0%N) by (clear - Hp; destruct (n / 10)%N; [done|by destruct Hp]). rewrite E0 in Hdiv |- *.
    rewrite pretty_N_go_0. exists (pretty_N_char (n mod 10)), EmptyString.
    split; [done|]. split; [done|]. split; [apply Hz; lia|]. split; [done|]. simpl. rewrite Hd, Hv. f_equal. lia.
Qed.

(** No number goes on with this text. *)
Definition ends_number (s : string) : bool :=
  match s with EmptyString => true | String a _ => negb (is_digit a || is_code 46 a || is_code 101 a || is_code 69 a) end.

Lemma span_digits_app ds s : all_chars is_digit ds = true → ends_number s = true → span_digits (app ds s) = (ds, s).
Proof.
  intros Hds Hs. induction ds as [|a ds IH].
  - destruct s as [|a s]; [done|]. simpl in *. apply negb_true_iff in Hs. by destruct (is_digit a).
  - rewrite append_cons. simpl in *. apply andb_true_iff in Hds as [-> Hds]. by rewrite IH.
Qed.

Lemma scan_end s : ends_number s = true → scan_frac s = Some (EmptyString, s) ∧ scan_exp s = Some (EmptyString, s).
Proof.
  destruct s as [|a s]; [done|]. simpl. intros Hs. apply negb_true_iff in Hs.
  apply orb_false_iff in Hs as [Hs ->]. apply orb_false_iff in Hs as [Hs ->]. apply orb_false_iff in Hs as [_ ->]. done.
Qed.

Lemma number_scan n s : ends_number s = true → ∃ a ds,
  pretty n = String a ds ∧ is_digit a = true ∧ scan_number (app (pretty n) s) = Some (pretty n, s) ∧
  digits_value 0 (pretty n) = Some (Z.of_N n).
Proof.
  intros Hs. destruct (scan_end s Hs) as [Hf He]. unfold pretty, pretty_N. destruct (decide (n = 0)%N) as [->|Hn].
  - exists (Ascii.ascii_of_nat 48), EmptyString. split; [done|]. split; [done|]. split; [|done].
    unfold scan_number. rewrite append_cons, append_nil_l. change (is_code 45 _) with false. cbn iota. unfold scan_int.
    change (is_code 48 _) with true. cbn iota. by rewrite Hf, He.
  - destruct (digits_spec n EmptyString) as (a & ds & E & Ha & H0 & Hds & Hv); [lia|]. rewrite append_nil_r in *.
    rewrite E. exists a, ds. split; [done|]. split; [done|]. split; [|by rewrite Hv].
    assert (Hminus : is_code 45 a = false).
    { unfold is_digit in Ha. unfold is_code. apply andb_true_iff in Ha as [Ha _]. apply Nat.leb_le in Ha. apply Nat.eqb_neq. lia. }
    unfold scan_number. rewrite append_cons, Hminus. unfold scan_int. rewrite H0, Ha.
    rewrite <- append_cons, span_digits_app; [|by simpl; rewrite Ha|done]. rewrite Hf, He.
    by rewrite append_nil_l, append_nil_r.
Qed.

Lemma value_scan fuel depth (n : N) s : ends_number s = true →
  scan_value (S fuel) depth (app (pretty n) s) = Some (JNum (pretty n), s).
Proof.
  intros Hs. destruct (number_scan n s Hs) as (a & ds & E & Ha & Hscan & _). rewrite E in Hscan |- *.
  rewrite append_cons in Hscan |- *. cbn [scan_value]. rewrite Hscan, Ha, orb_true_r.
  unfold is_digit in Ha. apply andb_true_iff in Ha as [Ha1 Ha2]. apply Nat.leb_le in Ha1, Ha2. unfold is_code.
  rewrite !(proj2 (Nat.eqb_neq (code a) _)) by lia. done.
Qed.

(** A printed number has no space in front. *)
Lemma skip_number (n : N) s : skip_space (app (pretty n) s) = app (pretty n) s.
Proof.
  destruct (number_scan n EmptyString eq_refl) as (a & ds & E & Ha & _). rewrite E, append_cons. simpl.
  unfold is_digit in Ha. apply andb_true_iff in Ha as [Ha1 Ha2]. apply Nat.leb_le in Ha1, Ha2. unfold is_space, is_code.
  rewrite !(proj2 (Nat.eqb_neq (code a) _)) by lia. done.
Qed.

(** The numbers as the command takes them. *)
Definition print_nonces (l : list N) : string := String.concat "," (pretty <$> l).
Definition comma_nonces (l : list N) : string := foldr (λ n s, app "," (app (pretty n) s)) "]"%string l.

Lemma print_cons (n : N) l : app (print_nonces (n :: l)) "]" = app (pretty n) (comma_nonces l).
Proof.
  unfold print_nonces. revert n. induction l as [|m l IH]; intros n; [done|].
  change (String.concat _ (pretty <$> n :: m :: l)) with (app (pretty n) (app "," (String.concat "," (pretty <$> m :: l)))).
  by rewrite !append_assoc, IH.
Qed.

Lemma comma_ends l : ends_number (comma_nonces l) = true.
Proof. by destruct l. Qed.
Lemma comma_space l : skip_space (comma_nonces l) = comma_nonces l.
Proof. by destruct l. Qed.

Lemma comma_length l : (length l < String.length (comma_nonces l))%nat.
Proof.
  induction l as [|n l IH]; [simpl; lia|].
  change (String.length (comma_nonces (n :: l))) with (S (String.length (app (pretty n) (comma_nonces l)))).
  rewrite length_append. simpl. lia.
Qed.

Lemma items_scan fuel depth l k acc :
  (length l < k)%nat →
  scan_items (scan_value (S fuel) depth) k acc (comma_nonces l) = Some (JArr (reverse acc ++ ((λ n : N, JNum (pretty n)) <$> l)), EmptyString).
Proof.
  revert k acc. induction l as [|n l IH]; intros k acc Hk; (destruct k as [|k]; [simpl in Hk; lia|]).
  - simpl. by rewrite app_nil_r.
  - change (comma_nonces (n :: l)) with (String (Ascii.ascii_of_nat 44) (app (pretty n) (comma_nonces l))). cbn [scan_items].
    change (is_code 93 _) with false. change (is_code 44 _) with true. cbn [andb].
    rewrite skip_number, value_scan, comma_space by apply comma_ends. rewrite IH by (simpl in Hk; lia).
    by rewrite reverse_cons, <- app_assoc.
Qed.

Lemma decode_nonces l :
  Forall (λ n, (n < 2 ^ 64)%N) l → decode_items decode_uint64 0 [] ((λ n : N, JNum (pretty n)) <$> l) = Some (Z.of_N <$> l).
Proof.
  induction 1 as [|n l Hn Hl IH]; [done|]. cbn [fmap list_fmap decode_items]. cbn [head default tail]. rewrite IH.
  destruct (number_scan n EmptyString eq_refl) as (a & ds & E & _ & _ & Hv). unfold decode_uint64, ParseUint. rewrite E in Hv |- *.
  rewrite Hv, (proj2 (Z.ltb_lt _ _)) by lia. done.
Qed.

Lemma array_scan fuel depth s :
  scan_value (S fuel) depth (String (Ascii.ascii_of_nat 91) s) =
  if max_depth <=? depth then None else scan_array (scan_value fuel (depth + 1)) s.
Proof. done. Qed.

(** What is printed is read. *)
Lemma nonces_roundtrip l :
  Forall (λ n, (n < 2 ^ 64)%N) l → unmarshal_nonces (print_nonces l) = Some (Z.of_N <$> l).
Proof.
  intros Hl. destruct l as [|n l]; [done|]. unfold unmarshal_nonces. rewrite print_cons.
  destruct (number_scan n EmptyString eq_refl) as (a & ds & E & Ha & _).
  assert (H93 : is_code 93 a = false).
  { unfold is_digit in Ha. unfold is_code. apply andb_true_iff in Ha as [_ Ha]. apply Nat.leb_le in Ha. apply Nat.eqb_neq. lia. }
  assert (Hlen : (length l < String.length (app (pretty n) (comma_nonces l)))%nat).
  { rewrite length_append. pose proof (comma_length l). lia. }
  assert (Hparse : json_parse (app "[" (app (pretty n) (comma_nonces l))) = Some (JArr ((λ n : N, JNum (pretty n)) <$> n :: l))).
  { unfold json_parse. set (txt := app (pretty n) (comma_nonces l)) in *.
    change (app "[" txt) with (String (Ascii.ascii_of_nat 91) txt). cbn [skip_space]. change (is_space _) with false. cbn iota.
    rewrite array_scan. change (max_depth <=? 0) with false. cbn iota. cbn [String.length].
    assert (Hitems : scan_array (scan_value (S (String.length txt)) (0 + 1)) txt =
      Some (JArr ((λ n : N, JNum (pretty n)) <$> n :: l), EmptyString)); [|by rewrite Hitems].
    assert (Hskip : skip_space txt = txt) by apply skip_number. unfold scan_array. rewrite Hskip.
    assert (Hv : scan_value (S (String.length txt)) (0 + 1) txt = Some (JNum (pretty n), comma_nonces l)) by (apply value_scan, comma_ends).
    assert (Etxt : txt = String a (app ds (comma_nonces l))) by (unfold txt; by rewrite E).
    clearbody txt. subst txt. rewrite H93, Hv, comma_space. by rewrite items_scan. }
  rewrite Hparse. cbn [decode_slice]. by apply decode_nonces.
Qed.
