(* ===== verification/ClientsProps.v ===== *)
(** * Properties of the commands *)

From S2P Require Import Prelude Sdk Dec SdkInstances Schedule ScheduleMerge Clawback Keepers KeeperInstances VestingMsgs VestingProps Evm Erc20Types Erc20 Erc20Instances Erc20Props Incentives Feesplit FeesplitProps Queries Json Clients QueryClients JsonProps.

(** ** Schedules from files *)

Section schedules.
Context {C : Type} `{SdkCoinsLaws C, !SdkPeriods C, !SdkPeriodsLaws C}.
Implicit Types ps lp vp : list (Period C).
#[local] Arguments released : simpl never.

(** A schedule that starts earlier, with its first period extended, has the same events. *)
Lemma events_extend s0 s ps :
  sched_ok s0 ps → safe_time s → s ≤ s0 → events s (extend_first (s0 -i s) ps) = events s0 ps.
Proof.
  intros Hok Hs Hle. destruct ps as [|p ps]; [done|].
  destruct (sched_ok_cons _ _ _ Hok) as ([Hl _] & _ & Ht & _). destruct Hok as (_ & Hs0 & _). unfold safe_time in *. simpl.
  rewrite (wrap64_id (s0 - s)) by (unfold in_int64; lia). rewrite wrap64_id by (unfold in_int64; lia).
  replace (s + (Length p + (s0 - s))) with (s0 + Length p) by lia. done.
Qed.

Lemma extend_ok s0 s ps : sched_ok s0 ps → safe_time s → s ≤ s0 → sched_ok s (extend_first (s0 -i s) ps).
Proof.
  intros Hok Hs Hle. destruct ps as [|p ps]; [by repeat split; unfold sched_end; simpl; rewrite ?Z.add_0_r; try apply Hs|].
  destruct (sched_ok_cons _ _ _ Hok) as ([Hl Hv] & _ & Ht & _). destruct Hok as (Hp & Hs0 & He).
  apply Forall_cons in Hp as [_ Hp]. unfold sched_ok, sched_end, safe_time in *. simpl in *.
  rewrite (wrap64_id (s0 - s)) by (unfold in_int64; lia). rewrite wrap64_id by (unfold in_int64; lia).
  split; [|lia]. constructor; [|done]. split; [simpl; lia|done].
Qed.

(** The periods a message grants are its own, or instant ones for the whole amount. *)
Lemma with_defaults_spec start L V cl cv lp lc vp coins :
  sched_ok start L → sched_ok start V → coins_valid cl = true → coins_valid cv = true →
  (∀ d, amount_of cl d = sched_total d L) → (∀ d, amount_of cv d = sched_total d V) →
  with_defaults L V cl cv = (lp, lc, vp, coins) → coinEq coins lc = true →
  grant_wf start lp vp coins ∧ (lp = L ∨ L = [] ∧ lp = [mkPeriod 0 coins]) ∧ (vp = V ∨ V = [] ∧ vp = [mkPeriod 0 coins]).
Proof.
  intros HL HV Hcl Hcv Tl Tv Hd Heq.
  assert (Hone : ∀ c, coins_valid c = true → sched_ok start [mkPeriod 0 c] ∧ ∀ d, amount_of c d = sched_total d [mkPeriod 0 c]).
  { intros c Hc. destruct HL as (_ & Hs & _). split.
    - split; [by repeat constructor|]. split; [done|]. unfold sched_end. simpl. by rewrite !Z.add_0_r.
    - intros d. unfold sched_total. simpl. lia. }
  unfold with_defaults in Hd.
  destruct (negb _ && bool_decide (L = [])) eqn:Edef.
  - apply andb_true_iff in Edef as [Hz Hn]. apply bool_decide_eq_true in Hn.
    assert (Hne : V ≠ []).
    { intros ->. apply negb_true_iff in Hz. rewrite (proj2 (is_zero_spec _ Hcv)) in Hz; [done|]. intros d. by rewrite Tv. }
    rewrite (bool_decide_eq_false_2 _ Hne), andb_false_r in Hd. injection Hd as <- <- <- <-.
    destruct (Hone _ Hcv) as [? Hinst]. split; [|by split; [right|left]].
    split; [done|]. split; [done|]. split; [done|]. intros d. by rewrite <- Hinst.
  - destruct (negb _ && bool_decide (V = [])) eqn:Edef2; injection Hd as <- <- <- <-.
    + apply andb_true_iff in Edef2 as [_ Hn]. apply bool_decide_eq_true in Hn.
      destruct (Hone _ Hcl) as [? Hinst]. split; [|by split; [left|right]].
      split; [done|]. split; [done|]. split; [done|]. intros d. by rewrite <- Hinst.
    + split; [|by split; left]. split; [done|]. split; [done|]. split; [done|]. intros d.
      apply coinEq_spec with (d := d) in Heq; [|done..]. by rewrite <- Tl, <- Tv, Heq.
Qed.

Lemma total_amount_sched start ps :
  sched_ok start ps → coins_valid (total_amount ps) = true ∧ ∀ d, amount_of (total_amount ps) d = sched_total d ps.
Proof.
  intros (Hp & _). assert (Hv : Forall (λ p, coins_valid (Amount p) = true) ps) by (eapply Forall_impl; [exact Hp|]; by intros ? []).
  split; [by apply total_amount_valid|]. intros d. by apply total_amount_spec.
Qed.

(** The periods of a file take time. *)
Definition timed ps : Prop := Forall (λ p, 1 ≤ Length p) ps.

Lemma events_after start ps : timed ps → Forall (λ e, start < e.1) (events start ps).
Proof.
  intros Hp. revert start. induction Hp as [|p ps Hl Hp IH]; intros start; simpl; constructor; [simpl; lia|].
  eapply Forall_impl; [apply IH|]. simpl. lia.
Qed.
End schedules.

Section create.
Context {C D X : Type} `{SdkCoinsLaws C, !SdkPeriods C, !SdkPeriodsLaws C, !SdkBaseVesting C, SdkDec D, !DecCoins D, SdkAddressLaws}.
Context `{!ClientParsers C D, !AccountKeeper C X, !BankKeeper C X, !StakingKeeper X, !BankLaws C X}.
Context (ReadFile : string → option string).
#[local] Arguments released : simpl never.
Local Abbreviation read := (read_schedule (C := C) (D := D) ReadFile 0).

Lemma read_periods_timed l (ps : list (Period C)) : read_periods (D := D) l = Ok ps → timed ps.
Proof.
  revert ps. induction l as [|p l IH]; intros ps Hr; simpl in Hr; inv_ok; [constructor|].
  bool_hyps. constructor; [simpl; lia|by apply IH].
Qed.

Lemma read_timed s file start (ps : list (Period C)) : read_schedule (D := D) ReadFile s file = Ok (start, ps) → timed ps.
Proof.
  unfold read_schedule, ReadScheduleFile. destruct (String.eqb file _); intros Hr; inv_ok; [constructor|].
  by eapply read_periods_timed.
Qed.

(** The message of the command: the schedules of the files from a common start. *)
Lemma create_cmd_inv from flags to msg ls lps vs vps :
  NewMsgCreateClawbackVestingAccountCmd (D := D) ReadFile (Ok from) flags [to] = Ok msg →
  read (FlagLockup flags) = Ok (ls, lps) → read (FlagVesting flags) = Ok (vs, vps) →
  ∃ addr, acc_from_bech32 to = Some addr ∧
    msg = mkMsgCreate (acc_string from) (acc_string addr) (from_unix (Z.min ls vs)) (extend_first (ls -i Z.min ls vs) lps)
            (extend_first (vs -i Z.min ls vs) vps) (FlagMerge flags).
Proof.
  intros Hcmd Hl Hv. unfold NewMsgCreateClawbackVestingAccountCmd in Hcmd. rewrite Hl, Hv in Hcmd.
  simpl in Hcmd. unfold parsed in Hcmd. destruct (acc_from_bech32 to) as [addr|] eqn:Ea; [|done]. exists addr. split; [done|].
  inv_ok. unfold NewMsgCreateClawbackVestingAccount. by rewrite Min64_spec.
Qed.

(** The reading of a granted schedule that came from a file, or of the instant one. *)
Lemma granted_reading start end_ s0 fps ps total t d :
  sched_ok s0 fps → safe_time start → start ≤ s0 → timed fps →
  sched_wf start end_ ps total → (ps = extend_first (s0 -i start) fps ∨ extend_first (s0 -i start) fps = [] ∧ ps = [mkPeriod 0 total]) →
  (fps ≠ [] → amount_of (ReadSchedule start end_ ps total t) d = released d t (events s0 fps)) ∧
  (fps = [] → start < t → amount_of (ReadSchedule start end_ ps total t) d = amount_of total d).
Proof.
  intros Hok Hs Hle Ht Hwf Hps. rewrite (ReadSchedule_released _ _ _ _ _ _ Hwf). split.
  - intros Hne. destruct Hps as [->|[Hn _]]; [|by destruct fps]. rewrite events_extend by done.
    destruct (Z.leb_spec t start); [|done]. symmetry. apply released_before.
    eapply Forall_impl; [apply events_after, Ht|]. simpl. lia.
  - intros -> Hlt. destruct (Z.leb_spec t start); [lia|]. destruct Hwf as (_ & _ & _ & Htot).
    destruct Hps as [->|[_ ->]]; rewrite Htot; [done|]. unfold released, sched_total. simpl.
    destruct (Z.leb_spec (start + 0) t); lia.
Qed.

(** At every time the account has unlocked, and vested, what the periods of the lockup file,
    and of the vesting file, give by that time; a schedule without a file is instant. *)
Definition follows_files (va : ClawbackVestingAccount C) (ls : Z) lps (vs : Z) vps : Prop :=
  GetStartTime va = Z.min ls vs ∧ ∀ d t,
    (lps ≠ [] → unlocked va d t = released d (unix t) (events ls lps)) ∧
    (vps ≠ [] → vested va d t = released d (unix t) (events vs vps)) ∧
    (lps = [] → Z.min ls vs < unix t → unlocked va d t = original va d) ∧
    (vps = [] → Z.min ls vs < unix t → vested va d t = original va d).

(** An account made of the aligned schedules of two files. *)
Lemma aligned_account addr funder ls lps vs vps cl cv lp lc vp coins :
  let start := Z.min ls vs in
  let L := extend_first (ls -i start) lps in let V := extend_first (vs -i start) vps in
  sched_ok ls lps → sched_ok vs vps → timed lps → timed vps →
  coins_valid cl = true → coins_valid cv = true →
  (∀ d, amount_of cl d = sched_total d L) → (∀ d, amount_of cv d = sched_total d V) →
  with_defaults L V cl cv = (lp, lc, vp, coins) → coinEq coins lc = true →
  let va := NewClawbackVestingAccount addr funder coins (from_unix start) lp vp in
  va_wf va ∧ follows_files va ls lps vs vps.
Proof.
  intros start L V Hlok Hvok Hlt Hvt Hcl Hcv Tl Tv Hd Heq va.
  assert (Hs : safe_time start) by (destruct Hlok as (_ & ? & _), Hvok as (_ & ? & _); unfold start, safe_time in *; lia).
  assert (HL : sched_ok start L) by (apply extend_ok; unfold start; done || lia).
  assert (HV : sched_ok start V) by (apply extend_ok; unfold start; done || lia).
  destruct (with_defaults_spec start L V cl cv lp lc vp coins) as (Hg & Hlp & Hvp); [done..|].
  assert (Hwf : va_wf va) by (apply new_account_wf; by rewrite unix_from_unix). split; [done|].
  assert (Est : GetStartTime va = start) by (unfold GetStartTime; simpl; apply unix_from_unix). split; [done|].
  assert (Elp : LockupPeriods va = lp).
  { simpl. rewrite unix_from_unix, Min64_spec, Z.min_id. apply extend_first_zero, Hg. }
  assert (Evp : VestingPeriods va = vp).
  { simpl. rewrite unix_from_unix, Min64_spec, Z.min_id. apply extend_first_zero, Hg. }
  destruct Hwf as [Hwl Hwv]. rewrite Est, Elp in Hwl. rewrite Est, Evp in Hwv.
  intros d t. unfold unlocked, vested, original, GetUnlockedOnly, GetVestedOnly. rewrite Est, Elp, Evp.
  destruct (granted_reading _ _ _ _ _ _ (unix t) d Hlok Hs (Z.le_min_l _ _) Hlt Hwl Hlp) as [L1 L2].
  destruct (granted_reading _ _ _ _ _ _ (unix t) d Hvok Hs (Z.le_min_r _ _) Hvt Hwv Hvp) as [V1 V2].
  done.
Qed.

(** C21: the grant of the command [create-clawback-vesting-account] follows its files.  When the
    message it makes creates an account, the coins move from the signer to the account, who
    may claw them back, and at every time the account has unlocked, and vested, what the
    periods of the lockup file, and of the vesting file, give by that time from the start
    in the file; a schedule without a file is instant. *)
Theorem cli_grant_follows_files from flags to msg ls lps vs vps ctx (x x' : X) :
  NewMsgCreateClawbackVestingAccountCmd (D := D) ReadFile (Ok from) flags [to] = Ok msg →
  read (FlagLockup flags) = Ok (ls, lps) → read (FlagVesting flags) = Ok (vs, vps) →
  sched_ok ls lps → sched_ok vs vps → acc_from_bech32 (acc_string from) = Some from →
  CreateClawbackVestingAccount ctx msg x = (Ok tt, x') →
  ∃ addr, acc_from_bech32 to = Some addr ∧ (GetAccount x addr = None →
    ∃ va, GetAccount x' addr = Some (ClawbackAcc va) ∧ va_wf va ∧ FunderAddress va = acc_string from ∧
      transferred from addr (OriginalVesting (va_base va)) x x' ∧ follows_files va ls lps vs vps).
Proof.
  intros Hcmd Hl Hv Hlok Hvok Hfrom Hrun. destruct (create_cmd_inv _ _ _ _ _ _ _ _ Hcmd Hl Hv) as (addr & Ha & ->).
  exists addr. split; [done|]. intros Hnew.
  destruct (create_inv _ _ _ _ Hrun) as (from' & addr' & lp & lc & vp & coins & x1 & Ef & Et & _ & Hd & Heq & Hcase & Hsend).
  cbn [mc_FromAddress mc_ToAddress mc_LockupPeriods mc_VestingPeriods mc_StartTime] in *.
  rewrite Hfrom in Ef. injection Ef as <-. rewrite (bech32_roundtrip _ _ Ha) in Et. injection Et as <-.
  destruct Hcase as [[_ ->]|(va & va' & Hva & _)]; [|congruence].
  apply (stored_and_sent _ _ _ _ x) in Hsend as [Htr Hacc]; [|intros a d; apply balance_new_account|done].
  assert (Hs : safe_time (Z.min ls vs)) by (destruct Hlok as (_ & ? & _), Hvok as (_ & ? & _); unfold safe_time in *; lia).
  destruct (total_amount_sched _ _ (extend_ok ls _ lps Hlok Hs (Z.le_min_l _ _))) as [Vl Tl].
  destruct (total_amount_sched _ _ (extend_ok vs _ vps Hvok Hs (Z.le_min_r _ _))) as [Vv Tv].
  destruct (aligned_account addr from ls lps vs vps _ _ lp lc vp coins Hlok Hvok (read_timed _ _ _ _ Hl) (read_timed _ _ _ _ Hv)
    Vl Vv Tl Tv Hd Heq) as [Hwf Hff].
  eexists. split; [exact Hacc|]. split; [exact Hwf|]. split; [done|]. split; [exact Htr|exact Hff].
Qed.
End create.

(** ** Token pairs *)

Section pairs.
Context {C X : Type} `{SdkCoins C, EthAddressLaws} (page : Pagination) `{!PaginationLaws}.

(** The command [token-pair] finds a pair that [token-pairs] lists by its contract, and by
    its denomination unless that reads as an address. *)
Lemma listed_pairs_found (s : erc20_state X) l tp :
  registry_full s → GetTokenPairsCmd (Ok tt) (Ok page) [] s = Ok l → tp ∈ l →
  let found token := GetTokenPairCmd (C := C) (Ok tt) [token] s = Ok tp in
  (is_hex_address (Erc20Address tp) = true → validate_address (Erc20Address tp) = true → found (Erc20Address tp)) ∧
  (is_hex_address (Denom tp) = false → denom_valid (C := C) (Denom tp) = true → found (Denom tp)).
Proof.
  intros Hinv Hl Hin found. apply obind_ok in Hl as (p & Hp & Hl). injection Hl as <-.
  apply list_elem_of_fmap in Hin as ([id tp'] & -> & Hin). pose proof (page_entry _ _ _ _ Hp Hin) as Hid.
  destruct Hinv as [Hinv Hfull]. destruct (ri_pair s Hinv id _ Hid) as (E & _), (Hfull id _ Hid) as [Hd He].
  unfold GetERC20Contract in He.
  assert (Hm : id_missing (Some id) = false) by (simpl; rewrite E; by apply String.eqb_neq, hash_nonempty).
  unfold found, GetTokenPairCmd, one_arg, queried, query_TokenPair, GetTokenPairID, GetTokenPair, GetERC20Map, GetDenomMap.
  cbn [obind snd] in *. split; intros Hh Hv; rewrite Hh, Hv, ?andb_false_r; cbn [negb andb ocheck obind]; [rewrite He|rewrite Hd];
    rewrite Hm; cbn [ocheck obind]; by rewrite Hid.
Qed.
End pairs.

(** ** Registration of a contract *)

Section register.
Context {D X : Type} `{SdkDec D, SdkAddressLaws, EthAddressLaws, !EvmKeeper X}.

(** A stored registration is shown, and an indexed contract is listed. *)
Lemma query_cmd_finds contract fs (s : feesplit_state D X) :
  validate_nonzero_address contract = true → f_splits s !! hex_to_address contract = Some fs →
  GetCmdQueryFeeSplit (Ok tt) [contract] s = Ok fs.
Proof.
  intros Hc Hfs. unfold GetCmdQueryFeeSplit, one_arg, queried, query_FeeSplit, GetFeeSplit. simpl.
  rewrite (nonzero_not_blank _ Hc), Hc. simpl. by rewrite Hfs.
Qed.
Lemma deployer_cmd_lists page deployer k (s : feesplit_state D X) :
  acc_from_bech32 (acc_string deployer) = Some deployer → whole_page page → String.length k = 20%nat →
  f_deployer s !! String.append deployer k = Some tt →
  ∃ l, GetCmdQueryDeployerFeeSplits (Ok tt) (Ok page) [acc_string deployer] s = Ok l ∧ address_hex k ∈ l.
Proof.
  intros Hd Hpage Hlen Hk. unfold GetCmdQueryDeployerFeeSplits, one_arg, listed, query_DeployerFeeSplits. simpl.
  rewrite (bech32_not_blank _ _ Hd), Hd. simpl. rewrite Hpage. simpl. eexists. split; [done|].
  apply list_elem_of_fmap. exists (k, tt). split; [simpl; by rewrite bytes_to_address_id|by apply prefix_member].
Qed.

(** C34: the developer who deployed a contract, from his account or through factories, registers
    it with the command and the nonces of the deployments, as printed: the command makes a
    message, the module accepts it, the fees of the contract go to him, the command
    [contract] shows the registration, and [deployer-contracts] lists the contract. *)
Theorem cli_registers_contract deployer contract nonces (s : feesplit_state D X) :
  acc_from_bech32 (acc_string deployer) = Some deployer → validate_nonzero_address contract = true →
  (1 ≤ length nonces ≤ 20)%nat → Forall (λ n, (n < 2 ^ 64)%N) nonces →
  EnableFeeSplit (f_params s) = true → f_splits s !! hex_to_address contract = None →
  HasEvmAccount (f_ext s) (bytes_to_address deployer) = true → IsContract (f_ext s) (bytes_to_address deployer) = false →
  IsContract (f_ext s) (hex_to_address contract) = true →
  hex_to_address contract = derive_contract deployer (Z.of_N <$> nonces) →
  ∃ msg s', NewRegisterFeeSplit (Ok deployer) [contract; print_nonces nonces] = Ok msg ∧
    RegisterFeeSplit msg s = (Ok tt, s') ∧
    ∃ fs, f_splits s' !! hex_to_address contract = Some fs ∧ payee fs = Some deployer ∧
      GetCmdQueryFeeSplit (Ok tt) [contract] s' = Ok fs ∧
      ∀ page, whole_page page → ∃ l, GetCmdQueryDeployerFeeSplits (Ok tt) (Ok page) [acc_string deployer] s' = Ok l ∧
        address_hex (hex_to_address contract) ∈ l.
Proof.
  intros Hd Hc Hlen Hn He Hnew Hacc Heoa Hcon Hder.
  set (msg := mkMsgRegister contract (acc_string deployer) EmptyString (Z.of_N <$> nonces)).
  exists msg, (put_split (hex_to_address contract) (registration msg deployer) s). split; [|split].
  - unfold NewRegisterFeeSplit, parsed. simpl. rewrite Hc. simpl. rewrite nonces_roundtrip by done. simpl.
    replace (if String.eqb _ _ then _ else _) with EmptyString by (by destruct (String.eqb _ _)). fold msg.
    unfold MsgRegisterFeeSplit_ValidateBasic, check_bech32, check_nonzero. simpl. rewrite Hd, Hc, length_fmap. simpl.
    rewrite (proj2 (Nat.ltb_ge _ _)) by lia. simpl. by rewrite (proj2 (Nat.ltb_ge _ _)) by lia.
  - rewrite (register_run msg deployer s Hd (or_introl eq_refl)).
    assert (Herr : register_error msg deployer s = None); [|by rewrite Herr].
    unfold register_error, IsFeeSplitRegistered. cbn [mr_Contract Nonces msg].
    rewrite He, Hnew, Hacc, Heoa, Hcon, <- Hder, String.eqb_refl. done.
  - exists (registration msg deployer). split; [apply lookup_insert_eq|].
    destruct (registration_ok msg deployer Hd) as (_ & Ed & Ew). split; [unfold payee; by rewrite Ew, Ed|]. split.
    + by apply query_cmd_finds; [|apply lookup_insert_eq].
    + intros page Hpage. apply (deployer_cmd_lists _ _ _ _ Hd); [done|apply hex_to_address_length|].
      simpl. rewrite Ed. apply lookup_insert_eq.
Qed.
End register.

(** ** Samples *)

Section samples.
Local Open Scope string_scope.
Local Open Scope Z_scope.

(** Coins as a number and a denomination. *)
Definition w_parse_coin (s : string) : option (string * Z) :=
  let '(ds, denom) := span_digits s in
  match ParseUint ds 256 with Some n => if denom_valid (C := coins) denom then Some (denom, n) else None | None => None end.
#[global] Instance w_parsers : ClientParsers coins Z := {
  ParseCoinNormalized := w_parse_coin;
  ParseCoinsNormalized s := match w_parse_coin s with Some (d, n) => Some (norm {[ d := n ]}) | None => None end;
  ParseDecCoins s := match w_parse_coin s with Some (d, n) => Some [mkDecCoin d n] | None => None end;
  NewIntFromString := ParseInt64;
  UnmarshalMetadata _ := None;
}.

(** A text with its quotes. *)
Fixpoint quoted (s : string) : string :=
  match s with
  | EmptyString => EmptyString
  | String a s => String (if is_code 39 a then chr 34 else a) (quoted s)
  end.

(** The sample of the help text of [create-clawback-vesting-account], as it is printed,
    without its comments, and with the name of the field the code reads. *)
Definition help_sample : string := quoted "{ 'start_time': 1625204910,
  'period': [ { 'coins': '10test', 'length_seconds': 2592000 //30 days
  }, { 'coins': '10test', 'length_seconds': 2592000 //30 days
  } ]}".
Definition bare_sample : string := quoted "{ 'start_time': 1625204910,
  'period': [ { 'coins': '10test', 'length_seconds': 2592000 }, { 'coins': '10test', 'length_seconds': 2592000 } ]}".
Definition right_sample : string := quoted "{ 'start_time': 1625204910,
  'periods': [ { 'coins': '10test', 'length_seconds': 2592000 }, { 'coins': '10test', 'length_seconds': 2592000 } ]}".
Definition sample_files (path : string) : option string :=
  if String.eqb path "help.json" then Some help_sample
  else if String.eqb path "bare.json" then Some bare_sample
  else if String.eqb path "right.json" then Some right_sample else None.

Definition create_cmd (vesting : string) : outcome (MsgCreateClawbackVestingAccount coins) :=
  NewMsgCreateClawbackVestingAccountCmd (D := Z) sample_files (Ok "funder") (mkCreateFlags "" vesting false) ["evmos1bob"].

(** The printed sample is refused; without its comments it makes a message that is
    accepted and grants nothing; under the name [periods] it grants the coins. *)
Lemma help_sample_grants_nothing :
  is_ok (create_cmd "help.json") = false ∧
  create_cmd "bare.json" = Ok (mkMsgCreate "evmos1funder" "evmos1bob" (from_unix 0) [] [] false) ∧
  create_cmd "right.json" = Ok (mkMsgCreate "evmos1funder" "evmos1bob" (from_unix 0) []
    [mkPeriod (1625204910 + 2592000) {[ "test" := 10 ]}; mkPeriod 2592000 {[ "test" := 10 ]}] false).
Proof. split; [|split]; vm_compute; reflexivity. Qed.

Definition grant_world : world :=
  mkWorld {[ "funder" := {[ "test" := 50 ]} ]} ∅ ∅ ∅ ∅ no_evm.

Lemma cli_grant_follows_files_witness :
  ∃ msg x' va, create_cmd "right.json" = Ok msg ∧
    CreateClawbackVestingAccount sample_ctx msg grant_world = (Ok tt, x') ∧
    GetAccount x' "bob" = Some (ClawbackAcc va) ∧ vested va "test" (from_unix (1625204910 + 2592000)) = 10.
Proof.
  set (vps := [mkPeriod 2592000 {[ "test" := 10 ]}; mkPeriod 2592000 {[ "test" := 10 ]}] : list (Period coins)).
  set (msg := mkMsgCreate "evmos1funder" "evmos1bob" (from_unix 0) []
    [mkPeriod (1625204910 + 2592000) {[ "test" := 10 ]}; mkPeriod 2592000 {[ "test" := 10 ]}] false : MsgCreateClawbackVestingAccount coins).
  destruct (cli_grant_follows_files (C := coins) (D := Z) sample_files "funder" (mkCreateFlags "" "right.json" false) "evmos1bob"
    msg 0 [] 1625204910 vps sample_ctx grant_world (CreateClawbackVestingAccount sample_ctx msg grant_world).2)
    as (addr & Ha & Hva); [vm_compute; reflexivity|vm_compute; reflexivity|vm_compute; reflexivity| | |vm_compute; reflexivity|vm_compute; reflexivity|].
  - split; [constructor|]. vm_compute. split; split; (discriminate || reflexivity).
  - split; [repeat constructor; vm_compute; (reflexivity || discriminate)|]. vm_compute. split; split; (discriminate || reflexivity).
  - assert (addr = "bob") as -> by (vm_compute in Ha; by injection Ha).
    destruct Hva as (va & Hacc & _ & _ & _ & [_ Hread]); [vm_compute; reflexivity|].
    exists msg, (CreateClawbackVestingAccount sample_ctx msg grant_world).2, va.
    split; [vm_compute; reflexivity|]. split; [vm_compute; reflexivity|]. split; [exact Hacc|].
    destruct (Hread "test" (from_unix (1625204910 + 2592000))) as (_ & Hv & _). rewrite Hv by done. vm_compute. reflexivity.
Defined.

(** The developer deployed the contract with his third transaction. *)
Lemma cli_registers_contract_witness :
  ∃ msg s', NewRegisterFeeSplit (Ok dev) [address_hex dapp; "2"] = Ok msg ∧
    RegisterFeeSplit msg fee_start = (Ok tt, s') ∧ ∃ fs, f_splits s' !! dapp = Some fs ∧ payee fs = Some dev ∧
      GetCmdQueryFeeSplit (Ok tt) [address_hex dapp] s' = Ok fs ∧
      ∃ l, GetCmdQueryDeployerFeeSplits (Ok tt) (Ok {| paginate _ l := Ok l |}) [acc_string dev] s' = Ok l ∧ address_hex dapp ∈ l.
Proof.
  destruct (cli_registers_contract (D := Z) dev (address_hex dapp) [2%N] fee_start) as (msg & s' & Hm & Hr & Hf);
    [vm_compute; reflexivity|vm_compute; reflexivity|vm_compute; lia|repeat constructor|vm_compute; reflexivity..|].
  destruct Hf as (fs & Hs & Hp & Hq & Hl). exists msg, s'. split; [exact Hm|]. split; [exact Hr|]. exists fs.
  split; [exact Hs|]. split; [exact Hp|]. split; [exact Hq|]. apply (Hl {| paginate _ l := Ok l |}). by intros V l.
Defined.
End samples.
