(* ===== verification/RestProps.v ===== *)
(** * The proposals posted over REST *)

From S2P Require Import Prelude Sdk SdkInstances Dec Keepers KeeperInstances Inflation Erc20Types Erc20Instances Erc20 Incentives IncentivesProps Feesplit FeesplitProps Json Clients ClientsProps Rest.

Section props.
Context {B C D : Type} `{SdkCoins C, SdkDec D, !DecCoins D, SdkAddress, EthAddress, RestBase B, !ClientParsers C D, RestRouterLaws}.
Context `{!RestReader B C RegisterCoinFields, !RestReader B C RegisterERC20Fields, !RestReader B C ToggleFields,
  !RestReader B C (RegisterIncentiveFields D), !RestReader B C CancelIncentiveFields}.
Context (validate_ibc_denom : string → option error)
  (submit_ValidateBasic : ∀ P, (P → outcome unit) → MsgSubmitProposal (C := C) P → outcome unit)
  (metadata_validate : Metadata → option error) (erc20_abstract : Proposal → option error)
  (incentives_abstract : IncentiveProposal D → option error) (sdk_handlers : list (RESTHandler (C := C) (D := D))).

(** The request [req] in a body, and the address that it is from. *)
Definition requested {F} `{!RestReader B C F} (body : string) (req : ProposalRequest B C F) (from : string) : Prop :=
  ReadRESTReq body = Some req ∧ BaseReq_ValidateBasic (Sanitize (rq_BaseReq req)) = true ∧
  acc_from_bech32 (base_From (Sanitize (rq_BaseReq req))) = Some from.

(** The flags of a command say what a request says. *)
Definition flags_of {F} (flags : ProposalFlags) (req : ProposalRequest B C F) : Prop :=
  FlagTitle flags = rq_Title req ∧ FlagDescription flags = rq_Description req ∧
  ParseCoinsNormalized D (FlagDeposit flags) = Some (rq_Deposit req).

(** The message of a request: its own title, description and deposit, the content made of its
    fields, proposed by the address it is from. *)
Definition posted {F P} `{!RestReader B C F} (content : F → P) (body : string) (msg : MsgSubmitProposal (C := C) P) : Prop :=
  ∃ req from, requested body req from ∧ sp_Title msg = rq_Title req ∧ sp_Description msg = rq_Description req ∧
    sp_Content msg = content (rq_Fields req) ∧ sp_InitialDeposit msg = rq_Deposit req ∧ sp_Proposer msg = acc_string from.

Lemma handler_posts {F P} `{!RestReader B C F} validate (content : F → P) body msg :
  proposal_handler (B := B) submit_ValidateBasic validate content body = Ok msg ↔
  posted content body msg ∧ submit_ValidateBasic P validate msg = Ok tt.
Proof.
  unfold proposal_handler, parsed, posted, requested. split.
  - destruct (ReadRESTReq body) as [req|]; [simpl|done]. intros Hrun. apply obind_ok in Hrun as ([] & Hb & Hrun).
    apply ocheck_ok in Hb. apply negb_false_iff in Hb.
    destruct (acc_from_bech32 _) as [from|] eqn:Ef; [simpl in Hrun|done]. apply obind_ok in Hrun as ([] & Hval & Hrun).
    injection Hrun as <-. split; [|done]. by exists req, from.
  - intros [(req & from & (-> & Hb & Ef) & Et & Ed & Ec & Ei & Ep) Hval]. destruct msg as [t d c dep pr]. simpl in *. subst.
    rewrite Hb, Ef. simpl. by rewrite Hval.
Qed.

(** A handler makes the message of the common part of the commands. *)
Lemma handler_submits {F P} `{!RestReader B C F} validate (content : F → P) body req from flags :
  requested body req from → flags_of flags req →
  proposal_handler (B := B) submit_ValidateBasic validate content body =
    submit_proposal (D := D) submit_ValidateBasic validate (Ok from) flags (Ok (content (rq_Fields req))).
Proof.
  intros (Er & Hb & Ef) (Et & Ed & Ei). unfold proposal_handler, submit_proposal, parsed. rewrite Er. simpl.
  rewrite Hb, Ef, Ei. simpl. by rewrite Et, Ed.
Qed.

(** No module of the SDK claims the two sub routes. *)
Definition own_routes : Prop := Forall (λ h, h.1 ≠ erc20_ModuleName ∧ h.1 ≠ incentives_ModuleName) sdk_handlers.

Lemma serve_skips (l rest : list (RESTHandler (C := C) (D := D))) sub :
  Forall (λ h, h.1 ≠ sub) l → serve (l ++ rest) sub = serve rest sub.
Proof. induction 1 as [|[sub' h] l Hne _ IH]; [done|]. etransitivity; [apply serve_next|exact IH]. intros ->. by apply Hne. Qed.

Local Abbreviation routes := (proposal_routes (B := B) validate_ibc_denom submit_ValidateBasic metadata_validate
  erc20_abstract incentives_abstract sdk_handlers).
Local Abbreviation post := (post_proposal (B := B) validate_ibc_denom submit_ValidateBasic metadata_validate
  erc20_abstract incentives_abstract sdk_handlers).

(** Of the handlers that share a sub route, the first one serves it. *)
Lemma erc20_served : own_routes → serve routes erc20_ModuleName =
  Some (RegisterCoinProposalRESTHandler (B := B) (D := D) validate_ibc_denom submit_ValidateBasic metadata_validate erc20_abstract).2.
Proof.
  intros Hown. unfold proposal_routes. rewrite serve_skips; [apply serve_first|].
  apply (Forall_impl _ _ _ Hown). by intros h [? _].
Qed.
Lemma incentives_served : own_routes → serve routes incentives_ModuleName =
  Some (RegisterIncentiveProposalRESTHandler (B := B) submit_ValidateBasic incentives_abstract).2.
Proof.
  intros Hown. unfold proposal_routes. rewrite serve_skips.
  - do 3 (etransitivity; [by apply serve_next|]). apply serve_first.
  - apply (Forall_impl _ _ _ Hown). by intros h [_ ?].
Qed.

Local Abbreviation erc20_valid_content := (Proposal_ValidateBasic (C := C) validate_ibc_denom metadata_validate erc20_abstract).
Local Abbreviation incentive_valid_content := (IncentiveProposal_ValidateBasic incentives_abstract).
Definition coin_content (f : RegisterCoinFields) : Proposal := RegisterCoinProposal (rq_Metadata f).
Definition incentive_content (f : RegisterIncentiveFields D) : IncentiveProposal D :=
  RegisterIncentiveProposal (rq_ContractAddress f) (rq_Allocation f) (rq_Epochs f).

(** C40: what can be posted over REST.  A body posted to the sub route of erc20 is answered with
    a message exactly when it is a request for the registration of a coin, from a valid
    address, whose message passes its checks; the message then has the title, the description,
    the deposit and the metadata of the request and the sender of the request as proposer.
    For the sub route of incentives the same holds of the registration of an incentive.  Both
    modules mount all their handlers under one sub route, where the first one serves: a
    request for anything else cannot be posted.  And a request is answered, errors of the
    checks included, as the command of the module answers flags and arguments that say what
    the request says. *)
Theorem rest_posts_registrations :
  own_routes →
  (∀ body w, post erc20_ModuleName body = Ok w ↔
     ∃ msg, w = Erc20Msg msg ∧ posted coin_content body msg ∧ submit_ValidateBasic _ erc20_valid_content msg = Ok tt) ∧
  (∀ body w, post incentives_ModuleName body = Ok w ↔
     ∃ msg, w = IncentivesMsg msg ∧ posted incentive_content body msg ∧ submit_ValidateBasic _ incentive_valid_content msg = Ok tt) ∧
  (∀ body req from flags ReadFile file,
     requested body req from → flags_of flags req → ParseMetadata (C := C) (D := D) ReadFile file = Ok (rq_Metadata (rq_Fields req)) →
     post erc20_ModuleName body =
       let? msg := NewRegisterCoinProposalCmd (D := D) ReadFile validate_ibc_denom submit_ValidateBasic metadata_validate erc20_abstract
                     (Ok from) flags [file] in Ok (Erc20Msg msg)) ∧
  (∀ body (req : ProposalRequest B C (RegisterIncentiveFields D)) from flags allocationStr epochsStr,
     requested body req from → flags_of flags req → is_hex_address (rq_ContractAddress (rq_Fields req)) = true →
     ParseDecCoins C allocationStr = Some (rq_Allocation (rq_Fields req)) → ParseUint epochsStr 32 = Some (rq_Epochs (rq_Fields req)) →
     post incentives_ModuleName body =
       let? msg := NewRegisterIncentiveProposalCmd submit_ValidateBasic incentives_abstract
                     (Ok from) flags [rq_ContractAddress (rq_Fields req); allocationStr; epochsStr] in Ok (IncentivesMsg msg)).
Proof.
  intros Hown. unfold post_proposal. rewrite (erc20_served Hown), (incentives_served Hown). split_and!.
  - intros body w. simpl. unfold newRegisterCoinProposalHandler. split.
    + intros Hrun. apply obind_ok in Hrun as (msg & Hmsg & Hrun). injection Hrun as <-. apply handler_posts in Hmsg. eauto.
    + intros (msg & -> & Hp). apply handler_posts in Hp. unfold coin_content in Hp. by rewrite Hp.
  - intros body w. simpl. unfold newRegisterIncentiveProposalHandler. split.
    + intros Hrun. apply obind_ok in Hrun as (msg & Hmsg & Hrun). injection Hrun as <-. apply handler_posts in Hmsg. eauto.
    + intros (msg & -> & Hp). apply handler_posts in Hp. unfold incentive_content in Hp. by rewrite Hp.
  - intros body req from flags ReadFile file Hreq Hf Hp. simpl. unfold newRegisterCoinProposalHandler, NewRegisterCoinProposalCmd.
    rewrite Hp. simpl. by rewrite (handler_submits _ _ _ _ _ _ Hreq Hf).
  - intros body req from flags allocationStr epochsStr Hreq Hf Hh Ha He. simpl.
    unfold newRegisterIncentiveProposalHandler, NewRegisterIncentiveProposalCmd, parsed. rewrite Hh, Ha, He. simpl.
    by rewrite (handler_submits _ _ _ _ _ _ Hreq Hf).
Qed.
End props.

(** ** Samples *)

Section samples.
Local Open Scope string_scope.
Local Open Scope Z_scope.

(** A request of the developer, without a deposit. *)
#[local] Instance w_rest_base : RestBase string := {
  base_From b := b; Sanitize b := b; BaseReq_ValidateBasic b := negb (String.eqb b EmptyString);
}.
Definition w_request {F} (fields : F) : ProposalRequest string coins F := mkReq (acc_string dev) "title" "text" ∅ fields.
#[local] Instance w_read_coin : RestReader string coins RegisterCoinFields := { ReadRESTReq _ := None }.
#[local] Instance w_read_erc20 : RestReader string coins RegisterERC20Fields :=
  { ReadRESTReq body := Some (w_request (mkERC20Fields body)) }.
#[local] Instance w_read_toggle : RestReader string coins ToggleFields :=
  { ReadRESTReq body := Some (w_request (mkToggleFields body)) }.
#[local] Instance w_read_incentive : RestReader string coins (RegisterIncentiveFields Z) :=
  { ReadRESTReq body := Some (w_request (mkIncentiveFields body [mkDecCoin "aevmos" 50000000000000000] 4)) }.
#[local] Instance w_read_cancel : RestReader string coins CancelIncentiveFields :=
  { ReadRESTReq body := Some (w_request (mkCancelFields body)) }.

Fixpoint first_route {H} (l : list (string * H)) (sub : string) : option H :=
  match l with
  | [] => None
  | (sub', h) :: rest => if String.eqb sub sub' then Some h else first_route rest sub
  end.
#[local] Instance w_router : RestRouter := { serve := @first_route }.
#[local] Instance w_router_laws : RestRouterLaws.
Proof.
  constructor; intros; simpl; [by rewrite String.eqb_refl|]. by rewrite (proj2 (String.eqb_neq _ _)).
Qed.

Definition w_submit P (validate : P → outcome unit) (msg : MsgSubmitProposal (C := coins) P) : outcome unit :=
  validate (sp_Content msg).
Definition w_post : string → string → outcome (Written (C := coins) (D := Z)) :=
  post_proposal (B := string) (λ _, None) w_submit (λ _, None) (λ _, None) (λ _, None) [].
Definition dapp_incentive : IncentiveProposal Z :=
  RegisterIncentiveProposal (address_hex dapp) [mkDecCoin "aevmos" 50000000000000000] 4.

Lemma rest_posts_registrations_witness :
  w_post "incentives" (address_hex dapp) = Ok (IncentivesMsg (mkSubmit "title" "text" dapp_incentive ∅ (acc_string dev))) ∧
  NewRegisterIncentiveProposalCmd w_submit (λ _, None) (Ok dev) (mkProposalFlags "title" "text" "0aevmos")
    [address_hex dapp; "50000000000000000aevmos"; "4"] = Ok (mkSubmit "title" "text" dapp_incentive ∅ (acc_string dev)) ∧
  posted (B := string) incentive_content (address_hex dapp) (mkSubmit "title" "text" dapp_incentive (∅ : coins) (acc_string dev)).
Proof.
  destruct (rest_posts_registrations (B := string) (C := coins) (D := Z) (λ _, None) w_submit (λ _, None) (λ _, None) (λ _, None) [])
    as (_ & Hinc & _ & Hcmd); [constructor|].
  assert (E : w_post "incentives" (address_hex dapp) = Ok (IncentivesMsg (mkSubmit "title" "text" dapp_incentive ∅ (acc_string dev))))
    by (vm_compute; reflexivity).
  split; [exact E|]. split.
  - assert (Hr : w_post "incentives" (address_hex dapp) =
      let? msg := NewRegisterIncentiveProposalCmd w_submit (λ _, None) (Ok dev) (mkProposalFlags "title" "text" "0aevmos")
                    [address_hex dapp; "50000000000000000aevmos"; "4"] in Ok (IncentivesMsg msg)).
    { apply (Hcmd _ (w_request (mkIncentiveFields (address_hex dapp) [mkDecCoin "aevmos" 50000000000000000] 4)));
        [split_and!; vm_compute; reflexivity..|vm_compute; reflexivity|vm_compute; reflexivity|vm_compute; reflexivity]. }
    rewrite E in Hr. destruct (NewRegisterIncentiveProposalCmd _ _ _ _ _) as [msg| |]; [|discriminate Hr..]. by injection Hr as <-.
  - apply Hinc in E as (msg & Ew & Hp & _). by injection Ew as <-.
Defined.
End samples.
