(* ===== verification/Node.v ===== *)
(** * The node command: [cmd/evmosd]

    The commands that write genesis files ([init], [add-genesis-account], [migrate],
    [testnet init-files]) and [export].  A file is an argument or the result of a command;
    cobra, the keyring and the configuration files of Tendermint are not modelled. *)

From stdpp Require Import pretty.
From S2P Require Import Prelude Sdk Dec Schedule Clawback Keepers EvmosUtils VestingMsgs Erc20Types Incentives Feesplit Json Clients Epochs Inflation Claims Erc20 Recovery App Genesis Upgrades.

(** [cmd/config/config.go] *)
Definition BaseDenom : string := "aevmos".

(** [genutiltypes.AppMap]: JSON by the name of the module. *)
Abbreviation AppMap := (gmap string string).

(** [tmtypes.GenesisDoc]; the rest is kept as it is. *)
Record GenesisDoc := mkDoc {
  gd_ChainID : string;
  gd_GenesisTime : Z;
  gd_Validators : list string;
  gd_AppState : string;
  gd_rest : string;
}.
Definition with_app_state (doc : GenesisDoc) (bz : string) : GenesisDoc :=
  mkDoc (gd_ChainID doc) (gd_GenesisTime doc) (gd_Validators doc) bz (gd_rest doc).

(** ** The states of auth and bank *)

Record AuthGenesis (C : Type) := mkAuthGen { ag_rest : string; ag_Accounts : list (account C) }.
Record BankGenesis (C : Type) := mkBankGen { bg_Balances : list (string * C); bg_Supply : C; bg_rest : string }.
Arguments mkAuthGen {C} _ _.
Arguments ag_rest {C} _.
Arguments ag_Accounts {C} _.
Arguments mkBankGen {C} _ _ _.
Arguments bg_Balances {C} _.
Arguments bg_Supply {C} _.
Arguments bg_rest {C} _.

(** Functions of the SDK on coins, accounts and balances. *)
Class GenesisTools (C : Type) := {
  (** [coins.Sort()] *)
  coins_sort : C → C;
  (** [a.IsEqual(b)], which panics when it compares two denominations *)
  coins_is_equal : C → C → outcome bool;
  SanitizeGenesisAccounts : list (account C) → list (account C);
  SanitizeGenesisBalances : list (string * C) → list (string * C);
  (** [(&ethermint.EthAccount{...}).Validate()] *)
  EthAccount_Validate : string → outcome unit;
}.
Class GenesisToolsLaws (C : Type) `{SdkCoins C, GenesisTools C} := {
  sort_valid c : coins_valid c = true → coins_valid (coins_sort c) = true;
  sort_amount c d : coins_valid c = true → amount_of (coins_sort c) d = amount_of c d;
  is_equal_amount a b :
    coins_valid a = true → coins_valid b = true → coins_is_equal a b = Ok true → ∀ d, amount_of a d = amount_of b d;
  sanitize_accounts l : SanitizeGenesisAccounts l ≡ₚ l;
  sanitize_balances l : SanitizeGenesisBalances l ≡ₚ l;
}.

(** The account a clawback command makes, before its balance is checked. *)
Record AccountFlags := mkAccountFlags {
  FlagClawback : bool; FlagFunder : string; af_Lockup : string; af_Vesting : string; flagVestingStart : Z;
}.

Section accounts.
Context {C D : Type} `{SdkCoins C, !SdkPeriods C, !SdkBaseVesting C, SdkDec D, SdkAddress, !ClientParsers C D, !GenesisTools C}.
Context `{!JSONCodec AppMap, !JSONCodec (AuthGenesis C), !JSONCodec (BankGenesis C)}.
Variable ReadFile : string → option string.
(** [kr.Key(name)] of the keyring *)
Variable keyring_key : string → outcome string.

(** ** [genaccounts.go] *)

Definition sum_amounts (periods : list (Period C)) : C :=
  foldl (λ coins period, coins_add coins (Amount period)) coins_empty periods.

Definition clawback_account (flags : AccountFlags) (addr : string) (coins : C) : outcome (account C) :=
  let? funder := parsed "invalid address" (acc_from_bech32 (FlagFunder flags)) in
  let? _ := ocheck (String.eqb (af_Lockup flags) EmptyString && String.eqb (af_Vesting flags) EmptyString)
              (ErrMsg "must specify at least one of lockup or vesting") in
  let? (lockupStart, lockupPeriods) := read_schedule (D := D) ReadFile 0 (af_Lockup flags) in
  let? (vestingStart, vestingPeriods) := read_schedule (D := D) ReadFile (flagVestingStart flags) (af_Vesting flags) in
  let '(commonStart, _, lockupPeriods, vestingPeriods) :=
    AlignSchedules lockupStart vestingStart lockupPeriods vestingPeriods in
  let vestingCoins := sum_amounts vestingPeriods in
  let lockupCoins := sum_amounts lockupPeriods in
  (* if lockup absent, default to an instant unlock schedule *)
  let '(lockupPeriods, lockupCoins) :=
    if negb (coins_is_zero vestingCoins) && bool_decide (lockupPeriods = [])
    then ([mkPeriod 0 vestingCoins], vestingCoins) else (lockupPeriods, lockupCoins) in
  (* if vesting absent, default to an instant vesting schedule *)
  let '(vestingPeriods, vestingCoins) :=
    if negb (coins_is_zero lockupCoins) && bool_decide (vestingPeriods = [])
    then ([mkPeriod 0 lockupCoins], lockupCoins) else (vestingPeriods, vestingCoins) in
  let? _ := ocheck (negb (coins_is_all_lte vestingCoins lockupCoins && coins_is_all_lte lockupCoins vestingCoins))
              (ErrMsg "lockup and vesting amounts must be equal") in
  (* the balance is the vesting amount *)
  let? equal := coins_is_equal vestingCoins coins in
  let? _ := ocheck (negb equal) (ErrMsg "vestingCoins and coin balance amounts must be equal") in
  Ok (ClawbackAcc (NewClawbackVestingAccount addr funder vestingCoins (from_unix commonStart) lockupPeriods vestingPeriods)).

Definition account_Validate (acc : account C) : outcome unit :=
  match acc with ClawbackAcc va => Validate va | _ => EthAccount_Validate (acc_address acc) end.

(** [GetGenesisStateFromAppState]: the zero state when there is none. *)
Definition state_of {G} `{JSONCodec G} (zero : G) (appState : AppMap) (name : string) : outcome G :=
  match appState !! name with
  | None => Ok zero
  | Some bz => match UnmarshalJSON bz with Some g => Ok g | None => Panic end
  end.
Definition auth_state (appState : AppMap) : outcome (AuthGenesis C) := state_of (mkAuthGen EmptyString []) appState "auth".
Definition bank_state (appState : AppMap) : outcome (BankGenesis C) :=
  state_of (mkBankGen [] coins_empty EmptyString) appState "bank".

(** The account and its balance are added to the document; the result is the document handed
    to [genutil.ExportGenesisFile]. *)
Definition add_to_genesis (genDoc : outcome GenesisDoc) (addr : string) (genAccount : account C) (balances : string * C) : outcome GenesisDoc :=
  let? _ := account_Validate genAccount in
  let? genDoc := genDoc in
  let? appState := parsed "failed to unmarshal genesis state" (UnmarshalJSON (gd_AppState genDoc)) in
  let? authGenState := auth_state appState in
  let? _ := ocheck (bool_decide (addr ∈ (acc_address <$> ag_Accounts authGenState)))
              (ErrMsg "cannot add account at existing address") in
  let accs := SanitizeGenesisAccounts (ag_Accounts authGenState ++ [genAccount]) in
  let appState := <["auth" := MarshalJSON (mkAuthGen (ag_rest authGenState) accs)]> appState in
  let? bankGenState := bank_state appState in
  let appState := <["bank" := MarshalJSON (mkBankGen (SanitizeGenesisBalances (bg_Balances bankGenState ++ [balances]))
                                            (coins_add (bg_Supply bankGenState) balances.2) (bg_rest bankGenState))]> appState in
  Ok (with_app_state genDoc (MarshalJSON appState)).

Definition AddGenesisAccountCmd (genDoc : outcome GenesisDoc) (flags : AccountFlags) (args : list string) : outcome GenesisDoc :=
  match args with
  | [who; coinStr] =>
      let? addr := match acc_from_bech32 who with Some addr => Ok addr | None => keyring_key who end in
      let? coins := parsed "failed to parse coins" (ParseCoinsNormalized D coinStr) in
      (* [Sort] sorts the slice in place *)
      let coins := coins_sort coins in
      let balances := (acc_string addr, coins) in
      let? genAccount := if FlagClawback flags then clawback_account flags addr coins else Ok (PlainAcc addr) in
      add_to_genesis genDoc addr genAccount balances
  | _ => wrong_args
  end.
End accounts.

(** ** [migrate.go] *)

Section migrate.
Context `{!JSONCodec AppMap}.
(** [v3.MigrateGenesis] and [v5.MigrateGenesis] *)
Variables v3_MigrateGenesis v5_MigrateGenesis : AppMap → AppMap.
(** [t.UnmarshalText] *)
Variable parse_time : string → option Z.

Definition migrationMap (version : string) : option (AppMap → AppMap) :=
  if String.eqb version "v3" then Some v3_MigrateGenesis
  else if String.eqb version "v5" then Some v5_MigrateGenesis else None.

Definition GetMigrationCallback (version chainID : string) : option (AppMap → AppMap) :=
  let version := if negb (IsMainnet chainID) then String.append "t" version else version in
  migrationMap version.

Record MigrateFlags := mkMigrateFlags { FlagChainID : string; FlagGenesisTime : string }.

(** The document printed for the document of the file. *)
Definition MigrateGenesisCmd (read_doc : string → outcome GenesisDoc) (flags : MigrateFlags) (args : list string) : outcome GenesisDoc :=
  match args with
  | [target; importGenesis] =>
      let? genDoc := read_doc importGenesis in
      let? initialState := parsed "failed to JSON unmarshal initial genesis state" (UnmarshalJSON (gd_AppState genDoc)) in
      let chainID := FlagChainID flags in
      let newID := if negb (String.eqb chainID EmptyString) then chainID else gd_ChainID genDoc in
      let? migrationFn := parsed "unknown migration function for version" (GetMigrationCallback target chainID) in
      let appState := MarshalJSON (migrationFn initialState) in
      let? genesisTime := if negb (String.eqb (FlagGenesisTime flags) EmptyString)
                          then parsed "failed to unmarshal genesis time" (parse_time (FlagGenesisTime flags))
                          else Ok (gd_GenesisTime genDoc) in
      Ok (mkDoc newID genesisTime (gd_Validators genDoc) appState (gd_rest genDoc))
  | _ => wrong_args
  end.
End migrate.

(** ** [init.go] *)

Record InitFlags := mkInitFlags { if_ChainID : string; FlagRecover : bool; FlagOverwrite : bool }.

Section init.
Context `{!JSONCodec AppMap}.
(** six random characters, the mnemonic from the input, the files of the validator *)
Variables (random_suffix : string) (read_mnemonic : outcome string) (IsMnemonicValid : string → bool).
Variable InitializeNodeValidatorFilesFromMnemonic : string → outcome string.
(** [mbm.DefaultGenesis(cdc)] *)
Variable default_genesis : AppMap.

(** [genFile] is the document at the path of the genesis file, if there is one.  The result is
    the document handed to [genutil.ExportGenesisFile], and the id of the node. *)
Definition InitCmd (genFile : option (outcome GenesisDoc)) (flags : InitFlags) (args : list string) : outcome (GenesisDoc * string) :=
  match args with
  | [moniker] =>
      let chainID := if String.eqb (if_ChainID flags) EmptyString then String.append "evmos_9000-" random_suffix else if_ChainID flags in
      let? mnemonic := if FlagRecover flags then
                         let? value := read_mnemonic in
                         let? _ := ocheck (negb (IsMnemonicValid value)) (ErrMsg "invalid mnemonic") in
                         Ok value
                       else Ok EmptyString in
      let? nodeID := InitializeNodeValidatorFilesFromMnemonic mnemonic in
      let? _ := ocheck (negb (FlagOverwrite flags) && bool_decide (is_Some genFile)) (ErrMsg "genesis.json file already exists") in
      let appState := MarshalJSON default_genesis in
      let? genDoc := match genFile with None => Ok (mkDoc EmptyString zero_time [] EmptyString EmptyString) | Some doc => doc end in
      Ok (mkDoc chainID (gd_GenesisTime genDoc) [] appState (gd_rest genDoc), nodeID)
  | _ => wrong_args
  end.
End init.

(** ** [testnet.go] *)

Section testnet.
(** [net.ParseIP(ip).To4()] and [sdkserver.ExternalIP()] *)
Variable parse_ipv4 : string → option (Z * Z * Z * Z).
Variable ExternalIP : outcome string.

(** [ipv4.String()] *)
Definition dotted (ip : Z * Z * Z * Z) : string :=
  let '(a, b, c, d) := ip in
  String.append (pretty a) (String.append "." (String.append (pretty b) (String.append "." (String.append (pretty c)
    (String.append "." (pretty d)))))).

(** The last byte, counted up [i] times. *)
Fixpoint count_up (i : nat) (byte : Z) : Z :=
  match i with O => byte | S i => count_up i ((byte + 1) mod 256) end.

Definition calculateIP (ip : string) (i : nat) : outcome string :=
  match parse_ipv4 ip with
  | None => Err (ErrMsg "non ipv4 address")
  | Some (a, b, c, d) => Ok (dotted (a, b, c, count_up i d))
  end.

Definition getIP (i : nat) (startingIPAddr : string) : outcome string :=
  if Nat.eqb (String.length startingIPAddr) 0 then ExternalIP else calculateIP startingIPAddr i.
End testnet.

(** The states of the other modules whose denominations the command sets. *)
Record DenomGenesis := mkDenomGen { dg_Denom : string; dg_rest : string }.
Record GovGenesis := mkGovGen { gg_MinDeposit : list (string * Z); gg_rest : string }.

Section gen_files.
Context {C : Type} `{!JSONCodec AppMap, !JSONCodec (AuthGenesis C), !JSONCodec (BankGenesis C), !JSONCodec DenomGenesis, !JSONCodec GovGenesis}.

(** [MustUnmarshalJSON], an update, [MustMarshalJSON]: an absent state does not unmarshal. *)
Definition update_state {G} `{JSONCodec G} (name : string) (f : G → outcome G) (appState : AppMap) : outcome AppMap :=
  match appState !! name with
  | None => Panic
  | Some bz =>
      match UnmarshalJSON bz with
      | None => Panic
      | Some g => let? g := f g in Ok (<[name := MarshalJSON g]> appState)
      end
  end.

(** [MinDeposit[0].Denom = coinDenom] panics without a deposit. *)
Definition set_deposit_denom (coinDenom : string) (g : GovGenesis) : outcome GovGenesis :=
  match gg_MinDeposit g with
  | [] => Panic
  | (_, amount) :: rest => Ok (mkGovGen ((coinDenom, amount) :: rest) (gg_rest g))
  end.

Definition set_denom (coinDenom : string) (g : DenomGenesis) : outcome DenomGenesis := Ok (mkDenomGen coinDenom (dg_rest g)).

(** The document saved for every validator. *)
Definition initGenFiles (defaultGenesis : AppMap) (chainID coinDenom : string) (genAccounts : list (account C))
    (genBalances : list (string * C)) (numValidators : nat) : outcome (list GenesisDoc) :=
  let? appGenState := update_state "auth" (λ g : AuthGenesis C, Ok (mkAuthGen (ag_rest g) genAccounts)) defaultGenesis in
  let? appGenState := update_state "bank" (λ g : BankGenesis C, Ok (mkBankGen genBalances (bg_Supply g) (bg_rest g))) appGenState in
  let? appGenState := update_state "staking" (set_denom coinDenom) appGenState in
  let? appGenState := update_state "gov" (set_deposit_denom coinDenom) appGenState in
  let? appGenState := update_state "crisis" (set_denom coinDenom) appGenState in
  let? appGenState := update_state "evm" (set_denom coinDenom) appGenState in
  Ok (replicate numValidators (mkDoc chainID zero_time [] (MarshalJSON appGenState) EmptyString)).
End gen_files.

(** ** [root.go] *)

Section app_export.
Context {S : Type}.
(** the application at its last height, and at a height; the export of [app/export.go] *)
Variables (latest : S) (LoadHeight : Z → outcome S) (export : S → outcome ExportedApp).

Definition appExport (homePath : option string) (height : Z) : outcome ExportedApp :=
  match homePath with
  | None => Err (ErrMsg "application home not set")
  | Some home =>
      let? _ := ocheck (String.eqb home EmptyString) (ErrMsg "application home not set") in
      let? evmosApp := if negb (height =? -1) then LoadHeight height else Ok latest in
      export evmosApp
  end.
End app_export.
