(* ===== verification/NodeProps.v ===== *)
(** * Properties of the node command *)

From stdpp Require Import pretty.
From S2P Require Import Prelude Sdk Dec SdkInstances Schedule ScheduleMerge Clawback Keepers KeeperInstances EvmosUtils VestingMsgs VestingProps Erc20Types Json Clients JsonProps ClientsProps Genesis GenesisInstances Upgrades UpgradesProps Node.

(** ** Genesis accounts *)

Section accounts.
Context {C D : Type} `{SdkCoinsLaws C, !SdkPeriods C, !SdkPeriodsLaws C, !SdkBaseVesting C, SdkDec D, SdkAddressLaws, !ClientParsers C D}.
Context `{!GenesisTools C, !GenesisToolsLaws C, !JSONCodec AppMap, !JSONCodec (AuthGenesis C), !JSONCodec (BankGenesis C)}.
Context `{!JSONLaws AppMap, !JSONLaws (AuthGenesis C), !JSONLaws (BankGenesis C)}.
Context (ReadFile : string → option string) (keyring_key : string → outcome string).

(** The accounts and the balances of a document. *)
Definition genesis_of (doc : GenesisDoc) : outcome (AuthGenesis C * BankGenesis C) :=
  let? appState := parsed "genesis" (UnmarshalJSON (gd_AppState doc)) in
  let? auth := auth_state appState in
  let? bank := bank_state appState in
  Ok (auth, bank).

(** Every address has one account, and the supply is the sum of the balances. *)
Record genesis_sound (auth : AuthGenesis C) (bank : BankGenesis C) : Prop := {
  gs_accounts : NoDup (acc_address <$> ag_Accounts auth);
  gs_valid : coins_valid (bg_Supply bank) = true;
  gs_supply d : amount_of (bg_Supply bank) d = sumZ (λ b, amount_of b.2 d) (bg_Balances bank);
}.

Lemma sum_amounts_spec (ps : list (Period C)) :
  Forall period_ok ps → coins_valid (sum_amounts ps) = true ∧ ∀ d, amount_of (sum_amounts ps) d = sched_total d ps.
Proof.
  unfold sum_amounts, sched_total. intros Hp.
  assert (Hgen : ∀ c, coins_valid c = true → let c' := foldl (λ coins p, coins_add coins (Amount p)) c ps in
    coins_valid c' = true ∧ ∀ d, amount_of c' d = amount_of c d + sumZ (λ p, amount_of (Amount p) d) ps).
  { induction Hp as [|p ps [_ Hv] Hp IH]; intros c Hc; simpl; [split; [done|]; intros d; lia|].
    destruct (IH (coins_add c (Amount p))) as [Hv' Ha]; [by apply valid_add|]. split; [done|].
    intros d. rewrite Ha, amount_add by done. lia. }
  destruct (Hgen coins_empty valid_empty) as [Hv Ha]. split; [done|]. intros d. by rewrite Ha, amount_empty.
Qed.

(** The account of the clawback flags: its schedules follow the files, and it vests
    the balance. *)
Lemma clawback_account_spec flags addr coins acc ls lps vs vps :
  clawback_account (D := D) ReadFile flags addr coins = Ok acc → coins_valid coins = true →
  read_schedule (D := D) ReadFile 0 (af_Lockup flags) = Ok (ls, lps) →
  read_schedule (D := D) ReadFile (flagVestingStart flags) (af_Vesting flags) = Ok (vs, vps) →
  sched_ok ls lps → sched_ok vs vps →
  ∃ va, acc = ClawbackAcc va ∧ ba_address (va_base va) = addr ∧ va_wf va ∧ follows_files va ls lps vs vps ∧
    ∀ d, original va d = amount_of coins d.
Proof.
  intros Hacc Hc Hl Hv Hlok Hvok. unfold clawback_account, parsed in Hacc. rewrite Hl, Hv in Hacc.
  destruct (acc_from_bech32 (FlagFunder flags)) as [funder|]; [|done]. simpl in Hacc. rewrite Min64_spec in Hacc.
  set (L := extend_first _ lps) in Hacc. set (V := extend_first _ vps) in Hacc.
  destruct (with_defaults L V (sum_amounts L) (sum_amounts V)) as [[[lp lc] vp] vc] eqn:Hd. pose proof Hd as Hd'.
  unfold with_defaults in Hd. destruct (if negb (coins_is_zero (sum_amounts V)) && _ then _ else _) as [lp' lc'].
  destruct (if negb (coins_is_zero lc') && _ then _ else _) as [vp' vc']. injection Hd as -> -> -> ->. inv_ok.
  assert (Hs : safe_time (Z.min ls vs)) by (destruct Hlok as (_ & ? & _), Hvok as (_ & ? & _); unfold safe_time in *; lia).
  assert (HL : sched_ok _ L) by (apply (extend_ok ls _ lps Hlok Hs); lia).
  assert (HV : sched_ok _ V) by (apply (extend_ok vs _ vps Hvok Hs); lia).
  destruct (sum_amounts_spec L (proj1 HL)) as [Vl Tl], (sum_amounts_spec V (proj1 HV)) as [Vv Tv].
  eexists. split; [reflexivity|]. split; [done|].
  destruct (aligned_account addr funder ls lps vs vps (sum_amounts L) (sum_amounts V) lp lc vp vc) as [Hwf Hff]; try done.
  all: try by eapply read_timed. { by apply negb_false_iff. }
  split; [exact Hwf|]. split; [exact Hff|]. intros d. apply is_equal_amount; [apply Hwf|done|].
  match goal with Heq : coins_is_equal vc coins = Ok ?b, Hb : negb ?b = false |- _ => apply negb_false_iff in Hb as ->; exact Heq end.
Qed.

Lemma clawback_account_address flags addr coins acc :
  clawback_account (D := D) ReadFile flags addr coins = Ok acc → acc_address acc = addr.
Proof.
  unfold clawback_account. intros Hacc. apply obind_ok in Hacc as (funder & _ & Hacc). apply obind_ok in Hacc as ([] & _ & Hacc).
  apply obind_ok in Hacc as ([ls lps] & _ & Hacc). apply obind_ok in Hacc as ([vs vps] & _ & Hacc). simpl in Hacc.
  destruct (if negb (coins_is_zero (sum_amounts _)) && _ then _ else _) as [lp lc].
  destruct (if negb (coins_is_zero lc) && _ then _ else _) as [vp vc]. by inv_ok.
Qed.

(** What the command writes. *)
Lemma add_account_inv genDoc flags who coinStr doc' :
  AddGenesisAccountCmd (D := D) ReadFile keyring_key genDoc flags [who; coinStr] = Ok doc' →
  ∃ addr coins acc doc appState auth bank,
    (acc_from_bech32 who = Some addr ∨ keyring_key who = Ok addr) ∧
    ParseCoinsNormalized D coinStr = Some coins ∧
    (if FlagClawback flags return Prop then clawback_account (D := D) ReadFile flags addr (coins_sort coins) = Ok acc
     else acc = PlainAcc addr) ∧
    account_Validate acc = Ok tt ∧ genDoc = Ok doc ∧ UnmarshalJSON (gd_AppState doc) = Some appState ∧
    auth_state appState = Ok auth ∧ bank_state appState = Ok bank ∧ (addr ∉ acc_address <$> ag_Accounts auth) ∧
    genesis_of doc' = Ok (mkAuthGen (ag_rest auth) (SanitizeGenesisAccounts (ag_Accounts auth ++ [acc])),
      mkBankGen (SanitizeGenesisBalances (bg_Balances bank ++ [(acc_string addr, coins_sort coins)]))
        (coins_add (bg_Supply bank) (coins_sort coins)) (bg_rest bank)).
Proof.
  intros Hcmd. unfold AddGenesisAccountCmd, add_to_genesis in Hcmd.
  apply obind_ok in Hcmd as (addr & Haddr & Hcmd). apply obind_ok in Hcmd as (coins & Hcoins & Hcmd).
  apply obind_ok in Hcmd as (acc & Hacc & Hcmd). apply obind_ok in Hcmd as ([] & Hval & Hcmd).
  apply obind_ok in Hcmd as (doc & Hdoc & Hcmd). apply obind_ok in Hcmd as (appState & Happ & Hcmd).
  apply obind_ok in Hcmd as (auth & Hauth & Hcmd). apply obind_ok in Hcmd as ([] & Hnew & Hcmd).
  apply obind_ok in Hcmd as (bank & Hbank & Hcmd). injection Hcmd as <-.
  exists addr, coins, acc, doc, appState, auth, bank.
  split; [destruct (acc_from_bech32 who); [left; by injection Haddr as <-|by right]|].
  split; [unfold parsed in Hcoins; destruct (ParseCoinsNormalized D coinStr); [by injection Hcoins as <-|done]|].
  split; [destruct (FlagClawback flags); [done|by injection Hacc as <-]|]. split; [done|]. split; [done|].
  split; [unfold parsed in Happ; destruct (UnmarshalJSON _); [by injection Happ as <-|done]|]. split; [done|].
  assert (Hbank' : bank_state appState = Ok bank).
  { unfold bank_state, state_of in Hbank |- *. rewrite lookup_insert_ne in Hbank by done. exact Hbank. }
  split; [done|]. split; [unfold ocheck in Hnew; case_bool_decide; [done|assumption]|].
  unfold genesis_of, auth_state, bank_state, state_of. simpl. rewrite json_roundtrip. simpl.
  rewrite lookup_insert_ne, lookup_insert_eq, json_roundtrip by done. simpl. by rewrite lookup_insert_eq, json_roundtrip.
Qed.

(** C22: [add-genesis-account] keeps the genesis sound: every address has one account and the
    supply is the sum of the balances.  It adds one account for the address and its
    balance; an account with the flag [clawback] is valid, its original vesting is the
    balance, and it unlocks and vests as its schedule files say. *)
Theorem genesis_account_sound doc flags who coinStr coins doc' auth bank :
  AddGenesisAccountCmd (D := D) ReadFile keyring_key (Ok doc) flags [who; coinStr] = Ok doc' →
  ParseCoinsNormalized D coinStr = Some coins → coins_valid coins = true →
  genesis_of doc = Ok (auth, bank) → genesis_sound auth bank →
  ∃ acc auth' bank', genesis_of doc' = Ok (auth', bank') ∧ genesis_sound auth' bank' ∧
    (acc_from_bech32 who = Some (acc_address acc) ∨ keyring_key who = Ok (acc_address acc)) ∧
    ag_Accounts auth' ≡ₚ acc :: ag_Accounts auth ∧
    bg_Balances bank' ≡ₚ (acc_string (acc_address acc), coins_sort coins) :: bg_Balances bank ∧
    (FlagClawback flags = true → ∀ ls lps vs vps,
      read_schedule (D := D) ReadFile 0 (af_Lockup flags) = Ok (ls, lps) →
      read_schedule (D := D) ReadFile (flagVestingStart flags) (af_Vesting flags) = Ok (vs, vps) →
      sched_ok ls lps → sched_ok vs vps →
      ∃ va, acc = ClawbackAcc va ∧ Validate va = Ok tt ∧ va_wf va ∧ follows_files va ls lps vs vps ∧
        ∀ d, original va d = amount_of coins d).
Proof.
  intros Hcmd Hc Hval Hgen [Hnd Hvs Hsup].
  destruct (add_account_inv _ _ _ _ _ Hcmd) as (addr & coins' & acc & doc0 & app & auth0 & bank0 & Haddr & Hc' & Hacc & Hv & [= <-] & Hj & Ha & Hb & Hnew & Hdoc').
  rewrite Hc in Hc'. injection Hc' as <-.
  assert (auth0 = auth ∧ bank0 = bank) as [-> ->].
  { unfold genesis_of, parsed in Hgen. rewrite Hj in Hgen. simpl in Hgen. rewrite Ha in Hgen. simpl in Hgen.
    rewrite Hb in Hgen. simpl in Hgen. by injection Hgen as -> ->. }
  assert (Eaddr : acc_address acc = addr).
  { destruct (FlagClawback flags); [by eapply clawback_account_address|by subst acc]. }
  eexists acc, _, _. split; [exact Hdoc'|]. rewrite Eaddr. split; [|split; [done|split; [|split]]].
  - constructor; simpl.
    + rewrite sanitize_accounts, fmap_app. apply NoDup_app. split; [done|]. split; [|apply NoDup_singleton].
      intros a Hin Hin'. apply list_elem_of_singleton in Hin' as ->. rewrite Eaddr in Hin. done.
    + apply valid_add; [done|by apply sort_valid].
    + intros d. rewrite amount_add, Hsup by (done || by apply sort_valid).
      rewrite (sumZ_perm _ _ _ (sanitize_balances _)), sumZ_app. simpl. lia.
  - simpl. rewrite sanitize_accounts. apply Permutation_app_comm.
  - simpl. rewrite sanitize_balances. apply Permutation_app_comm.
  - intros Hcb ls lps vs vps Hl Hvv Hlok Hvok. rewrite Hcb in Hacc.
    destruct (clawback_account_spec flags addr (coins_sort coins) acc ls lps vs vps Hacc (sort_valid _ Hval) Hl Hvv Hlok Hvok)
      as (va & -> & _ & Hwf & Hff & Ho).
    exists va. split; [done|]. split; [exact Hv|]. split; [done|]. split; [done|]. intros d. by rewrite Ho, sort_amount.
Qed.
End accounts.

(** ** Migrations of genesis files *)

Section migrate.
Context `{!JSONCodec AppMap, !JSONLaws AppMap}.
Context (v3 v5 : AppMap → AppMap) (parse_time : string → option Z).

(** [migrate] works for two targets, and only when the flag [chain-id] names a mainnet
    chain: the chain of the file is not looked at, and the name of a migration for another
    chain is in no table.  The migrated document has the chain of the flag. *)
Lemma migrate_needs_mainnet_flag read_doc flags target file doc' :
  MigrateGenesisCmd v3 v5 parse_time read_doc flags [target; file] = Ok doc' →
  IsMainnet (FlagChainID flags) = true ∧ gd_ChainID doc' = FlagChainID flags ∧
  ∃ doc appState migrate, read_doc file = Ok doc ∧ UnmarshalJSON (gd_AppState doc) = Some appState ∧
    UnmarshalJSON (gd_AppState doc') = Some (migrate appState) ∧
    (target = "v3"%string ∧ migrate = v3 ∨ target = "v5"%string ∧ migrate = v5) ∧
    (FlagGenesisTime flags = EmptyString → gd_GenesisTime doc' = gd_GenesisTime doc).
Proof.
  intros Hcmd. unfold MigrateGenesisCmd, parsed in Hcmd.
  apply obind_ok in Hcmd as (doc & Hdoc & Hcmd). apply obind_ok in Hcmd as (appState & Happ & Hcmd).
  apply obind_ok in Hcmd as (migrate & Hm & Hcmd). apply obind_ok in Hcmd as (t & Ht & Hcmd). injection Hcmd as <-.
  destruct (UnmarshalJSON (gd_AppState doc)) as [a|] eqn:Ea; [|done]. injection Happ as ->.
  destruct (GetMigrationCallback v3 v5 target (FlagChainID flags)) as [m|] eqn:Em; [|done]. injection Hm as ->.
  unfold GetMigrationCallback in Em. destruct (IsMainnet (FlagChainID flags)) eqn:Emain; [|by destruct target].
  split; [done|]. split.
  - simpl. destruct (String.eqb_spec (FlagChainID flags) EmptyString) as [E|]; [|done]. by rewrite E in Emain.
  - exists doc, appState, migrate. split; [done|]. split; [done|]. split; [apply json_roundtrip|]. split.
    + simpl in Em. unfold migrationMap in Em. destruct (String.eqb_spec target "v3"); [left; by injection Em as ->|].
      destruct (String.eqb_spec target "v5"); [right; by injection Em as ->|done].
    + intros E. rewrite E in Ht. simpl in Ht. by injection Ht as <-.
Qed.
End migrate.

(** ** The files of a testnet *)

Section testnet.
Context (parse_ipv4 : string → option (Z * Z * Z * Z)).

Lemma count_up_spec i d : 0 ≤ d < 256 → count_up i d = (d + Z.of_nat i) mod 256.
Proof.
  revert d. induction i as [|i IH]; intros d Hd.
  - simpl. rewrite Z.add_0_r. by rewrite Z.mod_small.
  - simpl. rewrite IH by (apply Z.mod_pos_bound; lia). rewrite Zplus_mod_idemp_l. f_equal. lia.
Qed.

Lemma dotted_inj a b c d d' : dotted (a, b, c, d) = dotted (a, b, c, d') → d = d'.
Proof.
  unfold dotted. intros E. do 6 (apply append_inj in E as [_ E]; [|done]). by apply (inj pretty) in E.
Qed.

(** The addresses of up to 256 nodes differ; the last byte wraps around, and the node
    after the 256th has the address of the first. *)
Lemma testnet_addresses ip a b c d i j :
  parse_ipv4 ip = Some (a, b, c, d) → 0 ≤ d < 256 →
  calculateIP parse_ipv4 ip i = calculateIP parse_ipv4 ip j ↔ Z.of_nat i mod 256 = Z.of_nat j mod 256.
Proof.
  intros Hip Hd. unfold calculateIP. rewrite Hip, !count_up_spec by done. split.
  - intros [= E]. apply dotted_inj in E. rewrite <- (Z.add_simpl_l d (Z.of_nat i)), <- (Z.add_simpl_l d (Z.of_nat j)).
    by rewrite Zminus_mod, E, <- Zminus_mod.
  - intros E. by rewrite Zplus_mod, E, <- Zplus_mod.
Qed.
End testnet.

Section gen_files.
Context {C : Type} `{!JSONCodec AppMap, !JSONCodec (AuthGenesis C), !JSONCodec (BankGenesis C), !JSONCodec DenomGenesis, !JSONCodec GovGenesis}.
Context `{!JSONLaws AppMap, !JSONLaws (AuthGenesis C), !JSONLaws (BankGenesis C), !JSONLaws DenomGenesis, !JSONLaws GovGenesis}.

Lemma update_state_inv {G} `{JSONLaws G} name (f : G → outcome G) app app' :
  update_state name f app = Ok app' → ∃ g g', f g = Ok g' ∧ app' = <[name := MarshalJSON g']> app.
Proof.
  unfold update_state. intros Hu. destruct (app !! name) as [bz|]; [|done]. destruct (UnmarshalJSON bz) as [g|]; [|done].
  apply obind_ok in Hu as (g' & Hf & Hu). injection Hu as <-. eauto.
Qed.

Definition reads {G} `{JSONCodec G} (app : AppMap) (name : string) (g : G) : Prop :=
  ∃ bz, app !! name = Some bz ∧ UnmarshalJSON bz = Some g.

(** Every node gets the same document: the accounts and the balances, one denomination for
    staking, deposits, the crisis fee and the EVM, and the defaults of the other modules. *)
Lemma gen_files_state defaults chainID denom (accounts : list (account C)) balances n docs :
  initGenFiles defaults chainID denom accounts balances n = Ok docs →
  ∃ app, docs = replicate n (mkDoc chainID zero_time [] (MarshalJSON app) EmptyString) ∧
    (∃ rest, reads app "auth" (mkAuthGen rest accounts)) ∧
    (∃ supply rest, reads app "bank" (mkBankGen balances supply rest)) ∧
    (∀ name, name ∈ ["staking"; "crisis"; "evm"]%string → ∃ rest, reads app name (mkDenomGen denom rest)) ∧
    (∃ amount deposits rest, reads app "gov" (mkGovGen ((denom, amount) :: deposits) rest)) ∧
    ∀ name, name ∉ ["auth"; "bank"; "staking"; "gov"; "crisis"; "evm"]%string → app !! name = defaults !! name.
Proof.
  unfold initGenFiles. intros Hrun.
  do 6 (apply obind_ok in Hrun as (? & Hu & Hrun); apply update_state_inv in Hu as (? & ? & Hf & ->);
    unfold set_denom, set_deposit_denom in Hf; try (injection Hf as <-);
    try (destruct (gg_MinDeposit _) as [|[? ?] ?]; [done|]; injection Hf as <-)).
  injection Hrun as <-. eexists. split; [reflexivity|]. unfold reads.
  split; [|split; [|split; [|split]]].
  - eexists _, _. split; [simplify_map_eq; done|apply json_roundtrip].
  - eexists _, _, _. split; [simplify_map_eq; done|apply json_roundtrip].
  - intros name Hin. rewrite !elem_of_cons, elem_of_nil in Hin.
    destruct_or! Hin; subst name; eexists _, _; (split; [simplify_map_eq; done|apply json_roundtrip]).
  - eexists _, _, _, _. split; [simplify_map_eq; done|apply json_roundtrip].
  - intros name Hin. rewrite !not_elem_of_cons in Hin. destruct_and! Hin. by rewrite !lookup_insert_ne by congruence.
Qed.
End gen_files.

(** ** Samples *)

Section samples.
Local Open Scope string_scope.
Local Open Scope Z_scope.

Local Tactic Notation "by_tuple" uconstr(f) uconstr(g) := refine (inj_countable' f g _); by intros [].
#[local] Instance period_eq_dec : EqDecision (Period coins).
Proof. solve_decision. Defined.
#[local] Instance period_countable : Countable (Period coins).
Proof. by_tuple (λ p : Period coins, (Length p, Amount p)) (λ '(l, a), mkPeriod l a). Defined.
#[local] Instance base_eq_dec : EqDecision (BaseVestingAccount coins).
Proof. solve_decision. Defined.
#[local] Instance base_countable : Countable (BaseVestingAccount coins).
Proof. by_tuple (λ b : BaseVestingAccount coins, (ba_address b, OriginalVesting b, DelegatedFree b, DelegatedVesting b, EndTime b))
  (λ '(a, o, f, v, e), mkBase a o f v e). Defined.
#[local] Instance clawback_eq_dec : EqDecision (ClawbackVestingAccount coins).
Proof. solve_decision. Defined.
#[local] Instance clawback_countable : Countable (ClawbackVestingAccount coins).
Proof. by_tuple (λ va : ClawbackVestingAccount coins, (va_base va, FunderAddress va, StartTime va, LockupPeriods va, VestingPeriods va))
  (λ '(b, f, s, l, v), mkVA b f s l v). Defined.
#[local] Instance account_eq_dec : EqDecision (account coins).
Proof. solve_decision. Defined.
#[local] Instance account_countable : Countable (account coins).
Proof. by_tuple (λ a : account coins, match a with ClawbackAcc va => inl va | VestingAcc s => inr (inl s) | PlainAcc s => inr (inr s) end)
  (λ x, match x with inl va => ClawbackAcc va | inr (inl s) => VestingAcc s | inr (inr s) => PlainAcc s end). Defined.
#[local] Instance auth_eq_dec : EqDecision (AuthGenesis coins).
Proof. solve_decision. Defined.
#[local] Instance auth_countable : Countable (AuthGenesis coins).
Proof. by_tuple (λ g : AuthGenesis coins, (ag_rest g, ag_Accounts g)) (λ '(r, l), mkAuthGen r l). Defined.
#[local] Instance bank_eq_dec : EqDecision (BankGenesis coins).
Proof. solve_decision. Defined.
#[local] Instance bank_countable : Countable (BankGenesis coins).
Proof. by_tuple (λ g : BankGenesis coins, (bg_Balances g, bg_Supply g, bg_rest g)) (λ '(b, s, r), mkBankGen b s r). Defined.

#[local] Instance w_tools : GenesisTools coins := {
  coins_sort c := c;
  coins_is_equal a b :=
    if decide (size a = size b) then (if decide (dom a = dom b) then Ok (bool_decide (a = b)) else Panic) else Ok false;
  SanitizeGenesisAccounts l := l;
  SanitizeGenesisBalances l := l;
  EthAccount_Validate a := ocheck (String.eqb a "") ErrInvalidAddress;
}.
#[local] Instance w_tools_laws : GenesisToolsLaws coins.
Proof.
  constructor; try done. intros a b _ _. simpl. destruct (decide _); [|done]. destruct (decide _); [|done].
  intros [= Heq]. apply bool_decide_eq_true in Heq as ->. done.
Qed.

(** A genesis with one account, and a clawback account from a file. *)
Definition start_doc : GenesisDoc :=
  mkDoc "evmos_9001-2" 0 [] (MarshalJSON (G := AppMap)
    (<["auth" := MarshalJSON (mkAuthGen "" [PlainAcc "alice"] : AuthGenesis coins)]>
     {[ "bank" := MarshalJSON (mkBankGen [("evmos1alice", {[ "test" := 5 ]})] {[ "test" := 5 ]} "" : BankGenesis coins) ]})) "".
Definition add_cmd (doc : GenesisDoc) : outcome GenesisDoc :=
  AddGenesisAccountCmd (C := coins) (D := Z) sample_files (λ _, Err ErrNotFound) (Ok doc)
    (mkAccountFlags true "evmos1funder" "" "right.json" 0) ["evmos1bob"; "20test"].

Lemma start_doc_state :
  genesis_of start_doc = Ok (mkAuthGen "" [PlainAcc "alice"] : AuthGenesis coins,
    mkBankGen [("evmos1alice", {[ "test" := 5 ]})] {[ "test" := 5 ]} "").
Proof.
  vm_compute. reflexivity.
Qed.

Lemma genesis_account_sound_witness :
  ∃ doc' auth' bank', add_cmd start_doc = Ok doc' ∧ genesis_of (C := coins) doc' = Ok (auth', bank') ∧
    genesis_sound auth' bank' ∧ "bob" ∈ (acc_address <$> ag_Accounts auth').
Proof.
  assert (Hok : is_ok (add_cmd start_doc) = true) by (vm_compute; reflexivity).
  destruct (add_cmd start_doc) as [doc'| |] eqn:Hcmd; [|discriminate..]. unfold add_cmd in Hcmd.
  assert (Hc : ParseCoinsNormalized (C := coins) Z "20test" = Some {[ "test" := 20 ]}) by (vm_compute; reflexivity).
  assert (Hv : coins_valid (C := coins) {[ "test" := 20 ]} = true) by (vm_compute; reflexivity).
  destruct (genesis_account_sound (C := coins) (D := Z) sample_files (λ _, Err ErrNotFound) start_doc
    (mkAccountFlags true "evmos1funder" "" "right.json" 0) "evmos1bob" "20test" {[ "test" := 20 ]} doc' _ _ Hcmd
    Hc Hv start_doc_state) as (acc & auth' & bank' & Hg & Hs & Ha & Hp & _).
  - constructor; [|vm_compute; reflexivity|].
    + simpl. apply NoDup_singleton.
    + intros d. simpl. lia.
  - exists doc', auth', bank'. split; [reflexivity|]. split; [exact Hg|]. split; [exact Hs|].
    rewrite Hp. simpl. destruct Ha as [Ha|Ha]; [|discriminate]. 
    assert (Eb : acc_from_bech32 "evmos1bob" = Some "bob") by (vm_compute; reflexivity). rewrite Eb in Ha. injection Ha as Ha.
    rewrite <- Ha. left.
Defined.

(** The migration to version 3 for a mainnet chain, and the same file
    without the flag. *)
Lemma migrate_needs_mainnet_flag_witness :
  ∃ doc', MigrateGenesisCmd id id (λ _, None) (λ _, Ok start_doc) (mkMigrateFlags "evmos_9001-3" "") ["v3"; "genesis.json"] = Ok doc' ∧
    gd_ChainID doc' = "evmos_9001-3" ∧
    is_ok (MigrateGenesisCmd id id (λ _, None) (λ _, Ok start_doc) (mkMigrateFlags "" "") ["v3"; "genesis.json"]) = false.
Proof.
  assert (Hok : is_ok (MigrateGenesisCmd id id (λ _, None) (λ _, Ok start_doc) (mkMigrateFlags "evmos_9001-3" "") ["v3"; "genesis.json"]) = true)
    by (vm_compute; reflexivity).
  destruct (MigrateGenesisCmd id id _ _ (mkMigrateFlags "evmos_9001-3" "") _) as [doc'| |] eqn:Hcmd; [|discriminate..].
  destruct (migrate_needs_mainnet_flag id id (λ _, None) (λ _, Ok start_doc) (mkMigrateFlags "evmos_9001-3" "") "v3" "genesis.json" doc' Hcmd)
    as (_ & Hid & _).
  exists doc'. split; [reflexivity|]. split; [exact Hid|]. vm_compute. reflexivity.
Defined.
End samples.
